(* ===== verification/_CoqProject ===== *)
-Q . S2P
Prelude.v
Table.v
Cdt.v
CdtRef.v
Trx.v
Msig.v
MsigProps.v
Token.v
SystemData.v
Wire.v
WireRef.v
Abi.v
Native.v
Finalizer.v
FinalizerProps.v
Voting.v
VotingProps.v
Election.v
BlockInfo.v
NameBid.v
AuthChange.v
ProducerPay.v
Admin.v
Bios.v
Safe.v
Utils.v
Base58.v
WasmDb.v
PubkeyToken.v
Reward.v
RewardInv.v
RewardProps.v
System.v
Rows.v
SystemInv.v
SystemEx.v
SystemProps.v
SystemActs.v
Schedule.v
SystemEcon.v
VoteBook.v
Chain.v
ChainSteps.v
ChainProps.v
ChainDepth.v
ChainMoney.v
ChainBlocks.v
Actions.v
SystemTyped.v
Genesis.v
TokenCopy.v
MsigTyped.v
TokenTyped.v
RewardTyped.v
Bytes.v
TestContracts.v
ChainEx.v
BytesEx.v
