(* ===== verification/Prelude.v ===== *)
(** * flon.contracts: a verification development

    The system contracts of the FullOn chain (C++ for the contract development toolkit,
    under [contracts/]), embedded as executable definitions: every action is a function from
    the contract's tables to [Ok] of the new tables and the effects it sends, or [Err] of the message
    of the check that failed.  A failed check aborts the whole transaction, so a table that
    was half written is never seen; a run is a list of actions that succeed.

    ** Parts and files

    - [Prelude] (this file): results and their inversion, integers with their width and
      wrap-around, sums over tables, ordered maps ([std::map]), strictly sorted lists, tactics and hints.
    - [Table]: a [multi_index] with a secondary index; iteration in the order of the index.
    - [Cdt]: the toolkit and the host.  Names, symbols and time points are their integers; an
      [asset] has an amount and a symbol.  What the toolkit computes (names from literals, checked asset
      arithmetic, hashes, time conversions) is the class [Cdt] with its documented laws in
      [CdtLaws]; what the host answers (authorisations, accounts, the clock, resource limits)
      is a [ctx]; what an action asks of the host (inline actions, notifications, proposed schedules) is a list of [effect]s.
    - [CdtRef]: an instance of the class, with the laws proved, on which all examples run.
    - [Token]: flon.token ([flon.token.cpp]), the standard token.
    - [Reward], [RewardInv], [RewardProps]: flon.reward ([flon.reward.cpp]).  Producers send it
      rewards; an accumulator per producer, scaled by 10^18, remembers what one vote has
      earned; voters claim.
    - [SystemData]: the rows, constants and global state of flon.system ([flon.system.hpp]).
    - [Wire], [WireRef], [Native], [Abi]: packed data.  [Wire] is the class of what the toolkit
      packs (integers, strings, vectors, its own structures), with the law that reading gives
      back what was packed, and composes it into structures; an absent [binary_extension] is packed as its
      default and so read back as present; [WireRef] an instance; [Native] the structures
      of [native.hpp]; [Abi] a contract's declaration as a list of actions with the types of their arguments.
    - [Voting], [VotingProps], [Election], [Schedule]: [voting.cpp], stakes, votes, the elected
      schedule.  It calls flon.token to move stakes and flon.reward to settle voters.
    - [Finalizer], [FinalizerProps]: [finalizer_key.cpp], keys and the finalizer policy.
    - [BlockInfo]: [block_info.cpp] and [block_info.hpp], the window of recent blocks.
    - [NameBid]: [name_bidding.cpp] and the daily step of [onblock], auctions of names.
    - [AuthChange]: [limit_auth_changes.cpp] and [native.hpp], limits on permission changes.
    - [ProducerPay]: [producer_pay.cpp], the block reward and the election's calendar.
    - [Admin]: [flon.system.cpp] and [delegate_bandwidth.cpp], parameters, accounts, gas.
    - [System]: the contract as a whole.  [sys] has one field per table, [op] one constructor
      per action, [handler] the dispatch, [exec] one action on a fresh contract object: the
      constructor loads the global state, the destructor stores it, except for the actions of class
      [native], which run without them ([in_native]); [run] a sequence.
    - [SystemInv], [SystemEx]: the invariant of [sys] and that every action keeps it; an
      example run that the witnesses share.
    - [SystemProps], [SystemActs], [SystemEcon]: theorems about reachable states, about the
      actions of voters, and about names, accounts, rewards, gas and parameters.

    - [VoteBook], [Chain], [ChainSteps], [ChainProps], [ChainDepth], [ChainMoney], [ChainBlocks],
      [ChainEx]: flon.system, flon.token and flon.reward as one state [chain].  [process] runs an action, the notification of
      flon.reward by a transfer, and every inline action on its contract with the
      authorisations it carries; [run] a sequence of transactions.  A transfer also notifies the accounts it is
      between: those of the system have no handler for it ([without_handler]), every other one may have a
      contract that aborts the transaction ([accepts], of the [host]), as [reject_all] does.
    - [Actions]: the declarations of flon.token, flon.reward, flon.system and flon.msig;
      [dispatch] is what a contract makes of an action's name and bytes, [call_data] what its callers pack.
    - [Rows], [SystemTyped], [TokenTyped], [RewardTyped], [MsigTyped]: how the rows of flon.system,
      flon.token, flon.reward and flon.msig are packed in the chain's storage; every action keeps all
      rows values of their members' types, and what the contracts send is packed from such values.
    - [Bytes], [BytesEx]: the three contracts driven by bytes.  [process_bytes] is [process] on
      rows as stored and actions as packed; [run_raw] a sequence of transactions of any data.
    - [Trx]: action headers, transactions and permission levels as flon.msig sees them.
    - [Msig], [MsigProps]: flon.msig ([flon.msig.cpp]), multi-signature proposals.
    - [Bios], [Genesis]: flon.bios, flon.boot and flon.wrap, the contracts of a chain's start:
      the handlers in [Bios], the declarations, structures and dispatch of flon.boot (Module [Boot])
      and flon.bios (Module [BiosActions]) in [Genesis].
    - [Safe], [Utils], [Base58], [WasmDb]: the headers of pubkey.token ([safe.hpp], [utils.hpp]
      and [math.hpp], [pubkey_utils.hpp], [wasm_db.hpp]).
    - [PubkeyToken]: pubkey.token ([pubkey.token.cpp]), tokens held for a public key until its
      owner has an account.  [TokenCopy]: its copy of flon.token's header.
    - [TestContracts]: the contracts under [test_contracts/] ([blockinfo_tester], [sendinline], [reject_all]).

    ** What the theorems show

    - Money.  Balances of a token sum to its supply ([Token.supply_conservation]) and the
      contract refines an abstract ledger ([Token.refines_ledger]).  All rewards of
      flon.reward are accounted for and every claim is covered ([RewardProps.solvency]); a claim
      pays exactly what is due ([RewardProps.claim_exact]).  Within flon.system stakes, refunds
      and bids are backed by what the holding accounts received ([SystemProps.stakes_backed],
      [SystemProps.bids_backed]).
    - Votes.  A producer's votes are those of the voters who list it, in both contracts
      ([SystemProps.stake_votes_conserved], [RewardProps.votes_conserved]), and each voting
      action succeeds under exactly the stated conditions.
    - The contracts together.  After any transactions both vote books agree
      ([ChainProps.votes_agree]); the balances of flon.vote, flon.names and flon.reward cover
      stakes and refunds, bids, and all rewards that could be claimed
      ([ChainMoney.purses_covered]); and each of them is paid when asked for, unless the payee's
      own contract refuses the transfer, when nothing happens
      ([ChainMoney.refund_paid], [ChainMoney.bid_refund_paid], [ChainMoney.claim_paid]).
      The block's own action always succeeds, with all it sets off ([ChainBlocks.onblock_runs]).
    - Data.  What one contract or the chain sends another reads ([Actions.inline_dispatch]); flon.boot, flon.bios and flon.system agree on
      the bytes of their structures ([Genesis.genesis_layout]) and pubkey.token's copy with
      flon.token ([TokenCopy.copy_sends], [TokenCopy.copy_reads]).
    - Storage.  After any transactions on typed values all rows hold values of their types
      and are read back from their bytes ([Bytes.rows_typed]); the machine on bytes, whatever
      the data, does what the machine on values does on what is read ([Bytes.bytes_refine]), so the
      theorems on reachable states hold of the stored bytes; flon.msig on bytes alone likewise
      ([MsigTyped.msig_bytes]).
    - Consensus.  The proposed schedule is the top of the list ([Schedule.elected_top21]); the
      finalizer tables agree with the proposed policy and key ids are never reused
      ([SystemProps.finalizer_keys_consistent], [Schedule.key_ids_never_reused]); what
      flon.bios accepts as a policy ([Bios.setfinalizer_exact]); flon.boot and flon.bios act only for
      their own account ([Genesis.genesis_guarded]).
    - Accounts.  Who may create which name ([SystemEcon.newaccount_exact]), when auctions close
      ([SystemEcon.highest_bid_closes]), that [owner] always keeps the right to change permissions ([SystemProps.owner_never_locked_out]).
    - Proposals.  A transaction runs only with approvals that were given and still count
      ([MsigProps.exec_approved]), and then it can run ([MsigProps.approved_can_run]).
    - Text and keys.  The base-58 decoder ([Base58.DecodeBase58_exact]), assets from text
      ([Utils.asset_from_string_exact]); deposits of pubkey.token cannot leave it
      ([PubkeyToken.deposits_locked]).
    - Bounds.  The exactness theorems show that no addition wraps around on reachable states;
      when the checked integers abort ([Safe.safe_exact]): on overflow, but for the division, the remainder
      and the negation of unsigned types.
      The one place where arithmetic fails is stated: block rewards after 64
      halving periods ([SystemEcon.block_reward_halves]).

    ** Integers, loops and fuel

    [int64_t], [int128_t] and the unsigned types are [Z] with the wrap-around of their width
    written at each operation ([i64], [i128], [u64], [u32]).  Loops are structural on the list,
    the count or the exponent they run over.  [Chain.process] recurses on the depth of inline
    actions, which the host bounds too ([max_inline_action_depth]) and which fails when exceeded;
    two levels are enough for every transaction: more give the same result ([ChainDepth.depth_two]).  The theorems on runs
    bound the number of finalizer keys ever registered by 2^32 - 1, the
    width of the counter in a finalizer's row.

    ** Assumptions

    [CdtLaws] states what the toolkit documents.  Behaviours the language leaves open are
    parameters: the value of an [int64_t] that is never initialised
    ([indeterminate_i64], flon.reward's new voters), the addresses of two vectors whose iterators are
    compared ([vector_addresses], [voteproducer]; the vectors do not overlap), a disengaged
    [std::optional] that is dereferenced (class [Memory], [Finalizer.v]), the addresses whose
    hashes flon.bios compares and which hashes share a bucket of its set ([setfinalizer]), the raw memory of a key object (pubkey.token) and
    what lies behind a vector of one element ([to_symbol]).
    The host's and the toolkit's readers and checks are classes too: BLS keys ([Bls]), the packing of
    parameters ([Serializer]) and of data and rows ([Wire], with [WireLaws]), packed transactions and authorisation ([Trx.v]), the
    primitives on keys and symbols of pubkey.token.  Each has an instance on which the examples
    run.  In [Chain.v] nobody signs for flon.vote, flon.names and flon.reward, and nobody signs as the
    system account towards flon.reward ([tx_ok]); that the arguments are values of their types
    ([msg_typed]) holds of whatever [dispatch] reads.  [Bytes.v] adds the types of what the toolkit
    and the host return ([CdtTypes], [host_fits]: hashes and keys are byte arrays, a name has 13 characters, the
    clock fits [time_point] and a slot).  Actions are told apart by the text of their
    names, where the dispatcher compares the names' integers.

    ** Not modelled

    How the rows of flon.bios and pubkey.token are packed in the chain's storage (their
    tables are maps of rows), secondary indices as stored (an index is computed from the rows), the
    dispatcher the toolkit generates beyond [dispatch], what the chain itself does for a native action, RAM billing and payers, [print], and the memory
    of the WebAssembly machine beyond the points above.  A contract that is notified of a transfer accepts or
    aborts; what else it does (inline actions of its own, [require_recipient]) is not part of the transaction in
    [Chain.v]. *)
From Stdlib Require Import ZArith Lia String Ascii.
From stdpp Require Import base tactics numbers list gmap fin_maps strings sorting.

Open Scope Z_scope.

(** ** Results

    [eosio::check(false, msg)] aborts the action and rolls every write back, so
    a handler is a function into [result]: the new state, or the message. *)

Inductive result (A : Type) : Type :=
| Ok (a : A)
| Err (e : string).
Arguments Ok {_} _.
Arguments Err {_} _.

#[export] Instance result_ret : MRet result := @Ok.
#[export] Instance result_bind : MBind result :=
  fun _ _ f m => match m with Ok a => f a | Err e => Err e end.
#[export] Instance result_fmap : FMap result :=
  fun _ _ f m => match m with Ok a => Ok (f a) | Err e => Err e end.

(** [eosio::check] *)
Definition check (b : bool) (msg : string) : result unit :=
  if b then Ok tt else Err msg.

Definition is_ok {A} (r : result A) : bool :=
  match r with Ok _ => true | Err _ => false end.

(** [table.get(key, msg)] on an iterator that may be [end()] *)
Definition get_or {A} (o : option A) (msg : string) : result A :=
  match o with Some a => Ok a | None => Err msg end.

Declare Scope flon_scope.
Delimit Scope flon_scope with flon.
Notation "'ensure' b 'else' m ; k" := (mbind (fun _ : unit => k) (check b m))
  (at level 20, b at level 100, m at level 100, k at level 200,
   format "'[' 'ensure'  b  'else'  m ; ']' '/' k") : flon_scope.
Open Scope flon_scope.

(** Iterating a fallible step over a list, left to right. *)
Fixpoint fold_res {A S} (f : S -> A -> result S) (s : S) (l : list A) : result S :=
  match l with
  | [] => Ok s
  | a :: l' => s' ← f s a; fold_res f s' l'
  end.

(** ** Fixed-width integers *)

Definition int64_min : Z := - 2 ^ 63.
Definition int64_max : Z := 2 ^ 63 - 1.
Definition uint64_max : Z := 2 ^ 64 - 1.
Definition uint32_max : Z := 2 ^ 32 - 1.

Definition wrap_s (w z : Z) : Z := (z + 2 ^ (w - 1)) mod 2 ^ w - 2 ^ (w - 1).
Definition wrap_u (w z : Z) : Z := z mod 2 ^ w.

Definition i64 (z : Z) : Z := wrap_s 64 z.
Definition i128 (z : Z) : Z := wrap_s 128 z.
Definition u64 (z : Z) : Z := wrap_u 64 z.
Definition u32 (z : Z) : Z := wrap_u 32 z.
Definition u16 (z : Z) : Z := wrap_u 16 z.

Definition is_i64 (z : Z) : Prop := int64_min <= z <= int64_max.
Definition is_u64 (z : Z) : Prop := 0 <= z <= uint64_max.
Definition is_u32 (z : Z) : Prop := 0 <= z <= uint32_max.

Ltac unfold_ints :=
  unfold is_i64, is_u64, is_u32, int64_min, int64_max, uint64_max, uint32_max in *.

Lemma wrap_s_range w z : 0 < w -> - 2 ^ (w - 1) <= wrap_s w z < 2 ^ (w - 1).
Proof.
  intros Hw. unfold wrap_s.
  assert (E : 2 ^ w = 2 * 2 ^ (w - 1)) by (rewrite <- Z.pow_succ_r by lia; f_equal; lia).
  pose proof (Z.mod_pos_bound (z + 2 ^ (w - 1)) (2 ^ w) ltac:(lia)). lia.
Qed.

Lemma wrap_s_id w z : 0 < w -> - 2 ^ (w - 1) <= z < 2 ^ (w - 1) -> wrap_s w z = z.
Proof.
  intros Hw Hz. unfold wrap_s.
  assert (E : 2 ^ w = 2 * 2 ^ (w - 1)) by (rewrite <- Z.pow_succ_r by lia; f_equal; lia).
  rewrite Z.mod_small by lia. lia.
Qed.

Lemma i64_range z : is_i64 (i64 z).
Proof. pose proof (wrap_s_range 64 z ltac:(lia)). unfold_ints. unfold i64. lia. Qed.

Lemma i64_id z : is_i64 z -> i64 z = z.
Proof. unfold_ints. intros H. apply wrap_s_id; lia. Qed.

Lemma i128_id z : - 2 ^ 127 <= z < 2 ^ 127 -> i128 z = z.
Proof. intros H. apply wrap_s_id; lia. Qed.

(** A signed sum that overflows shows as a wrong sign: what the
    [CHECK(x >= 0)] guards after [x += y] rely on. *)
Lemma i64_add_nonneg x y :
  is_i64 x -> is_i64 y -> 0 <= x -> 0 <= i64 (x + y) -> i64 (x + y) = x + y.
Proof.
  unfold_ints. intros Hx Hy H0 H.
  destruct (decide (x + y <= 2 ^ 63 - 1)); [apply i64_id; unfold_ints; lia|].
  exfalso. unfold i64, wrap_s in H. change (64 - 1) with 63 in H.
  rewrite (Z.mod_eq _ (2 ^ 64)) in H by lia.
  assert ((x + y + 2 ^ 63) / 2 ^ 64 = 1) as E
    by (symmetry; apply (Z.div_unique _ _ 1 (x + y + 2 ^ 63 - 2 ^ 64)); lia).
  rewrite E in H. lia.
Qed.

Lemma u64_id z : is_u64 z -> u64 z = z.
Proof. unfold_ints. intros H. apply Z.mod_small. lia. Qed.

Lemma u32_id z : is_u32 z -> u32 z = z.
Proof. unfold_ints. intros H. apply Z.mod_small. lia. Qed.

Lemma u64_range z : is_u64 (u64 z).
Proof. unfold_ints. pose proof (Z.mod_pos_bound z (2 ^ 64) ltac:(lia)). unfold u64, wrap_u. lia. Qed.

Lemma u32_range z : is_u32 (u32 z).
Proof. unfold_ints. pose proof (Z.mod_pos_bound z (2 ^ 32) ltac:(lia)). unfold u32, wrap_u. lia. Qed.

(** ** Reasoning about results *)

Create HintDb flon discriminated.
Create Rewrite HintDb flon_bool.
Create Rewrite HintDb flon_sum.

Lemma bind_Ok {A B} (m : result A) (f : A -> result B) b :
  m ≫= f = Ok b <-> exists a, m = Ok a /\ f a = Ok b.
Proof. destruct m; simpl; split; [eauto|by intros (? & [= ->] & ?)|done|by intros (? & ? & ?)]. Qed.

Lemma check_Ok b msg u : check b msg = Ok u <-> b = true.
Proof. destruct b, u; simpl; naive_solver. Qed.

Lemma check_true b msg : b = true -> check b msg = Ok tt.
Proof. by intros ->. Qed.

Lemma get_or_Ok {A} (o : option A) msg a : get_or o msg = Ok a <-> o = Some a.
Proof. destruct o; simpl; split; congruence. Qed.

Lemma is_ok_true {A} (r : result A) : is_ok r = true <-> exists a, r = Ok a.
Proof. destruct r; simpl; naive_solver. Qed.

#[export] Hint Rewrite andb_true_iff orb_true_iff negb_true_iff andb_false_iff
  orb_false_iff negb_false_iff Z.ltb_lt Z.leb_le Z.eqb_eq Z.ltb_ge Z.leb_gt Z.eqb_neq
  @bool_decide_eq_true @bool_decide_eq_false @check_Ok @get_or_Ok : flon_bool.

Ltac to_prop := autorewrite with flon_bool in *.

(** One inversion step on a hypothesis [handler ... = Ok _]. *)
Ltac ok_step :=
  match goal with
  | H : Ok _ = Ok _ |- _ => injection H as H; subst
  | H : Err _ = Ok _ |- _ => discriminate H
  | H : mbind _ _ = Ok _ |- _ =>
      apply bind_Ok in H; destruct H as (? & ? & H); cbn beta in H
  | H : mret _ = Ok _ |- _ => unfold mret, result_ret in H
  | H : check _ _ = Ok _ |- _ => apply check_Ok in H
  | H : get_or _ _ = Ok _ |- _ => apply get_or_Ok in H
  | H : (let '(_, _) := ?p in _) = Ok _ |- _ => destruct p eqn:?
  | H : (match ?o with Some _ => _ | None => _ end) = Ok _ |- _ => destruct o eqn:?
  | H : (if ?b then _ else _) = Ok _ |- _ => destruct b eqn:?
  | p : unit |- _ => destruct p
  end.
Ltac ok_inv := repeat (ok_step; cbn beta iota zeta in * ).

(** Discharging the checks of a handler that is to be shown to succeed. *)
Lemma ensure_true {A} b msg (k : result A) (r : result A) :
  b = true -> k = r -> (ensure b else msg; k) = r.
Proof. by intros -> <-. Qed.

Lemma bind_step {A B} (m : result A) (f : A -> result B) a r :
  m = Ok a -> f a = r -> m ≫= f = r.
Proof. by intros -> <-. Qed.

(** Rewriting a comparison whose value [lia] knows, for the rest of a computation *)
Ltac cmp_true :=
  match goal with
  | |- context [?a <=? ?b] => rewrite (proj2 (Z.leb_le a b)) by lia
  | |- context [?a <? ?b] => rewrite (proj2 (Z.ltb_lt a b)) by lia
  | |- context [?a =? ?b] => rewrite (proj2 (Z.eqb_eq a b)) by lia
  end; cbn [andb orb negb].
Ltac cmp_false :=
  match goal with
  | |- context [?a <=? ?b] => rewrite (proj2 (Z.leb_gt a b)) by lia
  | |- context [?a <? ?b] => rewrite (proj2 (Z.ltb_ge a b)) by lia
  | |- context [?a =? ?b] => rewrite (proj2 (Z.eqb_neq a b)) by lia
  end; cbn [andb orb negb].

(** ** Sums over the rows of a table *)

Definition msum `{Countable K} {V} (f : K -> V -> Z) (m : gmap K V) : Z :=
  map_fold (fun k v acc => f k v + acc) 0 m.

Section msum.
Context `{Countable K} {V : Type}.
Implicit Types (m : gmap K V) (f g : K -> V -> Z).

Lemma msum_empty f : msum f (∅ : gmap K V) = 0.
Proof. apply map_fold_empty. Qed.

Lemma msum_insert_None f m k v : m !! k = None -> msum f (<[k:=v]> m) = f k v + msum f m.
Proof.
  intros Hk. unfold msum. rewrite map_fold_insert_L; [done| |done].
  intros; lia.
Qed.

Lemma msum_delete f m k v : m !! k = Some v -> msum f m = f k v + msum f (delete k m).
Proof.
  intros Hk. rewrite <- (insert_delete_id m k v Hk) at 1.
  apply msum_insert_None, lookup_delete_eq.
Qed.

Lemma msum_insert_Some f m k v w :
  m !! k = Some v -> msum f (<[k:=w]> m) = msum f m - f k v + f k w.
Proof.
  intros Hk. rewrite (msum_delete f m k v Hk).
  rewrite <- insert_delete_eq, msum_insert_None by apply lookup_delete_eq. lia.
Qed.

Lemma msum_ext f g m :
  (forall k v, m !! k = Some v -> f k v = g k v) -> msum f m = msum g m.
Proof.
  induction m as [|k v m Hk IH] using map_ind; intros Hfg; [by rewrite !msum_empty|].
  rewrite !msum_insert_None by done. rewrite (Hfg k v) by apply lookup_insert_eq.
  rewrite IH; [done|]. intros k' v' Hk'. apply Hfg. rewrite lookup_insert_ne; naive_solver.
Qed.

Lemma msum_le f g m :
  (forall k v, m !! k = Some v -> f k v <= g k v) -> msum f m <= msum g m.
Proof.
  induction m as [|k v m Hk IH] using map_ind; intros Hfg; [by rewrite !msum_empty|].
  rewrite !msum_insert_None by done. pose proof (Hfg k v (lookup_insert_eq _ _ _)).
  enough (msum f m <= msum g m) by lia.
  apply IH. intros k' v' Hk'. apply Hfg. rewrite lookup_insert_ne; naive_solver.
Qed.

Lemma msum_zero m : msum (fun _ _ => 0) m = 0.
Proof.
  induction m as [|k v m Hk IH] using map_ind; [done|]. by rewrite msum_insert_None, IH.
Qed.

Lemma msum_nonneg f m : (forall k v, m !! k = Some v -> 0 <= f k v) -> 0 <= msum f m.
Proof. intros Hf. rewrite <- (msum_zero m). by apply msum_le. Qed.

Lemma msum_member f m k v :
  (forall k v, m !! k = Some v -> 0 <= f k v) -> m !! k = Some v -> f k v <= msum f m.
Proof.
  intros Hf Hk. rewrite (msum_delete f m k v Hk).
  enough (0 <= msum f (delete k m)) by lia.
  apply msum_nonneg. intros k' v' [_ Hk']%lookup_delete_Some. eauto.
Qed.

Lemma msum_add f g m : msum (fun k v => f k v + g k v) m = msum f m + msum g m.
Proof.
  induction m as [|k v m Hk IH] using map_ind; [done|].
  rewrite !msum_insert_None by done. lia.
Qed.

Lemma msum_scale c f m : msum (fun k v => c * f k v) m = c * msum f m.
Proof.
  induction m as [|k v m Hk IH] using map_ind; [rewrite !msum_empty; lia|].
  rewrite !msum_insert_None by done. lia.
Qed.

#[export] Instance msum_proper :
  Proper (pointwise_relation K (pointwise_relation V eq) ==> eq ==> eq) (@msum K _ _ V).
Proof. intros f g Hfg m ? <-. apply msum_ext. intros; apply Hfg. Qed.
End msum.

Lemma msum_swap `{Countable K} {V} `{Countable L} {W} (f : K -> V -> L -> W -> Z)
    (m : gmap K V) (n : gmap L W) :
  msum (fun k v => msum (f k v) n) m = msum (fun l w => msum (fun k v => f k v l w) m) n.
Proof.
  induction m as [|k v m Hk IH] using map_ind.
  - rewrite msum_empty. symmetry. apply msum_zero.
  - rewrite msum_insert_None, IH, <- msum_add by done. apply msum_ext.
    intros l w _. by rewrite msum_insert_None.
Qed.

#[export] Hint Rewrite @msum_empty @msum_zero : flon_sum.

(** ** Tables

    A [multi_index] is the finite map from primary keys to rows (the key is paired with
    the scope where the code uses more than one scope). [find] is lookup, [modify] of a
    found row is insertion under its key, [erase] is deletion; [emplace] aborts when the
    key is taken. *)

Definition emplace `{Countable K} {V} (t : gmap K V) (pk : K) (row : V) : result (gmap K V) :=
  match t !! pk with
  | None => Ok (<[pk := row]> t)
  | Some _ => Err "key uniqueness violation"
  end.

Lemma emplace_Ok `{Countable K} {V} (t t' : gmap K V) pk row :
  emplace t pk row = Ok t' <-> t !! pk = None /\ t' = <[pk := row]> t.
Proof. unfold emplace. destruct (t !! pk); naive_solver. Qed.

#[export] Hint Rewrite @emplace_Ok : flon_bool.

(** ** [std::map] with integer keys

    A [std::map] that is iterated in key order: the association list sorted by key. *)

Section smap.
Context {V : Type}.
Implicit Types (l : list (Z * V)).

Fixpoint smap_get (k : Z) l : option V :=
  match l with
  | [] => None
  | (k', v) :: l' => if k =? k' then Some v else smap_get k l'
  end.

(** [emplace] keeps an entry that is already there, [operator[]=] overwrites it. *)
Fixpoint smap_insert (overwrite : bool) (k : Z) (v : V) l : list (Z * V) :=
  match l with
  | [] => [(k, v)]
  | (k', v') :: l' =>
      if k <? k' then (k, v) :: l
      else if k =? k' then (k', if overwrite then v else v') :: l'
      else (k', v') :: smap_insert overwrite k v l'
  end.
Definition smap_emplace := smap_insert false.
Definition smap_set := smap_insert true.

Definition smap_ok l : Prop := StronglySorted (fun a b => a.1 < b.1) l.

Lemma smap_get_elem k v l : smap_get k l = Some v -> (k, v) ∈ l.
Proof.
  induction l as [|[k' v'] l IH]; simpl; [done|].
  destruct (Z.eqb_spec k k') as [<-|]; intros H; [injection H as ->; left|right; auto].
Qed.

Lemma smap_get_None k l : smap_get k l = None <-> k ∉ l.*1.
Proof.
  induction l as [|[k' v'] l IH]; simpl; [set_solver|].
  destruct (Z.eqb_spec k k') as [<-|]; [set_solver|]. rewrite IH. set_solver.
Qed.

Lemma smap_ok_cons a l : smap_ok (a :: l) <-> Forall (fun b => a.1 < b.1) l /\ smap_ok l.
Proof.
  split; [by intros [? ?]%StronglySorted_inv|intros [? ?]; by constructor].
Qed.

Lemma smap_get_Some k v l : smap_ok l -> smap_get k l = Some v <-> (k, v) ∈ l.
Proof.
  intros Hok. split; [apply smap_get_elem|].
  induction l as [|[k' v'] l IH]; simpl; [set_solver|].
  apply smap_ok_cons in Hok as [Hlt Hok]. rewrite elem_of_cons. intros [[= -> ->]|Hin].
  - by rewrite Z.eqb_refl.
  - rewrite Forall_forall in Hlt. specialize (Hlt _ Hin). simpl in Hlt.
    rewrite (proj2 (Z.eqb_neq _ _)) by lia. auto.
Qed.

Lemma smap_ok_NoDup l : smap_ok l -> NoDup l.*1.
Proof.
  induction l as [|[k v] l IH]; intros Hok; simpl; [constructor|].
  apply smap_ok_cons in Hok as [Hlt Hok]. constructor; [|auto].
  intros ([k' v'] & -> & Hin)%list_elem_of_fmap. rewrite Forall_forall in Hlt.
  specialize (Hlt _ Hin). simpl in Hlt. lia.
Qed.

(** Inserting a key below all others puts it in front. *)
Lemma smap_insert_front b k v l :
  Forall (fun x => k < x.1) l -> smap_insert b k v l = (k, v) :: l.
Proof.
  destruct l as [|[k' v'] l]; [done|]. intros [Hlt _]%Forall_cons. simpl in *.
  by rewrite (proj2 (Z.ltb_lt _ _) Hlt).
Qed.

Lemma smap_insert_elem b k v l x :
  x ∈ smap_insert b k v l -> x.1 = k \/ x ∈ l.
Proof.
  induction l as [|[k' v'] l IH]; simpl; [set_solver|].
  destruct (k <? k'); [set_solver|]. destruct (Z.eqb_spec k k') as [<-|]; set_solver.
Qed.

Lemma smap_insert_ok b k v l : smap_ok l -> smap_ok (smap_insert b k v l).
Proof.
  induction l as [|[k' v'] l IH]; intros Hok; simpl; [repeat constructor|].
  apply smap_ok_cons in Hok as [Hlt Hok].
  destruct (Z.ltb_spec k k').
  - rewrite !smap_ok_cons. split; [|done]. constructor; [done|].
    eapply Forall_impl; [done|]. simpl. intros; lia.
  - destruct (Z.eqb_spec k k') as [<-|]; rewrite smap_ok_cons; [done|].
    split; [|auto]. apply Forall_forall. intros x [->|Hx]%smap_insert_elem; simpl; [lia|].
    rewrite Forall_forall in Hlt. by apply Hlt.
Qed.

Lemma smap_get_insert b k v l k' :
  smap_get k l = None ->
  smap_get k' (smap_insert b k v l) = if k' =? k then Some v else smap_get k' l.
Proof.
  induction l as [|[k0 v0] l IH]; simpl; [done|].
  destruct (Z.eqb_spec k k0) as [|Hne]; [done|]. intros Hn.
  destruct (k <? k0); simpl; [done|].
  rewrite IH by done. destruct (Z.eqb_spec k' k0), (Z.eqb_spec k' k); congruence.
Qed.

(** A sorted map is determined by its lookups. *)
Lemma smap_ext l m :
  smap_ok l -> smap_ok m -> (forall k, smap_get k l = smap_get k m) -> l = m.
Proof.
  assert (Hlow : forall k v l, smap_ok ((k, v) :: l) -> forall j, j <= k -> j <> k ->
    smap_get j ((k, v) :: l) = None).
  { intros k v l0 Hok j Hle Hne. apply smap_get_None. apply smap_ok_cons in Hok as [Hlt _].
    simpl. apply not_elem_of_cons. split; [done|].
    intros (x & -> & Hx)%list_elem_of_fmap. rewrite Forall_forall in Hlt.
    specialize (Hlt _ Hx). simpl in Hlt. lia. }
  revert m. induction l as [|[k v] l IH]; intros [|[k' v'] m] Hl Hm E; [done| | |].
  - specialize (E k'). simpl in E. by rewrite Z.eqb_refl in E.
  - specialize (E k). simpl in E. by rewrite Z.eqb_refl in E.
  - assert (k = k') as <-.
    { destruct (Z.lt_trichotomy k k') as [Hlt|[?|Hlt]]; [|done|].
      - specialize (E k). rewrite (Hlow k' v' m Hm k) in E by lia. simpl in E.
        by rewrite Z.eqb_refl in E.
      - specialize (E k'). rewrite (Hlow k v l Hl k') in E by lia. simpl in E.
        by rewrite Z.eqb_refl in E. }
    pose proof (E k) as Ek. simpl in Ek. rewrite Z.eqb_refl in Ek. injection Ek as <-.
    f_equal. pose proof (smap_ok_NoDup _ Hl) as [Hkl _]%NoDup_cons.
    pose proof (smap_ok_NoDup _ Hm) as [Hkm _]%NoDup_cons.
    apply smap_ok_cons in Hl as [_ Hl]. apply smap_ok_cons in Hm as [_ Hm].
    apply IH; [done..|]. intros j. specialize (E j). simpl in E.
    destruct (Z.eqb_spec j k) as [Ej|]; [|done]. rewrite Ej.
    simpl in Hkl, Hkm. by rewrite (proj2 (smap_get_None k l) Hkl), (proj2 (smap_get_None k m) Hkm).
Qed.

(** Merging a map into one with other keys *)
Lemma smap_merge_ok l m :
  smap_ok m -> smap_ok (fold_left (fun m e => smap_emplace e.1 e.2 m) l m).
Proof.
  revert m. induction l as [|e l IH]; intros m Hm; simpl; [done|].
  apply IH. by apply smap_insert_ok.
Qed.

Lemma smap_get_merge l m k :
  NoDup l.*1 -> (forall j, j ∈ l.*1 -> smap_get j m = None) ->
  smap_get k (fold_left (fun m e => smap_emplace e.1 e.2 m) l m) =
  match smap_get k l with Some v => Some v | None => smap_get k m end.
Proof.
  revert m. induction l as [|[j v] l IH]; intros m Hnd Hm; [done|].
  simpl in Hnd. apply NoDup_cons in Hnd as [Hj Hnd]. simpl.
  assert (Hjm : smap_get j m = None) by (apply Hm; simpl; set_solver).
  rewrite IH; [|done|].
  - unfold smap_emplace. rewrite smap_get_insert by done.
    destruct (Z.eqb_spec k j) as [->|]; [|done].
    by rewrite (proj2 (smap_get_None _ _) Hj).
  - intros i Hi. unfold smap_emplace. rewrite smap_get_insert by done.
    destruct (Z.eqb_spec i j) as [->|]; [done|]. apply Hm. simpl; set_solver.
Qed.
End smap.

(** ** Lists of names in order *)

(** Both [voteproducer] actions check
    [for i in 1..size: check(producers[i-1] < producers[i])]. *)
Fixpoint strictly_sorted (l : list Z) : bool :=
  match l with
  | a :: (b :: _) as l' => (a <? b) && strictly_sorted l'
  | _ => true
  end.

Lemma strictly_sorted_spec l : strictly_sorted l = true <-> StronglySorted Z.lt l.
Proof.
  assert (E : strictly_sorted l = true <-> Sorted Z.lt l).
  { induction l as [|a [|b l] IH]; [by split|by split; repeat constructor|].
    change (strictly_sorted (a :: b :: l)) with ((a <? b) && strictly_sorted (b :: l)).
    rewrite andb_true_iff, Z.ltb_lt, IH. split.
    - intros [Hab Hs]. constructor; [done|]. by constructor.
    - intros [Hs Hab]%Sorted_inv. split; [|done]. by apply HdRel_inv in Hab. }
  rewrite E. split; [|apply StronglySorted_Sorted].
  apply Sorted_StronglySorted. intros x y z; lia.
Qed.

(** ** Lists *)

(** [vector::empty] *)
Definition vec_empty {A} (l : list A) : bool := match l with [] => true | _ => false end.

Lemma vec_empty_spec {A} (l : list A) : vec_empty l = true <-> l = [].
Proof. by destruct l. Qed.

(** [std::find_if] and [erase]: the first element that satisfies [P], and the list
    without it *)
Section erase_first.
Context {A : Type} (P : A -> bool).

Fixpoint erase_first (l : list A) : option (A * list A) :=
  match l with
  | [] => None
  | a :: l' => if P a then Some (a, l') else '(x, rest) ← erase_first l'; Some (x, a :: rest)
  end.

Lemma erase_first_Some l x rest :
  erase_first l = Some (x, rest) <->
  exists l1 l2, l = l1 ++ x :: l2 /\ rest = l1 ++ l2 /\ P x = true /\
    Forall (fun a => P a = false) l1.
Proof.
  revert x rest. induction l as [|a l IH]; intros x rest; simpl.
  { split; [done|]. intros (l1 & l2 & H & _). by destruct l1. }
  destruct (P a) eqn:E.
  - split.
    + intros [= <- <-]. by exists [], l.
    + intros (l1 & l2 & H & -> & Hx & Hl). destruct l1 as [|b l1].
      * by injection H as <- <-.
      * injection H as <- _. apply Forall_cons in Hl as [Hb _]. congruence.
  - split.
    + intros H. destruct (erase_first l) as [[y r]|] eqn:El; [|done].
      injection H as <- <-.
      destruct (proj1 (IH y r) eq_refl) as (l1 & l2 & -> & -> & Hx & Hl).
      exists (a :: l1), l2. by repeat constructor.
    + intros (l1 & l2 & H & -> & Hx & Hl). destruct l1 as [|b l1].
      * injection H as -> ->. congruence.
      * injection H as <- ->. apply Forall_cons in Hl as [_ Hl].
        by rewrite (proj2 (IH x (l1 ++ l2))) by (exists l1, l2; done).
Qed.

Lemma erase_first_None l : erase_first l = None <-> Forall (fun a => P a = false) l.
Proof.
  induction l as [|a l IH]; simpl; [by split|]. rewrite Forall_cons.
  destruct (P a) eqn:E; [naive_solver|].
  destruct (erase_first l) as [[y r]|]; simpl; naive_solver.
Qed.
End erase_first.

(** ** Strings *)

(** The bytes of a string *)
Fixpoint string_bytes (s : string) : list Z :=
  match s with
  | EmptyString => []
  | String a s' => Z.of_nat (nat_of_ascii a) :: string_bytes s'
  end.

Lemma string_length_app s t : String.length (s +:+ t) = (String.length s + String.length t)%nat.
Proof. induction s as [|a s IH]; [done|]. simpl. by rewrite IH. Qed.

(** ** Sequences of operations *)

(** Each step turns the state over and emits effects; the first failure ends the run. *)
Section runs.
Context {E S F : Type} (step : E -> S -> result (S * list F)).

Fixpoint runs (l : list E) (s : S) : result (S * list F) :=
  match l with
  | [] => Ok (s, [])
  | o :: l' => '(s1, es1) ← step o s; '(s2, es2) ← runs l' s1; Ok (s2, es1 ++ es2)
  end.

Lemma runs_snoc l o s s' es :
  runs (l ++ [o]) s = Ok (s', es) <->
  exists s1 es1 es2, runs l s = Ok (s1, es1) /\ step o s1 = Ok (s', es2) /\ es = es1 ++ es2.
Proof.
  revert s es. induction l as [|a l IH]; intros s es; cbn [runs app].
  - rewrite bind_Ok. split.
    + intros ([s1 es1] & H & [= -> <-]). exists s, [], es1. rewrite app_nil_r. done.
    + intros (s1 & es1 & es2 & [= <- <-] & H & ->). eexists. split; [exact H|].
      simpl. by rewrite app_nil_r.
  - rewrite bind_Ok. split.
    + intros ([s1 es1] & H & H2). apply bind_Ok in H2 as ([s2 es2] & H2 & [= <- <-]).
      apply IH in H2 as (s3 & es3 & es4 & H2 & H3 & ->).
      exists s3, (es1 ++ es3), es4. rewrite H. cbn [mbind result_bind]. rewrite H2.
      by rewrite app_assoc.
    + intros (s3 & es3 & es4 & H & H3 & ->).
      apply bind_Ok in H as ([s1 es1] & H & H2). apply bind_Ok in H2 as ([s2 es2] & H2 & [= <- <-]).
      exists (s1, es1). split; [done|]. apply bind_Ok. exists (s', es2 ++ es4).
      split; [apply IH; by exists s2, es2, es4|]. by rewrite app_assoc.
Qed.

(** An invariant of the history and the state; [ok] is what the environment guarantees of
    an operation, given the history *)
Lemma runs_ind (P : list E -> S -> Prop) (ok : list E -> E -> Prop) s0 :
  P [] s0 ->
  (forall l o s s' es, P l s -> ok l o -> step o s = Ok (s', es) -> P (l ++ [o]) s') ->
  forall l s es,
    (forall l1 o l2, l = l1 ++ o :: l2 -> ok l1 o) -> runs l s0 = Ok (s, es) -> P l s.
Proof.
  intros H0 Hs l. induction l as [|o l IH] using rev_ind; intros s es Hok H.
  { by injection H as <- <-. }
  apply runs_snoc in H as (s1 & es1 & es2 & H1 & H2 & ->).
  apply (Hs l o s1 s es2); [|by apply (Hok l o [])|done].
  apply (IH s1 es1); [|done]. intros l1 o' l2 ->.
  apply (Hok l1 o' (l2 ++ [o])). by rewrite <- app_assoc.
Qed.
End runs.
