(* ===== verification/Table.v ===== *)
(** * Secondary indices

    A [multi_index] keeps, for every secondary key, its rows in the order of (secondary
    key, primary key).  [by_index key t] is that listing for a table with integer
    secondary keys; [find_by key k t] is [index.find(k)], which meets the rows of one
    secondary key in the order of their primary keys. *)
From S2P Require Import Prelude.
From Stdlib Require Import ZArith Lia.
From stdpp Require Import base tactics numbers list gmap sorting.
Open Scope Z_scope.

Lemma sorted_filter {A} (R : relation A) (P : A -> Prop) `{!forall x, Decision (P x)} (l : list A) :
  StronglySorted R l -> StronglySorted R (filter P l).
Proof.
  induction 1 as [|e l Hs IH He]; [constructor|]. rewrite filter_cons.
  case_decide; [|exact IH]. constructor; [exact IH|].
  apply Forall_forall. intros x [_ Hx]%list_elem_of_filter.
  rewrite Forall_forall in He. by apply He.
Qed.

Section index.
Context {V : Type}.
Implicit Types (t : gmap Z V) (key : V -> Z).

Definition index_le (key : V -> Z) (a b : Z * V) : Prop :=
  key a.2 < key b.2 \/ key a.2 = key b.2 /\ a.1 <= b.1.

#[export] Instance index_le_dec key a b : Decision (index_le key a b).
Proof. unfold index_le. apply _. Defined.
#[export] Instance index_le_total key : Total (index_le key).
Proof. intros a b. unfold index_le. lia. Qed.
#[export] Instance index_le_trans key : Transitive (index_le key).
Proof. intros a b c. unfold index_le. lia. Qed.

Definition by_index (key : V -> Z) (t : gmap Z V) : list (Z * V) :=
  merge_sort (index_le key) (map_to_list t).

(** Rows in the order of their primary keys *)
Definition rows (t : gmap Z V) : list (Z * V) := by_index (fun _ => 0) t.

Definition find_by {K} `{EqDecision K} (key : V -> K) (k : K) (t : gmap Z V) : option (Z * V) :=
  head (filter (fun r => key r.2 = k) (rows t)).

Lemma by_index_elem key t k v : (k, v) ∈ by_index key t <-> t !! k = Some v.
Proof. unfold by_index. rewrite merge_sort_Permutation. apply elem_of_map_to_list. Qed.

Lemma by_index_sorted key t : StronglySorted (index_le key) (by_index key t).
Proof. apply StronglySorted_merge_sort; apply _. Qed.

Lemma by_index_NoDup key t : NoDup (by_index key t).*1.
Proof. unfold by_index. rewrite merge_sort_Permutation. apply NoDup_fst_map_to_list. Qed.

Lemma rows_elem t k v : (k, v) ∈ rows t <-> t !! k = Some v.
Proof. apply by_index_elem. Qed.

Lemma find_by_None {K} `{EqDecision K} (key : V -> K) k t :
  find_by key k t = None <-> forall i v, t !! i = Some v -> key v <> k.
Proof.
  unfold find_by. split.
  - intros Hn i v Hi Hk.
    assert (Hin : (i, v) ∈ filter (fun r : Z * V => key r.2 = k) (rows t))
      by (apply list_elem_of_filter; by rewrite rows_elem).
    destruct (filter _ _); [set_solver|done].
  - intros Hn. destruct (filter _ _) as [|[i v] l] eqn:E; [done|]. exfalso.
    assert (Hin : (i, v) ∈ filter (fun r : Z * V => key r.2 = k) (rows t))
      by (rewrite E; set_solver).
    apply list_elem_of_filter in Hin as [Hk Hi%rows_elem]. by eapply Hn.
Qed.

Lemma find_by_Some {K} `{EqDecision K} (key : V -> K) k t i v :
  find_by key k t = Some (i, v) -> t !! i = Some v /\ key v = k.
Proof.
  unfold find_by. intros Hh.
  assert (Hin : (i, v) ∈ filter (fun r : Z * V => key r.2 = k) (rows t))
    by (destruct (filter _ _); [done|injection Hh as ->; set_solver]).
  apply list_elem_of_filter in Hin as [Hk Hi%rows_elem]. done.
Qed.

(** A unique secondary key finds its row. *)
Lemma find_by_unique {K} `{EqDecision K} (key : V -> K) t i v :
  t !! i = Some v -> (forall j w, t !! j = Some w -> key w = key v -> j = i) ->
  find_by key (key v) t = Some (i, v).
Proof.
  intros Hi Hu. destruct (find_by key (key v) t) as [[j w]|] eqn:E.
  - apply find_by_Some in E as [Hj Hk]. pose proof (Hu _ _ Hj Hk) as ->. congruence.
  - exfalso. rewrite find_by_None in E. by eapply E.
Qed.

(** [index.lower_bound(x)]: the first row whose key is at least [x] *)
Definition lower_bound (key : V -> Z) (x : Z) (t : gmap Z V) : option (Z * V) :=
  head (filter (fun r => x <= key r.2) (by_index key t)).

Lemma lower_bound_None key x t :
  lower_bound key x t = None <-> forall i v, t !! i = Some v -> key v < x.
Proof.
  unfold lower_bound. split.
  - intros Hn i v Hi. apply Z.nle_gt. intros Hx.
    assert (Hin : (i, v) ∈ filter (fun r : Z * V => x <= key r.2) (by_index key t))
      by (apply list_elem_of_filter; by rewrite by_index_elem).
    destruct (filter _ _); [set_solver|done].
  - intros Hn. destruct (filter _ _) as [|[i v] l] eqn:E; [done|]. exfalso.
    assert (Hin : (i, v) ∈ filter (fun r : Z * V => x <= key r.2) (by_index key t))
      by (rewrite E; set_solver).
    apply list_elem_of_filter in Hin as [Hk Hi%by_index_elem].
    specialize (Hn _ _ Hi). simpl in Hk. lia.
Qed.

Lemma lower_bound_Some key x t i v :
  lower_bound key x t = Some (i, v) ->
  t !! i = Some v /\ x <= key v /\
  forall j w, t !! j = Some w -> x <= key w -> index_le key (i, v) (j, w).
Proof.
  unfold lower_bound. intros Hh.
  destruct (filter _ _) as [|p l] eqn:E; [done|]. injection Hh as ->.
  assert (Hin : (i, v) ∈ filter (fun r : Z * V => x <= key r.2) (by_index key t))
    by (rewrite E; by left).
  apply list_elem_of_filter in Hin as [Hk Hi%by_index_elem]. split_and!; [done..|].
  intros j w Hj Hw.
  assert (Hin : (j, w) ∈ filter (fun r : Z * V => x <= key r.2) (by_index key t))
    by (apply list_elem_of_filter; by rewrite by_index_elem).
  assert (Hs : StronglySorted (index_le key)
    (filter (fun r : Z * V => x <= key r.2) (by_index key t))).
  { apply sorted_filter, by_index_sorted. }
  rewrite E in Hin, Hs. apply StronglySorted_inv in Hs as [_ Ha].
  apply elem_of_cons in Hin as [[= -> ->]|Hin]; [unfold index_le; simpl; lia|].
  rewrite Forall_forall in Ha. by apply Ha.
Qed.
End index.
