(* ===== verification/Cdt.v ===== *)
(** * The contract development toolkit, as an interface

    The contracts are compiled against flon.cdt ([eosio/asset.hpp], [eosio/name.hpp],
    [eosio/time.hpp], ...), which is not part of the repository, and run on a host that
    answers questions ([has_auth], [is_account], [current_time_point], ...).  The toolkit
    is the class [Cdt]: an argument of every definition that uses it.  Its documented
    behaviour, as far as the theorems rely on it, is the class [CdtLaws].  What the host
    answers during one action is the record [ctx].  [CdtRef.v] has one instance, which
    shows the laws can hold and on which examples evaluate. *)
From S2P Require Import Prelude.
From Stdlib Require Import ZArith Lia String.
From stdpp Require Import base tactics numbers list gmap strings.
Open Scope Z_scope.

(** ** Data the source reads field by field *)

(** [eosio::name]: its [value], a [uint64_t]; [<] and [==] compare values *)
Abbreviation name := Z (only parsing).
(** [eosio::symbol]: its [raw()] *)
Abbreviation symbol := Z (only parsing).
(** [eosio::symbol_code]: its [raw()] *)
Abbreviation sym_code := Z (only parsing).
(** [eosio::time_point]: microseconds since the epoch *)
Abbreviation time_point := Z (only parsing).
(** [eosio::time_point_sec]: seconds since the epoch *)
Abbreviation time_point_sec := Z (only parsing).
(** [eosio::block_timestamp]: its [slot] *)
Abbreviation block_timestamp := Z (only parsing).
(** A byte string ([std::vector<char>], [checksum256], [bls_g1], ...): bytes as integers *)
Abbreviation bytes := (list Z) (only parsing).

Record asset : Type := Asset { amount : Z; asset_symbol : symbol }.
#[export] Instance asset_eq_dec : EqDecision asset.
Proof. solve_decision. Defined.

(** The default-constructed [asset]: amount 0 and the invalid symbol with raw value 0. *)
Definition asset_default : asset := Asset 0 0.

Record permission_level : Type := PermissionLevel { actor : name; permission : name }.
#[export] Instance permission_level_eq_dec : EqDecision permission_level.
Proof. solve_decision. Defined.

(** [asset::max_amount] *)
Definition max_amount : Z := 2 ^ 62 - 1.
Definition in_range (n : Z) : Prop := - max_amount <= n <= max_amount.

(** [eosio::block_signing_authority] (the variant has one alternative), and
    [eosio::producer_authority] *)
Record block_signing_authority : Type := BlockSigningAuthority {
  auth_threshold : Z;
  auth_keys : list (bytes * Z);          (* key and weight *)
}.
Definition block_signing_authority_default : block_signing_authority :=
  BlockSigningAuthority 0 [].
Record producer_authority : Type := ProducerAuthority {
  producer_name : name;
  pa_authority : block_signing_authority;
}.

(** [eosio::finalizer_authority] *)
Record finalizer_authority : Type := FinalizerAuthority {
  description : string;
  fa_weight : Z;
  fa_public_key : bytes;
}.

(** ** What the host tells an action *)

Record ctx : Type := Ctx {
  get_self : name;                       (* the account the contract runs on *)
  get_first_receiver : name;             (* the account the action was sent to *)
  has_auth : name -> bool;               (* some permission of the account authorised it *)
  has_permission : permission_level -> bool;
  is_account : name -> bool;
  current_time_point : time_point;
  get_resource_limits : name -> Z * bool;            (* gas (uint64_t), is_unlimited *)
  (* [set_proposed_producers] returned a version: the host took the proposal *)
  accepts_producers : list producer_authority -> bool;
  (* what a member without initialiser holds in a default-constructed row *)
  indeterminate_i64 : Z;
}.

Definition require_auth (c : ctx) (n : name) : result unit :=
  check (has_auth c n) "missing authority".
(** [require_auth(permission_level)] *)
Definition require_permission (c : ctx) (pl : permission_level) : result unit :=
  check (has_permission c pl) "missing authority".

(** ** The toolkit *)

Class Cdt : Type := {
  name_lit : string -> name;                       (* the literal ["..."_n] *)
  name_to_string : name -> string;                 (* [name::to_string] *)
  name_suffix : name -> name;                      (* [name::suffix] *)
  symbol_valid : symbol -> bool;                   (* [symbol::is_valid] *)
  symbol_code : symbol -> sym_code;             (* [symbol::code().raw()] *)
  asset_valid : asset -> bool;                     (* [asset::is_valid] *)
  asset_ctor : Z -> symbol -> result asset;        (* [asset(amount, symbol)] *)
  asset_add : asset -> asset -> result asset;      (* [operator+], [operator+=] *)
  asset_sub : asset -> asset -> result asset;      (* [operator-], [operator-=] *)
  asset_compare : asset -> asset -> result comparison;  (* [==], [<], [<=], [>], [>=] *)
  sec_of_time_point : time_point -> time_point_sec;
  time_point_of_sec : time_point_sec -> time_point;
  slot_of_time_point : time_point -> block_timestamp;
  time_point_of_slot : block_timestamp -> time_point;
  seconds : Z -> Z;                                (* [eosio::seconds], in microseconds *)
  to_seconds : Z -> Z;                             (* [microseconds::to_seconds] *)
  sha256 : bytes -> bytes;
  (* [block_signing_authority_v0::is_valid] *)
  authority_valid : block_signing_authority -> bool;
}.

Section operators.
Context {cdt : Cdt}.

(** The comparison operators of [asset] abort on different symbols. *)
Definition asset_ge (a b : asset) : result bool :=
  c ← asset_compare a b; mret (bool_decide (c ≠ Lt)).
Definition asset_gt (a b : asset) : result bool :=
  c ← asset_compare a b; mret (bool_decide (c = Gt)).
Definition asset_eq (a b : asset) : result bool :=
  c ← asset_compare a b; mret (bool_decide (c = Eq)).
End operators.

(** The literals the contracts use *)
Definition source_names : list string :=
  ["flon"; "flon.token"; "flon.gas"; "flon.stake"; "flon.vote"; "flon.reward";
   "flon.names"; "flon.fees"; "flon.null"; "flonian"; "flon.admin"; "active"; "owner";
   "default"; "low"; "high"; "voterefund"; "newaccount"]%string.

(** ** Its documented behaviour *)

Class CdtLaws `{Cdt} : Prop := {
  (** literals denote pairwise different, non-empty names *)
  law_names : NoDup (0 :: (name_lit <$> source_names));
  (** the default-constructed symbol is not valid *)
  law_symbol_default : symbol_valid 0 = false;
  (** [is_valid] is the amount range and the symbol's validity *)
  law_asset_valid a :
    asset_valid a = true <-> in_range (amount a) /\ symbol_valid (asset_symbol a) = true;
  (** the constructor aborts unless the result is valid *)
  law_asset_ctor n s a :
    asset_ctor n s = Ok a <-> in_range n /\ symbol_valid s = true /\ a = Asset n s;
  (** addition and subtraction abort on different symbols and outside the range *)
  law_asset_add a b c :
    in_range (amount a) -> is_i64 (amount b) ->
    asset_add a b = Ok c <->
      asset_symbol a = asset_symbol b /\ in_range (amount a + amount b) /\
      c = Asset (amount a + amount b) (asset_symbol a);
  law_asset_sub a b c :
    in_range (amount a) -> is_i64 (amount b) ->
    asset_sub a b = Ok c <->
      asset_symbol a = asset_symbol b /\ in_range (amount a - amount b) /\
      c = Asset (amount a - amount b) (asset_symbol a);
  law_asset_compare a b c :
    asset_compare a b = Ok c <-> asset_symbol a = asset_symbol b /\ c = (amount a ?= amount b);
  (** times: a second is a million microseconds, a slot half a second; conversions to a
      coarser unit round down *)
  law_seconds n : seconds n = n * 1000000;
  law_to_seconds t : 0 <= t -> to_seconds t = t / 1000000;
  law_time_point_of_sec s : time_point_of_sec s = s * 1000000;
  law_sec_of_time_point t :
    0 <= t < 2 ^ 32 * 1000000 -> sec_of_time_point t = t / 1000000;
  law_time_point_of_slot s : time_point_of_slot s = 946684800000000 + s * 500000;
}.

(** ** Effects

    What an action asks of the host besides table writes, in order: inline actions
    (executed after the action), notifications, a deferred transaction, and the
    privileged calls.  The typed constructors of [call] are the actions the contracts
    send to one another; [raw_call] is an action whose data the sender forwards as
    bytes. *)

Inductive call : Type :=
| token_transfer (from to : name) (quantity : asset) (memo : string)
| token_open (owner : name) (s : symbol) (ram_payer : name)
| reward_init (core : symbol)
| reward_regproducer (producer : name)
| reward_addvote (voter : name) (votes : Z)
| reward_subvote (voter : name) (votes : Z)
| reward_voteproducer (voter : name) (producers : list name)
| system_logsystemfee (protocol : name) (fee : asset) (memo : string)
| system_voterefund (owner : name)
| system_newaccount (creator new_account : name) (owner_key active_key : bytes)
| raw_call (action_name : name) (data : bytes).

Record action : Type := Action {
  act_account : name;
  act_authorization : list permission_level;
  act_call : call;
}.

Inductive effect : Type :=
| Send (a : action)
| RequireRecipient (n : name)
| SendDeferred (sender_id : Z) (payer : name) (delay_sec : Z) (a : action)
| SetResourceLimits (account : name) (gas : Z) (is_unlimited : bool)
| SetPrivileged (account : name) (is_priv : Z)
| PreactivateFeature (digest : bytes)
| SetParametersPacked (data : bytes)
| SetWasmParametersPacked (data : bytes)
| SetBlockchainParameters (data : list Z)
| SetProposedProducers (producers : list producer_authority)
| SetFinalizers (threshold : Z) (finalizers : list finalizer_authority).

(** [action_wrapper{ code, auth }.send(...)] *)
Definition send (code : name) (auth : list permission_level) (cl : call) : effect :=
  Send (Action code auth cl).

(** The transfers among the effects of an action *)
Definition transfers_of (es : list effect) : list (name * name * asset) :=
  omap (fun e => match e with
                 | Send (Action _ _ (token_transfer from to q _)) => Some (from, to, q)
                 | _ => None end) es.

(** ** Consequences of the laws *)

Section laws.
Context {cdt : Cdt} {laws : CdtLaws}.

Lemma asset_ctor_Ok n s :
  in_range n -> symbol_valid s = true -> asset_ctor n s = Ok (Asset n s).
Proof. intros. by apply law_asset_ctor. Qed.

Lemma asset_add_Ok a b :
  in_range (amount a) -> is_i64 (amount b) -> asset_symbol a = asset_symbol b ->
  in_range (amount a + amount b) ->
  asset_add a b = Ok (Asset (amount a + amount b) (asset_symbol a)).
Proof. intros. by apply law_asset_add. Qed.

Lemma asset_sub_Ok a b :
  in_range (amount a) -> is_i64 (amount b) -> asset_symbol a = asset_symbol b ->
  in_range (amount a - amount b) ->
  asset_sub a b = Ok (Asset (amount a - amount b) (asset_symbol a)).
Proof. intros. by apply law_asset_sub. Qed.

Lemma asset_ge_Ok a b r :
  asset_ge a b = Ok r <->
  asset_symbol a = asset_symbol b /\ r = bool_decide (amount b <= amount a).
Proof.
  unfold asset_ge. rewrite bind_Ok. unfold mret, result_ret. split.
  - intros (c & [E ->]%law_asset_compare & [= <-]). split; [done|].
    apply bool_decide_ext. unfold Z.le. rewrite (Z.compare_antisym (amount b)).
    destruct (amount b ?= amount a); simpl; naive_solver.
  - intros [E ->]. exists (amount a ?= amount b).
    split; [by apply law_asset_compare|]. f_equal. apply bool_decide_ext.
    unfold Z.le. rewrite (Z.compare_antisym (amount b)).
    destruct (amount b ?= amount a); simpl; naive_solver.
Qed.

Lemma asset_gt_Ok a b r :
  asset_gt a b = Ok r <->
  asset_symbol a = asset_symbol b /\ r = bool_decide (amount b < amount a).
Proof.
  unfold asset_gt. rewrite bind_Ok. unfold mret, result_ret. split.
  - intros (c & [E ->]%law_asset_compare & [= <-]). split; [done|].
    apply bool_decide_ext. rewrite Z.compare_gt_iff. lia.
  - intros [E ->]. exists (amount a ?= amount b).
    split; [by apply law_asset_compare|]. f_equal. apply bool_decide_ext.
    rewrite Z.compare_gt_iff. lia.
Qed.

Lemma asset_eq_Ok a b r :
  asset_eq a b = Ok r <->
  asset_symbol a = asset_symbol b /\ r = bool_decide (amount a = amount b).
Proof.
  unfold asset_eq. rewrite bind_Ok. unfold mret, result_ret. split.
  - intros (c & [E ->]%law_asset_compare & [= <-]). split; [done|].
    apply bool_decide_ext. rewrite Z.compare_eq_iff. lia.
  - intros [E ->]. exists (amount a ?= amount b).
    split; [by apply law_asset_compare|]. f_equal. apply bool_decide_ext.
    rewrite Z.compare_eq_iff. lia.
Qed.

Lemma in_range_i64 n : in_range n -> is_i64 n.
Proof. unfold in_range, max_amount. unfold_ints. lia. Qed.
End laws.

Ltac unfold_range := unfold in_range, max_amount in *; unfold_ints.

#[export] Hint Resolve in_range_i64 : flon.
