(* ===== verification/CdtRef.v ===== *)
(** * A reference instance of the toolkit interface

    One concrete [Cdt] that satisfies [CdtLaws]: base-32 names, asset arithmetic with the
    range checks.  It shows that the laws are consistent and is what the examples
    evaluate on; no theorem about the contracts depends on it. *)
From S2P Require Import Prelude Cdt.
From Stdlib Require Import ZArith Lia String Ascii.
From stdpp Require Import base tactics numbers list gmap strings.
Open Scope Z_scope.

(** Base-32 digits of a name *)
Definition char_digit (c : ascii) : Z :=
  let n := Z.of_nat (nat_of_ascii c) in
  if (97 <=? n) && (n <=? 122) then n - 97 + 6
  else if (49 <=? n) && (n <=? 53) then n - 49 + 1 else 0.
Definition digit_char (d : Z) : ascii :=
  if (6 <=? d) && (d <=? 31) then ascii_of_nat (Z.to_nat (d - 6 + 97))
  else if (1 <=? d) && (d <=? 5) then ascii_of_nat (Z.to_nat (d - 1 + 49)) else "."%char.

Fixpoint ref_name_lit (shift : Z) (s : string) : Z :=
  match s with
  | EmptyString => 0
  | String c s' => Z.shiftl (char_digit c) shift + ref_name_lit (shift - 5) s'
  end.
Fixpoint ref_to_string (k : nat) (v : Z) : string :=
  match k with
  | O => EmptyString
  | S k' => if v mod 2 ^ 64 =? 0 then EmptyString
            else String (digit_char (v / 2 ^ 59 mod 32)) (ref_to_string k' (v * 32 mod 2 ^ 64))
  end.

(** The suffix after the last dot: [tmp] is the position of the last zero digit seen,
    [last] the one that still had a digit after it. *)
Fixpoint ref_last_dot (k : nat) (v bits tmp last : Z) : Z * Z :=
  match k with
  | O => (tmp, last)
  | S k' => if Z.land (Z.shiftr v bits) 31 =? 0 then ref_last_dot k' v (bits - 5) bits last
            else ref_last_dot k' v (bits - 5) tmp tmp
  end.
Definition ref_suffix (v : Z) : Z :=
  let '(tmp, last) := ref_last_dot 12 v 59 0 0 in
  let last := if Z.land v 15 =? 0 then last else tmp in
  if last =? 0 then v else (v mod 2 ^ last - v mod 16) * 2 ^ (64 - last).

Definition ref_in_range (n : Z) : bool := (- max_amount <=? n) && (n <=? max_amount).
Definition ref_symbol_valid (s : Z) : bool := 0 <? Z.shiftr s 8.

#[export] Instance ref_cdt : Cdt := {|
  name_lit := ref_name_lit 59;
  name_to_string := ref_to_string 13;
  name_suffix := ref_suffix;
  symbol_valid := ref_symbol_valid;
  symbol_code := fun s => Z.shiftr s 8;
  asset_valid := fun a => ref_in_range (amount a) && ref_symbol_valid (asset_symbol a);
  asset_ctor := fun n s =>
    ensure ref_in_range n else "magnitude of asset amount must be less than 2^62";
    ensure ref_symbol_valid s else "invalid symbol name";
    mret (Asset n s);
  asset_add := fun a b =>
    ensure asset_symbol a =? asset_symbol b else "attempt to add asset with different symbol";
    ensure ref_in_range (amount a + amount b) else "addition overflow";
    mret (Asset (amount a + amount b) (asset_symbol a));
  asset_sub := fun a b =>
    ensure asset_symbol a =? asset_symbol b else "attempt to subtract asset with different symbol";
    ensure ref_in_range (amount a - amount b) else "subtraction underflow";
    mret (Asset (amount a - amount b) (asset_symbol a));
  asset_compare := fun a b =>
    ensure asset_symbol a =? asset_symbol b
      else "comparison of assets with different symbols is not allowed";
    mret (amount a ?= amount b);
  sec_of_time_point := fun t => t / 1000000;
  time_point_of_sec := fun s => s * 1000000;
  slot_of_time_point := fun t => (t / 1000 - 946684800000) / 500;
  time_point_of_slot := fun s => 946684800000000 + s * 500000;
  seconds := fun n => n * 1000000;
  to_seconds := fun t => t / 1000000;
  sha256 := fun b => b;
  authority_valid := fun a => (0 <? auth_threshold a) && negb (bool_decide (auth_keys a = []));
|}.

#[export] Instance ref_laws : CdtLaws.
Proof.
  assert (R : forall n, ref_in_range n = true <-> in_range n).
  { intros n. unfold ref_in_range, in_range. to_prop. done. }
  assert (D : forall A (b : bool) m (k : result A) r,
    (ensure b else m; k) = Ok r <-> b = true /\ k = Ok r).
  { intros A b m k r. destruct b; simpl; naive_solver. }
  split.
  - apply (bool_decide_unpack _). vm_compute. done.
  - done.
  - intros a. simpl. rewrite andb_true_iff, R. done.
  - intros n s a. simpl. rewrite !D, R. unfold mret, result_ret. naive_solver.
  - intros a b c _ _. simpl. rewrite !D, R, Z.eqb_eq. unfold mret, result_ret. naive_solver.
  - intros a b c _ _. simpl. rewrite !D, R, Z.eqb_eq. unfold mret, result_ret. naive_solver.
  - intros a b c. simpl. rewrite !D, Z.eqb_eq. unfold mret, result_ret. naive_solver.
  - done.
  - done.
  - done.
  - done.
  - done.
Qed.

(** ** Contexts for examples *)

(** Everyone authorised, every account exists. *)
Definition ref_ctx (self : Z) (now : Z) : ctx := {|
  get_self := self;
  get_first_receiver := self;
  has_auth := fun _ => true;
  has_permission := fun _ => true;
  is_account := fun _ => true;
  current_time_point := now;
  get_resource_limits := fun _ => (0, true);
  accepts_producers := fun _ => true;
  indeterminate_i64 := 0;
|}.

(** A valid symbol with code 1 and precision 4 *)
Definition ref_symbol : Z := 260.
