(* ===== verification/Trx.v ===== *)
(** * Packed transactions

    flon.msig and flon.wrap receive a transaction as bytes and read it with the toolkit's
    [datastream]; the reader and the packer are the class [Transactions].  Reading past the
    end aborts. *)
From S2P Require Import Prelude Cdt CdtRef.
From Stdlib Require Import ZArith Lia String.
From stdpp Require Import base tactics numbers list.
Open Scope Z_scope.

(** [eosio::transaction_header], the members the contracts look at: [expiration] is a
    [time_point_sec], [delay_sec] an [unsigned_int] (32 bits) *)
Record transaction_header : Type := TransactionHeader {
  expiration : time_point_sec;
  delay_sec : Z;
}.

(** [ds >> x] returns what it read and what is left of the stream. *)
Class Transactions : Type := {
  read_name : bytes -> result (name * bytes);
  read_header : bytes -> result (transaction_header * bytes);
  read_actions : bytes -> result (list action * bytes);
  pack_levels : list permission_level -> bytes;       (* [pack(std::vector<permission_level>)] *)
}.

(** Members have their type's range. *)
Class TransactionsLaws `{Transactions} : Prop := {
  law_header b h rest :
    read_header b = Ok (h, rest) -> is_u32 (expiration h) /\ is_u32 (delay_sec h);
}.

(** A transaction read to its end: header, context-free actions, actions *)
Definition read_transaction `{Transactions} (b : bytes)
    : result (transaction_header * list action * list action) :=
  '(h, b1) ← read_header b;
  '(cfa, b2) ← read_actions b1;
  '(acts, _) ← read_actions b2;
  mret (h, cfa, acts).

(** An instance for examples: a count, then three integers per action (account, action
    name, one byte of data), all authorised by the account's active permission *)
Fixpoint ref_read_acts (n : nat) (b : bytes) : result (list action * bytes) :=
  match n, b with
  | O, _ => Ok ([], b)
  | S n', a :: nm :: d :: b' =>
      '(l, rest) ← ref_read_acts n' b';
      Ok (Action a [PermissionLevel a (ref_name_lit 59 "active")] (raw_call nm [d]) :: l, rest)
  | _, _ => Err "datastream attempted to read past the end"
  end.
#[export] Instance ref_transactions : Transactions := {|
  read_name := fun b =>
    match b with n :: rest => Ok (n, rest) | [] => Err "datastream attempted to read past the end" end;
  read_header := fun b =>
    match b with
    | e :: d :: rest => Ok (TransactionHeader (u32 e) (u32 d), rest)
    | _ => Err "datastream attempted to read past the end"
    end;
  read_actions := fun b =>
    match b with
    | n :: rest => ref_read_acts (Z.to_nat n) rest
    | [] => Err "datastream attempted to read past the end"
    end;
  pack_levels := fun l => concat ((fun p => [actor p; permission p]) <$> l);
|}.
#[export] Instance ref_transactions_laws : TransactionsLaws.
Proof.
  split. intros b h rest H. simpl in H. destruct b as [|e [|d b]]; [done..|].
  injection H as <- _. split; apply u32_range.
Qed.
