(* ===== verification/Msig.v ===== *)
(** * flon.msig: proposed transactions

    [contracts/flon.msig/src/flon.msig.cpp].  A proposal is a packed transaction; the
    levels asked for approval move between the lists [requested_approvals] and
    [provided_approvals]; [exec] sends the transaction's actions once the host finds it
    authorised by the approvals that are not invalidated and its delay has passed. *)
From S2P Require Import Prelude Cdt CdtRef Trx.
From Stdlib Require Import ZArith Lia String.
From stdpp Require Import base tactics numbers list gmap sorting.
Open Scope Z_scope.

(** ** Tables *)

(** [earliest_exec_time]: a [binary_extension] of an [optional]; the outer option is the
    extension *)
Record proposal : Type := Proposal {
  proposal_name : name;
  packed_transaction : bytes;
  earliest_exec_time : option (option time_point);
}.
Record approval : Type := Approval { level : permission_level; time : time_point }.
Record approvals_info : Type := ApprovalsInfo {
  a_version : Z;
  a_proposal_name : name;
  requested_approvals : list approval;
  provided_approvals : list approval;
}.
Record invalidation : Type := Invalidation {
  i_account : name;
  last_invalidation_time : time_point;
}.

(** [proposals] and [approvals] are scoped by the proposer. *)
Record state : Type := State {
  proposals : gmap (name * name) proposal;
  approvals : gmap (name * name) approvals_info;
  invalidations : gmap name invalidation;
}.
Definition init_state : state := State ∅ ∅ ∅.

(** The host: its answer to [check_transaction_authorization] on a packed transaction and
    packed permission levels, an [int32_t] *)
Record env : Type := Env {
  env_ctx : ctx;
  check_transaction_authorization : bytes -> bytes -> Z;
}.

Section operations.
Context {cdt : Cdt} {trx : Transactions}.

(** ** Helpers *)

Definition get_trx_header (packed_trx : bytes) : result transaction_header :=
  '(h, _) ← read_header packed_trx; mret h.

(** [return check_transaction_authorization(...)] as a [bool] *)
Definition trx_is_authorized (e : env) (levels : list permission_level) (packed_trx : bytes)
    : bool :=
  negb (check_transaction_authorization e packed_trx (pack_levels levels) =? 0).

(** Neither invalidated since it was given, nor at the same time *)
Definition in_force (invals : gmap name invalidation) (a : approval) : bool :=
  match invals !! actor (level a) with
  | None => true
  | Some i => last_invalidation_time i <? time a
  end.

(** [table_op] is applied to the table of approvals when it has the row. *)
Definition get_approvals_and_adjust_table (st : state) (proposer name : name)
    (table_op : gmap (Cdt.name * Cdt.name) approvals_info ->
                gmap (Cdt.name * Cdt.name) approvals_info)
    : list permission_level * gmap (Cdt.name * Cdt.name) approvals_info :=
  match approvals st !! (proposer, name) with
  | Some row =>
      (level <$> filter (fun a => in_force (invalidations st) a = true)
                   (provided_approvals row), table_op (approvals st))
  | None => ([], approvals st)
  end.
Definition get_approvals (st : state) (proposer name : name) : list permission_level :=
  (get_approvals_and_adjust_table st proposer name id).1.

Definition with_earliest (t : option time_point) (p : proposal) : proposal :=
  Proposal (proposal_name p) (packed_transaction p) (Some t).

(** ** Actions *)

(** [packed_trx]: what is left of the action's data after the first three arguments *)
Definition propose (e : env) (st : state) (proposer name : name)
    (requested : list permission_level) (packed_trx : bytes) : result (state * list effect) :=
  let c := env_ctx e in
  _ ← require_auth c proposer;
  ensure negb (0 =? name) else "proposal name cannot be empty";
  ensure negb (vec_empty requested) else "must request at least one approval";
  '(h, ds) ← read_header packed_trx;
  ensure sec_of_time_point (current_time_point c) <=? expiration h else "transaction expired";
  '(context_free_actions, _) ← read_actions ds;
  ensure vec_empty context_free_actions
    else "not allowed to `propose` a transaction with context-free actions";
  ensure bool_decide (proposals st !! (proposer, name) = None)
    else "proposal with the same name exists";
  ensure 0 <? check_transaction_authorization e packed_trx (pack_levels requested)
    else "transaction authorization failed";
  props ← emplace (proposals st) (proposer, name) (Proposal name packed_trx (Some None));
  apps ← emplace (approvals st) (proposer, name)
    (ApprovalsInfo 1 name ((fun l => Approval l 0) <$> requested) []);
  mret (State props apps (invalidations st), []).

Definition is_level (l : permission_level) (a : approval) : bool := bool_decide (level a = l).

(** [earliest_exec_time] after an approval *)
Definition schedule_exec (e : env) (st : state) (proposer name : name) (prop : proposal)
    (h : transaction_header) : result proposal :=
  match earliest_exec_time prop with
  | Some None =>
      if trx_is_authorized e (get_approvals st proposer name) (packed_transaction prop) then
        mret (with_earliest
          (Some (i64 (current_time_point (env_ctx e) + seconds (delay_sec h)))) prop)
      else mret prop
  | Some (Some _) => mret prop
  | None =>
      ensure delay_sec h =? 0
        else "old proposals are not allowed to have non-zero `delay_sec`; cancel and retry";
      mret prop
  end.

Definition approve (e : env) (st : state) (proposer name : name) (lv : permission_level)
    (proposal_hash : option bytes) : result (state * list effect) :=
  let c := env_ctx e in
  let k := (proposer, name) in
  _ ← require_permission c lv;
  prop ← get_or (proposals st !! k) "proposal not found";
  _ ← match proposal_hash with
      | Some h => check (bool_decide (sha256 (packed_transaction prop) = h)) "hash mismatch"
      | None => mret tt
      end;
  apps ←
    match approvals st !! k with
    | Some a =>
        '(_, rest) ← get_or (erase_first (is_level lv) (requested_approvals a))
          "approval is not on the list of requested approvals";
        mret (<[k := ApprovalsInfo (a_version a) (a_proposal_name a) rest
                 (provided_approvals a ++ [Approval lv (current_time_point c)])]> (approvals st))
    | None => mret (approvals st)
    end;
  let st := State (proposals st) apps (invalidations st) in
  h ← get_trx_header (packed_transaction prop);
  prop' ← schedule_exec e st proposer name prop h;
  mret (State (<[k := prop']> (proposals st)) apps (invalidations st), []).

(** [earliest_exec_time] after an approval was taken back *)
Definition unschedule_exec (e : env) (st : state) (proposer name : name) (prop : proposal)
    : result proposal :=
  match earliest_exec_time prop with
  | Some (Some _) =>
      if trx_is_authorized e (get_approvals st proposer name) (packed_transaction prop)
      then mret prop else mret (with_earliest None prop)
  | Some None => mret prop
  | None =>
      h ← get_trx_header (packed_transaction prop);
      ensure delay_sec h =? 0
        else "old proposals are not allowed to have non-zero `delay_sec`; cancel and retry";
      mret prop
  end.

Definition unapprove (e : env) (st : state) (proposer name : name) (lv : permission_level)
    : result (state * list effect) :=
  let c := env_ctx e in
  let k := (proposer, name) in
  _ ← require_permission c lv;
  a ← get_or (approvals st !! k) "proposal not found";
  '(_, rest) ← get_or (erase_first (is_level lv) (provided_approvals a))
    "no approval previously granted";
  let apps := <[k := ApprovalsInfo (a_version a) (a_proposal_name a)
                  (requested_approvals a ++ [Approval lv (current_time_point c)]) rest]>
                (approvals st) in
  let st := State (proposals st) apps (invalidations st) in
  prop ← get_or (proposals st !! k) "proposal not found";
  prop' ← unschedule_exec e st proposer name prop;
  mret (State (<[k := prop']> (proposals st)) apps (invalidations st), []).

Definition cancel (e : env) (st : state) (proposer name canceler : name)
    : result (state * list effect) :=
  let c := env_ctx e in
  let k := (proposer, name) in
  _ ← require_auth c canceler;
  prop ← get_or (proposals st !! k) "proposal not found";
  _ ← (if canceler =? proposer then mret tt
       else h ← get_trx_header (packed_transaction prop);
            check (expiration h <? sec_of_time_point (current_time_point c))
              "cannot cancel until expiration");
  mret (State (delete k (proposals st)) (delete k (approvals st)) (invalidations st), []).

Definition exec (e : env) (st : state) (proposer name executer : name)
    : result (state * list effect) :=
  let c := env_ctx e in
  let k := (proposer, name) in
  _ ← require_auth c executer;
  prop ← get_or (proposals st !! k) "proposal not found";
  '(h, ds) ← read_header (packed_transaction prop);
  ensure sec_of_time_point (current_time_point c) <=? expiration h else "transaction expired";
  '(context_free_actions, ds) ← read_actions ds;
  ensure vec_empty context_free_actions
    else "not allowed to `exec` a transaction with context-free actions";
  '(actions, _) ← read_actions ds;
  let '(levels, apps) := get_approvals_and_adjust_table st proposer name (delete k) in
  ensure trx_is_authorized e levels (packed_transaction prop)
    else "transaction authorization failed";
  _ ← match earliest_exec_time prop return result unit with
      | Some (Some t) => check (t <=? current_time_point c) "too early to execute"
      | _ => check (delay_sec h =? 0)
          "old proposals are not allowed to have non-zero `delay_sec`; cancel and retry"
      end;
  mret (State (delete k (proposals st)) apps (invalidations st), (Send <$> actions) : list effect).

Definition invalidate (e : env) (st : state) (account : name) : result (state * list effect) :=
  let c := env_ctx e in
  _ ← require_auth c account;
  invals ←
    match invalidations st !! account with
    | None => emplace (invalidations st) account (Invalidation account (current_time_point c))
    | Some i => mret (<[account := Invalidation (i_account i) (current_time_point c)]>
                        (invalidations st))
    end;
  mret (State (proposals st) (approvals st) invals, []).

(** ** Sequences of actions *)

Inductive op : Type :=
| Propose (proposer name : name) (requested : list permission_level) (packed_trx : bytes)
| Approve (proposer name : name) (lv : permission_level) (proposal_hash : option bytes)
| Unapprove (proposer name : name) (lv : permission_level)
| CancelProposal (proposer name canceler : name)
| Exec (proposer name executer : name)
| Invalidate (account : name).

Definition handle (eo : env * op) (st : state) : result (state * list effect) :=
  let e := eo.1 in
  match eo.2 with
  | Propose p n r t => propose e st p n r t
  | Approve p n l h => approve e st p n l h
  | Unapprove p n l => unapprove e st p n l
  | CancelProposal p n c => cancel e st p n c
  | Exec p n x => exec e st p n x
  | Invalidate a => invalidate e st a
  end.
Definition run : list (env * op) -> state -> result (state * list effect) := runs handle.
End operations.
