(* ===== verification/MsigProps.v ===== *)
(** * flon.msig: a transaction runs only with approvals in force

    What a state reached by a sequence of actions says about the sequence: which approvals
    were given, not taken back and not invalidated, and since when.  The theorems follow from that
    invariant of the history. *)
From S2P Require Import Prelude Cdt CdtRef Trx Msig.
From Stdlib Require Import ZArith Lia String.
From stdpp Require Import base tactics numbers list gmap sorting.
Open Scope Z_scope.

Abbreviation history := (list (env * op)) (only parsing).

(** ** The history *)

Definition now (eo : env * op) : time_point := current_time_point (env_ctx eo.1).

(** The actions that begin or end the proposal [k] *)
Definition ends (k : name * name) (o : op) : Prop :=
  match o with
  | Propose p n _ _ | CancelProposal p n _ | Exec p n _ => (p, n) = k
  | _ => False
  end.
Definition untouched (k : name * name) (l : history) : Prop :=
  Forall (fun eo => ~ ends k eo.2) l.

(** The clock does not run backwards and fits [time_point_sec]. *)
Definition clock_ok (l : history) : Prop :=
  StronglySorted (fun a b => now a <= now b) l /\
  Forall (fun eo => 0 <= now eo < 2 ^ 32 * 1000000) l.

(** In the actions [l] since the proposal was made, [a] was given by an [approve] with the authority of its
    level; if the levels asked for are all different ([once]), it was not taken back since. *)
Definition approved_in (k : name * name) (once : Prop) (l : history) (a : approval) : Prop :=
  exists m1 e h m2, l = m1 ++ (e, Approve k.1 k.2 (level a) h) :: m2 /\
    has_permission (env_ctx e) (level a) = true /\
    current_time_point (env_ctx e) = time a /\
    (once -> Forall (fun eo => eo.2 <> Unapprove k.1 k.2 (level a)) m2).

(** Some approval was given [delay] before [t]. *)
Definition delayed_in (k : name * name) (l : history) (delay : Z) (t : time_point) : Prop :=
  exists m1 e lv h m2, l = m1 ++ (e, Approve k.1 k.2 lv h) :: m2 /\
    t = current_time_point (env_ctx e) + delay * 1000000.

Section invariant.
Context {cdt : Cdt} {trx : Transactions} {laws : CdtLaws} {trx_laws : TransactionsLaws}.

Record alive (k : name * name) (req : list permission_level) (packed : bytes) (l2 : history)
    (p : proposal) (a : approvals_info) : Prop := {
  al_untouched : untouched k l2;
  al_name : proposal_name p = k.2 /\ a_proposal_name a = k.2;
  al_packed : packed_transaction p = packed;
  al_levels : level <$> requested_approvals a ++ provided_approvals a ≡ₚ req;
  al_provided : forall x, x ∈ provided_approvals a -> approved_in k (NoDup req) l2 x;
  al_header : exists h ds rest, read_header packed = Ok (h, ds) /\ read_actions ds = Ok ([], rest) /\
    exists t, earliest_exec_time p = Some t /\
      forall t', t = Some t' -> delayed_in k l2 (delay_sec h) t';
}.

(** The row of [k] and the history since it was proposed *)
Definition life (k : name * name) (l : history) (p : proposal) (a : approvals_info) : Prop :=
  exists l1 e req packed l2,
    l = l1 ++ (e, Propose k.1 k.2 req packed) :: l2 /\ has_auth (env_ctx e) k.1 = true /\
    0 < check_transaction_authorization e packed (pack_levels req) /\
    alive k req packed l2 p a.

Record inv (l : history) (st : state) : Prop := {
  in_alive k p : proposals st !! k = Some p ->
    exists a, approvals st !! k = Some a /\ life k l p a;
  in_keys k a : approvals st !! k = Some a -> is_Some (proposals st !! k);
  in_invals a eo : eo ∈ l -> eo.2 = Invalidate a ->
    exists i, invalidations st !! a = Some i /\ now eo <= last_invalidation_time i;
}.

(** ** Later actions *)

Lemma approved_snoc k once l a eo :
  approved_in k once l a -> (once -> eo.2 <> Unapprove k.1 k.2 (level a)) ->
  approved_in k once (l ++ [eo]) a.
Proof.
  intros (m1 & e & h & m2 & -> & Hp & Ht & Hu) Ho. exists m1, e, h, (m2 ++ [eo]).
  rewrite <- app_assoc. split_and!; [done..|].
  intros H. apply Forall_app. split; [auto|]. constructor; [auto|done].
Qed.

Lemma delayed_snoc k l d t eo : delayed_in k l d t -> delayed_in k (l ++ [eo]) d t.
Proof.
  intros (m1 & e & lv & h & m2 & -> & Ht). exists m1, e, lv, h, (m2 ++ [eo]).
  by rewrite <- app_assoc.
Qed.

(** An action that is not about the proposal *)
Lemma life_snoc k l p a eo :
  ~ ends k eo.2 -> (forall lv, eo.2 <> Unapprove k.1 k.2 lv) ->
  life k l p a -> life k (l ++ [eo]) p a.
Proof.
  intros He Hu (l1 & e & req & packed & l2 & -> & Hauth & Hres & []).
  exists l1, e, req, packed, (l2 ++ [eo]). rewrite <- app_assoc.
  split_and!; [done..|]. destruct al_header0 as (h & ds & rest & Hh & Ha & t & Et & Ht).
  split; try done.
  - apply Forall_app. by repeat constructor.
  - intros x Hx. apply approved_snoc; [auto|]. intros _. apply Hu.
  - exists h, ds, rest. split_and!; [done..|]. exists t. split; [done|].
    intros t' E. apply delayed_snoc. auto.
Qed.

Lemma in_invals_snoc l st eo st' :
  inv l st -> invalidations st' = invalidations st -> (forall a, eo.2 <> Invalidate a) ->
  forall a x, x ∈ l ++ [eo] -> x.2 = Invalidate a ->
    exists i, invalidations st' !! a = Some i /\ now x <= last_invalidation_time i.
Proof.
  intros Hinv E Hn a x [Hx| ->%list_elem_of_singleton]%elem_of_app Ha; [|by destruct (Hn a)].
  rewrite E. by apply (in_invals _ _ Hinv).
Qed.

(** ** When the actions succeed *)

Lemma propose_Ok e st p n req packed st' es :
  propose e st p n req packed = Ok (st', es) <->
  let c := env_ctx e in
  has_auth c p = true /\ n <> 0 /\ req <> [] /\
  (exists h ds rest, read_header packed = Ok (h, ds) /\ read_actions ds = Ok ([], rest) /\
    sec_of_time_point (current_time_point c) <= expiration h) /\
  proposals st !! (p, n) = None /\ approvals st !! (p, n) = None /\
  0 < check_transaction_authorization e packed (pack_levels req) /\
  st' = State (<[(p, n) := Proposal n packed (Some None)]> (proposals st))
          (<[(p, n) := ApprovalsInfo 1 n ((fun l => Approval l 0) <$> req) []]> (approvals st))
          (invalidations st) /\ es = [].
Proof.
  unfold propose, require_auth. cbn zeta. split.
  - intros H. apply bind_Ok in H as ([] & H1%check_Ok & H).
    apply bind_Ok in H as ([] & H2%check_Ok%negb_true_iff%Z.eqb_neq & H). apply bind_Ok in H as ([] & H3%check_Ok%negb_true_iff & H).
    apply bind_Ok in H as ([h ds] & H4 & H). apply bind_Ok in H as ([] & H5%check_Ok%Z.leb_le & H).
    apply bind_Ok in H as ([cfa rest] & H6 & H). apply bind_Ok in H as ([] & H7%check_Ok & H).
    apply vec_empty_spec in H7 as ->.
    apply bind_Ok in H as ([] & H8%check_Ok%bool_decide_eq_true & H).
    apply bind_Ok in H as ([] & H9%check_Ok%Z.ltb_lt & H).
    apply bind_Ok in H as (props & [_ ->]%emplace_Ok & H).
    apply bind_Ok in H as (apps & [H10 ->]%emplace_Ok & [= <- <-]).
    split_and!; try done; try (by intros ->); by exists h, ds, rest.
  - intros (H1 & H2 & H3 & (h & ds & rest & H4 & H5 & H6) & H7 & H8 & H9 & -> & ->).
    rewrite H1, (proj2 (Z.eqb_neq 0 n)) by done. destruct req as [|r req]; [done|].
    cbn [check mbind result_bind negb vec_empty]. rewrite H4. cbn [mbind result_bind].
    rewrite (proj2 (Z.leb_le _ _) H6), H5. cbn [check mbind result_bind vec_empty].
    rewrite bool_decide_eq_true_2 by done. rewrite (proj2 (Z.ltb_lt _ _) H9).
    unfold emplace. by rewrite H7, H8.
Qed.

Lemma get_trx_header_Ok packed h :
  get_trx_header packed = Ok h <-> exists ds, read_header packed = Ok (h, ds).
Proof.
  unfold get_trx_header. rewrite bind_Ok. split.
  - intros ([h' ds] & H & [= ->]). by exists ds.
  - intros (ds & H). by exists (h, ds).
Qed.

Lemma require_permission_Ok c pl u : require_permission c pl = Ok u <-> has_permission c pl = true.
Proof. unfold require_permission. apply check_Ok. Qed.

Definition hash_fits (packed : bytes) (h : option bytes) : Prop :=
  match h with Some d => sha256 packed = d | None => True end.

(** The row after an approval *)
Definition approved_row (c : ctx) (a : approvals_info) (lv : permission_level)
    (rest : list approval) : approvals_info :=
  ApprovalsInfo (a_version a) (a_proposal_name a) rest
    (provided_approvals a ++ [Approval lv (current_time_point c)]).

(** [approve] of a proposal whose rows are both there *)
Lemma approve_Ok e st p n lv hash prop a st' es :
  let k := (p, n) in
  proposals st !! k = Some prop -> approvals st !! k = Some a ->
  approve e st p n lv hash = Ok (st', es) <->
  has_permission (env_ctx e) lv = true /\ hash_fits (packed_transaction prop) hash /\
  exists x rest h prop',
    erase_first (is_level lv) (requested_approvals a) = Some (x, rest) /\
    let st1 := State (proposals st) (<[k := approved_row (env_ctx e) a lv rest]> (approvals st))
                 (invalidations st) in
    get_trx_header (packed_transaction prop) = Ok h /\
    schedule_exec e st1 p n prop h = Ok prop' /\
    st' = State (<[k := prop']> (proposals st)) (approvals st1) (invalidations st) /\ es = [].
Proof.
  cbn zeta. intros Hp Ha. unfold approve. cbn zeta. rewrite Hp, Ha. cbn [get_or mbind result_bind].
  split.
  - intros H. apply bind_Ok in H as (u & H1%require_permission_Ok & H).
    apply bind_Ok in H as (u' & H2 & H).
    apply bind_Ok in H as (apps & H3 & H). apply bind_Ok in H3 as ([x rest] & H3%get_or_Ok & [= <-]).
    apply bind_Ok in H as (h & H4 & H). apply bind_Ok in H as (prop' & H5 & [= <- <-]).
    split_and!; [done| |by exists x, rest, h, prop'].
    destruct hash; [|done]. by apply check_Ok, bool_decide_eq_true in H2.
  - intros (H1 & H2 & x & rest & h & prop' & H3 & H4 & H5 & -> & ->).
    unfold require_permission. rewrite H1, H3. cbn [check get_or mbind result_bind].
    assert (E : match hash with
      | Some d => check (bool_decide (sha256 (packed_transaction prop) = d)) "hash mismatch"
      | None => mret tt end = Ok tt).
    { destruct hash; [|done]. by rewrite bool_decide_eq_true_2. }
    rewrite E. cbn [mbind result_bind mret result_ret]. fold (approved_row (env_ctx e) a lv rest).
    rewrite H4. cbn [mbind result_bind]. by rewrite H5.
Qed.

(** The row after an approval was taken back *)
Definition unapproved_row (c : ctx) (a : approvals_info) (lv : permission_level)
    (rest : list approval) : approvals_info :=
  ApprovalsInfo (a_version a) (a_proposal_name a)
    (requested_approvals a ++ [Approval lv (current_time_point c)]) rest.

Lemma unapprove_Ok e st p n lv st' es :
  let k := (p, n) in
  unapprove e st p n lv = Ok (st', es) <->
  has_permission (env_ctx e) lv = true /\
  exists a x rest prop prop', approvals st !! k = Some a /\ proposals st !! k = Some prop /\
    erase_first (is_level lv) (provided_approvals a) = Some (x, rest) /\
    let st1 := State (proposals st) (<[k := unapproved_row (env_ctx e) a lv rest]> (approvals st))
                 (invalidations st) in
    unschedule_exec e st1 p n prop = Ok prop' /\
    st' = State (<[k := prop']> (proposals st)) (approvals st1) (invalidations st) /\ es = [].
Proof.
  cbn zeta. unfold unapprove. cbn zeta. split.
  - intros H. apply bind_Ok in H as (u & H1%require_permission_Ok & H).
    apply bind_Ok in H as (a & H2%get_or_Ok & H).
    apply bind_Ok in H as ([x rest] & H3%get_or_Ok & H).
    apply bind_Ok in H as (prop & H4%get_or_Ok & H).
    apply bind_Ok in H as (prop' & H5 & [= <- <-]). split; [done|].
    by exists a, x, rest, prop, prop'.
  - intros (H1 & a & x & rest & prop & prop' & H2 & H4 & H3 & H5 & -> & ->).
    unfold require_permission. rewrite H1, H2. cbn [check get_or mbind result_bind].
    rewrite H3. cbn [get_or mbind result_bind]. simpl proposals. rewrite H4.
    cbn [get_or mbind result_bind]. fold (unapproved_row (env_ctx e) a lv rest). by rewrite H5.
Qed.

Lemma cancel_Ok e st p n canceler st' es :
  let k := (p, n) in
  Msig.cancel e st p n canceler = Ok (st', es) <->
  has_auth (env_ctx e) canceler = true /\
  (exists prop, proposals st !! k = Some prop /\
    (canceler = p \/ exists h ds, read_header (packed_transaction prop) = Ok (h, ds) /\
       expiration h < sec_of_time_point (current_time_point (env_ctx e)))) /\
  st' = State (delete k (proposals st)) (delete k (approvals st)) (invalidations st) /\ es = [].
Proof.
  cbn zeta. unfold Msig.cancel, require_auth. cbn zeta. split.
  - intros H. apply bind_Ok in H as (u & H1%check_Ok & H).
    apply bind_Ok in H as (prop & H2%get_or_Ok & H).
    apply bind_Ok in H as (u' & H3 & [= <- <-]). split_and!; [done| |done|done].
    exists prop. split; [done|]. destruct (Z.eqb_spec canceler p) as [->|Hn]; [by left|right].
    apply bind_Ok in H3 as (h & H3%get_trx_header_Ok & H4%check_Ok%Z.ltb_lt).
    destruct H3 as (ds & H3). by exists h, ds.
  - intros (H1 & (prop & H2 & H3) & -> & ->). rewrite H1, H2. cbn [check get_or mbind result_bind].
    destruct (Z.eqb_spec canceler p) as [->|Hn]; [done|].
    destruct H3 as [?|(h & ds & H3 & H4)]; [done|].
    rewrite (proj2 (get_trx_header_Ok _ h)) by (by exists ds). cbn [mbind result_bind].
    by rewrite (proj2 (Z.ltb_lt _ _) H4).
Qed.

(** May the proposal be executed, as to the clock? *)
Definition ripe (c : ctx) (prop : proposal) (h : transaction_header) : Prop :=
  match earliest_exec_time prop with
  | Some (Some t) => t <= current_time_point c
  | _ => delay_sec h = 0
  end.

Lemma exec_Ok e st p n executer st' es :
  let k := (p, n) in
  exec e st p n executer = Ok (st', es) <->
  has_auth (env_ctx e) executer = true /\
  exists prop h ds ds' rest acts, proposals st !! k = Some prop /\
    read_header (packed_transaction prop) = Ok (h, ds) /\
    sec_of_time_point (current_time_point (env_ctx e)) <= expiration h /\
    read_actions ds = Ok ([], ds') /\ read_actions ds' = Ok (acts, rest) /\
    trx_is_authorized e (get_approvals st p n) (packed_transaction prop) = true /\
    ripe (env_ctx e) prop h /\
    st' = State (delete k (proposals st)) (delete k (approvals st)) (invalidations st) /\
    es = Send <$> acts.
Proof.
  cbn zeta. unfold exec, require_auth. cbn zeta.
  assert (Eg : get_approvals_and_adjust_table st p n (delete (p, n)) =
    (get_approvals st p n, delete (p, n) (approvals st))).
  { unfold get_approvals, get_approvals_and_adjust_table.
    destruct (approvals st !! (p, n)) eqn:E; [done|]. simpl. by rewrite delete_id. }
  assert (Er : forall prop h u, (match earliest_exec_time prop return result unit with
      | Some (Some t) => check (t <=? current_time_point (env_ctx e)) "too early to execute"
      | _ => check (delay_sec h =? 0)
          "old proposals are not allowed to have non-zero `delay_sec`; cancel and retry"
      end) = Ok u <-> ripe (env_ctx e) prop h).
  { intros prop h u. unfold ripe. destruct (earliest_exec_time prop) as [[t|]|];
      by rewrite check_Ok, ?Z.leb_le, ?Z.eqb_eq. }
  split.
  - intros H. apply bind_Ok in H as (u & H1%check_Ok & H).
    apply bind_Ok in H as (prop & H2%get_or_Ok & H).
    apply bind_Ok in H as ([h ds] & H3 & H). apply bind_Ok in H as (u1 & H4%check_Ok%Z.leb_le & H).
    apply bind_Ok in H as ([cfa ds'] & H5 & H).
    apply bind_Ok in H as (u2 & H6%check_Ok%vec_empty_spec & H). subst cfa.
    apply bind_Ok in H as ([acts rest] & H7 & H). rewrite Eg in H.
    apply bind_Ok in H as (u3 & H8%check_Ok & H).
    apply bind_Ok in H as (u4 & H9%Er & [= <- <-]). split; [done|].
    by exists prop, h, ds, ds', rest, acts.
  - intros (H1 & prop & h & ds & ds' & rest & acts & H2 & H3 & H4 & H5 & H7 & H8 & H9 & -> & ->).
    rewrite H1, H2. cbn [check get_or mbind result_bind]. rewrite H3. cbn [mbind result_bind].
    rewrite (proj2 (Z.leb_le _ _) H4), H5. cbn [check mbind result_bind vec_empty].
    rewrite H7. cbn [mbind result_bind]. rewrite Eg, H8. cbn [check mbind result_bind].
    by rewrite (proj2 (Er prop h tt) H9).
Qed.

Lemma invalidate_Ok e st account st' es :
  invalidate e st account = Ok (st', es) <->
  has_auth (env_ctx e) account = true /\
  (exists i, last_invalidation_time i = current_time_point (env_ctx e) /\
    i_account i = default account (i_account <$> invalidations st !! account) /\
    st' = State (proposals st) (approvals st) (<[account := i]> (invalidations st))) /\ es = [].
Proof.
  unfold invalidate, require_auth. cbn zeta. split.
  - intros H. apply bind_Ok in H as (u & H1%check_Ok & H).
    apply bind_Ok in H as (invals & H2 & [= <- <-]). split_and!; [done| |done].
    destruct (invalidations st !! account) as [i|] eqn:E.
    + injection H2 as <-. by exists (Invalidation (i_account i) (current_time_point (env_ctx e))).
    + apply emplace_Ok in H2 as [_ ->].
      by exists (Invalidation account (current_time_point (env_ctx e))).
  - intros (H1 & ([ac t] & Ht & Ha & ->) & ->). rewrite H1. cbn [check mbind result_bind].
    simpl in *. subst. unfold emplace. by destruct (invalidations st !! account).
Qed.

(** ** The invariant is kept *)

(** An action that writes the rows of [k] only: the other proposals live on. *)
Lemma inv_step l st eo k prop a st' :
  inv l st -> invalidations st' = invalidations st ->
  (forall k', k' <> k -> ~ ends k' eo.2 /\ (forall lv, eo.2 <> Unapprove k'.1 k'.2 lv)) ->
  (forall b, eo.2 <> Invalidate b) ->
  proposals st' = <[k := prop]> (proposals st) -> approvals st' = <[k := a]> (approvals st) ->
  life k (l ++ [eo]) prop a ->
  inv (l ++ [eo]) st'.
Proof.
  intros Hinv Ei Ho Hi Ep Ea Hl. split; [| |by eapply in_invals_snoc].
  - intros k' p. rewrite Ep, Ea. destruct (decide (k' = k)) as [->|Hk].
    + rewrite !lookup_insert_eq. intros [= <-]. by exists a.
    + rewrite !lookup_insert_ne by done. intros (b & Hb & Hlife)%(in_alive _ _ Hinv).
      exists b. split; [done|]. destruct (Ho k' Hk). apply life_snoc; assumption.
  - intros k' b. rewrite Ep, Ea. destruct (decide (k' = k)) as [->|Hk].
    + rewrite !lookup_insert_eq. intros _. by eexists.
    + rewrite !lookup_insert_ne by done. apply (in_keys _ _ Hinv).
Qed.

(** An action that ends the proposal [k] *)
Lemma inv_end l st eo k st' :
  inv l st -> (forall k', ends k' eo.2 -> k' = k) ->
  (forall k' lv, eo.2 <> Unapprove k'.1 k'.2 lv) -> (forall b, eo.2 <> Invalidate b) ->
  st' = State (delete k (proposals st)) (delete k (approvals st)) (invalidations st) ->
  inv (l ++ [eo]) st'.
Proof.
  intros Hinv Ho Hu Hi ->. split; simpl; [| |by eapply in_invals_snoc].
  - intros k' p [Hk Hp]%lookup_delete_Some. destruct (in_alive _ _ Hinv _ _ Hp) as (a & Ha & Hl).
    exists a. rewrite lookup_delete_ne by done. split; [done|].
    apply life_snoc; [|done..]. intros H. by apply Hk, eq_sym, Ho.
  - intros k' a [Hk Ha]%lookup_delete_Some. rewrite lookup_delete_ne by done.
    by apply (in_keys _ _ Hinv _ a).
Qed.

Lemma propose_inv l e st p n req packed st' es :
  inv l st -> propose e st p n req packed = Ok (st', es) ->
  inv (l ++ [(e, Propose p n req packed)]) st'.
Proof.
  intros Hinv (Hauth & Hn & Hreq & (h & ds & rest & Hh & Ha & Hexp) & H1 & H2 & Hc & -> & ->)%propose_Ok.
  eapply (inv_step l st _ (p, n)); simpl; try done.
  exists l, e, req, packed, []. split_and!; [done..|]. split; simpl; try done.
  - constructor.
  - rewrite app_nil_r, <- list_fmap_compose. by rewrite list_fmap_id.
  - intros x []%not_elem_of_nil.
  - exists h, ds, rest. split_and!; [done..|]. by exists None.
Qed.

(** What [schedule_exec] does to a proposal of the invariant *)
Lemma schedule_exec_Ok e st p n prop h prop' t :
  earliest_exec_time prop = Some t -> 0 <= current_time_point (env_ctx e) < 2 ^ 32 * 1000000 ->
  is_u32 (delay_sec h) ->
  schedule_exec e st p n prop h = Ok prop' ->
  proposal_name prop' = proposal_name prop /\
  packed_transaction prop' = packed_transaction prop /\
  exists t', earliest_exec_time prop' = Some t' /\
    (t' = t \/ t' = Some (current_time_point (env_ctx e) + delay_sec h * 1000000)).
Proof.
  intros Et Hnow Hd. unfold schedule_exec. rewrite Et. destruct t as [t|].
  { intros [= <-]. split_and!; try done. exists (Some t). auto. }
  destruct (trx_is_authorized _ _ _); intros [= <-]; simpl; (split_and!; [done..|]); eexists;
    (split; [try done|]); [|by left].
  right. rewrite law_seconds, i64_id; [done|]. unfold_ints. lia.
Qed.

Lemma unschedule_exec_Ok e st p n prop prop' t :
  earliest_exec_time prop = Some t ->
  unschedule_exec e st p n prop = Ok prop' ->
  proposal_name prop' = proposal_name prop /\
  packed_transaction prop' = packed_transaction prop /\
  exists t', earliest_exec_time prop' = Some t' /\ (t' = t \/ t' = None).
Proof.
  intros Et. unfold unschedule_exec. rewrite Et. destruct t as [t|].
  2:{ intros [= <-]. split_and!; try done. exists None. auto. }
  destruct (trx_is_authorized _ _ _); intros [= <-]; simpl; (split_and!; [done..|]); eexists;
    (split; [try done|]); auto.
Qed.

Lemma levels_app (a b : list approval) : level <$> a ++ b = (level <$> a) ++ (level <$> b).
Proof. apply fmap_app. Qed.

(** The proposal's actions keep the other proposals' lives *)
Lemma life_of_in l st k p a :
  inv l st -> proposals st !! k = Some p -> approvals st !! k = Some a -> life k l p a.
Proof.
  intros Hinv Hp Ha. destruct (in_alive _ _ Hinv _ _ Hp) as (b & Hb & Hl). congruence.
Qed.

Lemma approve_life k l p a e lv hash prop' x rest h t :
  life k l p a ->
  has_permission (env_ctx e) lv = true ->
  erase_first (is_level lv) (requested_approvals a) = Some (x, rest) ->
  proposal_name prop' = proposal_name p -> packed_transaction prop' = packed_transaction p ->
  (exists ds, read_header (packed_transaction p) = Ok (h, ds)) ->
  earliest_exec_time prop' = Some t ->
  (earliest_exec_time p = Some t \/
   t = Some (current_time_point (env_ctx e) + delay_sec h * 1000000)) ->
  life k (l ++ [(e, Approve k.1 k.2 lv hash)]) prop' (approved_row (env_ctx e) a lv rest).
Proof.
  intros (l1 & e0 & req & packed & l2 & -> & Hauth & Hc & []) Hperm Hx En Ek (ds & Hh) Et Ht.
  exists l1, e0, req, packed, (l2 ++ [(e, Approve k.1 k.2 lv hash)]). rewrite <- app_assoc.
  split_and!; [done..|].
  apply erase_first_Some in Hx as (r1 & r2 & Er & -> & Hlv%bool_decide_eq_true & _).
  assert (Hsnoc : forall y, y ∈ provided_approvals a ->
    approved_in k (NoDup req) (l2 ++ [(e, Approve k.1 k.2 lv hash)]) y).
  { intros y Hy. apply approved_snoc; [auto|]. done. }
  destruct al_header0 as (h' & ds' & rest' & Hh' & Ha' & t0 & Et0 & Hd).
  rewrite al_packed0, Hh' in Hh. injection Hh as <- <-.
  split; simpl.
  - apply Forall_app. split; [done|]. constructor; [by intros []|done].
  - by rewrite En.
  - congruence.
  - rewrite <- al_levels0, Er, !levels_app. simpl. rewrite Hlv. by solve_Permutation.
  - intros y [Hy| ->%list_elem_of_singleton]%elem_of_app; [auto|].
    exists l2, e, hash, []. by split_and!.
  - exists h', ds', rest'. split_and!; [done..|]. exists t. split; [done|]. intros t' ->.
    destruct Ht as [Ht|[= ->]].
    + apply delayed_snoc, Hd. congruence.
    + by exists l2, e, lv, hash, [].
Qed.

Lemma unapprove_life k l p a e lv prop' x rest t :
  life k l p a ->
  erase_first (is_level lv) (provided_approvals a) = Some (x, rest) ->
  proposal_name prop' = proposal_name p -> packed_transaction prop' = packed_transaction p ->
  earliest_exec_time prop' = Some t -> (earliest_exec_time p = Some t \/ t = None) ->
  life k (l ++ [(e, Unapprove k.1 k.2 lv)]) prop' (unapproved_row (env_ctx e) a lv rest).
Proof.
  intros (l1 & e0 & req & packed & l2 & -> & Hauth & Hc & []) Hx En Ek Et Ht.
  exists l1, e0, req, packed, (l2 ++ [(e, Unapprove k.1 k.2 lv)]). rewrite <- app_assoc.
  split_and!; [done..|].
  apply erase_first_Some in Hx as (r1 & r2 & Er & -> & Hlv%bool_decide_eq_true & _).
  destruct al_header0 as (h & ds & rest' & Hh & Ha & t0 & Et0 & Hd).
  split; simpl.
  - apply Forall_app. split; [done|]. constructor; [by intros []|done].
  - by rewrite En.
  - congruence.
  - rewrite <- al_levels0, Er, !levels_app. simpl. rewrite Hlv. by solve_Permutation.
  - intros y Hy. apply approved_snoc.
    { apply al_provided0. rewrite Er. set_solver. }
    intros Hnd [= E]. rewrite <- al_levels0, levels_app in Hnd.
    apply NoDup_app in Hnd as (_ & _ & Hnd). rewrite Er, levels_app in Hnd. simpl in Hnd.
    rewrite <- Permutation_middle in Hnd.
    apply NoDup_cons in Hnd as [Hnd _]. apply Hnd. rewrite Hlv, E, <- levels_app.
    by apply list_elem_of_fmap_2.
  - exists h, ds, rest'. split_and!; [done..|]. exists t. split; [done|]. intros t' ->.
    destruct Ht as [Ht|[=]]. apply delayed_snoc, Hd. congruence.
Qed.

Lemma approve_inv l e st p n lv hash st' es :
  0 <= current_time_point (env_ctx e) < 2 ^ 32 * 1000000 ->
  inv l st -> approve e st p n lv hash = Ok (st', es) ->
  inv (l ++ [(e, Approve p n lv hash)]) st'.
Proof.
  intros Hnow Hinv H. destruct (proposals st !! (p, n)) as [prop|] eqn:Hp.
  2:{ unfold approve in H. rewrite Hp in H. by apply bind_Ok in H as (? & _ & ?). }
  destruct (in_alive _ _ Hinv _ _ Hp) as (a & Ha & Hl).
  destruct (proj1 (approve_Ok _ _ _ _ _ _ _ _ _ _ Hp Ha) H)
    as (Hperm & _ & x & rest & h & prop' & Hx & (ds & Hh)%get_trx_header_Ok & Hs & -> & ->).
  destruct Hl as (l1 & e0 & req & packed & l2 & El & Hauth & Hc & Hal).
  pose proof Hal as [].
  destruct al_header0 as (h' & ds' & rest' & Hh' & Ha' & t & Et & Hd).
  destruct (law_header _ _ _ Hh) as [_ Hdelay].
  destruct (schedule_exec_Ok _ _ _ _ _ _ _ _ Et Hnow Hdelay Hs) as (En & Ek & t' & Et' & Ht').
  eapply (inv_step l st _ (p, n)); simpl; try done.
  { intros k' _. split; [by intros []|done]. }
  apply (approve_life (p, n) l prop a e lv hash prop' x rest h t'); try done.
  - by exists l1, e0, req, packed, l2.
  - by exists ds.
  - destruct Ht' as [->|]; [by left|by right].
Qed.

Lemma unapprove_inv l e st p n lv st' es :
  inv l st -> unapprove e st p n lv = Ok (st', es) -> inv (l ++ [(e, Unapprove p n lv)]) st'.
Proof.
  intros Hinv (Hperm & a & x & rest & prop & prop' & Ha & Hp & Hx & Hu & -> & ->)%unapprove_Ok.
  pose proof (life_of_in _ _ _ _ _ Hinv Hp Ha) as Hl.
  assert (exists t, earliest_exec_time prop = Some t) as [t Et].
  { destruct Hl as (l1 & e0 & req & packed & l2 & El & Hauth & Hc & Hal).
    pose proof Hal as []. destruct al_header0 as (? & ? & ? & _ & _ & t & Et & _). eauto. }
  destruct (unschedule_exec_Ok _ _ _ _ _ _ _ Et Hu) as (En & Ek & t' & Et' & Ht').
  eapply (inv_step l st _ (p, n)); simpl; try done.
  { intros k' Hk. split; [by intros []|]. intros lv' [= -> ->]. by destruct k'. }
  apply (unapprove_life (p, n) l prop a e lv prop' x rest t'); try done.
  destruct Ht' as [->|]; [by left|by right].
Qed.

Lemma invalidate_inv l e st account st' es :
  Forall (fun eo => now eo <= current_time_point (env_ctx e)) l ->
  inv l st -> invalidate e st account = Ok (st', es) -> inv (l ++ [(e, Invalidate account)]) st'.
Proof.
  intros Hclock Hinv (_ & (i & Ei & _ & ->) & ->)%invalidate_Ok. split; simpl.
  - intros k p Hp. destruct (in_alive _ _ Hinv _ _ Hp) as (a & Ha & Hl).
    exists a. split; [done|]. apply life_snoc; [by intros []|done|done].
  - apply (in_keys _ _ Hinv).
  - intros b eo Heo Hb. destruct (decide (b = account)) as [->|Hn].
    + rewrite lookup_insert_eq. exists i. split; [done|]. rewrite Ei.
      apply elem_of_app in Heo as [Heo| ->%list_elem_of_singleton]; [|done].
      rewrite Forall_forall in Hclock. by apply Hclock.
    + rewrite lookup_insert_ne by done. apply elem_of_app in Heo as [Heo|Heo].
      * by apply (in_invals _ _ Hinv).
      * apply list_elem_of_singleton in Heo as ->. simpl in Hb. congruence.
Qed.

Lemma cancel_inv l e st p n canceler st' es :
  inv l st -> Msig.cancel e st p n canceler = Ok (st', es) ->
  inv (l ++ [(e, CancelProposal p n canceler)]) st'.
Proof.
  intros Hinv (_ & _ & -> & ->)%cancel_Ok. by eapply (inv_end l st _ (p, n)).
Qed.

Lemma msig_exec_inv l e st p n executer st' es :
  inv l st -> exec e st p n executer = Ok (st', es) -> inv (l ++ [(e, Exec p n executer)]) st'.
Proof.
  intros Hinv (_ & prop & h & ds & ds' & rest & acts & _ & _ & _ & _ & _ & _ & _ & -> & _)%exec_Ok.
  by eapply (inv_end l st _ (p, n)).
Qed.

(** What the clock guarantees when an action is run after [l] *)
Definition ticks (l : history) (eo : env * op) : Prop :=
  0 <= now eo < 2 ^ 32 * 1000000 /\ Forall (fun x => now x <= now eo) l.

Lemma handle_inv l eo st st' es :
  inv l st -> ticks l eo -> handle eo st = Ok (st', es) -> inv (l ++ [eo]) st'.
Proof.
  destruct eo as [e o]. intros Hinv [Hnow Hclock] H. destruct o; simpl in H.
  - by eapply propose_inv.
  - by eapply approve_inv.
  - by eapply unapprove_inv.
  - by eapply cancel_inv.
  - by eapply msig_exec_inv.
  - by eapply invalidate_inv.
Qed.

Lemma clock_ticks l l1 eo l2 : clock_ok l -> l = l1 ++ eo :: l2 -> ticks l1 eo.
Proof.
  intros [Hs Hb] ->. apply Forall_app in Hb as [_ Hb]. apply Forall_cons in Hb as [Hb _].
  split; [done|]. apply StronglySorted_app in Hs as (Hs & _ & _). rewrite Forall_forall.
  intros x Hx. apply Hs; [done|by left].
Qed.

Lemma msig_run_inv l st es : clock_ok l -> run l init_state = Ok (st, es) -> inv l st.
Proof.
  intros Hl H. refine (runs_ind handle inv ticks init_state _ _ l st es _ H).
  - split; [done|done|]. intros a eo []%not_elem_of_nil.
  - intros l' o s s' es'. apply handle_inv.
  - intros l1 o l2. by apply clock_ticks.
Qed.

Lemma delayed_before l eo l1 x l2 k d t :
  clock_ok (l ++ [eo]) -> l ++ [eo] = l1 ++ x :: l2 -> delayed_in k l2 d t ->
  t <= now eo + d * 1000000.
Proof.
  intros [Hs _] El (m1 & e1 & lv & h & m2 & -> & ->).
  assert (Hin : (e1, Approve k.1 k.2 lv h) ∈ l ++ [eo]) by (rewrite El; set_solver).
  apply elem_of_app in Hin as [Hin| <-%list_elem_of_singleton]; [|unfold now; simpl; lia].
  apply StronglySorted_app in Hs as (Hs & _ & _).
  specialize (Hs _ eo Hin ltac:(by left)). unfold now in *. simpl in *. lia.
Qed.

Lemma schedule_exec_authorized e st p n prop h prop' :
  schedule_exec e st p n prop h = Ok prop' ->
  trx_is_authorized e (get_approvals st p n) (packed_transaction prop) = true ->
  earliest_exec_time prop' <> Some None.
Proof.
  unfold schedule_exec. intros H Ha. destruct (earliest_exec_time prop) as [[t|]|] eqn:Et.
  - injection H as <-. congruence.
  - rewrite Ha in H. by injection H as <-.
  - apply bind_Ok in H as (_ & _ & [= <-]). congruence.
Qed.

Lemma schedule_exec_packed e st p n prop h prop' :
  schedule_exec e st p n prop h = Ok prop' -> packed_transaction prop' = packed_transaction prop.
Proof.
  unfold schedule_exec. intros H. destruct (earliest_exec_time prop) as [[t|]|].
  - by injection H as <-.
  - destruct (trx_is_authorized _ _ _); by injection H as <-.
  - by apply bind_Ok in H as (_ & _ & [= <-]).
Qed.

(** ** The theorems *)

(** C13 (a transaction runs only with approvals in force).  After any sequence of
    actions, when [exec] succeeds: the transaction sent is the one its proposer signed
    for, with nothing lost or added; it has not expired; the host finds it authorised by levels that
    are among the levels the proposer asked for; each of them was given by an [approve], signed with
    that very permission after the proposal was made, and since then its account did not
    invalidate its approvals, nor (if the levels asked for are all different) was it
    taken back; a delay has passed since some approval; and the proposal is gone, so
    that it cannot run twice. *)
Theorem exec_approved l st es e p n executer st' es' :
  clock_ok (l ++ [(e, Exec p n executer)]) -> run l init_state = Ok (st, es) ->
  exec e st p n executer = Ok (st', es') ->
  has_auth (env_ctx e) executer = true /\
  exists l1 e0 req packed l2 h cfa acts levels others,
    l = l1 ++ (e0, Propose p n req packed) :: l2 /\ untouched (p, n) l2 /\
    has_auth (env_ctx e0) p = true /\
    read_transaction packed = Ok (h, cfa, acts) /\ cfa = [] /\ es' = Send <$> acts /\
    sec_of_time_point (current_time_point (env_ctx e)) <= expiration h /\
    trx_is_authorized e levels packed = true /\ req ≡ₚ levels ++ others /\
    (forall lv, lv ∈ levels -> exists m1 e1 hash m2,
      l2 = m1 ++ (e1, Approve p n lv hash) :: m2 /\ has_permission (env_ctx e1) lv = true /\
      Forall (fun eo => eo.2 <> Invalidate (actor lv)) m2 /\
      (NoDup req -> Forall (fun eo => eo.2 <> Unapprove p n lv) m2)) /\
    (delay_sec h = 0 \/ exists m1 e1 lv hash m2,
      l2 = m1 ++ (e1, Approve p n lv hash) :: m2 /\
      current_time_point (env_ctx e1) + delay_sec h * 1000000 <= current_time_point (env_ctx e)) /\
    proposals st' !! (p, n) = None /\ approvals st' !! (p, n) = None.
Proof.
  intros Hclock Hrun (Hauth & prop & h & ds & ds' & rest & acts & Hp & Hh & Hexp & Ha & Hacts & Htrx
    & Hripe & -> & ->)%exec_Ok.
  assert (Hclock' : clock_ok l).
  { destruct Hclock as [Hs Hb]. apply StronglySorted_app in Hs as (_ & Hs & _).
    by apply Forall_app in Hb as [Hb _]. }
  pose proof (msig_run_inv _ _ _ Hclock' Hrun) as Hinv. split; [done|].
  destruct (in_alive _ _ Hinv _ _ Hp) as (a & Happ & l1 & e0 & req & packed & l2 & El & Hauth0 & _ & []).
  destruct al_header0 as (h' & ds0 & rest' & Hh' & Ha' & t & Et & Hd).
  rewrite al_packed0 in *. rewrite Hh in Hh'. injection Hh' as <- <-.
  exists l1, e0, req, packed, l2, h, [], acts, (get_approvals st p n).
  unfold get_approvals, get_approvals_and_adjust_table in *. rewrite Happ in *. simpl in *.
  set (P := fun a => in_force (invalidations st) a = true) in *.
  exists (level <$> requested_approvals a ++ filter (fun x => ~ P x) (provided_approvals a)).
  split_and!; try done.
  - unfold read_transaction. rewrite Hh. cbn [mbind result_bind]. rewrite Ha.
    cbn [mbind result_bind]. by rewrite Hacts.
  - rewrite <- al_levels0, !levels_app.
    rewrite (Permutation_app_comm (level <$> filter P _)), <- app_assoc. f_equiv.
    rewrite <- levels_app. apply fmap_Permutation. rewrite Permutation_app_comm.
    symmetry. apply filter_app_complement.
  - intros lv (x & -> & [Hx Hin]%list_elem_of_filter)%list_elem_of_fmap.
    destruct (al_provided0 x Hin) as (m1 & e1 & hash & m2 & E2 & Hperm & Htime & Hun).
    exists m1, e1, hash, m2. split_and!; [done|done| |done].
    rewrite Forall_forall. intros eo Heo Hiv.
    destruct (in_invals _ _ Hinv (actor (level x)) eo) as (i & Hi & Hle); [|done|].
    { rewrite El, E2. set_solver. }
    unfold P, in_force in Hx. rewrite Hi in Hx. apply Z.ltb_lt in Hx.
    enough (now (e1, Approve p n (level x) hash) <= now eo) by (unfold now in *; simpl in *; lia).
    destruct Hclock' as [Hs _]. rewrite El, E2, app_comm_cons, app_assoc in Hs.
    apply StronglySorted_app in Hs as (_ & _ & Hs).
    apply StronglySorted_cons in Hs as [Hs _]. rewrite Forall_forall in Hs. by apply Hs.
  - unfold ripe in Hripe. rewrite Et in Hripe. destruct t as [t|]; [right|by left].
    destruct (Hd t eq_refl) as (m1 & e1 & lv & hash & m2 & E2 & ->).
    exists m1, e1, lv, hash, m2. done.
  - apply lookup_delete_eq.
  - apply lookup_delete_eq.
Qed.

(** C30 (an approved transaction can run).  When the host finds the transaction authorised right after an
    [approve] that succeeded, then from that approval's time plus the delay on, until it
    expires, anyone can [exec] it, as long as the host still finds it authorised; all its
    actions are sent.  The documentation of [exec] asks for more, that all requested approvals were
    received and that no approver is in the invalidations table; to the code the host's answer is enough,
    about the approvals given and not invalidated since. *)
Theorem approved_can_run l st es e p n lv hash st1 es1 :
  clock_ok (l ++ [(e, Approve p n lv hash)]) -> run l init_state = Ok (st, es) ->
  approve e st p n lv hash = Ok (st1, es1) ->
  exists packed h,
    (packed_transaction <$> proposals st1 !! (p, n) = Some packed) /\
    get_trx_header packed = Ok h /\
    forall e2 executer cfa acts,
      let levels := get_approvals st1 p n in
      trx_is_authorized e levels packed = true -> trx_is_authorized e2 levels packed = true ->
      read_transaction packed = Ok (h, cfa, acts) -> has_auth (env_ctx e2) executer = true ->
      current_time_point (env_ctx e) + delay_sec h * 1000000 <= current_time_point (env_ctx e2) ->
      sec_of_time_point (current_time_point (env_ctx e2)) <= expiration h ->
      exists st2, exec e2 st1 p n executer = Ok (st2, Send <$> acts).
Proof.
  intros Hclock Hrun H.
  assert (Hinv : inv (l ++ [(e, Approve p n lv hash)]) st1).
  { apply (msig_run_inv _ st1 (es ++ es1) Hclock). apply runs_snoc. by exists st, es, es1. }
  destruct (proposals st !! (p, n)) as [prop|] eqn:Hp.
  2:{ unfold approve in H. rewrite Hp in H. by apply bind_Ok in H as (? & _ & ?). }
  destruct (approvals st !! (p, n)) as [a|] eqn:Ha.
  2:{ destruct (in_alive l st) with (k := (p, n)) (p := prop) as (a & Ha' & _); [|done|congruence].
      apply (msig_run_inv l st es); [|done]. destruct Hclock as [Hs Hb].
      apply StronglySorted_app in Hs as (_ & Hs & _). by apply Forall_app in Hb as [Hb _]. }
  destruct (proj1 (approve_Ok _ _ _ _ _ _ _ _ _ _ Hp Ha) H)
    as (_ & _ & x & rest & h & prop' & Hx & Hh & Hs & -> & ->).
  set (st1 := State _ _ _) in *.
  destruct (in_alive _ _ Hinv (p, n) prop') as (b & Hb & l1 & e0 & req & packed & l2 & El & _ & _ & []);
    [apply lookup_insert_eq|].
  destruct al_header0 as (h0 & ds & rest' & Hh0 & Ha0 & t & Et & Hd).
  pose proof (schedule_exec_packed _ _ _ _ _ _ _ Hs) as Ek.
  exists packed, h. apply get_trx_header_Ok in Hh as (ds1 & Hh).
  rewrite <- Ek, al_packed0, Hh0 in Hh. injection Hh as <- <-.
  split; [simpl; by rewrite lookup_insert_eq; simpl; rewrite al_packed0|].
  split; [by apply get_trx_header_Ok; eexists|].
  intros e2 executer cfa acts levels Hauth1 Hauth2 Hread Hex Hdelay Hexp.
  unfold read_transaction in Hread. rewrite Hh0 in Hread. cbn [mbind result_bind] in Hread.
  rewrite Ha0 in Hread. cbn [mbind result_bind] in Hread.
  apply bind_Ok in Hread as ([acts' rest2] & Hread & [= <- <-]).
  eexists. apply exec_Ok. split; [done|].
  exists prop', h0, ds, rest', rest2, acts'. rewrite al_packed0.
  split_and!; try done; [apply lookup_insert_eq|]. unfold ripe. rewrite Et.
  destruct t as [t|].
  - pose proof (delayed_before _ _ _ _ _ _ _ _ Hclock El (Hd t eq_refl)) as Ht.
    unfold now in Ht. simpl in Ht. lia.
  - destruct (schedule_exec_authorized _ _ _ _ _ _ _ Hs); [|done]. by rewrite <- Ek, al_packed0.
Qed.

(** Proposing, then cancelling.  After a [propose] the same name cannot be proposed again; the
    proposer can cancel at any time, another account exactly when the transaction has
    expired; and cancelling leaves every table as it was before the proposal. *)
Theorem propose_cancel_roundtrip e st p n req packed st1 es1 :
  propose e st p n req packed = Ok (st1, es1) ->
  exists h, get_trx_header packed = Ok h /\
  (forall e2 req2 packed2, is_ok (propose e2 st1 p n req2 packed2) = false) /\
  forall e2 who st2 es2,
    Msig.cancel e2 st1 p n who = Ok (st2, es2) <->
    has_auth (env_ctx e2) who = true /\
    (who = p \/ expiration h < sec_of_time_point (current_time_point (env_ctx e2))) /\
    st2 = st /\ es2 = [].
Proof.
  intros (_ & _ & _ & (h & ds & rest & Hh & _ & _) & H1 & H2 & _ & -> & ->)%propose_Ok.
  exists h. split; [by apply get_trx_header_Ok; eexists|]. split.
  - intros e2 req2 packed2. destruct (propose e2 _ p n req2 packed2) as [[st3 es3]|] eqn:E; [|done].
    apply propose_Ok in E as (_ & _ & _ & _ & E & _). simpl in E.
    by rewrite lookup_insert_eq in E.
  - intros e2 who st2 es2. rewrite cancel_Ok. simpl. rewrite !delete_insert_id by done.
    assert (Est : State (proposals st) (approvals st) (invalidations st) = st) by (by destruct st).
    rewrite Est. split.
    + intros (Ha & (prop & Hp & Hw) & -> & ->). split_and!; try done.
      rewrite lookup_insert_eq in Hp. injection Hp as <-. simpl in Hw.
      destruct Hw as [|(h' & ds' & Hh' & Hx)]; [by left|right]. congruence.
    + intros (Ha & Hw & -> & ->). split_and!; try done. eexists. rewrite lookup_insert_eq.
      split; [done|]. simpl. destruct Hw as [|Hx]; [by left|right]. by exists h, ds.
Qed.
End invariant.

(** ** Examples *)

Definition alice : name := ref_name_lit 59 "alice".
Definition bob : name := ref_name_lit 59 "bob".
Definition carol : name := ref_name_lit 59 "carol".
Definition active_level (n : name) : permission_level := PermissionLevel n (ref_name_lit 59 "active").
(** The host wants both alice and bob. *)
Definition ex_env (t : time_point) : env :=
  Env (ref_ctx 9 t) (fun _ packed_levels =>
    if bool_decide (alice ∈ packed_levels /\ bob ∈ packed_levels) then 1 else 0).
(** Expires at second 1000, delay 60 seconds; one action *)
Definition ex_trx : bytes := [1000; 60; 0; 1; 77; 78; 79].
Definition sec (n : Z) : time_point := n * 1000000.
Definition ex_name : name := 5.
Definition ex_ops : history :=
  [(ex_env (sec 10), Invalidate alice);
   (ex_env (sec 20), Propose carol ex_name [active_level bob; active_level alice] ex_trx);
   (ex_env (sec 30), Approve carol ex_name (active_level alice) (Some ex_trx))].
Definition ex_approve : env * op := (ex_env (sec 40), Approve carol ex_name (active_level bob) None).
Definition state_after (l : history) : state :=
  match run l init_state with Ok (st, _) => st | Err _ => init_state end.

Lemma msig_ex_clock l t :
  bool_decide (Sorted Z.le (now <$> l)) = true ->
  forallb (fun eo => (0 <=? now eo) && (now eo <=? t)) l = true -> t < 2 ^ 32 * 1000000 -> clock_ok l.
Proof.
  intros Hs%bool_decide_eq_true Hb Ht. split.
  - apply Sorted_StronglySorted; [intros x y z; lia|]. clear Hb.
    induction l as [|a l IH]; [constructor|]. simpl in Hs. apply Sorted_inv in Hs as [Hs Ha].
    constructor; [auto|]. destruct l; constructor. by apply HdRel_inv in Ha.
  - apply Forall_forall. intros eo Heo. rewrite forallb_forall in Hb.
    specialize (Hb eo). rewrite <- list_elem_of_In in Hb. specialize (Hb Heo). to_prop. lia.
Qed.

Definition ex_all : history := ex_ops ++ [ex_approve].
Lemma msig_ex_run : exists es, run ex_all init_state = Ok (state_after ex_all, es).
Proof. exists []. vm_compute. reflexivity. Qed.

Lemma exec_approved_witness :
  exists st' es', exec (ex_env (sec 100)) (state_after ex_all) carol ex_name bob = Ok (st', es') /\
    es' = [Send (Action 77 [active_level 77] (raw_call 78 [79]))] /\
    proposals st' !! (carol, ex_name) = None.
Proof.
  destruct (exec (ex_env (sec 100)) (state_after ex_all) carol ex_name bob)
    as [[st' es']|] eqn:E; [|vm_compute in E; discriminate].
  destruct msig_ex_run as [es Hrun]. exists st', es'. split; [done|].
  destruct (exec_approved ex_all (state_after ex_all) es (ex_env (sec 100)) carol ex_name bob st' es'
    ltac:(apply (msig_ex_clock _ (sec 100)); vm_compute; reflexivity) Hrun E)
    as (_ & l1 & e0 & req & packed & l2 & h & cfa & acts & levels & others & El & _ & _ & Hread
        & _ & Hes & _ & _ & _ & _ & _ & Hgone & _).
  split; [|exact Hgone]. vm_compute in E. injection E as _ <-. reflexivity.
Defined.

Lemma approved_can_run_witness :
  exists st1 es1 st2, approve (ex_env (sec 40)) (state_after ex_ops) carol ex_name (active_level bob) None
      = Ok (st1, es1) /\
    exec (ex_env (sec 100)) st1 carol ex_name alice =
      Ok (st2, Send <$> [Action 77 [active_level 77] (raw_call 78 [79])]).
Proof.
  destruct (approve (ex_env (sec 40)) (state_after ex_ops) carol ex_name (active_level bob) None)
    as [[st1 es1]|] eqn:E; [|vm_compute in E; discriminate].
  assert (Hrun : run ex_ops init_state = Ok (state_after ex_ops, [])) by (vm_compute; reflexivity).
  destruct (approved_can_run ex_ops (state_after ex_ops) [] (ex_env (sec 40)) carol ex_name
    (active_level bob) None st1 es1 ltac:(apply (msig_ex_clock _ (sec 100)); vm_compute; reflexivity) Hrun E)
    as (packed & h & Hp & Hh & H).
  vm_compute in E. injection E as <- <-. vm_compute in Hp. injection Hp as <-.
  vm_compute in Hh. injection Hh as <-.
  destruct (H (ex_env (sec 100)) alice [] [Action 77 [active_level 77] (raw_call 78 [79])])
    as (st2 & H2); [vm_compute; reflexivity..| |vm_compute; discriminate|].
  - vm_compute. discriminate.
  - eexists _, _, st2. split; [reflexivity|exact H2].
Defined.

Lemma propose_cancel_roundtrip_witness :
  exists st1 es1, propose (ex_env (sec 20)) init_state carol ex_name [active_level bob; active_level alice]
      ex_trx = Ok (st1, es1) /\
    Msig.cancel (ex_env (sec 30)) st1 carol ex_name carol = Ok (init_state, []).
Proof.
  destruct (propose (ex_env (sec 20)) init_state carol ex_name [active_level bob; active_level alice] ex_trx)
    as [[st1 es1]|] eqn:E; [|vm_compute in E; discriminate].
  exists st1, es1. split; [done|].
  destruct (propose_cancel_roundtrip _ _ _ _ _ _ _ _ E) as (h & _ & _ & H).
  apply H. split; [reflexivity|]. split; [by left|]. by split.
Defined.
