(* ===== verification/Token.v ===== *)
(** * flon.token: fungible tokens

    [contracts/flon.token/src/flon.token.cpp] with the row types of its header.  The
    [accounts] table is scoped by owner and keyed by the symbol code, [stat] is scoped and
    keyed by the symbol code; both are one finite map keyed by (scope, primary key).
    After the operations: the ledger they implement, its invariant, and the theorems. *)
From S2P Require Import Prelude Cdt CdtRef.
From Stdlib Require Import ZArith Lia String.
From stdpp Require Import base tactics numbers list gmap relations.
Open Scope Z_scope.

(** ** Tables *)

Record account : Type := Account { balance : asset }.

Record currency_stats : Type := CurrencyStats {
  supply : asset;
  max_supply : asset;
  issuer : name;
}.

Record state : Type := State {
  accounts : gmap (name * sym_code) account;
  stats : gmap (sym_code * sym_code) currency_stats;
}.

Definition init_state : state := State ∅ ∅.

Section operations.
Context {cdt : Cdt}.

Definition account_primary_key (a : account) : sym_code :=
  symbol_code (asset_symbol (balance a)).
Definition stats_primary_key (s : currency_stats) : sym_code :=
  symbol_code (asset_symbol (supply s)).

(** ** Static getters *)

Definition get_supply (st : state) (code : sym_code) : result asset :=
  s ← get_or (stats st !! (code, code)) "invalid supply symbol code"; mret (supply s).
Definition get_max_supply (st : state) (code : sym_code) : result asset :=
  s ← get_or (stats st !! (code, code)) "invalid supply symbol code"; mret (max_supply s).
Definition get_issuer (st : state) (code : sym_code) : result name :=
  s ← get_or (stats st !! (code, code)) "invalid supply symbol code"; mret (issuer s).
Definition get_balance (st : state) (owner : name) (code : sym_code) : result asset :=
  a ← get_or (accounts st !! (owner, code)) "no balance with specified symbol";
  mret (balance a).

(** ** Balance changes *)

Definition sub_balance (accts : gmap (name * sym_code) account) (owner : name)
    (value : asset) : result (gmap (name * sym_code) account) :=
  let pk := symbol_code (asset_symbol value) in
  from ← get_or (accts !! (owner, pk)) "no balance object found";
  ensure amount value <=? amount (balance from) else "overdrawn balance";
  b ← asset_sub (balance from) value;
  mret (<[(owner, pk) := Account b]> accts).

Definition add_balance (accts : gmap (name * sym_code) account) (owner : name)
    (value : asset) (ram_payer : name) : result (gmap (name * sym_code) account) :=
  let pk := symbol_code (asset_symbol value) in
  match accts !! (owner, pk) with
  | None =>
      let row := Account value in
      emplace accts (owner, account_primary_key row) row
  | Some to =>
      b ← asset_add (balance to) value;
      mret (<[(owner, pk) := Account b]> accts)
  end.

(** ** Actions *)

Definition create (c : ctx) (st : state) (issuer : name) (maximum_supply : asset)
    : result (state * list effect) :=
  _ ← require_auth c (get_self c);
  let s := asset_symbol maximum_supply in
  ensure asset_valid maximum_supply else "invalid supply";
  ensure 0 <? amount maximum_supply else "max-supply must be positive";
  ensure bool_decide (stats st !! (symbol_code s, symbol_code s) = None)
    else "token with symbol already exists";
  let row := CurrencyStats (Asset 0 s) maximum_supply issuer in
  stats' ← emplace (stats st) (symbol_code s, stats_primary_key row) row;
  mret (State (accounts st) stats', []).

Definition issue (c : ctx) (st : state) (to : name) (quantity : asset) (memo : string)
    : result (state * list effect) :=
  let s := asset_symbol quantity in
  ensure symbol_valid s else "invalid symbol name";
  ensure Z.of_nat (String.length memo) <=? 256 else "memo has more than 256 bytes";
  let k := (symbol_code s, symbol_code s) in
  row ← get_or (stats st !! k)
    "token with symbol does not exist, create token before issue";
  ensure to =? issuer row else "tokens can only be issued to issuer account";
  _ ← require_auth c (issuer row);
  ensure asset_valid quantity else "invalid quantity";
  ensure 0 <? amount quantity else "must issue positive quantity";
  ensure asset_symbol quantity =? asset_symbol (supply row) else "symbol precision mismatch";
  ensure amount quantity <=? i64 (amount (max_supply row) - amount (supply row))
    else "quantity exceeds available supply";
  supply' ← asset_add (supply row) quantity;
  let stats' := <[k := CurrencyStats supply' (max_supply row) (issuer row)]> (stats st) in
  accounts' ← add_balance (accounts st) (issuer row) quantity (issuer row);
  mret (State accounts' stats', []).

Definition retire (c : ctx) (st : state) (quantity : asset) (memo : string)
    : result (state * list effect) :=
  let s := asset_symbol quantity in
  ensure symbol_valid s else "invalid symbol name";
  ensure Z.of_nat (String.length memo) <=? 256 else "memo has more than 256 bytes";
  let k := (symbol_code s, symbol_code s) in
  row ← get_or (stats st !! k) "token with symbol does not exist";
  _ ← require_auth c (issuer row);
  ensure asset_valid quantity else "invalid quantity";
  ensure 0 <? amount quantity else "must retire positive quantity";
  ensure asset_symbol quantity =? asset_symbol (supply row) else "symbol precision mismatch";
  supply' ← asset_sub (supply row) quantity;
  let stats' := <[k := CurrencyStats supply' (max_supply row) (issuer row)]> (stats st) in
  accounts' ← sub_balance (accounts st) (issuer row) quantity;
  mret (State accounts' stats', []).

Definition transfer (c : ctx) (st : state) (from to : name) (quantity : asset) (memo : string)
    : result (state * list effect) :=
  ensure negb (from =? to) else "cannot transfer to self";
  _ ← require_auth c from;
  ensure is_account c to else "to account does not exist";
  let code := symbol_code (asset_symbol quantity) in
  row ← get_or (stats st !! (code, code)) "unable to find key";
  let notifications := [RequireRecipient from; RequireRecipient to] in
  ensure asset_valid quantity else "invalid quantity";
  ensure 0 <? amount quantity else "must transfer positive quantity";
  ensure asset_symbol quantity =? asset_symbol (supply row) else "symbol precision mismatch";
  ensure Z.of_nat (String.length memo) <=? 256 else "memo has more than 256 bytes";
  let payer := if has_auth c to then to else from in
  accounts1 ← sub_balance (accounts st) from quantity;
  accounts2 ← add_balance accounts1 to quantity payer;
  mret (State accounts2 (stats st), notifications).

Definition open (c : ctx) (st : state) (owner : name) (s : symbol) (ram_payer : name)
    : result (state * list effect) :=
  _ ← require_auth c ram_payer;
  ensure is_account c owner else "owner account does not exist";
  let code := symbol_code s in
  row ← get_or (stats st !! (code, code)) "symbol does not exist";
  ensure asset_symbol (supply row) =? s else "symbol precision mismatch";
  match accounts st !! (owner, code) with
  | Some _ => mret (st, [])
  | None =>
      zero ← asset_ctor 0 s;
      let a := Account zero in
      accounts' ← emplace (accounts st) (owner, account_primary_key a) a;
      mret (State accounts' (stats st), [])
  end.

Definition close (c : ctx) (st : state) (owner : name) (s : symbol)
    : result (state * list effect) :=
  _ ← require_auth c owner;
  let k := (owner, symbol_code s) in
  a ← get_or (accounts st !! k)
    "Balance row already deleted or never existed. Action won't have any effect.";
  ensure amount (balance a) =? 0 else "Cannot close because the balance is not zero.";
  mret (State (delete k (accounts st)) (stats st), []).

End operations.

(** ** The contract as a state machine *)

Inductive op : Type :=
| op_create (issuer : name) (maximum_supply : asset)
| op_issue (to : name) (quantity : asset) (memo : string)
| op_retire (quantity : asset) (memo : string)
| op_transfer (from to : name) (quantity : asset) (memo : string)
| op_open (owner : name) (s : symbol) (ram_payer : name)
| op_close (owner : name) (s : symbol).

(** Arguments are values of their C++ types: amounts are [int64_t]. *)
Definition op_typed (o : op) : Prop :=
  match o with
  | op_create _ q | op_issue _ q _ | op_retire q _ | op_transfer _ _ q _ => is_i64 (amount q)
  | op_open _ _ _ | op_close _ _ => True
  end.

Section machine.
Context {cdt : Cdt}.

Definition exec (c : ctx) (o : op) (st : state) : result (state * list effect) :=
  match o with
  | op_create i q => create c st i q
  | op_issue to q m => issue c st to q m
  | op_retire q m => retire c st q m
  | op_transfer from to q m => transfer c st from to q m
  | op_open owner s p => open c st owner s p
  | op_close owner s => close c st owner s
  end.

(** A sequence of successful actions, by anyone, with any arguments (a failing action
    leaves no trace). *)
Fixpoint run (l : list (ctx * op)) (st : state) : result state :=
  match l with
  | [] => Ok st
  | (c, o) :: l' => '(st', _) ← exec c o st; run l' st'
  end.

Definition reachable (st : state) : Prop :=
  exists l, Forall (fun co => op_typed co.2) l /\ run l init_state = Ok st.

(** ** Invariant *)

Definition holds (code : sym_code) (k : name * sym_code) (a : account) : Z :=
  if k.2 =? code then amount (balance a) else 0.

(** The sum of all balances of one token *)
Definition balance_sum (accts : gmap (name * sym_code) account) (code : sym_code) : Z :=
  msum (holds code) accts.

Record stats_row_ok (k : sym_code * sym_code) (s : currency_stats) : Prop := {
  row_key : k = (stats_primary_key s, stats_primary_key s);
  row_symbol : asset_symbol (max_supply s) = asset_symbol (supply s);
  row_valid : symbol_valid (asset_symbol (supply s)) = true;
  row_bounds : 0 <= amount (supply s) <= amount (max_supply s);
  row_max : amount (max_supply s) <= max_amount;
}.

(** An account row is a non-negative amount of an existing token. *)
Definition account_row_ok (sts : gmap (sym_code * sym_code) currency_stats)
    (k : name * sym_code) (a : account) : Prop :=
  0 <= amount (balance a) /\
  exists s, sts !! (k.2, k.2) = Some s /\ asset_symbol (balance a) = asset_symbol (supply s).

Record inv (st : state) : Prop := {
  inv_stats : forall k s, stats st !! k = Some s -> stats_row_ok k s;
  inv_accounts : forall k a, accounts st !! k = Some a -> account_row_ok (stats st) k a;
  inv_sum : forall code s, stats st !! (code, code) = Some s ->
    balance_sum (accounts st) code = amount (supply s);
}.

End machine.

(** ** Lemmas on balances *)

Section balances.
Context {cdt : Cdt} {laws : CdtLaws}.
Implicit Types (accts : gmap (name * sym_code) account).

Lemma balance_sum_insert accts o code b v :
  balance_sum (<[(o, code) := Account b]> accts) v =
  balance_sum accts v +
  (if code =? v then amount b - default 0 (amount ∘ balance <$> accts !! (o, code)) else 0).
Proof.
  unfold balance_sum. destruct (accts !! (o, code)) as [a|] eqn:E; simpl.
  - rewrite (msum_insert_Some _ _ _ _ _ E). unfold holds; simpl. destruct (code =? v); lia.
  - rewrite msum_insert_None by done. unfold holds; simpl. destruct (code =? v); lia.
Qed.

(** A single balance is at most the sum. *)
Lemma balance_le_sum accts sts o code a :
  (forall k a, accts !! k = Some a -> account_row_ok sts k a) ->
  accts !! (o, code) = Some a -> amount (balance a) <= balance_sum accts code.
Proof.
  intros Hok Ha. unfold balance_sum.
  pose proof (msum_member (holds code) accts (o, code) a) as Hm.
  unfold holds in Hm at 2; simpl in Hm. rewrite Z.eqb_refl in Hm. apply Hm; [|done].
  intros k a' Ha'. unfold holds. destruct (Hok _ _ Ha') as [? _]. by destruct (_ =? _).
Qed.

(** Two different owners' balances together are at most the sum. *)
Lemma two_balances_le_sum accts sts o1 o2 code a1 a2 :
  (forall k a, accts !! k = Some a -> account_row_ok sts k a) -> o1 <> o2 ->
  accts !! (o1, code) = Some a1 -> accts !! (o2, code) = Some a2 ->
  amount (balance a1) + amount (balance a2) <= balance_sum accts code.
Proof.
  intros Hok Hne H1 H2. unfold balance_sum.
  rewrite (msum_delete _ _ _ _ H1). unfold holds at 1; simpl. rewrite Z.eqb_refl.
  assert (H2' : delete (o1, code) accts !! (o2, code) = Some a2)
    by (rewrite lookup_delete_ne; [done|congruence]).
  enough (amount (balance a2) <= msum (holds code) (delete (o1, code) accts)) by lia.
  change (msum (holds code) (delete (o1, code) accts))
    with (balance_sum (delete (o1, code) accts) code).
  eapply balance_le_sum; [|done]. intros k a [_ Ha]%lookup_delete_Some. eauto.
Qed.

Lemma balance_sum_none accts sts code :
  (forall k a, accts !! k = Some a -> account_row_ok sts k a) ->
  sts !! (code, code) = None -> balance_sum accts code = 0.
Proof.
  intros Hok Hn. unfold balance_sum. rewrite <- (msum_zero accts). apply msum_ext.
  intros k a Ha. unfold holds. destruct (Z.eqb_spec (k.2) code) as [<-|]; [|done].
  destruct (Hok _ _ Ha) as (_ & s & Hs & _). congruence.
Qed.

Lemma sub_balance_Ok accts owner value accts' :
  (forall a, accts !! (owner, symbol_code (asset_symbol value)) = Some a ->
     in_range (amount (balance a))) ->
  0 <= amount value -> is_i64 (amount value) ->
  sub_balance accts owner value = Ok accts' <->
  exists a, accts !! (owner, symbol_code (asset_symbol value)) = Some a /\
    amount value <= amount (balance a) /\ asset_symbol (balance a) = asset_symbol value /\
    accts' = <[(owner, symbol_code (asset_symbol value)) :=
      Account (Asset (amount (balance a) - amount value) (asset_symbol value))]> accts.
Proof.
  intros Hr Hv Hi. unfold sub_balance. split.
  - intros E. ok_inv. to_prop.
    match goal with HA : accts !! _ = Some ?a, HS : asset_sub _ _ = Ok _ |- _ =>
      exists a; specialize (Hr a HA); apply law_asset_sub in HS as (Hsym & _ & ->); [|done..] end.
    rewrite Hsym. eauto.
  - intros (a & HA & Hle & HS & ->). rewrite HA. specialize (Hr a HA). simpl.
    rewrite (proj2 (Z.leb_le _ _) Hle). simpl.
    rewrite asset_sub_Ok, HS; [done|..]; [done|done|done|].
    unfold_range. lia.
Qed.

Lemma add_balance_Ok accts owner value payer accts' :
  (forall a, accts !! (owner, symbol_code (asset_symbol value)) = Some a ->
     in_range (amount (balance a)) /\ asset_symbol (balance a) = asset_symbol value) ->
  is_i64 (amount value) ->
  let old := default 0 (amount ∘ balance <$>
    accts !! (owner, symbol_code (asset_symbol value))) in
  in_range (old + amount value) ->
  add_balance accts owner value payer = Ok accts' <->
  accts' = <[(owner, symbol_code (asset_symbol value)) :=
    Account (Asset (old + amount value) (asset_symbol value))]> accts.
Proof.
  intros Hr Hi old Ho. unfold add_balance, account_primary_key, emplace. simpl. subst old.
  destruct (accts !! _) as [a|] eqn:E; simpl in *.
  - destruct (Hr a eq_refl) as [Hra Hs].
    rewrite asset_add_Ok by (done || by rewrite Hs). simpl. rewrite Hs.
    unfold mret, result_ret. naive_solver.
  - destruct value as [n s]; simpl. naive_solver.
Qed.
End balances.

(** ** What each action does, exactly *)

Section actions.
Context {cdt : Cdt} {laws : CdtLaws}.
Implicit Types (st : state) (c : ctx) (q : asset).

Lemma inv_account_range st o code a :
  inv st -> accounts st !! (o, code) = Some a -> 0 <= amount (balance a) <= max_amount.
Proof.
  intros [Hs Ha Hsum] E. destruct (Ha _ _ E) as (Hn & s & Es & _); simpl in *.
  pose proof (balance_le_sum _ _ _ _ _ Ha E). rewrite (Hsum _ _ Es) in *.
  destruct (Hs _ _ Es). lia.
Qed.

Lemma inv_account_symbol st o code a s :
  inv st -> accounts st !! (o, code) = Some a -> stats st !! (code, code) = Some s ->
  asset_symbol (balance a) = asset_symbol (supply s).
Proof. intros [_ Ha _] E Es. destruct (Ha _ _ E) as (_ & s' & Es' & ->). simpl in *. congruence. Qed.

(** The token exists with the symbol of [q], [q] is a positive valid quantity and the
    memo fits. *)
Definition quantity_ok st q (memo : string) : Prop :=
  asset_valid q = true /\ 0 < amount q /\ Z.of_nat (String.length memo) <= 256 /\
  exists s, stats st !! (symbol_code (asset_symbol q), symbol_code (asset_symbol q)) = Some s /\
    asset_symbol q = asset_symbol (supply s).

(** [o] holds at least [q]. *)
Definition can_pay st (o : name) q : Prop :=
  exists a, accounts st !! (o, symbol_code (asset_symbol q)) = Some a /\
    amount q <= amount (balance a).

Definition balance_of st (o : name) (code : sym_code) : Z :=
  default 0 (amount ∘ balance <$> accounts st !! (o, code)).

Definition set_balance (accts : gmap (name * sym_code) account) (o : name) (s : symbol) (n : Z) :=
  <[(o, symbol_code s) := Account (Asset n s)]> accts.

Definition transfer_post st (from to : name) q : state :=
  let s := asset_symbol q in
  let accts := set_balance (accounts st) from s (balance_of st from (symbol_code s) - amount q) in
  State (set_balance accts to s (balance_of st to (symbol_code s) + amount q)) (stats st).

Lemma sub_balance_inv st owner q accts' s :
  inv st -> 0 <= amount q -> is_i64 (amount q) ->
  stats st !! (symbol_code (asset_symbol q), symbol_code (asset_symbol q)) = Some s ->
  asset_symbol q = asset_symbol (supply s) ->
  sub_balance (accounts st) owner q = Ok accts' <->
  can_pay st owner q /\
  accts' = set_balance (accounts st) owner (asset_symbol q)
    (balance_of st owner (symbol_code (asset_symbol q)) - amount q).
Proof.
  intros Hinv H0 Hi Hs Hsym. rewrite sub_balance_Ok; [|intros a Ha|done..].
  - unfold can_pay, balance_of, set_balance. split.
    + intros (a & -> & Hle & _ & ->); simpl. eauto.
    + intros ((a & Ha & Hle) & ->). exists a. rewrite Ha. simpl.
      rewrite (inv_account_symbol _ _ _ _ _ Hinv Ha Hs). auto.
  - pose proof (inv_account_range _ _ _ _ Hinv Ha). unfold_range; lia.
Qed.

(** The credit after a debit never overflows: the two balances together are at most the
    supply. *)
Lemma add_balance_after_sub st from to q payer accts2 s :
  inv st -> from <> to -> 0 <= amount q -> is_i64 (amount q) ->
  stats st !! (symbol_code (asset_symbol q), symbol_code (asset_symbol q)) = Some s ->
  asset_symbol q = asset_symbol (supply s) -> can_pay st from q ->
  add_balance (accounts (State (set_balance (accounts st) from (asset_symbol q)
    (balance_of st from (symbol_code (asset_symbol q)) - amount q)) (stats st)))
    to q payer = Ok accts2 <-> accts2 = accounts (transfer_post st from to q).
Proof.
  intros Hinv Hne H0 Hi Hs Hsym (af & Haf & Hle). simpl.
  assert (L : forall v, set_balance (accounts st) from (asset_symbol q) v
      !! (to, symbol_code (asset_symbol q)) = accounts st !! (to, symbol_code (asset_symbol q))).
  { intros v. unfold set_balance. rewrite lookup_insert_ne; [done|congruence]. }
  rewrite add_balance_Ok; [by rewrite L| | done |].
  - intros a Ha. rewrite L in Ha. split.
    + pose proof (inv_account_range _ _ _ _ Hinv Ha). unfold_range; lia.
    + rewrite Hsym. by eapply inv_account_symbol.
  - rewrite L. pose proof (inv_account_range _ _ _ _ Hinv Haf).
    destruct (accounts st !! (to, _)) as [at'|] eqn:Hat; simpl; [|unfold_range; lia].
    pose proof (two_balances_le_sum _ _ _ _ _ _ _ (inv_accounts _ Hinv) Hne Haf Hat).
    pose proof (inv_account_range _ _ _ _ Hinv Hat).
    rewrite (inv_sum _ Hinv _ _ Hs) in *. destruct (inv_stats _ Hinv _ _ Hs).
    unfold_range; lia.
Qed.

Lemma transfer_Ok c st from to q memo st' es :
  inv st -> is_i64 (amount q) ->
  transfer c st from to q memo = Ok (st', es) <->
  from <> to /\ has_auth c from = true /\ is_account c to = true /\
  quantity_ok st q memo /\ can_pay st from q /\
  st' = transfer_post st from to q /\ es = [RequireRecipient from; RequireRecipient to].
Proof.
  intros Hinv Hi. unfold transfer, require_auth, quantity_ok. split.
  - intros E. ok_inv. to_prop. subst.
    match goal with Hs : stats st !! _ = Some ?s, Hsub : sub_balance _ _ _ = Ok _,
      Hadd : add_balance _ _ _ _ = Ok _ |- _ =>
      apply (sub_balance_inv _ _ _ _ s) in Hsub as [Hpay ->]; try done; try lia;
      apply (add_balance_after_sub _ _ _ _ _ _ s) in Hadd as ->; try done; try lia end.
    eauto 12.
  - intros (Hne & Ha & Hac & (Hv & Hp & Hm & s & Hs & Hsym) & Hpay & -> & ->).
    rewrite Ha, Hac, Hv, Hs, (proj2 (Z.eqb_neq _ _) Hne). simpl.
    rewrite (proj2 (Z.ltb_lt _ _) Hp), (proj2 (Z.eqb_eq _ _) Hsym), (proj2 (Z.leb_le _ _) Hm).
    simpl. eapply bind_step;
      [apply (sub_balance_inv _ _ _ _ s); try done; lia|].
    cbn beta. eapply bind_step;
      [apply (add_balance_after_sub _ _ _ _ _ _ s); try done; lia|].
    done.
Qed.

Definition set_supply st (code : sym_code) (s : currency_stats) (n : Z) :
    gmap (sym_code * sym_code) currency_stats :=
  <[(code, code) := CurrencyStats (Asset n (asset_symbol (supply s))) (max_supply s) (issuer s)]>
    (stats st).

Lemma add_balance_issue st owner q payer accts' s :
  inv st -> 0 <= amount q -> is_i64 (amount q) ->
  stats st !! (symbol_code (asset_symbol q), symbol_code (asset_symbol q)) = Some s ->
  asset_symbol q = asset_symbol (supply s) ->
  amount (supply s) + amount q <= amount (max_supply s) ->
  add_balance (accounts st) owner q payer = Ok accts' <->
  accts' = set_balance (accounts st) owner (asset_symbol q)
    (balance_of st owner (symbol_code (asset_symbol q)) + amount q).
Proof.
  intros Hinv Hq Hi Hs Hsym Hmax. destruct (inv_stats _ Hinv _ _ Hs).
  rewrite add_balance_Ok; [done|intros a Ha|done|].
  - pose proof (inv_account_range _ _ _ _ Hinv Ha). rewrite Hsym. split.
    + unfold_range; lia.
    + by eapply inv_account_symbol.
  - destruct (accounts st !! _) as [a|] eqn:Ha; simpl; [|unfold_range; lia].
    pose proof (balance_le_sum _ _ _ _ _ (inv_accounts _ Hinv) Ha).
    rewrite (inv_sum _ Hinv _ _ Hs) in *.
    pose proof (inv_account_range _ _ _ _ Hinv Ha). unfold_range; lia.
Qed.

Lemma issue_Ok c st to q memo st' es :
  inv st -> is_i64 (amount q) ->
  issue c st to q memo = Ok (st', es) <->
  quantity_ok st q memo /\
  exists s, stats st !! (symbol_code (asset_symbol q), symbol_code (asset_symbol q)) = Some s /\
    to = issuer s /\ has_auth c (issuer s) = true /\
    amount (supply s) + amount q <= amount (max_supply s) /\
    st' = State (set_balance (accounts st) to (asset_symbol q)
            (balance_of st to (symbol_code (asset_symbol q)) + amount q))
          (set_supply st (symbol_code (asset_symbol q)) s (amount (supply s) + amount q)) /\
    es = [].
Proof.
  intros Hinv Hi. unfold issue, require_auth, quantity_ok.
  assert (Hsub : forall s k, stats st !! k = Some s ->
    i64 (amount (max_supply s) - amount (supply s)) = amount (max_supply s) - amount (supply s)).
  { intros s k Hs. destruct (inv_stats _ Hinv _ _ Hs). apply i64_id. unfold_range; lia. }
  split.
  - intros E. ok_inv. to_prop.
    match goal with Hs : stats st !! _ = Some ?s |- _ =>
      rewrite (Hsub _ _ Hs) in *; pose proof (inv_stats _ Hinv _ _ Hs) as [? ? ? ? ?];
      match goal with Hadd : asset_add _ _ = Ok _ |- _ =>
        apply law_asset_add in Hadd as (? & ? & ->); [|unfold_range; lia|done] end;
      match goal with Hadd : add_balance _ _ _ _ = Ok _ |- _ =>
        apply (add_balance_issue _ _ _ _ _ s) in Hadd as ->; try done; try lia end end.
    subst. split; [eauto 10|]. eexists. repeat (split; [done||lia|]). done.
  - intros ((Hv & Hp & Hm & s' & Hs' & Hsym) & s & Hs & -> & Ha & Hle & -> & ->).
    rewrite Hs in Hs'. injection Hs' as <-. rewrite Hs. simpl.
    pose proof (inv_stats _ Hinv _ _ Hs) as [? ? Hval ? ?].
    rewrite Ha, Hv, Z.eqb_refl, (Hsub _ _ Hs), (proj2 (Z.ltb_lt _ _) Hp),
      (proj2 (Z.eqb_eq _ _) Hsym), (proj2 (Z.leb_le _ _) Hm).
    rewrite Hsym at 1. rewrite Hval. simpl.
    rewrite (proj2 (Z.leb_le _ _)) by lia. simpl.
    rewrite asset_add_Ok by (done || unfold_range; lia). simpl.
    eapply bind_step; [apply (add_balance_issue _ _ _ _ _ s); try done; lia|]. done.
Qed.

Lemma retire_Ok c st q memo st' es :
  inv st -> is_i64 (amount q) ->
  retire c st q memo = Ok (st', es) <->
  quantity_ok st q memo /\
  exists s, stats st !! (symbol_code (asset_symbol q), symbol_code (asset_symbol q)) = Some s /\
    has_auth c (issuer s) = true /\ can_pay st (issuer s) q /\
    st' = State (set_balance (accounts st) (issuer s) (asset_symbol q)
            (balance_of st (issuer s) (symbol_code (asset_symbol q)) - amount q))
          (set_supply st (symbol_code (asset_symbol q)) s (amount (supply s) - amount q)) /\
    es = [].
Proof.
  intros Hinv Hi. unfold retire, require_auth, quantity_ok. split.
  - intros E. ok_inv. to_prop.
    match goal with Hs : stats st !! _ = Some ?s |- _ =>
      pose proof (inv_stats _ Hinv _ _ Hs) as [? ? ? ? ?];
      match goal with Hsub : asset_sub _ _ = Ok _ |- _ =>
        apply law_asset_sub in Hsub as (? & ? & ->); [|unfold_range; lia|done] end;
      match goal with Hsub : sub_balance _ _ _ = Ok _ |- _ =>
        apply (sub_balance_inv _ _ _ _ s) in Hsub as [? ->]; try done; try lia end end.
    subst. split; [eauto 10|]. eexists. repeat (split; [done||lia|]). done.
  - intros ((Hv & Hp & Hm & s' & Hs' & Hsym) & s & Hs & Ha & Hpay & -> & ->).
    rewrite Hs in Hs'. injection Hs' as <-. rewrite Hs. simpl.
    pose proof (inv_stats _ Hinv _ _ Hs) as [? ? Hval ? ?].
    rewrite Ha, Hv, (proj2 (Z.ltb_lt _ _) Hp),
      (proj2 (Z.eqb_eq _ _) Hsym), (proj2 (Z.leb_le _ _) Hm).
    rewrite Hsym at 1. rewrite Hval. simpl.
    assert (Hle : amount q <= amount (supply s)).
    { destruct Hpay as (a & Haa & ?). rewrite <- (inv_sum _ Hinv _ _ Hs).
      pose proof (balance_le_sum _ _ _ _ _ (inv_accounts _ Hinv) Haa). lia. }
    rewrite asset_sub_Ok by (done || unfold_range; lia). simpl.
    eapply bind_step; [apply (sub_balance_inv _ _ _ _ s); try done; lia|]. done.
Qed.

Lemma create_Ok c st i q st' es :
  create c st i q = Ok (st', es) <->
  has_auth c (get_self c) = true /\ asset_valid q = true /\ 0 < amount q /\
  stats st !! (symbol_code (asset_symbol q), symbol_code (asset_symbol q)) = None /\
  st' = State (accounts st)
    (<[(symbol_code (asset_symbol q), symbol_code (asset_symbol q)) :=
       CurrencyStats (Asset 0 (asset_symbol q)) q i]> (stats st)) /\ es = [].
Proof.
  unfold create, require_auth, stats_primary_key. split.
  - intros E. ok_inv. to_prop. destruct_and!. subst. simpl in *. auto 10.
  - intros (Ha & Hv & Hp & Hn & -> & ->).
    rewrite Ha, Hv, (proj2 (Z.ltb_lt _ _) Hp), bool_decide_eq_true_2 by done.
    simpl. unfold emplace. by rewrite Hn.
Qed.

Lemma open_Ok c st owner s p st' es :
  inv st ->
  open c st owner s p = Ok (st', es) <->
  has_auth c p = true /\ is_account c owner = true /\
  (exists row, stats st !! (symbol_code s, symbol_code s) = Some row /\
     asset_symbol (supply row) = s) /\
  st' = match accounts st !! (owner, symbol_code s) with
        | Some _ => st
        | None => State (set_balance (accounts st) owner s 0) (stats st)
        end /\ es = [].
Proof.
  intros Hinv. unfold open, require_auth, emplace, account_primary_key. split.
  - intros E. destruct (accounts st !! (owner, symbol_code s)) as [a|] eqn:Ea.
    + ok_inv. to_prop. subst. eauto 10.
    + ok_inv. to_prop.
      match goal with Hc : asset_ctor _ _ = Ok _ |- _ =>
        apply law_asset_ctor in Hc as (? & ? & ->) end.
      simpl in *. subst. ok_inv. eauto 10.
  - intros (Ha & Hac & (row & Hrow & <-) & -> & ->).
    rewrite Ha, Hac, Hrow. simpl. rewrite Z.eqb_refl. simpl.
    destruct (accounts st !! _) eqn:Ea; [done|].
    pose proof (inv_stats _ Hinv _ _ Hrow) as [? ? Hval ? ?].
    rewrite asset_ctor_Ok by (done || unfold_range; lia). simpl. by rewrite Ea.
Qed.

Lemma close_Ok c st owner s st' es :
  close c st owner s = Ok (st', es) <->
  has_auth c owner = true /\
  (exists a, accounts st !! (owner, symbol_code s) = Some a /\ amount (balance a) = 0) /\
  st' = State (delete (owner, symbol_code s) (accounts st)) (stats st) /\ es = [].
Proof.
  unfold close, require_auth. split.
  - intros E. ok_inv. to_prop. subst. eauto 10.
  - intros (Ha & (a & Haa & Hz) & -> & ->). rewrite Ha, Haa. simpl. by rewrite Hz.
Qed.
End actions.

(** ** The invariant is preserved *)

Section preservation.
Context {cdt : Cdt} {laws : CdtLaws}.
Implicit Types (st : state) (c : ctx) (q : asset).

Lemma set_balance_row_ok accts sts o s n row :
  (forall k a, accts !! k = Some a -> account_row_ok sts k a) ->
  sts !! (symbol_code s, symbol_code s) = Some row -> s = asset_symbol (supply row) ->
  0 <= n ->
  forall k a, set_balance accts o s n !! k = Some a -> account_row_ok sts k a.
Proof.
  intros Hok Hrow Hs Hn k a. unfold set_balance.
  rewrite lookup_insert_Some. intros [[<- <-]|[_ Ha]]; [|by apply Hok].
  split; simpl; [done|eauto].
Qed.

Lemma set_supply_row_ok st code row n k a :
  stats st !! (code, code) = Some row ->
  account_row_ok (stats st) k a -> account_row_ok (set_supply st code row n) k a.
Proof.
  intros Hrow (H0 & s & Hs & Hsym). split; [done|]. unfold set_supply.
  destruct (decide (k.2 = code)) as [<-|Hne].
  - rewrite lookup_insert_eq. eexists; split; [done|]. simpl. congruence.
  - rewrite lookup_insert_ne by congruence. eauto.
Qed.

Lemma set_supply_stats_ok st code row n :
  inv st -> stats st !! (code, code) = Some row -> 0 <= n <= amount (max_supply row) ->
  forall k s, set_supply st code row n !! k = Some s -> stats_row_ok k s.
Proof.
  intros Hinv Hrow Hn k s. unfold set_supply. rewrite lookup_insert_Some.
  intros [[<- <-]|[_ Hs]]; [|by eapply inv_stats].
  destruct (inv_stats _ Hinv _ _ Hrow). split; simpl; done.
Qed.

Lemma balance_sum_set accts o s n v :
  balance_sum (set_balance accts o s n) v =
  balance_sum accts v + (if symbol_code s =? v
    then n - default 0 (amount ∘ balance <$> accts !! (o, symbol_code s)) else 0).
Proof. unfold set_balance. by rewrite balance_sum_insert. Qed.

Lemma balance_of_nonneg st o code : inv st -> 0 <= balance_of st o code.
Proof.
  intros Hinv. unfold balance_of.
  destruct (accounts st !! _) eqn:E; simpl; [|done]. by destruct (inv_accounts _ Hinv _ _ E).
Qed.

Lemma can_pay_balance st o q :
  can_pay st o q -> amount q <= balance_of st o (symbol_code (asset_symbol q)).
Proof. intros (a & Ha & Hle). unfold balance_of. by rewrite Ha. Qed.

(** Moving [d] between a balance and the supply together keeps the sums. *)
Lemma inv_move_supply st o row s d :
  inv st -> stats st !! (symbol_code s, symbol_code s) = Some row ->
  s = asset_symbol (supply row) ->
  0 <= balance_of st o (symbol_code s) + d ->
  0 <= amount (supply row) + d <= amount (max_supply row) ->
  inv (State (set_balance (accounts st) o s (balance_of st o (symbol_code s) + d))
             (set_supply st (symbol_code s) row (amount (supply row) + d))).
Proof.
  intros Hinv Hrow Hs Hb Hsup. split; simpl.
  - by apply set_supply_stats_ok.
  - intros k a Ha. apply set_supply_row_ok; [done|].
    eapply set_balance_row_ok; [apply Hinv| done | done | | done]. lia.
  - intros code r Hr. rewrite balance_sum_set. unfold set_supply in Hr.
    destruct (Z.eqb_spec (symbol_code s) code) as [<-|Hne].
    + rewrite lookup_insert_eq in Hr. injection Hr as <-. simpl.
      rewrite (inv_sum _ Hinv _ _ Hrow). fold (balance_of st o (symbol_code s)). lia.
    + rewrite lookup_insert_ne in Hr by congruence. rewrite (inv_sum _ Hinv _ _ Hr). lia.
Qed.

Lemma inv_transfer_post st from to q row :
  inv st -> from <> to -> 0 <= amount q ->
  stats st !! (symbol_code (asset_symbol q), symbol_code (asset_symbol q)) = Some row ->
  asset_symbol q = asset_symbol (supply row) -> can_pay st from q ->
  inv (transfer_post st from to q).
Proof.
  intros Hinv Hne Hq Hrow Hs Hpay%can_pay_balance.
  pose proof (balance_of_nonneg st to (symbol_code (asset_symbol q)) Hinv).
  split; simpl; [apply Hinv| |].
  - eapply set_balance_row_ok; [|done..|lia].
    eapply set_balance_row_ok; [apply Hinv|done..|lia].
  - intros code r Hr. rewrite !balance_sum_set, (inv_sum _ Hinv _ _ Hr).
    unfold set_balance. rewrite lookup_insert_ne by congruence.
    fold (balance_of st from (symbol_code (asset_symbol q))).
    fold (balance_of st to (symbol_code (asset_symbol q))). destruct (_ =? _); lia.
Qed.

Lemma inv_create st i q :
  inv st -> asset_valid q = true -> 0 < amount q ->
  stats st !! (symbol_code (asset_symbol q), symbol_code (asset_symbol q)) = None ->
  inv (State (accounts st)
    (<[(symbol_code (asset_symbol q), symbol_code (asset_symbol q)) :=
       CurrencyStats (Asset 0 (asset_symbol q)) q i]> (stats st))).
Proof.
  intros Hinv [Hr Hv]%law_asset_valid Hp Hn.
  assert (Hne : forall code s, stats st !! (code, code) = Some s ->
    code <> symbol_code (asset_symbol q)) by (intros code s Hs ->; congruence).
  split; simpl.
  - intros k s. rewrite lookup_insert_Some. intros [[<- <-]|[_ Hs]]; [|by eapply inv_stats].
    split; simpl; try done; unfold_range; lia.
  - intros k a Ha. destruct (inv_accounts _ Hinv _ _ Ha) as (H0 & s & Hs & Hsym).
    split; [done|]. exists s. rewrite lookup_insert_ne; [done|]. specialize (Hne _ _ Hs). congruence.
  - intros code s. rewrite lookup_insert_Some. intros [[Hk <-]|[Hk Hs]]; [|by apply inv_sum].
    simpl. eapply balance_sum_none; [apply Hinv|]. congruence.
Qed.

Lemma inv_open st owner s row :
  inv st -> stats st !! (symbol_code s, symbol_code s) = Some row ->
  asset_symbol (supply row) = s -> accounts st !! (owner, symbol_code s) = None ->
  inv (State (set_balance (accounts st) owner s 0) (stats st)).
Proof.
  intros Hinv Hrow Hs Hn. split; simpl; [apply Hinv| |].
  - eapply set_balance_row_ok; [apply Hinv|done|congruence|done].
  - intros code r Hr. rewrite balance_sum_set, Hn, (inv_sum _ Hinv _ _ Hr). simpl.
    destruct (_ =? _); lia.
Qed.

Lemma inv_close st owner code a :
  inv st -> accounts st !! (owner, code) = Some a -> amount (balance a) = 0 ->
  inv (State (delete (owner, code) (accounts st)) (stats st)).
Proof.
  intros Hinv Ha Hz. split; simpl; [apply Hinv| |].
  - intros k b [_ Hb]%lookup_delete_Some. by apply Hinv.
  - intros v s Hs. rewrite <- (inv_sum _ Hinv _ _ Hs). unfold balance_sum.
    rewrite (msum_delete _ (accounts st) _ _ Ha). unfold holds at 2. simpl.
    rewrite Hz. destruct (_ =? _); lia.
Qed.

Lemma exec_inv c o st st' es :
  inv st -> op_typed o -> exec c o st = Ok (st', es) -> inv st'.
Proof.
  intros Hinv Ht. destruct o as [i q|to q m|q m|from to q m|owner s p|owner s]; simpl in *.
  - intros (_ & ? & ? & ? & -> & _)%create_Ok. by apply inv_create.
  - intros ((_ & Hp & _ & r & Hr & Hs) & row & Hrow & -> & _ & Hle & -> & _)%issue_Ok; [|done..].
    rewrite Hrow in Hr. injection Hr as <-.
    pose proof (balance_of_nonneg st (issuer row) (symbol_code (asset_symbol q)) Hinv).
    pose proof (inv_stats _ Hinv _ _ Hrow) as [].
    apply inv_move_supply; try done; lia.
  - intros ((_ & Hp & _ & r & Hr & Hs) & row & Hrow & _ & Hpay & -> & _)%retire_Ok; [|done..].
    rewrite Hrow in Hr. injection Hr as <-.
    pose proof (inv_stats _ Hinv _ _ Hrow) as [].
    pose proof Hpay as (a & Ha & Hle).
    pose proof (balance_le_sum _ _ _ _ _ (inv_accounts _ Hinv) Ha) as Hsum.
    rewrite (inv_sum _ Hinv _ _ Hrow) in Hsum. apply can_pay_balance in Hpay.
    apply (inv_move_supply st (issuer row) row (asset_symbol q) (- amount q)); try done; lia.
  - intros (Hne & _ & _ & (_ & Hp & _ & r & Hr & Hs) & Hpay & -> & _)%transfer_Ok; [|done..].
    eapply inv_transfer_post; try done; lia.
  - intros (_ & _ & (row & Hrow & Hs) & -> & _)%open_Ok; [|done].
    destruct (accounts st !! _) eqn:E; [done|]. by eapply inv_open.
  - intros (_ & (a & Ha & Hz) & -> & _)%close_Ok. by eapply inv_close.
Qed.

Lemma inv_init : inv init_state.
Proof. split; simpl; intros *; by rewrite lookup_empty. Qed.

Lemma run_inv l st st' :
  Forall (fun co => op_typed co.2) l -> inv st -> run l st = Ok st' -> inv st'.
Proof.
  intros Hl. revert st. induction Hl as [|[c o] l Ht _ IH]; simpl; intros st Hinv Hrun.
  - by ok_inv.
  - apply bind_Ok in Hrun as ([st1 es] & He & Hrun). eapply IH; [|done]. by eapply exec_inv.
Qed.

Lemma reachable_inv st : reachable st -> inv st.
Proof. intros (l & Hl & Hrun). eapply run_inv; [done|apply inv_init|done]. Qed.
End preservation.

(** ** The ledger the contract implements *)

(** Abstractly, a token contract is a table of balances, supplies and issuers. *)
Record ledger : Type := Ledger {
  l_balance : name -> sym_code -> Z;
  l_supply : sym_code -> Z;
  l_issuer : sym_code -> option name;
}.

#[export] Instance ledger_equiv : Equiv ledger := fun l1 l2 =>
  (forall o v, l_balance l1 o v = l_balance l2 o v) /\
  (forall v, l_supply l1 v = l_supply l2 v) /\ (forall v, l_issuer l1 v = l_issuer l2 v).

#[export] Instance ledger_equivalence : Equivalence (≡@{ledger}).
Proof.
  split.
  - by intros l.
  - intros l1 l2 (H1 & H2 & H3). by split_and!; intros; symmetry.
  - intros l1 l2 l3 (H1 & H2 & H3) (H1' & H2' & H3').
    split_and!; intros; etrans; eauto.
Qed.

Section ledger.
Context {cdt : Cdt}.

Definition credit (o : name) (v : sym_code) (d : Z) (l : ledger) : ledger :=
  Ledger (fun o' v' => l_balance l o' v' + if bool_decide (o' = o /\ v' = v) then d else 0)
    (l_supply l) (l_issuer l).
Definition add_supply (v : sym_code) (d : Z) (l : ledger) : ledger :=
  Ledger (l_balance l) (fun v' => l_supply l v' + if bool_decide (v' = v) then d else 0)
    (l_issuer l).
Definition set_issuer (v : sym_code) (i : name) (l : ledger) : ledger :=
  Ledger (l_balance l) (l_supply l)
    (fun v' => if bool_decide (v' = v) then Some i else l_issuer l v').

(** What each action means on the ledger *)
Definition ledger_exec (l : ledger) (o : op) : ledger :=
  match o with
  | op_create i q => set_issuer (symbol_code (asset_symbol q)) i l
  | op_issue to q _ =>
      let v := symbol_code (asset_symbol q) in
      add_supply v (amount q) (credit to v (amount q) l)
  | op_retire q _ =>
      let v := symbol_code (asset_symbol q) in
      match l_issuer l v with
      | Some i => add_supply v (- amount q) (credit i v (- amount q) l)
      | None => l
      end
  | op_transfer from to q _ =>
      let v := symbol_code (asset_symbol q) in
      credit to v (amount q) (credit from v (- amount q) l)
  | op_open _ _ _ | op_close _ _ => l
  end.

#[export] Instance ledger_exec_proper : Proper ((≡) ==> (=) ==> (≡)) ledger_exec.
Proof.
  intros l1 l2 (H1 & H2 & H3) o ? <-. destruct o; simpl.
  all: try (split_and!; intros; simpl; rewrite ?H1, ?H2, ?H3; done).
  rewrite H3. destruct (l_issuer l2 _); split_and!; intros; simpl; rewrite ?H1, ?H2, ?H3; done.
Qed.

(** The ledger of a state *)
Definition abstract (st : state) : ledger :=
  Ledger (balance_of st)
    (fun v => default 0 (amount ∘ supply <$> stats st !! (v, v)))
    (fun v => issuer <$> stats st !! (v, v)).
End ledger.

Section refinement.
Context {cdt : Cdt} {laws : CdtLaws}.

Lemma balance_of_set accts sts o s n o' v :
  balance_of (State (set_balance accts o s n) sts) o' v =
  if bool_decide (o' = o /\ v = symbol_code s) then n else balance_of (State accts sts) o' v.
Proof.
  unfold balance_of, set_balance. simpl. case_bool_decide as E.
  - destruct E as [-> ->]. by rewrite lookup_insert_eq.
  - rewrite lookup_insert_ne; [done|]. intros [= <- <-]. by apply E.
Qed.

Lemma set_supply_lookup st v row n v' :
  set_supply st v row n !! (v', v') =
  if bool_decide (v' = v)
  then Some (CurrencyStats (Asset n (asset_symbol (supply row))) (max_supply row) (issuer row))
  else stats st !! (v', v').
Proof.
  unfold set_supply. case_bool_decide as E; [subst; by rewrite lookup_insert_eq|].
  rewrite lookup_insert_ne; [done|congruence].
Qed.

Lemma move_supply_refines st o row s d :
  stats st !! (symbol_code s, symbol_code s) = Some row ->
  abstract (State (set_balance (accounts st) o s (balance_of st o (symbol_code s) + d))
             (set_supply st (symbol_code s) row (amount (supply row) + d))) ≡
  add_supply (symbol_code s) d (credit o (symbol_code s) d (abstract st)).
Proof.
  intros Hrow. split_and!; simpl; intros.
  - rewrite balance_of_set. case_bool_decide as E; [destruct E as [-> ->]; done|].
    unfold balance_of; simpl; lia.
  - rewrite set_supply_lookup. case_bool_decide as E; [subst|simpl; lia].
    rewrite Hrow. done.
  - rewrite set_supply_lookup. case_bool_decide as E; [subst|done]. by rewrite Hrow.
Qed.

Lemma exec_refines c o st st' es :
  inv st -> op_typed o -> exec c o st = Ok (st', es) ->
  abstract st' ≡ ledger_exec (abstract st) o.
Proof.
  intros Hinv Ht. destruct o as [i q|to q m|q m|from to q m|owner s p|owner s]; simpl in *.
  - intros (_ & ? & ? & Hn & -> & _)%create_Ok. split_and!; simpl; intros; [done| |].
    + destruct (decide (v = symbol_code (asset_symbol q))) as [->|];
        [by rewrite lookup_insert_eq, Hn|rewrite lookup_insert_ne by congruence; done].
    + case_bool_decide as E; [subst; by rewrite lookup_insert_eq|].
      by rewrite lookup_insert_ne by congruence.
  - intros (_ & row & Hrow & -> & _ & Hle & -> & _)%issue_Ok; [|done..].
    by apply move_supply_refines.
  - intros (_ & row & Hrow & _ & Hpay & -> & _)%retire_Ok; [|done..].
    rewrite Hrow. simpl. by apply move_supply_refines.
  - intros (Hne & _ & _ & _ & _ & -> & _)%transfer_Ok; [|done..]. unfold transfer_post.
    split_and!; simpl; intros; [|done..].
    rewrite !balance_of_set. repeat case_bool_decide; destruct_and?; subst; try done;
      unfold balance_of in *; simpl in *; try tauto; lia.
  - intros (_ & _ & _ & -> & _)%open_Ok; [|done].
    destruct (accounts st !! _) eqn:E; [done|]. split_and!; simpl; intros; [|done..].
    rewrite balance_of_set. case_bool_decide as E'; [|done].
    destruct E' as [-> ->]. unfold balance_of. by rewrite E.
  - intros (_ & (a & Ha & Hz) & -> & _)%close_Ok. split_and!; simpl; intros; [|done..].
    unfold balance_of. simpl.
    destruct (decide ((o, v) = (owner, symbol_code s))) as [E|];
      [|by rewrite lookup_delete_ne by congruence].
    injection E as -> ->. by rewrite lookup_delete_eq, Ha.
Qed.

Lemma fold_ledger_proper ops l1 l2 :
  l1 ≡ l2 -> fold_left ledger_exec ops l1 ≡ fold_left ledger_exec ops l2.
Proof.
  revert l1 l2. induction ops as [|o ops IH]; simpl; intros l1 l2 Heq; [done|].
  apply IH. by rewrite Heq.
Qed.

Lemma run_refines l st st' :
  Forall (fun co => op_typed co.2) l -> inv st -> run l st = Ok st' ->
  abstract st' ≡ fold_left ledger_exec (snd <$> l) (abstract st).
Proof.
  intros Hl. revert st. induction Hl as [|[c o] l Ht _ IH]; simpl; intros st Hinv Hrun.
  - by ok_inv.
  - apply bind_Ok in Hrun as ([st1 es] & He & Hrun).
    rewrite (IH _ (exec_inv _ _ _ _ _ Hinv Ht He) Hrun).
    by apply fold_ledger_proper, (exec_refines _ _ _ _ _ Hinv Ht He).
Qed.
End refinement.

(** ** Properties *)

Section properties.
Context {cdt : Cdt} {laws : CdtLaws}.

(** C14 (supply conservation).  After any sequence of successful actions, for every token
    that exists: the balances of all accounts in that token add up to the recorded supply,
    the supply is between 0 and the maximum supply (itself at most 2^62-1), and every
    balance is between 0 and the supply and carries the token's own symbol. *)
Theorem supply_conservation (st : state) :
  reachable st ->
  forall code s, stats st !! (code, code) = Some s ->
    balance_sum (accounts st) code = amount (supply s) /\
    0 <= amount (supply s) /\
    amount (supply s) <= amount (max_supply s) <= max_amount /\
    forall o a, accounts st !! (o, code) = Some a ->
      0 <= amount (balance a) <= amount (supply s) /\
      asset_symbol (balance a) = asset_symbol (supply s).
Proof.
  intros Hinv%reachable_inv code s Hs. destruct (inv_stats _ Hinv _ _ Hs).
  split_and!; [by apply inv_sum|lia..|]. intros o a Ha.
  split; [|by eapply inv_account_symbol].
  destruct (inv_accounts _ Hinv _ _ Ha). split; [done|].
  rewrite <- (inv_sum _ Hinv _ _ Hs). by eapply balance_le_sum; [apply Hinv|].
Qed.

(** C17 (the contract refines the ledger).  A successful run of the contract's actions is,
    on balances, supplies and issuers, the same sequence of ledger operations: [issue] and
    [retire] change one balance and the supply by the quantity, [transfer] moves the
    quantity between two balances, [open] and [close] change nothing. *)
Theorem refines_ledger (l : list (ctx * op)) (st : state) :
  Forall (fun co => op_typed co.2) l -> run l init_state = Ok st ->
  abstract st ≡ fold_left ledger_exec (snd <$> l)
    (Ledger (fun _ _ => 0) (fun _ => 0) (fun _ => None)).
Proof. intros Hl Hrun. by rewrite (run_refines _ _ _ Hl inv_init Hrun). Qed.

(** C35 (exact behaviour of [transfer]).  In every reachable state, [transfer] succeeds
    exactly when the two accounts differ, [from] authorised the action, [to] exists, the
    quantity is a valid positive amount of an existing token with that token's precision,
    the memo has at most 256 bytes and [from] holds the quantity; then [from]'s row loses
    the quantity, [to]'s row (created if missing) gains it, nothing else changes, and
    both are notified.  In particular no balance addition can overflow. *)
Theorem transfer_exact c st from to q memo st' es :
  reachable st -> is_i64 (amount q) ->
  transfer c st from to q memo = Ok (st', es) <->
  from <> to /\ has_auth c from = true /\ is_account c to = true /\
  quantity_ok st q memo /\ can_pay st from q /\
  st' = transfer_post st from to q /\ es = [RequireRecipient from; RequireRecipient to].
Proof. intros Hinv%reachable_inv. by apply transfer_Ok. Qed.

(** Opening and closing a balance row.  In every reachable state, if [owner] has no
    row for a token, a successful [open] followed by [close] restores the state exactly;
    [close] fails as long as the balance is not zero. *)
Theorem open_close_roundtrip c st owner s payer st1 es :
  reachable st -> accounts st !! (owner, symbol_code s) = None -> has_auth c owner = true ->
  open c st owner s payer = Ok (st1, es) ->
  close c st1 owner s = Ok (st, []) /\
  forall q memo st2 es2 from, is_i64 (amount q) -> asset_symbol q = s ->
    transfer c st1 from owner q memo = Ok (st2, es2) ->
    is_ok (close c st2 owner s) = false.
Proof.
  intros Hinv%reachable_inv Hn Ha Ho.
  pose proof (exec_inv c (op_open owner s payer) st st1 es Hinv I Ho) as Hinv1.
  apply open_Ok in Ho as (_ & _ & _ & -> & ->); [|done]. rewrite Hn in *. split.
  - apply close_Ok. simpl. unfold set_balance.
    split_and!; [done| |by rewrite delete_insert_id; destruct st|done].
    eexists. by rewrite lookup_insert_eq.
  - intros q memo st2 es2 from Hi <- (Hne & _ & _ & (_ & Hp & _) & _ & -> & _)%transfer_Ok; [|done..].
    unfold close, transfer_post, balance_of, set_balance. simpl.
    unfold require_auth. rewrite Ha. simpl. rewrite !lookup_insert_eq. simpl.
    by rewrite (proj2 (Z.eqb_neq _ _)) by lia.
Qed.
End properties.

(** ** Examples *)

Definition ex_ctx : ctx := ref_ctx 1000 0.
Definition ex_asset (n : Z) : asset := Asset n ref_symbol.
(** create 1000, issue 100 to 7, send 40 to 8 *)
Definition ex_ops : list (ctx * op) :=
  (ex_ctx,.) <$> [op_create 7 (ex_asset 1000); op_issue 7 (ex_asset 100) "";
                  op_transfer 7 8 (ex_asset 40) ""].
Definition ex_state : state :=
  match run ex_ops init_state with Ok st => st | Err _ => init_state end.

Lemma ex_typed : Forall (fun co => op_typed co.2) ex_ops.
Proof. repeat constructor; simpl; try done. Qed.
Lemma ex_run : run ex_ops init_state = Ok ex_state.
Proof. vm_compute. reflexivity. Qed.
Lemma ex_reachable : reachable ex_state.
Proof. exists ex_ops. split; [apply ex_typed|apply ex_run]. Qed.

Lemma supply_conservation_witness :
  balance_sum (accounts ex_state) 1 = 100 /\ balance_of ex_state 8 1 = 40.
Proof.
  destruct (supply_conservation ex_state ex_reachable 1
    (CurrencyStats (ex_asset 100) (ex_asset 1000) 7) ltac:(vm_compute; reflexivity)) as [E _].
  split; [exact E|vm_compute; reflexivity].
Defined.

Lemma refines_ledger_witness :
  l_balance (abstract ex_state) 7 1 = 60 /\ l_supply (abstract ex_state) 1 = 100.
Proof.
  destruct (refines_ledger ex_ops ex_state ex_typed ex_run) as (Hb & Hs & _).
  rewrite (Hb 7 1), (Hs 1). split; vm_compute; reflexivity.
Defined.

Lemma transfer_exact_witness :
  transfer ex_ctx ex_state 8 9 (ex_asset 15) "x" =
  Ok (transfer_post ex_state 8 9 (ex_asset 15), [RequireRecipient 8; RequireRecipient 9]).
Proof.
  apply (transfer_exact ex_ctx ex_state 8 9 (ex_asset 15) "x"); [apply ex_reachable|done|].
  split_and!; try done.
  - split_and!; try done. eexists. split; vm_compute; reflexivity.
  - eexists. split; [vm_compute; reflexivity|]. vm_compute. discriminate.
Defined.

Lemma open_close_roundtrip_witness :
  exists st1 es, open ex_ctx ex_state 9 ref_symbol 9 = Ok (st1, es) /\
    close ex_ctx st1 9 ref_symbol = Ok (ex_state, []).
Proof.
  do 2 eexists. split; [vm_compute; reflexivity|].
  eapply (open_close_roundtrip ex_ctx ex_state 9 ref_symbol 9 _ _ ex_reachable);
    [vm_compute; reflexivity|done|vm_compute; reflexivity].
Defined.
