(* ===== verification/SystemData.v ===== *)
(** * flon.system: constants, rows and the global state

    [contracts/flon.system/include/flon.system/flon.system.hpp]: the records the system
    contract's tables hold, the global state, and the checks on it that every component
    uses.  The configuration modelled is the one with producer voting and name bidding
    enabled ([ENABLE_VOTING_PRODUCER], [ENABLE_NAME_BID]). *)
From S2P Require Import Prelude Cdt.
From Stdlib Require Import ZArith Lia String.
From stdpp Require Import base tactics numbers list gmap pretty.
Open Scope Z_scope.

(** ** Constants *)

Definition seconds_per_year : Z := 365 * 24 * 3600.
Definition seconds_per_day : Z := 24 * 3600.
Definition useconds_per_day : Z := seconds_per_day * 1000000.
Definition blocks_per_day : Z := 2 * seconds_per_day.
Definition refund_delay_sec : Z := 3 * seconds_per_day.
Definition ratio_boost : Z := 10000.
Definition reward_halving_period_seconds : Z := 5 * seconds_per_year.
Definition max_vote_producer_count : Z := 30.

(** [enum class err: uint8_t] *)
Inductive err : Type :=
| NONE | RECORD_NOT_FOUND | RECORD_EXISTING | SYMBOL_MISMATCH | PARAM_ERROR
| MEMO_FORMAT_ERROR | PAUSED | NO_AUTH | NOT_POSITIVE | NOT_STARTED | OVERSIZED
| TIME_EXPIRED | NOTIFY_UNRELATED | ACTION_REDUNDANT | ACCOUNT_INVALID | FEE_INSUFFICIENT
| FIRST_CREATOR | STATUS_ERROR | SCORE_NOT_ENOUGH | NEED_REQUIRED_CHECK
| VOTE_ERROR | VOTE_REFUND_ERROR | VOTE_CHANGE_ERROR.
Definition err_code (e : err) : Z :=
  match e with
  | NONE => 0 | RECORD_NOT_FOUND => 1 | RECORD_EXISTING => 2 | SYMBOL_MISMATCH => 4
  | PARAM_ERROR => 5 | MEMO_FORMAT_ERROR => 6 | PAUSED => 7 | NO_AUTH => 8
  | NOT_POSITIVE => 9 | NOT_STARTED => 10 | OVERSIZED => 11 | TIME_EXPIRED => 12
  | NOTIFY_UNRELATED => 13 | ACTION_REDUNDANT => 14 | ACCOUNT_INVALID => 15
  | FEE_INSUFFICIENT => 16 | FIRST_CREATOR => 17 | STATUS_ERROR => 18
  | SCORE_NOT_ENOUGH => 19 | NEED_REQUIRED_CHECK => 20
  | VOTE_ERROR => 100 | VOTE_REFUND_ERROR => 101 | VOTE_CHANGE_ERROR => 102
  end.

(** ** The chain's parameters *)

Record blockchain_parameters : Type := BlockchainParameters {
  max_block_net_usage : Z;
  target_block_net_usage_pct : Z;
  max_transaction_net_usage : Z;
  base_per_transaction_net_usage : Z;
  net_usage_leeway : Z;
  context_free_discount_net_usage_num : Z;
  context_free_discount_net_usage_den : Z;
  max_block_cpu_usage : Z;
  target_block_cpu_usage_pct : Z;
  max_transaction_cpu_usage : Z;
  min_transaction_cpu_usage : Z;
  max_transaction_lifetime : Z;
  deferred_trx_expiration_window : Z;
  max_transaction_delay : Z;
  max_inline_action_size : Z;
  max_inline_action_depth : Z;
  max_authority_depth : Z;
  max_total_ram_usage : Z;
  gas_per_cpu_ms : Z;
  gas_per_net_kb : Z;
  gas_per_ram_kb : Z;
}.
(** [blockchain_parameters_v1]: with the binary extension *)
Record blockchain_parameters_v1 : Type := BlockchainParametersV1 {
  base_parameters : blockchain_parameters;
  max_action_return_value_size : option Z;
}.

(** ** The global state *)

Record eosio_global_state : Type := GlobalState {
  params : blockchain_parameters;
  total_vote_stake : asset;
  max_ram_size : Z;
  total_ram_bytes_reserved : Z;
  total_ram_stake : Z;
  election_activated_time : time_point;
  reward_started_time : time_point;
  initial_rewards_per_block : asset;
  total_produced_rewards : asset;
  total_unclaimed_rewards : asset;
  last_producer_schedule_size : Z;             (* uint16_t *)
  last_producer_schedule_update : block_timestamp;
  last_name_close : block_timestamp;
  revision : Z;
}.

Definition with_params (p : blockchain_parameters) (g : eosio_global_state) : eosio_global_state :=
  GlobalState p (total_vote_stake g) (max_ram_size g) (total_ram_bytes_reserved g)
    (total_ram_stake g) (election_activated_time g) (reward_started_time g)
    (initial_rewards_per_block g) (total_produced_rewards g) (total_unclaimed_rewards g)
    (last_producer_schedule_size g) (last_producer_schedule_update g) (last_name_close g)
    (revision g).
Definition with_total_vote_stake (a : asset) (g : eosio_global_state) : eosio_global_state :=
  GlobalState (params g) a (max_ram_size g) (total_ram_bytes_reserved g)
    (total_ram_stake g) (election_activated_time g) (reward_started_time g)
    (initial_rewards_per_block g) (total_produced_rewards g) (total_unclaimed_rewards g)
    (last_producer_schedule_size g) (last_producer_schedule_update g) (last_name_close g)
    (revision g).
Definition with_times (t1 t2 : time_point) (g : eosio_global_state) : eosio_global_state :=
  GlobalState (params g) (total_vote_stake g) (max_ram_size g) (total_ram_bytes_reserved g)
    (total_ram_stake g) t1 t2
    (initial_rewards_per_block g) (total_produced_rewards g) (total_unclaimed_rewards g)
    (last_producer_schedule_size g) (last_producer_schedule_update g) (last_name_close g)
    (revision g).
Definition with_rewards (initial produced unclaimed : asset) (g : eosio_global_state)
    : eosio_global_state :=
  GlobalState (params g) (total_vote_stake g) (max_ram_size g) (total_ram_bytes_reserved g)
    (total_ram_stake g) (election_activated_time g) (reward_started_time g)
    initial produced unclaimed
    (last_producer_schedule_size g) (last_producer_schedule_update g) (last_name_close g)
    (revision g).
Definition with_schedule (size : Z) (update : block_timestamp) (g : eosio_global_state)
    : eosio_global_state :=
  GlobalState (params g) (total_vote_stake g) (max_ram_size g) (total_ram_bytes_reserved g)
    (total_ram_stake g) (election_activated_time g) (reward_started_time g)
    (initial_rewards_per_block g) (total_produced_rewards g) (total_unclaimed_rewards g)
    size update (last_name_close g) (revision g).
Definition with_last_name_close (t : block_timestamp) (g : eosio_global_state)
    : eosio_global_state :=
  GlobalState (params g) (total_vote_stake g) (max_ram_size g) (total_ram_bytes_reserved g)
    (total_ram_stake g) (election_activated_time g) (reward_started_time g)
    (initial_rewards_per_block g) (total_produced_rewards g) (total_unclaimed_rewards g)
    (last_producer_schedule_size g) (last_producer_schedule_update g) t (revision g).

(** [get_default_parameters]: the chain's parameters and the members' initialisers *)
Definition get_default_parameters (chain : blockchain_parameters) : eosio_global_state :=
  GlobalState chain asset_default (64 * 1024 * 1024 * 1024) 0 0 0 0 asset_default asset_default
    asset_default 0 0 0 0.

(** ** Rows *)

Record account_creator : Type := AccountCreator { ac_owner : name; creator : name }.

Record producer_info : Type := ProducerInfo {
  owner : name;
  total_votes : Z;                       (* int64_t *)
  producer_key : bytes;
  is_active : bool;
  url : string;
  unclaimed_rewards : asset;
  last_claim_time : time_point;
  location : Z;                          (* uint16_t *)
  producer_authority : block_signing_authority;
  reward_shared_ratio : Z;               (* uint32_t *)
  p_revision : Z;
}.

Definition by_votes (p : producer_info) : Z :=
  if is_active p then u64 (i64 (int64_max - total_votes p))
  else u64 (uint64_max - u64 (total_votes p)).
Definition active (p : producer_info) : bool := is_active p.
Definition deactivate (p : producer_info) : producer_info :=
  ProducerInfo (owner p) (total_votes p) [] false (url p) (unclaimed_rewards p)
    (last_claim_time p) (location p) block_signing_authority_default (reward_shared_ratio p)
    (p_revision p).
Definition with_total_votes (n : Z) (p : producer_info) : producer_info :=
  ProducerInfo (owner p) n (producer_key p) (is_active p) (url p) (unclaimed_rewards p)
    (last_claim_time p) (location p) (producer_authority p) (reward_shared_ratio p)
    (p_revision p).
Definition with_unclaimed_rewards (a : asset) (p : producer_info) : producer_info :=
  ProducerInfo (owner p) (total_votes p) (producer_key p) (is_active p) (url p) a
    (last_claim_time p) (location p) (producer_authority p) (reward_shared_ratio p)
    (p_revision p).

Record voter_info : Type := VoterInfo {
  v_owner : name;
  v_producers : list name;
  v_votes : Z;                           (* int64_t *)
  last_unvoted_time : block_timestamp;
  v_revision : Z;
}.

Record vote_refund : Type := VoteRefund {
  r_owner : name;
  request_time : time_point_sec;
  vote_staked : asset;
}.

Record producing_config : Type := ProducingConfig { idle_block_interval_ms : Z }.

(** A row of [namebids] and of [bidrefunds] *)
Record name_bid : Type := NameBid {
  newname : name;
  high_bidder : name;
  high_bid : Z;                          (* int64_t; negative: closed *)
  last_bid_time : time_point;
}.
Definition by_high_bid (b : name_bid) : Z := u64 (- high_bid b).

Record bid_refund : Type := BidRefund { bidder : name; refund_amount : asset }.

(** ** Checks *)

Section checks.
Context {cdt : Cdt}.

(** [CHECKC(exp, code, msg)] *)
Definition checkc (c : ctx) (b : bool) (e : err) (msg : string) : result unit :=
  check b ("[[" +:+ pretty (err_code e) +:+ "]] [[" +:+ name_to_string (get_self c) +:+ "]] "
           +:+ msg).

Definition is_init (g : eosio_global_state) : bool :=
  symbol_valid (asset_symbol (total_vote_stake g)).
Definition core_symbol (g : eosio_global_state) : result symbol :=
  ensure is_init g else "system contract must first be initialized";
  mret (asset_symbol (total_vote_stake g)).
(** The static getters, on the stored singleton *)
Definition get_core_symbol (stored : option eosio_global_state) : result symbol :=
  g ← get_or stored "global does not exist";
  ensure negb (asset_symbol (total_vote_stake g) =? 0)
    else "system contract must first be initialized";
  mret (asset_symbol (total_vote_stake g)).

Definition active_permission : name := name_lit "active".
Definition token_account : name := name_lit "flon.token".
Definition gas_account : name := name_lit "flon.gas".
Definition stake_account : name := name_lit "flon.stake".
Definition vote_account : name := name_lit "flon.vote".
Definition reward_account : name := name_lit "flon.reward".
Definition names_account : name := name_lit "flon.names".
Definition fees_account : name := name_lit "flon.fees".

Definition active_of (n : name) : permission_level := PermissionLevel n active_permission.

(** [channel_to_system_fees] *)
Definition channel_to_system_fees (from : name) (amount : asset) : effect :=
  send token_account [active_of from]
    (token_transfer from fees_account amount
       ("transfer from " +:+ name_to_string from +:+ " to " +:+ name_to_string fees_account)).

Lemma core_symbol_Ok g s :
  core_symbol g = Ok s <-> is_init g = true /\ s = asset_symbol (total_vote_stake g).
Proof. unfold core_symbol. destruct (is_init g); simpl; unfold mret, result_ret; naive_solver. Qed.
End checks.

(** An active producer comes before any inactive one in the index; among active ones, more
    votes come first. *)
Lemma by_votes_order p q :
  0 <= total_votes p <= int64_max -> 0 <= total_votes q <= int64_max ->
  by_votes p < by_votes q <->
  (is_active p = true /\ is_active q = false) \/
  (is_active p = is_active q /\ total_votes q < total_votes p).
Proof.
  intros Hp Hq. unfold by_votes. unfold_ints.
  rewrite !(i64_id (2 ^ 63 - 1 - _)) by (unfold_ints; lia).
  rewrite !u64_id by (rewrite ?u64_id; unfold_ints; lia).
  destruct (is_active p), (is_active q); split; intros H; destruct_or?; destruct_and?; try lia;
    naive_solver lia.
Qed.
