(* ===== verification/Wire.v ===== *)
(** * Serialisation

    Arguments of actions and rows of tables are packed into bytes and read back by the
    toolkit.  How it packs an integer, a string, a vector, ... is the class [Wire]; a
    structure is packed member by member in the order its [EOSLIB_SERIALIZE] lists, which
    is what this file translates.  A [codec] has both directions and the values of its C++
    type; [Lawful] says that reading gives back what was packed, and only values of the type. *)
From S2P Require Import Prelude Cdt SystemData.
From Stdlib Require Import ZArith Lia String.
From stdpp Require Import base tactics numbers list sets strings.
Open Scope Z_scope.

(** ** Codecs *)

Definition reader (A : Type) : Type := bytes -> result (A * bytes).

Record codec (A : Type) : Type := Codec {
  fits : A -> Prop;
  pack : A -> bytes;
  unpack : reader A;
}.
Arguments Codec {_} _ _ _.
Arguments fits {_} _ _.
Arguments pack {_} _ _.
Arguments unpack {_} _ _.

Class Lawful {A} (c : codec A) : Prop := {
  unpack_pack x rest : fits c x -> unpack c (pack c x ++ rest) = Ok (x, rest);
  unpack_fits b x rest : unpack c b = Ok (x, rest) -> fits c x;
}.

(** Packed data that is read to its end as the value it came from *)
Definition reads_back {A} (c : codec A) (x : A) : Prop := unpack c (pack c x) = Ok (x, []).

(** What ends the data may look for its end ([binary_extension]): every value of the type is
    read from some data, which need not be the data it is packed to. *)
Class LawfulEnd {A} (c : codec A) : Prop := {
  end_data x : fits c x -> exists b, unpack c b = Ok (x, []);
  unpack_all_fits b x rest : unpack c b = Ok (x, rest) -> fits c x;
}.

(** Data that is never empty, so that its absence can be told *)
Class Nonempty {A} (c : codec A) : Prop := pack_nonempty x : fits c x -> pack c x <> [].

(** One after the other: [ds << a << b], [ds >> a >> b] *)
Definition seq_codec {A B} (c1 : codec A) (c2 : codec B) : codec (A * B) := {|
  fits := fun x => fits c1 x.1 /\ fits c2 x.2;
  pack := fun x => pack c1 x.1 ++ pack c2 x.2;
  unpack := fun b =>
    '(x, b1) ← unpack c1 b;
    '(y, b2) ← unpack c2 b1;
    mret ((x, y), b2);
|}.
Infix "⊗" := seq_codec (at level 40, left associativity) : flon_scope.

(** The members of a structure, as a tuple *)
Definition struct_codec {A B} (make : A -> B) (members : B -> A) (c : codec A) : codec B := {|
  fits := fun y => fits c (members y);
  pack := fun y => pack c (members y);
  unpack := fun b => '(x, rest) ← unpack c b; mret (make x, rest);
|}.

(** No arguments *)
Definition no_args : codec unit := {|
  fits := fun _ => True; pack := fun _ => []; unpack := fun b => mret (tt, b);
|}.

#[export] Instance seq_lawful {A B} (c1 : codec A) (c2 : codec B) :
  Lawful c1 -> Lawful c2 -> Lawful (c1 ⊗ c2).
Proof.
  intros H1 H2. split; simpl.
  - intros [x y] rest [Hx Hy]. simpl in *. rewrite <- app_assoc, unpack_pack by done. simpl.
    by rewrite unpack_pack by done.
  - intros b x rest H. apply bind_Ok in H as ([x1 b1] & E1%unpack_fits & H).
    by apply bind_Ok in H as ([x2 b2] & E2%unpack_fits & [= <- _]).
Qed.

#[export] Instance seq_lawful_end {A B} (c1 : codec A) (c2 : codec B) :
  Lawful c1 -> LawfulEnd c2 -> LawfulEnd (c1 ⊗ c2).
Proof.
  intros H1 H2. split; simpl.
  - intros [x y] [Hx Hy]. simpl in *. destruct (end_data y Hy) as [b Hb].
    exists (pack c1 x ++ b). rewrite unpack_pack by done. simpl. by rewrite Hb.
  - intros b x rest H. apply bind_Ok in H as ([x1 b1] & E1%unpack_fits & H).
    by apply bind_Ok in H as ([x2 b2] & E2%unpack_all_fits & [= <- _]).
Qed.

(** A structure is its members: none is left out, none is read twice. *)
Lemma struct_lawful {A B} (make : A -> B) (members : B -> A) (c : codec A) :
  (forall y, make (members y) = y) -> (forall x, members (make x) = x) ->
  Lawful c -> Lawful (struct_codec make members c).
Proof.
  intros E1 E2 Hc. split; simpl.
  - intros y rest Hy. rewrite unpack_pack by done. simpl. by rewrite E1.
  - intros b y rest H. apply bind_Ok in H as ([x b1] & E%unpack_fits & [= <- _]). by rewrite E2.
Qed.

Lemma struct_lawful_end {A B} (make : A -> B) (members : B -> A) (c : codec A) :
  (forall y, make (members y) = y) -> (forall x, members (make x) = x) ->
  LawfulEnd c -> LawfulEnd (struct_codec make members c).
Proof.
  intros E1 E2 Hc. split; cbn [struct_codec fits pack unpack].
  - intros y Hy. destruct (end_data (members y) Hy) as [b Hb]. exists b. rewrite Hb. simpl. by rewrite E1.
  - intros b y rest H. apply bind_Ok in H as ([x b1] & E%unpack_all_fits & [= <- _]). by rewrite E2.
Qed.

Lemma lawful_reads_back {A} (c : codec A) x : Lawful c -> fits c x -> reads_back c x.
Proof. intros Hc Hx. unfold reads_back. rewrite <- (app_nil_r (pack c x)) at 1. by apply unpack_pack. Qed.
Lemma seq_reads_back {A B} (c1 : codec A) (c2 : codec B) x y :
  Lawful c1 -> fits c1 x -> reads_back c2 y -> reads_back (c1 ⊗ c2) (x, y).
Proof.
  intros Hc Hx Hy. unfold reads_back in *. simpl. rewrite unpack_pack by done. simpl. by rewrite Hy.
Qed.
Lemma struct_reads_back {A B} (make : A -> B) (members : B -> A) (c : codec A) y :
  make (members y) = y -> reads_back c (members y) -> reads_back (struct_codec make members c) y.
Proof.
  intros E Hy. unfold reads_back in *. cbn [struct_codec pack unpack]. rewrite Hy. simpl. by rewrite E.
Qed.

#[export] Instance no_args_lawful : Lawful no_args.
Proof. split; [by intros []|done]. Qed.

Lemma lawful_lawful_end {A} (c : codec A) : Lawful c -> LawfulEnd c.
Proof.
  intros Hc. split; [|apply unpack_fits]. intros x Hx. exists (pack c x). by apply lawful_reads_back.
Qed.

(** ** What the toolkit packs *)

(** [eosio::producer_key], [eosio::producer_schedule] *)
Record producer_key : Type := ProducerKey { pk_name : name; pk_key : bytes }.
Record producer_schedule : Type := ProducerSchedule {
  ps_version : Z;
  ps_producers : list producer_key;
}.

Definition raw (A : Type) : Type := (A -> bytes) * reader A.

Class Wire : Type := {
  raw_uint : Z -> raw Z;                       (* [uint8_t] ... [uint64_t], by width *)
  raw_int64 : raw Z;
  raw_int128 : raw Z;
  raw_unsigned_int : raw Z;                    (* [eosio::unsigned_int] *)
  raw_bool : raw bool;
  raw_string : raw string;
  raw_blob : raw bytes;                        (* [std::vector<char>] *)
  raw_checksum256 : raw bytes;
  raw_public_key : raw bytes;
  raw_asset : raw asset;
  raw_permission_level : raw permission_level;
  raw_signing_authority : raw block_signing_authority;
  raw_finalizer_authority : raw finalizer_authority;
  raw_producer_schedule : raw producer_schedule;
  parameters_fit : blockchain_parameters -> Prop;    (* its members' types *)
  raw_parameters : raw blockchain_parameters;
  raw_vector {A} : raw A -> raw (list A);
  raw_map {A} : raw Z -> raw A -> raw (list (Z * A));  (* [std::map], by ascending keys *)
  raw_optional {A} : raw A -> raw (option A);
  (* [eosio::binary_extension], with the default value of its type *)
  raw_extension {A} : A -> raw A -> raw (option A);
}.

Definition is_uint (w z : Z) : Prop := 0 <= z < 2 ^ w.
Definition is_i128 (z : Z) : Prop := - 2 ^ 127 <= z < 2 ^ 127.
Definition is_bytes (b : bytes) : Prop := Forall (is_uint 8) b /\ is_uint 32 (Z.of_nat (length b)).
Definition asset_fits (a : asset) : Prop := is_i64 (amount a) /\ is_uint 64 (asset_symbol a).
Definition signing_authority_fits (a : block_signing_authority) : Prop :=
  is_uint 32 (auth_threshold a) /\ Forall (fun k => is_bytes k.1 /\ is_uint 16 k.2) (auth_keys a) /\
  is_uint 32 (Z.of_nat (length (auth_keys a))).
Definition finalizer_authority_fits (f : finalizer_authority) : Prop :=
  is_uint 32 (Z.of_nat (String.length (description f))) /\ is_uint 64 (fa_weight f) /\
  is_bytes (fa_public_key f).
Definition producer_schedule_fits (s : producer_schedule) : Prop :=
  is_uint 32 (ps_version s) /\
  Forall (fun k => is_uint 64 (pk_name k) /\ is_bytes (pk_key k)) (ps_producers s) /\
  is_uint 32 (Z.of_nat (length (ps_producers s))).
Section wire.
Context {wire : Wire}.

Definition prim {A} (P : A -> Prop) (r : raw A) : codec A := Codec P r.1 r.2.

Definition wire_uint (w : Z) : codec Z := prim (is_uint w) (raw_uint w).
Definition wire_int64 : codec Z := prim is_i64 raw_int64.
Definition wire_int128 : codec Z := prim is_i128 raw_int128.
Definition wire_unsigned_int : codec Z := prim (is_uint 32) raw_unsigned_int.
Definition wire_bool : codec bool := prim (fun _ => True) raw_bool.
Definition wire_string : codec string :=
  prim (fun s => is_uint 32 (Z.of_nat (String.length s))) raw_string.
Definition wire_blob : codec bytes := prim is_bytes raw_blob.
Definition wire_checksum256 : codec bytes := prim is_bytes raw_checksum256.
Definition wire_public_key : codec bytes := prim is_bytes raw_public_key.
Definition wire_asset : codec asset := prim asset_fits raw_asset.
Definition wire_permission_level : codec permission_level :=
  prim (fun l => is_uint 64 (actor l) /\ is_uint 64 (permission l)) raw_permission_level.
Definition wire_signing_authority : codec block_signing_authority :=
  prim signing_authority_fits raw_signing_authority.
Definition wire_finalizer_authority : codec finalizer_authority :=
  prim finalizer_authority_fits raw_finalizer_authority.
Definition wire_producer_schedule : codec producer_schedule :=
  prim producer_schedule_fits raw_producer_schedule.
Definition wire_parameters : codec blockchain_parameters := prim parameters_fit raw_parameters.

(** Integers with a name of their own *)
Definition wire_name : codec name := wire_uint 64.
Definition wire_symbol : codec symbol := wire_uint 64.
Definition wire_time_point : codec time_point := wire_int64.
Definition wire_time_point_sec : codec time_point_sec := wire_uint 32.
Definition wire_block_timestamp : codec block_timestamp := wire_uint 32.

Definition wire_vector {A} (c : codec A) : codec (list A) :=
  prim (fun l => Forall (fits c) l /\ is_uint 32 (Z.of_nat (length l))) (raw_vector (pack c, unpack c)).
Definition wire_map {A} (k : codec Z) (c : codec A) : codec (list (Z * A)) :=
  prim (fun l => Forall (fits (k ⊗ c)) l /\ smap_ok l /\ is_uint 32 (Z.of_nat (length l)))
    (raw_map (pack k, unpack k) (pack c, unpack c)).
Definition wire_optional {A} (c : codec A) : codec (option A) :=
  prim (fun o => match o with Some x => fits c x | None => True end) (raw_optional (pack c, unpack c)).
Definition wire_extension {A} (d : A) (c : codec A) : codec (option A) :=
  prim (fun o => match o with Some x => fits c x | None => True end) (raw_extension d (pack c, unpack c)).
End wire.

(** Reading gives back what was packed. *)
Class WireLaws `{Wire} : Prop := {
  law_uint w : w ∈ [8; 16; 32; 64] -> Lawful (wire_uint w);
  law_int64 :: Lawful wire_int64;
  law_int128 :: Lawful wire_int128;
  law_unsigned_int :: Lawful wire_unsigned_int;
  law_bool :: Lawful wire_bool;
  law_string :: Lawful wire_string;
  law_blob :: Lawful wire_blob;
  law_checksum256 :: Lawful wire_checksum256;
  law_public_key :: Lawful wire_public_key;
  law_asset :: Lawful wire_asset;
  law_permission_level :: Lawful wire_permission_level;
  law_signing_authority :: Lawful wire_signing_authority;
  law_finalizer_authority :: Lawful wire_finalizer_authority;
  law_producer_schedule :: Lawful wire_producer_schedule;
  law_parameters :: Lawful wire_parameters;
  law_vector {A} (c : codec A) :: Lawful c -> Lawful (wire_vector c);
  law_map {A} (k : codec Z) (c : codec A) :: Lawful k -> Lawful c -> Lawful (wire_map k c);
  (** a vector is its length and its elements *)
  law_vector_pack {A} (r : raw A) l :
    (raw_vector r).1 l = raw_unsigned_int.1 (Z.of_nat (length l)) ++ concat (r.1 <$> l);
  law_optional {A} (c : codec A) :: Lawful c -> Lawful (wire_optional c);
  (** an extension is absent when the data ends; packed, it is present: [operator<<] packs
      [value_or()], the default value when there is none *)
  law_extension {A} d (c : codec A) :: Lawful c -> Nonempty c -> LawfulEnd (wire_extension d c);
  law_extension_pack {A} d (c : codec A) o : pack (wire_extension d c) o = pack c (default d o);
  law_extension_back {A} d (c : codec A) x :
    Lawful c -> Nonempty c -> fits c x -> reads_back (wire_extension d c) (Some x);
  law_uint_nonempty w : w ∈ [8; 16; 32; 64] -> Nonempty (wire_uint w);
  law_optional_nonempty {A} (c : codec A) :: Nonempty (wire_optional c);
  law_string_nonempty :: Nonempty wire_string;
  law_checksum256_nonempty :: Nonempty wire_checksum256;
}.

(** Vectors whose elements are packed alike are packed alike. *)
Lemma vector_pack_map `{WireLaws} {A B} (c1 : codec A) (c2 : codec B) (f : A -> B) l :
  (forall x, pack c1 x = pack c2 (f x)) ->
  pack (wire_vector c1) l = pack (wire_vector c2) (f <$> l).
Proof.
  intros E. simpl. rewrite !law_vector_pack, length_fmap, <- list_fmap_compose. do 2 f_equal.
  apply list_fmap_ext. intros _ x _. apply E.
Qed.
Lemma vector_fits_map `{Wire} {A B} (c1 : codec A) (c2 : codec B) (f : A -> B) l :
  (forall x, fits c1 x <-> fits c2 (f x)) ->
  fits (wire_vector c1) l <-> fits (wire_vector c2) (f <$> l).
Proof.
  intros E. simpl. rewrite length_fmap, Forall_fmap.
  assert (Forall (fits c1) l <-> Forall (fits c2 ∘ f) l) as -> by (apply Forall_iff; apply E). done.
Qed.

Section instances.
Context `{WireLaws}.
#[export] Instance uint8_lawful : Lawful (wire_uint 8). Proof. by apply law_uint; set_solver. Qed.
#[export] Instance uint16_lawful : Lawful (wire_uint 16). Proof. by apply law_uint; set_solver. Qed.
#[export] Instance uint32_lawful : Lawful (wire_uint 32). Proof. by apply law_uint; set_solver. Qed.
#[export] Instance uint64_lawful : Lawful (wire_uint 64). Proof. by apply law_uint; set_solver. Qed.
#[export] Instance uint32_nonempty : Nonempty (wire_uint 32).
Proof. by apply law_uint_nonempty; set_solver. Qed.
#[export] Instance uint64_nonempty : Nonempty (wire_uint 64).
Proof. by apply law_uint_nonempty; set_solver. Qed.
End instances.
