(* ===== verification/WireRef.v ===== *)
(** * Serialisation: an instance

    Integers are packed little-endian, negative ones in two's complement; a vector, string
    or blob is its length and its elements; an optional is a flag and its value.  The laws of
    [Wire.v] hold of it, and the examples evaluate on it. *)
From S2P Require Import Prelude Cdt SystemData.
From S2P Require Import Wire.
From Stdlib Require Import ZArith Lia String Ascii.
From stdpp Require Import base tactics numbers list sets strings.
Open Scope Z_scope.

(** ** Integers *)

Fixpoint le_pack (k : nat) (z : Z) : bytes :=
  match k with O => [] | S k' => z mod 256 :: le_pack k' (z / 256) end.
Fixpoint le_unpack (k : nat) : reader Z := fun b =>
  match k, b with
  | O, _ => Ok (0, b)
  | S k', x :: b' => '(z, rest) ← le_unpack k' b'; Ok (x mod 256 + 256 * z, rest)
  | S _, [] => Err "datastream attempted to read past the end"
  end.

Lemma le_unpack_pack k : forall z rest, 0 <= z < 256 ^ Z.of_nat k ->
  le_unpack k (le_pack k z ++ rest) = Ok (z, rest).
Proof.
  induction k as [|k IH]; intros z rest Hz; simpl.
  { assert (z = 0) as -> by (simpl in Hz; lia). done. }
  rewrite Nat2Z.inj_succ, Z.pow_succ_r in Hz by lia. rewrite IH.
  - simpl. rewrite Z.mod_mod by lia. pose proof (Z.div_mod z 256 ltac:(lia)). do 2 f_equal. lia.
  - split; [apply Z.div_pos; lia|]. apply Z.div_lt_upper_bound; lia.
Qed.

Lemma le_unpack_range k : forall b z rest, le_unpack k b = Ok (z, rest) ->
  0 <= z < 256 ^ Z.of_nat k.
Proof.
  induction k as [|k IH]; intros b z rest H; simpl in H; [injection H as <- _; simpl; lia|].
  destruct b as [|x b]; [done|]. apply bind_Ok in H as ([z' r] & E%IH & [= <- _]).
  rewrite Nat2Z.inj_succ, Z.pow_succ_r by lia. pose proof (Z.mod_pos_bound x 256 ltac:(lia)). nia.
Qed.

Definition ref_uint (w : Z) : raw Z := (le_pack (Z.to_nat (w / 8)), le_unpack (Z.to_nat (w / 8))).
Definition ref_int64 : raw Z :=
  (fun z => le_pack 8 (z mod 2 ^ 64), fun b => '(z, rest) ← le_unpack 8 b; Ok (i64 z, rest)).

Definition ref_int128 : raw Z :=
  (fun z => le_pack 16 (z mod 2 ^ 128), fun b => '(z, rest) ← le_unpack 16 b; Ok (i128 z, rest)).

Lemma ref_uint_lawful w : w ∈ [8; 16; 32; 64] -> Lawful (prim (is_uint w) (ref_uint w)).
Proof.
  intros Hw. assert (E : 256 ^ Z.of_nat (Z.to_nat (w / 8)) = 2 ^ w)
    by (repeat (apply elem_of_cons in Hw as [->|Hw]; [done|]); by apply elem_of_nil in Hw).
  split; simpl.
  - intros x rest Hx. apply le_unpack_pack. by rewrite E.
  - intros b x rest H%le_unpack_range. by rewrite E in H.
Qed.

Lemma ref_int64_lawful : Lawful (prim is_i64 ref_int64).
Proof.
  split; unfold ref_int64; cbn [prim pack unpack fits fst snd].
  - intros x rest Hx. simpl in Hx. rewrite le_unpack_pack by (apply Z.mod_pos_bound; lia).
    cbn [mbind result_bind].
    do 2 f_equal. unfold i64, wrap_s. unfold_ints. change (64 - 1) with 63.
    rewrite Z.add_mod_idemp_l by lia. rewrite Z.mod_small by lia. lia.
  - intros b x rest H. apply bind_Ok in H as ([z r] & _ & [= <- _]). apply i64_range.
Qed.

Lemma ref_int128_lawful : Lawful (prim is_i128 ref_int128).
Proof.
  split; unfold ref_int128; cbn [prim pack unpack fits fst snd].
  - intros x rest Hx. rewrite le_unpack_pack by (apply Z.mod_pos_bound; lia).
    cbn [mbind result_bind]. unfold is_i128 in Hx.
    do 2 f_equal. unfold i128, wrap_s. change (128 - 1) with 127.
    rewrite Z.add_mod_idemp_l by lia. rewrite Z.mod_small by lia. lia.
  - intros b x rest H. apply bind_Ok in H as ([z r] & _ & [= <- _]). by apply (wrap_s_range 128).
Qed.

(** ** Sequences *)

Fixpoint unpack_n {A} (r : reader A) (n : nat) : reader (list A) := fun b =>
  match n with
  | O => Ok ([], b)
  | S n' => '(x, b1) ← r b; '(l, b2) ← unpack_n r n' b1; Ok (x :: l, b2)
  end.

Definition ref_vector {A} (c : raw A) : raw (list A) :=
  (fun l => le_pack 4 (Z.of_nat (length l)) ++ concat (c.1 <$> l),
   fun b => '(n, b1) ← le_unpack 4 b; unpack_n c.2 (Z.to_nat n) b1).

Lemma unpack_n_pack {A} (c : codec A) l : forall rest, Lawful c -> Forall (fits c) l ->
  unpack_n (unpack c) (length l) (concat (pack c <$> l) ++ rest) = Ok (l, rest).
Proof.
  induction l as [|x l IH]; intros rest Hc Hl; [done|]. apply Forall_cons in Hl as [Hx Hl].
  simpl. rewrite <- app_assoc, unpack_pack by done. simpl. by rewrite IH.
Qed.

Lemma unpack_n_fits {A} (c : codec A) n : forall b l rest, Lawful c ->
  unpack_n (unpack c) n b = Ok (l, rest) -> Forall (fits c) l /\ length l = n.
Proof.
  induction n as [|n IH]; intros b l rest Hc H; simpl in H; [by injection H as <- _|].
  apply bind_Ok in H as ([x b1] & Hx%unpack_fits & H). apply bind_Ok in H as ([l' b2] & H & [= <- _]).
  apply IH in H as [Hl <-]; [|done]. by split; [constructor|].
Qed.

Lemma ref_vector_lawful {A} (c : codec A) : Lawful c ->
  Lawful (prim (fun l => Forall (fits c) l /\ is_uint 32 (Z.of_nat (length l)))
    (ref_vector (pack c, unpack c))).
Proof.
  intros Hc. split; unfold ref_vector; cbn [prim pack unpack fits fst snd].
  - intros l rest [Hl Hn]. rewrite <- app_assoc. rewrite le_unpack_pack by done. cbn [mbind result_bind].
    rewrite Nat2Z.id. by apply unpack_n_pack.
  - intros b l rest H. apply bind_Ok in H as ([n b1] & Hn%le_unpack_range & H).
    apply unpack_n_fits in H as [Hl Hlen]; [|done]. split; [done|]. rewrite Hlen, Z2Nat.id by lia. done.
Qed.

Definition to_raw {A} (c : codec A) : raw A := (pack c, unpack c).

(** A map is the vector of its pairs; unsorted ones are refused. *)
Definition ref_map {A} (k : raw Z) (c : raw A) : raw (list (Z * A)) :=
  let pair := to_raw (seq_codec (Codec (fun _ => True) k.1 k.2) (Codec (fun _ => True) c.1 c.2)) in
  ((ref_vector pair).1,
   fun b => '(l, rest) ← (ref_vector pair).2 b;
     ensure bool_decide (smap_ok l) else "keys not in order"; Ok (l, rest)).

Lemma ref_map_lawful {A} (k : codec Z) (c : codec A) : Lawful k -> Lawful c ->
  Lawful (prim (fun l => Forall (fits (seq_codec k c)) l /\ smap_ok l /\ is_uint 32 (Z.of_nat (length l)))
    (ref_map (pack k, unpack k) (pack c, unpack c))).
Proof.
  intros Hk Hc. pose proof (ref_vector_lawful (seq_codec k c) (seq_lawful k c Hk Hc)) as Hv.
  split; unfold ref_map; cbn [prim pack unpack fits fst snd].
  - intros l rest (Hl & Ho & Hn). 
    pose proof (unpack_pack (c := prim _ (ref_vector (to_raw (seq_codec k c)))) l rest (conj Hl Hn)) as E.
    cbn [prim pack unpack fst snd] in E. unfold to_raw in E |- *. cbn [pack unpack fst snd] in E |- *.
    setoid_rewrite E. cbn [mbind result_bind]. by rewrite bool_decide_true.
  - intros b l rest H. apply bind_Ok in H as ([l' r] & H1 & H). apply bind_Ok in H as (_ & Ho%check_Ok & [= <- _]).
    apply bool_decide_eq_true in Ho.
    apply (unpack_fits (c := prim _ (ref_vector (to_raw (seq_codec k c))))) in H1 as [Hl Hn]. done.
Qed.

Definition ref_optional {A} (c : raw A) : raw (option A) :=
  (fun o => match o with Some x => 1 :: c.1 x | None => [0] end,
   fun b => match b with
     | [] => Err "datastream attempted to read past the end"
     | f :: b' => if f =? 0 then Ok (None, b') else '(x, rest) ← c.2 b'; Ok (Some x, rest)
     end).
Definition ref_extension {A} (d : A) (c : raw A) : raw (option A) :=
  (fun o => c.1 (default d o),
   fun b => match b with [] => Ok (None, []) | _ => '(x, rest) ← c.2 b; Ok (Some x, rest) end).
Definition ref_bool : raw bool :=
  (fun x : bool => [if x then 1 else 0],
   fun b => match b with
     | [] => Err "datastream attempted to read past the end"
     | f :: b' => Ok (negb (f =? 0), b') end).

(** ** Structures of the toolkit *)

Lemma to_raw_lawful {A} (P : A -> Prop) (c : codec A) :
  (forall x, P x <-> fits c x) -> Lawful c -> Lawful (prim P (to_raw c)).
Proof.
  intros E Hc. split; simpl.
  - intros x rest Hx%E. by apply unpack_pack.
  - intros b x rest H%unpack_fits. by apply E.
Qed.

Definition c_uint (w : Z) : codec Z := prim (is_uint w) (ref_uint w).
Definition c_int64 : codec Z := prim is_i64 ref_int64.
Definition c_vector {A} (c : codec A) : codec (list A) :=
  prim (fun l => Forall (fits c) l /\ is_uint 32 (Z.of_nat (length l))) (ref_vector (to_raw c)).
Definition c_blob : codec bytes := c_vector (c_uint 8).
Definition c_string : codec string :=
  struct_codec (fun b => string_of_list_ascii ((fun z => ascii_of_N (Z.to_N z)) <$> b))
    (fun s => (fun a => Z.of_N (N_of_ascii a)) <$> list_ascii_of_string s) c_blob.
Definition c_name : codec name := c_uint 64.
Definition c_asset : codec asset :=
  struct_codec (fun '(n, s) => Asset n s) (fun a => (amount a, asset_symbol a)) (seq_codec c_int64 (c_uint 64)).
Definition c_permission_level : codec permission_level :=
  struct_codec (fun '(a, p) => PermissionLevel a p) (fun l => (actor l, permission l))
    (seq_codec c_name c_name).
Definition c_signing_authority : codec block_signing_authority :=
  struct_codec (fun '(t, k) => BlockSigningAuthority t k) (fun a => (auth_threshold a, auth_keys a))
    (seq_codec (c_uint 32) (c_vector (seq_codec c_blob (c_uint 16)))).
Definition c_finalizer_authority : codec finalizer_authority :=
  struct_codec (fun '(d, w, k) => FinalizerAuthority d w k)
    (fun f => (description f, fa_weight f, fa_public_key f)) (seq_codec (seq_codec c_string (c_uint 64)) c_blob).
Definition c_producer_schedule : codec producer_schedule :=
  struct_codec (fun '(v, l) => ProducerSchedule v l) (fun s => (ps_version s, ps_producers s))
    (seq_codec (c_uint 32) (c_vector (struct_codec (fun '(n, k) => ProducerKey n k)
      (fun p => (pk_name p, pk_key p)) (seq_codec c_name c_blob)))).
(** Twenty-one integers of 64 bits *)
Definition parameter_tuple (p : blockchain_parameters) : list Z :=
  [max_block_net_usage p; target_block_net_usage_pct p; max_transaction_net_usage p;
   base_per_transaction_net_usage p; net_usage_leeway p; context_free_discount_net_usage_num p;
   context_free_discount_net_usage_den p; max_block_cpu_usage p; target_block_cpu_usage_pct p;
   max_transaction_cpu_usage p; min_transaction_cpu_usage p; max_transaction_lifetime p;
   deferred_trx_expiration_window p; max_transaction_delay p; max_inline_action_size p;
   max_inline_action_depth p; max_authority_depth p; max_total_ram_usage p; gas_per_cpu_ms p;
   gas_per_net_kb p; gas_per_ram_kb p].
Definition ref_parameters : raw blockchain_parameters :=
  (fun p => concat (le_pack 8 <$> parameter_tuple p),
   fun b => '(l, rest) ← unpack_n (le_unpack 8) 21 b;
     match l with
     | [x1; x2; x3; x4; x5; x6; x7; x8; x9; x10; x11; x12; x13; x14; x15; x16; x17; x18; x19; x20; x21] =>
         Ok (BlockchainParameters x1 x2 x3 x4 x5 x6 x7 x8 x9 x10 x11 x12 x13 x14 x15 x16 x17 x18 x19
           x20 x21, rest)
     | _ => Err "not reached"
     end).

#[export] Instance ref_wire : Wire := {|
  raw_uint := ref_uint;
  raw_int64 := ref_int64;
  raw_int128 := ref_int128;
  raw_unsigned_int := ref_uint 32;
  raw_bool := ref_bool;
  raw_string := to_raw c_string;
  raw_blob := to_raw c_blob;
  raw_checksum256 := to_raw c_blob;
  raw_public_key := to_raw c_blob;
  raw_asset := to_raw c_asset;
  raw_permission_level := to_raw c_permission_level;
  raw_signing_authority := to_raw c_signing_authority;
  raw_finalizer_authority := to_raw c_finalizer_authority;
  raw_producer_schedule := to_raw c_producer_schedule;
  parameters_fit := fun p => Forall (is_uint 64) (parameter_tuple p);
  raw_parameters := ref_parameters;
  raw_vector := @ref_vector;
  raw_map := @ref_map;
  raw_optional := @ref_optional;
  raw_extension := @ref_extension;
|}.

Lemma c_uint_lawful w : w ∈ [8; 16; 32; 64] -> Lawful (c_uint w).
Proof. apply ref_uint_lawful. Qed.
Lemma c_vector_lawful {A} (c : codec A) : Lawful c -> Lawful (c_vector c).
Proof. apply ref_vector_lawful. Qed.

Lemma string_codes s :
  string_of_list_ascii ((fun z => ascii_of_N (Z.to_N z)) <$>
    ((fun a => Z.of_N (N_of_ascii a)) <$> list_ascii_of_string s)) = s.
Proof.
  rewrite <- list_fmap_compose. rewrite <- (string_of_list_ascii_of_string s) at 2. f_equal.
  rewrite <- (list_fmap_id (list_ascii_of_string s)) at 2. apply list_fmap_ext. intros i a _. simpl.
  by rewrite N2Z.id, ascii_N_embedding.
Qed.

Lemma string_fits s : fits c_string s <-> is_uint 32 (Z.of_nat (String.length s)).
Proof.
  assert (E : length (list_ascii_of_string s) = String.length s) by (induction s; simpl; congruence).
  simpl. rewrite length_fmap, E. split; [by intros [_ ?]|]. intros Hs. split; [|done].
  apply Forall_fmap, Forall_true. intros a. simpl. unfold is_uint. pose proof (N_ascii_bounded a). lia.
Qed.

Lemma c_string_lawful : Lawful c_string.
Proof.
  pose proof (c_vector_lawful (c_uint 8) (c_uint_lawful 8 ltac:(set_solver))) as Hb.
  split; unfold c_string; cbn [unpack pack struct_codec].
  - intros s rest Hs. rewrite (unpack_pack (c := c_blob)) by exact Hs.
    cbn [mbind result_bind]. by rewrite string_codes.
  - intros b s rest H. apply bind_Ok in H as ([l r] & H%(unpack_fits (c := c_blob)) & [= <- _]).
    apply string_fits. destruct H as [_ H]. rewrite <- (length_fmap (fun z => ascii_of_N (Z.to_N z)) l) in H.
    clear r b. revert H. generalize ((fun z => ascii_of_N (Z.to_N z)) <$> l) as a. intros a H.
    assert (E : String.length (string_of_list_ascii a) = length a) by (clear; induction a; simpl; congruence).
    by rewrite E.
Qed.

(** ** The laws *)

Lemma ref_parameters_lawful : Lawful (prim (fun p => Forall (is_uint 64) (parameter_tuple p)) ref_parameters).
Proof.
  pose proof (c_uint_lawful 64 ltac:(set_solver)) as Hc.
  split; unfold ref_parameters; cbn [prim pack unpack fst snd fits].
  - intros p rest Hp. change 21%nat with (length (parameter_tuple p)).
    change (le_unpack 8) with (unpack (c_uint 64)). change (le_pack 8) with (pack (c_uint 64)).
    rewrite unpack_n_pack by done. by destruct p.
  - intros b p rest H. apply bind_Ok in H as ([l r] & H & E).
    apply (unpack_n_fits (c_uint 64)) in H as [Hl _]; [|done].
    do 22 (destruct l as [|? l]; try discriminate E). by injection E as <- _.
Qed.

Lemma ref_optional_lawful {A} (c : codec A) : Lawful c ->
  Lawful (prim (fun o => match o with Some x => fits c x | None => True end)
    (ref_optional (pack c, unpack c))).
Proof.
  intros Hc. split; simpl.
  - intros [x|] rest Hx; simpl; [|done]. by rewrite unpack_pack.
  - intros [|f b] o rest H; [done|]. destruct (f =? 0); [by injection H as <- _|].
    by apply bind_Ok in H as ([x r] & H%unpack_fits & [= <- _]).
Qed.

Lemma ref_extension_present {A} (c : codec A) x : Lawful c -> Nonempty c -> fits c x ->
  forall d, (ref_extension d (pack c, unpack c)).2 (pack c x) = Ok (Some x, []).
Proof.
  intros Hc Hn Hx d. simpl. pose proof (lawful_reads_back c x Hc Hx) as Hb. unfold reads_back in Hb.
  destruct (pack c x) as [|z b] eqn:E; [by apply Hn in E|]. by rewrite Hb.
Qed.
Lemma ref_extension_lawful {A} d (c : codec A) : Lawful c -> Nonempty c ->
  LawfulEnd (prim (fun o => match o with Some x => fits c x | None => True end)
    (ref_extension d (pack c, unpack c))).
Proof.
  intros Hc Hn. split; simpl.
  - intros [x|] Hx; [exists (pack c x); exact (ref_extension_present c x Hc Hn Hx d)|by exists []].
  - intros [|f b] o rest H; [by injection H as <- _|].
    by apply bind_Ok in H as ([x r] & H%unpack_fits & [= <- _]).
Qed.

Lemma ref_bool_lawful : Lawful (prim (fun _ => True) ref_bool).
Proof. split; simpl; [by intros []|done]. Qed.

#[local] Hint Extern 1 (Lawful (c_uint _)) => apply c_uint_lawful; set_solver : typeclass_instances.
#[local] Hint Extern 1 (Lawful c_name) => apply c_uint_lawful; set_solver : typeclass_instances.
#[local] Hint Extern 1 (Lawful c_int64) => apply ref_int64_lawful : typeclass_instances.
#[local] Hint Extern 1 (Lawful (c_vector _)) => apply c_vector_lawful : typeclass_instances.

Lemma c_blob_lawful : Lawful c_blob.
Proof. unfold c_blob. apply _. Qed.
#[local] Hint Extern 1 (Lawful c_blob) => apply c_blob_lawful : typeclass_instances.
#[local] Hint Extern 1 (Lawful c_string) => apply c_string_lawful : typeclass_instances.

#[export] Instance ref_wire_laws : WireLaws.
Proof.
  split.
  - apply ref_uint_lawful.
  - apply ref_int64_lawful.
  - apply ref_int128_lawful.
  - apply ref_uint_lawful. set_solver.
  - apply ref_bool_lawful.
  - apply to_raw_lawful; [by intros s; rewrite string_fits|apply _].
  - apply to_raw_lawful; [done|apply _].
  - apply to_raw_lawful; [done|apply _].
  - apply to_raw_lawful; [done|apply _].
  - apply to_raw_lawful; [done|]. apply struct_lawful; [by intros []|by intros []|apply _].
  - apply to_raw_lawful; [done|]. apply struct_lawful; [by intros []|by intros []|apply _].
  - apply to_raw_lawful; [|apply struct_lawful; [by intros []|by intros []|apply _]].
    intros []. reflexivity.
  - apply to_raw_lawful; [|apply struct_lawful; [by intros []|by intros [[]]|apply _]].
    intros [d w k]. change (finalizer_authority_fits (FinalizerAuthority d w k) <->
      (fits c_string d /\ is_uint 64 w) /\ is_bytes k).
    rewrite string_fits. unfold finalizer_authority_fits. simpl. tauto.
  - apply to_raw_lawful; [|apply struct_lawful; [by intros []|by intros []|]].
    + intros []. reflexivity.
    + apply seq_lawful; [apply _|]. apply c_vector_lawful.
      apply struct_lawful; [by intros []|by intros []|apply _].
  - apply ref_parameters_lawful.
  - intros A c. apply ref_vector_lawful.
  - intros A k c. apply ref_map_lawful.
  - done.
  - intros A c. apply ref_optional_lawful.
  - intros A d c. apply ref_extension_lawful.
  - done.
  - intros A d c x Hc Hn Hx. by apply (ref_extension_present c x Hc Hn Hx d).
  - intros w Hw x _. repeat (apply elem_of_cons in Hw as [->|Hw]; [done|]). by apply elem_of_nil in Hw.
  - by intros A c [x|] _.
  - intros s _. done.
  - intros s _. done.
Qed.
