(* ===== verification/Abi.v ===== *)
(** * The data of actions

    What a contract accepts is what its class declares: the names of its actions and, for
    each, the types of its arguments in order.  An [abi] is that declaration as a list, one
    [entry] per action; the toolkit generates from it the reader the contract runs
    ([read_action]) and the packer its callers use ([write_action]).  [ignore<T>]
    arguments are not read; the handlers that look at the remaining bytes get them. *)
From S2P Require Import Prelude Cdt Wire.
From Stdlib Require Import ZArith Lia String.
From stdpp Require Import base tactics numbers list gmap strings.
Open Scope Z_scope.

(** ** Declarations *)

Record entry (op : Type) : Type := Entry {
  e_name : string;
  e_args : Type;
  e_codec : codec e_args;
  e_make : e_args -> op;               (* the call of the method *)
  e_match : op -> option e_args;       (* its arguments, when it is this action *)
}.
Arguments Entry {_} _ {_} _ _ _.
Arguments e_name {_} _.
Arguments e_args {_} _.
Arguments e_codec {_} _.
Arguments e_make {_} _ _.
Arguments e_match {_} _ _.

Abbreviation abi op := (list (entry op)) (only parsing).

Section abi.
Context {op : Type}.

Fixpoint read_action (l : abi op) (action : string) (data : bytes) : result op :=
  match l with
  | [] => Err "unknown action"
  | e :: l' =>
      if String.eqb (e_name e) action then '(x, _) ← unpack (e_codec e) data; mret (e_make e x)
      else read_action l' action data
  end.

Fixpoint write_action (l : abi op) (o : op) : option (string * bytes) :=
  match l with
  | [] => None
  | e :: l' =>
      match e_match e o with
      | Some x => Some (e_name e, pack (e_codec e) x)
      | None => write_action l' o
      end
  end.

(** The arguments are values of their types. *)
Fixpoint op_fits (l : abi op) (o : op) : Prop :=
  match l with
  | [] => False
  | e :: l' => match e_match e o with Some x => fits (e_codec e) x | None => op_fits l' o end
  end.

(** Actions have different names, their arguments can be read back, and what is read is an
    action of the list with arguments of their types. *)
Definition entry_ok (e : entry op) : Prop :=
  LawfulEnd (e_codec e) /\ forall o x, e_match e o = Some x -> e_make e x = o.
Class AbiOk (l : abi op) : Prop := {
  abi_names : NoDup (e_name <$> l);
  abi_entries : Forall entry_ok l;
  abi_back : Forall (fun e => forall x, fits (e_codec e) x -> op_fits l (e_make e x)) l;
}.

Lemma read_own l e x b :
  NoDup (e_name <$> l) -> e ∈ l -> unpack (e_codec e) b = Ok (x, []) ->
  read_action l (e_name e) b = Ok (e_make e x).
Proof.
  induction l as [|e' l IH]; intros Hnd Hin Hx; [by apply elem_of_nil in Hin|].
  simpl in *. apply NoDup_cons in Hnd as [Hn Hnd].
  apply elem_of_cons in Hin as [->|Hin].
  - by rewrite String.eqb_refl, Hx.
  - destruct (String.eqb_spec (e_name e') (e_name e)) as [E|_]; [|by apply IH].
    destruct Hn. rewrite E. by apply list_elem_of_fmap_2.
Qed.

Lemma write_elem l o nm b :
  write_action l o = Some (nm, b) ->
  exists e x, e ∈ l /\ e_match e o = Some x /\ nm = e_name e /\ b = pack (e_codec e) x.
Proof.
  induction l as [|e l IH]; simpl; [done|]. destruct (e_match e o) as [x|] eqn:E.
  - intros [= <- <-]. exists e, x. by split_and!; [left|..].
  - intros (e' & x & H & ?)%IH. exists e', x. by split; [right|].
Qed.

Lemma fits_elem l o :
  op_fits l o -> exists e x, e ∈ l /\ e_match e o = Some x /\ fits (e_codec e) x /\
    write_action l o = Some (e_name e, pack (e_codec e) x).
Proof.
  intros Ho. induction l as [|e l IH]; simpl in *; [done|].
  destruct (e_match e o) as [x|] eqn:E.
  - exists e, x. by split_and!; [left|..].
  - destruct (IH Ho) as (e' & x & H1 & H2). exists e', x. by split; [right|].
Qed.

(** Some data is read as the action: what is packed, unless a [binary_extension] is absent. *)
Lemma read_some l o : AbiOk l -> op_fits l o -> exists nm b, read_action l nm b = Ok o.
Proof.
  intros [Hnd Hok _] (e & x & Hin & Hm & Hf & _)%fits_elem.
  rewrite Forall_forall in Hok. destruct (Hok e Hin) as [He Hback].
  destruct (end_data x Hf) as [b Hb]. exists (e_name e), b.
  rewrite (read_own l e x b) by done. by rewrite (Hback o x).
Qed.

(** What is packed is read back, where no argument is a [binary_extension]. *)
Lemma read_write l o :
  AbiOk l -> Forall (fun e => forall x, fits (e_codec e) x -> reads_back (e_codec e) x) l -> op_fits l o ->
  exists nm b, write_action l o = Some (nm, b) /\ read_action l nm b = Ok o.
Proof.
  intros [Hnd Hok _] Hback (e & x & Hin & Hm & Hf & Hw)%fits_elem.
  exists (e_name e), (pack (e_codec e) x). split; [done|].
  rewrite Forall_forall in Hok, Hback. destruct (Hok e Hin) as [_ Hmake].
  rewrite (read_own l e x) by (done || by apply Hback). by rewrite (Hmake o x).
Qed.

(** What is read has arguments of the declared types. *)
Lemma read_fits l nm b o : AbiOk l -> read_action l nm b = Ok o -> op_fits l o.
Proof.
  intros [_ Hok Hback] H. revert Hback. generalize (op_fits l). intros P HP.
  induction l as [|e l IH]; simpl in H; [done|].
  apply Forall_cons in Hok as [[He _] Hok]. apply Forall_cons in HP as [HeP HP].
  destruct (String.eqb _ _); [|by apply IH].
  apply bind_Ok in H as ([x r] & H%unpack_all_fits & [= <-]). by apply HeP.
Qed.

Lemma read_at (l : abi op) i nm {A} (c : codec A) make mat x :
  AbiOk l -> l !! i = Some (Entry nm c make mat) -> Lawful c -> fits c x ->
  read_action l nm (pack c x) = Ok (make x).
Proof.
  intros [Hnd _ _] Hi Hc Hx.
  assert (Entry nm c make mat ∈ l) as He by by eapply list_elem_of_lookup_2.
  exact (read_own l (Entry nm c make mat) x _ Hnd He (lawful_reads_back c x Hc Hx)).
Qed.

Lemma read_prefix (l : abi op) i nm {A} (c : codec A) make mat x rest :
  NoDup (e_name <$> l) -> l !! i = Some (Entry nm c make mat) -> Lawful c -> fits c x ->
  read_action l nm (pack c x ++ rest) = Ok (make x).
Proof.
  intros Hnd Hi Hc Hx. revert i Hi. induction l as [|e l IH]; intros i Hi; [done|].
  simpl in *. apply NoDup_cons in Hnd as [Hn Hnd]. destruct i as [|i].
  - injection Hi as ->. simpl. by rewrite String.eqb_refl, unpack_pack.
  - destruct (String.eqb_spec (e_name e) nm) as [E|_]; [|by apply (IH Hnd i)].
    destruct Hn. rewrite E. apply list_elem_of_fmap. eexists. split; [|by eapply list_elem_of_lookup_2].
    done.
Qed.
End abi.

Lemma entry_ok_lawful {op} nm {A} (c : codec A) (make : A -> op) mat :
  Lawful c -> (forall o x, mat o = Some x -> make x = o) -> entry_ok (Entry nm c make mat).
Proof. intros Hc H. split; [by apply lawful_lawful_end|done]. Qed.
Lemma entry_ok_end {op} nm {A} (c : codec A) (make : A -> op) mat :
  LawfulEnd c -> (forall o x, mat o = Some x -> make x = o) -> entry_ok (Entry nm c make mat).
Proof. by split. Qed.

Lemma uint_zero w : 0 <= w -> is_uint w 0.
Proof. intros Hw. split; [done|]. by apply Z.pow_pos_nonneg. Qed.

(** A declaration is checked entry by entry. *)
Ltac entry_tac :=
  first [apply entry_ok_lawful; [apply _|] | apply entry_ok_end; [apply _|]];
  let o := fresh in let x := fresh in intros o x; destruct o; try discriminate;
  intros [= <-]; reflexivity.
Ltac back_tac :=
  let x := fresh in let H := fresh in intros x H; simpl in x, H;
  repeat match goal with x : (_ * _)%type |- _ => destruct x end;
  pose proof (uint_zero 16 ltac:(done)); simpl in *; tauto.
Ltac abi_tac :=
  split;
  [apply (bool_decide_unpack _); vm_compute; exact I
  |repeat (apply Forall_cons; split; [entry_tac|]); apply Forall_nil; exact I
  |repeat (apply Forall_cons; split; [back_tac|]); apply Forall_nil; exact I].

(** [ignore<transaction>]: what is left of the data *)
Definition ignored : codec bytes :=
  {| fits := fun _ => True; pack := fun b => b; unpack := fun b => mret (b, []) |}.
#[export] Instance ignored_lawful : LawfulEnd ignored.
Proof. split; [|done]. intros b _. by exists b. Qed.

