(* ===== verification/Native.v ===== *)
(** * The structures of the native actions

    [contracts/flon.system/include/flon.system/native.hpp]: authorities of accounts, block
    headers and the row of an ABI's hash, and the order in which their members are packed.
    flon.boot and flon.bios declare the first five again, flon.bios also the last (see [Genesis.v]). *)
From S2P Require Import Prelude Cdt SystemData.
From S2P Require Import Wire.
From Stdlib Require Import ZArith Lia String.
From stdpp Require Import base tactics numbers list strings.
Open Scope Z_scope.

(** ** Structures *)

Record permission_level_weight : Type := PermissionLevelWeight {
  plw_permission : permission_level;
  plw_weight : Z;                        (* uint16_t *)
}.
Record key_weight : Type := KeyWeight {
  kw_key : bytes;
  kw_weight : Z;                         (* uint16_t *)
}.
Record wait_weight : Type := WaitWeight {
  wait_sec : Z;                          (* uint32_t *)
  ww_weight : Z;                         (* uint16_t *)
}.
Record authority : Type := Authority {
  threshold : Z;                         (* uint32_t *)
  keys : list key_weight;
  accounts : list permission_level_weight;
  waits : list wait_weight;
}.
Record block_header : Type := BlockHeader {
  timestamp : Z;                         (* uint32_t *)
  producer : name;
  confirmed : Z;                         (* uint16_t *)
  previous : bytes;
  transaction_mroot : bytes;
  action_mroot : bytes;
  schedule_version : Z;                  (* uint32_t *)
  new_producers : option producer_schedule;
}.
Record abi_hash : Type := AbiHash { ah_owner : name; ah_hash : bytes }.

(** ** How they are packed *)

Section native.
Context {wire : Wire}.

Definition permission_level_weight_wire : codec permission_level_weight :=
  struct_codec (fun '(p, w) => PermissionLevelWeight p w) (fun r => (plw_permission r, plw_weight r))
    (wire_permission_level ⊗ wire_uint 16).
Definition key_weight_wire : codec key_weight :=
  struct_codec (fun '(k, w) => KeyWeight k w) (fun r => (kw_key r, kw_weight r))
    (wire_public_key ⊗ wire_uint 16).
Definition wait_weight_wire : codec wait_weight :=
  struct_codec (fun '(s, w) => WaitWeight s w) (fun r => (wait_sec r, ww_weight r))
    (wire_uint 32 ⊗ wire_uint 16).
Definition authority_wire : codec authority :=
  struct_codec (fun '(t, k, a, w) => Authority t k a w)
    (fun r => (threshold r, keys r, accounts r, waits r))
    (wire_uint 32 ⊗ wire_vector key_weight_wire ⊗ wire_vector permission_level_weight_wire
      ⊗ wire_vector wait_weight_wire).
Definition block_header_wire : codec block_header :=
  struct_codec (fun '(t, p, c, i, tm, am, v, n) => BlockHeader t p c i tm am v n)
    (fun r => (timestamp r, producer r, confirmed r, previous r, transaction_mroot r, action_mroot r,
      schedule_version r, new_producers r))
    (wire_uint 32 ⊗ wire_name ⊗ wire_uint 16 ⊗ wire_checksum256 ⊗ wire_checksum256 ⊗ wire_checksum256
      ⊗ wire_uint 32 ⊗ wire_optional wire_producer_schedule).
Definition abi_hash_wire : codec abi_hash :=
  struct_codec (fun '(o, h) => AbiHash o h) (fun r => (ah_owner r, ah_hash r))
    (wire_name ⊗ wire_checksum256).

Context {laws : WireLaws}.

#[export] Instance permission_level_weight_lawful : Lawful permission_level_weight_wire.
Proof. apply struct_lawful; [by intros []|by intros []|apply _]. Qed.
#[export] Instance key_weight_lawful : Lawful key_weight_wire.
Proof. apply struct_lawful; [by intros []|by intros []|apply _]. Qed.
#[export] Instance wait_weight_lawful : Lawful wait_weight_wire.
Proof. apply struct_lawful; [by intros []|by intros []|apply _]. Qed.
#[export] Instance authority_lawful : Lawful authority_wire.
Proof. apply struct_lawful; [by intros []|by intros [[[]]]|apply _]. Qed.
#[export] Instance block_header_lawful : Lawful block_header_wire.
Proof. apply struct_lawful; [by intros []|by intros [[[[[[[]]]]]]]|apply _]. Qed.
#[export] Instance abi_hash_lawful : Lawful abi_hash_wire.
Proof. apply struct_lawful; [by intros []|by intros []|apply _]. Qed.
End native.
