(* ===== verification/Finalizer.v ===== *)
(** * flon.system: finalizer keys

    [contracts/flon.system/src/finalizer_key.cpp] with the rows of its tables.  Keys are
    decoded and verified by the toolkit's BLS functions, which are the class [Bls].  The
    contract object is created for each action: the cached vector of last proposed
    finalizers starts empty and is part of the state here. *)
From S2P Require Import Prelude Table Cdt CdtRef SystemData.
From Stdlib Require Import ZArith Lia String.
From stdpp Require Import base tactics numbers list gmap sorting pretty.
Open Scope Z_scope.

Class Bls : Type := {
  decode_bls_public_key_to_g1 : string -> result bytes;   (* aborts on a malformed key *)
  decode_bls_signature_to_g2 : string -> result bytes;
  bls_pop_verify : bytes -> bytes -> bool;
}.

(** ** Rows and state *)

Record finalizer_key_info : Type := FinalizerKeyInfo {
  id : Z;                                (* uint64_t *)
  k_finalizer_name : name;
  finalizer_key : string;
  finalizer_key_binary : bytes;
}.
Definition is_active_key (k : finalizer_key_info) (finalizer_active_key_id : Z) : bool :=
  id k =? finalizer_active_key_id.

Record finalizer_info : Type := FinalizerInfo {
  finalizer_name : name;
  active_key_id : Z;
  active_key_binary : bytes;
  finalizer_key_count : Z;               (* uint32_t *)
}.

Record finalizer_auth_info : Type := FinalizerAuthInfo {
  key_id : Z;
  fin_authority : finalizer_authority;
}.
(** [operator==]: weight and description are not considered *)
Definition auth_info_eqb (a b : finalizer_auth_info) : bool :=
  (key_id a =? key_id b) &&
  bool_decide (fa_public_key (fin_authority a) = fa_public_key (fin_authority b)).
Fixpoint auth_infos_eqb (l m : list finalizer_auth_info) : bool :=
  match l, m with
  | [], [] => true
  | a :: l', b :: m' => auth_info_eqb a b && auth_infos_eqb l' m'
  | _, _ => false
  end.

Record state : Type := State {
  finalizer_keys : gmap Z finalizer_key_info;
  finalizers : gmap name finalizer_info;
  last_prop_finalizers : option (list finalizer_auth_info);        (* at most one row *)
  last_prop_finalizers_cached : option (list finalizer_auth_info);
  fin_key_id_generator : option Z;                                 (* at most one row *)
}.
Definition init_state : state := State ∅ ∅ None None None.

(** The contract object of the next action: nothing cached *)
Definition next_action (st : state) : state :=
  State (finalizer_keys st) (finalizers st) (last_prop_finalizers st) None
    (fin_key_id_generator st).

(** What dereferencing a disengaged [std::optional] of a vector yields: the C++ standard
    leaves it undefined; memory that was never written reads as an empty vector. *)
Class Memory : Type := { disengaged : list finalizer_auth_info }.

Section operations.
Context {cdt : Cdt} {bls : Bls} {memory : Memory}.

Definition by_fin_key (k : finalizer_key_info) : bytes := sha256 (finalizer_key_binary k).

(** The explicit constructor of [finalizer_auth_info] *)
Definition auth_info_of (f : finalizer_info) : finalizer_auth_info :=
  FinalizerAuthInfo (active_key_id f)
    (FinalizerAuthority (name_to_string (finalizer_name f)) 1 (active_key_binary f)).

(** When the table has no row the source assigns [{}] to the [std::optional], which leaves
    it disengaged, and then dereferences it. *)
Definition get_last_proposed_finalizers (st : state) : state * list finalizer_auth_info :=
  match last_prop_finalizers_cached st with
  | Some l => (st, l)
  | None =>
      match last_prop_finalizers st with
      | None => (st, disengaged)
      | Some l =>
          (State (finalizer_keys st) (finalizers st) (last_prop_finalizers st) (Some l)
             (fin_key_id_generator st), l)
      end
  end.

Definition is_savanna_consensus (st : state) : state * bool :=
  let '(st, l) := get_last_proposed_finalizers st in
  (st, negb (bool_decide (length l = 0%nat))).

(** [std::string::compare(0, 7, s) == 0]: the first seven characters are [s] *)
Definition starts_with (s key : string) : bool := String.eqb (substring 0 7 key) s.

Definition to_binary (finalizer_key : string) : result bytes :=
  ensure starts_with "PUB_BLS" finalizer_key
    else "finalizer key does not start with PUB_BLS: " +:+ finalizer_key;
  decode_bls_public_key_to_g1 finalizer_key.

(** [get_finalizer_key_hash] in its two overloads *)
Definition get_finalizer_key_hash (binary : bytes) : bytes := sha256 binary.
Definition get_finalizer_key_hash_text (finalizer_key : string) : result bytes :=
  fin_key_g1 ← to_binary finalizer_key;
  mret (get_finalizer_key_hash fin_key_g1).

Definition get_finalizer_itr (st : state) (n : name) : result finalizer_info :=
  f ← get_or (finalizers st !! n)
        ("finalizer " +:+ name_to_string n +:+ " has not registered any finalizer keys");
  ensure 0 <? finalizer_key_count f
    else "finalizer " +:+ name_to_string n
         +:+ "  must have at least one registered finalizer keys, has "
         +:+ pretty (finalizer_key_count f);
  mret f.

Definition key_id_le (a b : finalizer_auth_info) : Prop := key_id a <= key_id b.
#[export] Instance key_id_le_dec a b : Decision (key_id_le a b).
Proof. unfold key_id_le. apply _. Defined.

Definition set_proposed_finalizers (st : state) (proposed : list finalizer_auth_info)
    : state * list effect :=
  let proposed := merge_sort key_id_le proposed in
  let '(st, last) := get_last_proposed_finalizers st in
  if auth_infos_eqb proposed last then (st, [])
  else
    let authorities := fin_authority <$> proposed in
    let threshold := u64 (Z.of_nat (length authorities) * 2 / 3 + 1) in
    (State (finalizer_keys st) (finalizers st) (Some proposed) (Some proposed)
       (fin_key_id_generator st),
     [SetFinalizers threshold authorities]).

Definition get_next_finalizer_key_id (st : state) : state * Z :=
  let next_id := match fin_key_id_generator st with
                 | None => 0
                 | Some n => u64 (n + 1)
                 end in
  (State (finalizer_keys st) (finalizers st) (last_prop_finalizers st)
     (last_prop_finalizers_cached st) (Some next_id), next_id).

(** The loop of [switchtosvnn] over the producers in the order of their votes *)
Fixpoint collect_finalizers (st : state) (prods : list (name * producer_info)) (limit : Z)
    (acc : list finalizer_auth_info) : list finalizer_auth_info :=
  match prods with
  | [] => acc
  | (_, p) :: prods' =>
      if (Z.of_nat (length acc) <? limit) && (0 <? total_votes p) && active p then
        match finalizers st !! owner p with
        | None => collect_finalizers st prods' limit acc
        | Some f =>
            if bool_decide (active_key_binary f = []) then
              collect_finalizers st prods' limit acc
            else collect_finalizers st prods' limit (acc ++ [auth_info_of f])
        end
      else acc
  end.

Definition switchtosvnn (c : ctx) (st : state) (producers : gmap name producer_info)
    (last_producer_schedule_size : Z) : result (state * list effect) :=
  _ ← require_auth c (get_self c);
  let '(st, savanna) := is_savanna_consensus st in
  ensure negb savanna else "switchtosvnn can be run only once";
  let proposed :=
    collect_finalizers st (by_index by_votes producers) last_producer_schedule_size [] in
  ensure Z.of_nat (length proposed) =? last_producer_schedule_size
    else "not enough top producers have registered finalizer keys, has "
         +:+ pretty (Z.of_nat (length proposed)) +:+ ", require "
         +:+ pretty last_producer_schedule_size;
  let '(st, es) := set_proposed_finalizers st proposed in
  let '(st, savanna) := is_savanna_consensus st in
  ensure savanna else "switching to Savanna failed";
  mret (st, es).

(** The second half of [regfinkey]: the key's row and the finalizer's row *)
Definition insert_finalizer_key (st : state) (n : name) (key : string) (fin_key_g1 : bytes)
    : result (state * list effect) :=
  let '(st, next_id) := get_next_finalizer_key_id st in
  let k := FinalizerKeyInfo next_id n key fin_key_g1 in
  keys' ← emplace (finalizer_keys st) (id k) k;
  finalizers' ←
    match finalizers st !! n with
    | None => emplace (finalizers st) n (FinalizerInfo n (id k) (finalizer_key_binary k) 1)
    | Some f =>
        mret (<[n := FinalizerInfo (finalizer_name f) (active_key_id f) (active_key_binary f)
                       (u32 (finalizer_key_count f + 1))]> (finalizers st))
    end;
  mret (State keys' finalizers' (last_prop_finalizers st) (last_prop_finalizers_cached st)
          (fin_key_id_generator st), []).

Definition regfinkey (c : ctx) (st : state) (producers : gmap name producer_info)
    (n : name) (key proof_of_possession : string) : result (state * list effect) :=
  _ ← require_auth c n;
  ensure bool_decide (is_Some (producers !! n))
    else "finalizer " +:+ name_to_string n +:+ " is not a registered producer";
  ensure starts_with "SIG_BLS" proof_of_possession
    else "proof of possession signature does not start with SIG_BLS: " +:+ proof_of_possession;
  fin_key_g1 ← to_binary key;
  pop_g2 ← decode_bls_signature_to_g2 proof_of_possession;
  let hash := get_finalizer_key_hash fin_key_g1 in
  ensure bool_decide (find_by by_fin_key hash (finalizer_keys st) = None)
    else "duplicate finalizer key: " +:+ key;
  ensure bls_pop_verify fin_key_g1 pop_g2 else "proof of possession check failed";
  insert_finalizer_key st n key fin_key_g1.

(** [std::lower_bound] by key id, and the replacement of the found entry *)
Fixpoint replace_key (l : list finalizer_auth_info) (active_id new_id : Z) (key : bytes)
    : option (list finalizer_auth_info) :=
  match l with
  | [] => None
  | a :: l' =>
      if key_id a <? active_id then
        l'' ← replace_key l' active_id new_id key; Some (a :: l'')
      else if key_id a =? active_id then
        Some (FinalizerAuthInfo new_id
                (FinalizerAuthority (description (fin_authority a))
                   (fa_weight (fin_authority a)) key) :: l')
      else None
  end.

Definition actfinkey (c : ctx) (st : state) (n : name) (key : string)
    : result (state * list effect) :=
  _ ← require_auth c n;
  f ← get_finalizer_itr st n;
  hash ← get_finalizer_key_hash_text key;
  '(_, k) ← get_or (find_by by_fin_key hash (finalizer_keys st))
              ("finalizer key was not registered: " +:+ key);
  ensure k_finalizer_name k =? n
    else "finalizer key was not registered by the finalizer: " +:+ key;
  ensure negb (is_active_key k (active_key_id f))
    else "finalizer key was already active: " +:+ key;
  let active_id := active_key_id f in
  let finalizers' := <[n := FinalizerInfo (finalizer_name f) (id k) (finalizer_key_binary k)
                              (finalizer_key_count f)]> (finalizers st) in
  let st := State (finalizer_keys st) finalizers' (last_prop_finalizers st)
              (last_prop_finalizers_cached st) (fin_key_id_generator st) in
  let '(st, last) := get_last_proposed_finalizers st in
  match last with
  | [] => mret (st, [])
  | _ =>
      match replace_key last active_id (id k) (finalizer_key_binary k) with
      | Some proposed => mret (set_proposed_finalizers st proposed)
      | None => mret (st, [])
      end
  end.

Definition delfinkey (c : ctx) (st : state) (n : name) (key : string)
    : result (state * list effect) :=
  _ ← require_auth c n;
  f ← get_finalizer_itr st n;
  hash ← get_finalizer_key_hash_text key;
  '(pk, k) ← get_or (find_by by_fin_key hash (finalizer_keys st))
               ("finalizer key was not registered: " +:+ key);
  ensure k_finalizer_name k =? n
    else "finalizer key " +:+ key +:+ " was not registered by the finalizer "
         +:+ name_to_string n;
  ensure negb (is_active_key k (active_key_id f)) || (finalizer_key_count f =? 1)
    else "cannot delete an active key unless it is the last registered finalizer key, has "
         +:+ pretty (finalizer_key_count f) +:+ " keys";
  let finalizers' :=
    if finalizer_key_count f =? 1 then delete n (finalizers st)
    else <[n := FinalizerInfo (finalizer_name f) (active_key_id f) (active_key_binary f)
                  (u32 (finalizer_key_count f - 1))]> (finalizers st) in
  mret (State (delete pk (finalizer_keys st)) finalizers' (last_prop_finalizers st)
          (last_prop_finalizers_cached st) (fin_key_id_generator st), []).

End operations.

(** An instance for examples: a key is its own decoding, every proof verifies. *)
#[export] Instance ref_bls : Bls := {|
  decode_bls_public_key_to_g1 := fun s => Ok (string_bytes s);
  decode_bls_signature_to_g2 := fun s => Ok (string_bytes s);
  bls_pop_verify := fun _ _ => true;
|}.
