(* ===== verification/FinalizerProps.v ===== *)
(** * flon.system: the finalizer tables stay consistent

    The invariant that ties finalizer keys, finalizers and the last proposed policy
    together, its preservation by every operation of [Finalizer.v], and what the policy
    handed to the chain looks like. *)
From S2P Require Import Prelude Table Cdt CdtRef SystemData Finalizer.
From Stdlib Require Import ZArith Lia String.
From stdpp Require Import base tactics numbers list gmap sorting pretty.
Open Scope Z_scope.

(** The keys registered by one finalizer *)
Definition key_count (keys : gmap Z finalizer_key_info) (n : name) : Z :=
  msum (fun _ k => if k_finalizer_name k =? n then 1 else 0) keys.
Definition key_total (keys : gmap Z finalizer_key_info) : Z := msum (fun _ _ => 1) keys.

(** The ids given so far are [0 .. next_id - 1]. *)
Definition next_id (st : state) : Z :=
  match fin_key_id_generator st with Some n => n + 1 | None => 0 end.

(** The finalizer's row agrees with the key table. *)
Record finalizer_ok (keys : gmap Z finalizer_key_info) (n : name) (f : finalizer_info) : Prop := {
  fo_name : finalizer_name f = n;
  fo_count : finalizer_key_count f = key_count keys n;
  fo_active : exists k, keys !! active_key_id f = Some k /\ k_finalizer_name k = n /\
    finalizer_key_binary k = active_key_binary f;
}.

(** An entry of a proposed policy: an id already given; if the key is still registered, it
    is its finalizer's active one. *)
Definition entry_ok (st : state) (a : finalizer_auth_info) : Prop :=
  0 <= key_id a < next_id st /\
  forall k, finalizer_keys st !! key_id a = Some k ->
    exists f, finalizers st !! k_finalizer_name k = Some f /\ active_key_id f = key_id a.

Definition key_id_lt (a b : finalizer_auth_info) : Prop := key_id a < key_id b.

Section invariant.
Context {cdt : Cdt} {bls : Bls} {memory : Memory}.

(** The last proposed finalizers, whoever reads them *)
Definition proposed (st : state) : list finalizer_auth_info :=
  default [] (last_prop_finalizers st).

Record tables_ok (st : state) : Prop := {
  fi_keys : forall i k, finalizer_keys st !! i = Some k ->
    id k = i /\ 0 <= i < next_id st /\ is_Some (finalizers st !! k_finalizer_name k);
  fi_unique : forall i j k l, finalizer_keys st !! i = Some k -> finalizer_keys st !! j = Some l ->
    by_fin_key k = by_fin_key l -> i = j;
  fi_total : key_total (finalizer_keys st) <= next_id st;
  fi_finalizers : forall n f, finalizers st !! n = Some f -> finalizer_ok (finalizer_keys st) n f;
  fi_sorted : StronglySorted key_id_lt (proposed st);
  fi_cache : last_prop_finalizers_cached st = None \/
    (last_prop_finalizers_cached st = last_prop_finalizers st);
}.

Record inv (st : state) : Prop := {
  fi_tables : tables_ok st;
  fi_entries : Forall (entry_ok st) (proposed st);
}.

Lemma finality_inv_init : inv init_state.
Proof. split; [|constructor]. split; try done; [constructor|by left]. Qed.

Lemma inv_next_action st : inv st -> inv (next_action st).
Proof. intros [[] Hent]. split; [|done]. split; simpl; try done. by left. Qed.

Lemma key_count_bounds keys n :
  0 <= key_count keys n <= key_total keys.
Proof.
  unfold key_count, key_total. split.
  - apply msum_nonneg. intros k v _. by destruct (_ =? _).
  - apply msum_le. intros k v _. destruct (_ =? _); lia.
Qed.

Lemma key_count_pos keys i k : keys !! i = Some k -> 1 <= key_count keys (k_finalizer_name k).
Proof.
  intros Hk. unfold key_count.
  assert (Hnn : forall i k', keys !! i = Some k' ->
    0 <= (if k_finalizer_name k' =? k_finalizer_name k then 1 else 0))
    by (intros j k' _; by destruct (_ =? _)).
  pose proof (msum_member _ keys i k Hnn Hk) as H. simpl in H. by rewrite Z.eqb_refl in H.
Qed.

Lemma key_count_insert keys i k n :
  keys !! i = None ->
  key_count (<[i := k]> keys) n = key_count keys n + (if k_finalizer_name k =? n then 1 else 0).
Proof. intros Hi. unfold key_count. rewrite msum_insert_None by done. lia. Qed.

Lemma key_count_delete keys i k n :
  keys !! i = Some k ->
  key_count (delete i keys) n = key_count keys n - (if k_finalizer_name k =? n then 1 else 0).
Proof. intros Hi. unfold key_count. rewrite (msum_delete _ _ _ _ Hi). lia. Qed.

(** Two keys of one finalizer count for two. *)
Lemma key_count_two keys i j k l :
  keys !! i = Some k -> keys !! j = Some l -> i <> j ->
  k_finalizer_name k = k_finalizer_name l -> 2 <= key_count keys (k_finalizer_name k).
Proof.
  intros Hk Hl Hne E. rewrite <- (insert_delete_id keys i k Hk).
  rewrite key_count_insert by apply lookup_delete_eq. rewrite Z.eqb_refl.
  assert (Hj : delete i keys !! j = Some l) by (rewrite lookup_delete_ne; done).
  apply key_count_pos in Hj. rewrite <- E in Hj. lia.
Qed.

Lemma get_last_ok st :
  disengaged = [] -> tables_ok st ->
  (get_last_proposed_finalizers st).2 = proposed st /\
  tables_ok (get_last_proposed_finalizers st).1 /\
  finalizer_keys (get_last_proposed_finalizers st).1 = finalizer_keys st /\
  finalizers (get_last_proposed_finalizers st).1 = finalizers st /\
  last_prop_finalizers (get_last_proposed_finalizers st).1 = last_prop_finalizers st /\
  fin_key_id_generator (get_last_proposed_finalizers st).1 = fin_key_id_generator st.
Proof.
  intros Hmem Hinv. unfold get_last_proposed_finalizers, proposed.
  destruct (fi_cache _ Hinv) as [E|E]; rewrite E.
  - destruct (last_prop_finalizers st) as [l|] eqn:El; simpl; [|by split_and!].
    split_and!; try done. destruct Hinv. unfold proposed in *. rewrite El in *.
    split; unfold proposed in *; simpl; try done. by right.
  - destruct (last_prop_finalizers st) as [l|] eqn:El; simpl; by split_and!.
Qed.

Lemma is_savanna_ok st :
  disengaged = [] -> tables_ok st ->
  is_savanna_consensus st =
  ((get_last_proposed_finalizers st).1, negb (bool_decide (proposed st = []))).
Proof.
  intros Hmem Hinv. unfold is_savanna_consensus. destruct (get_last_ok st Hmem Hinv) as (El & _).
  destruct (get_last_proposed_finalizers st) as [st' l]. simpl in *. subst l.
  f_equal. f_equal. apply bool_decide_ext. by destruct (proposed st).
Qed.

Lemma auth_infos_eqb_ids l m : auth_infos_eqb l m = true -> key_id <$> l = key_id <$> m.
Proof.
  revert m. induction l as [|a l IH]; intros [|b m] H; try done. simpl in H.
  apply andb_true_iff in H as [H1 H2]. unfold auth_info_eqb in H1.
  apply andb_true_iff in H1 as [H1 _]. apply Z.eqb_eq in H1. simpl. f_equal; auto.
Qed.
End invariant.

Section policy.
Context {cdt : Cdt} {bls : Bls} {memory : Memory}.

#[export] Instance key_id_le_total : Total key_id_le.
Proof. intros a b. unfold key_id_le. lia. Qed.
#[export] Instance key_id_le_trans : Transitive key_id_le.
Proof. intros a b d. unfold key_id_le. lia. Qed.

(** Sorting by id a list without repeated ids *)
Lemma sort_strict l :
  NoDup (key_id <$> l) -> StronglySorted key_id_lt (merge_sort key_id_le l).
Proof.
  intros Hnd. assert (Hs : StronglySorted key_id_le (merge_sort key_id_le l))
    by (apply StronglySorted_merge_sort; apply _).
  assert (Hn : NoDup (key_id <$> merge_sort key_id_le l)) by by rewrite merge_sort_Permutation.
  clear Hnd. induction Hs as [|a m Hs IH Ha]; [constructor|].
  rewrite fmap_cons in Hn. apply NoDup_cons in Hn as [Hna Hn]. constructor; [auto|].
  apply Forall_forall. intros b Hb. rewrite Forall_forall in Ha. specialize (Ha b Hb).
  unfold key_id_le, key_id_lt in *.
  assert (key_id a <> key_id b); [|lia]. intros E. apply Hna. rewrite E.
  by apply list_elem_of_fmap_2.
Qed.

(** The quorum of a policy: more than two thirds, and no more than there are *)
Lemma threshold_quorum n :
  0 < n < 2 ^ 63 ->
  u64 (n * 2 / 3 + 1) = n * 2 / 3 + 1 /\ 2 * n < 3 * (n * 2 / 3 + 1) /\ n * 2 / 3 + 1 <= n.
Proof.
  intros Hn. pose proof (Z.div_mod (n * 2) 3 ltac:(lia)) as E.
  pose proof (Z.mod_pos_bound (n * 2) 3 ltac:(lia)) as B. split_and!; [|lia|lia].
  apply u64_id. unfold_ints. lia.
Qed.

(** [set_proposed_finalizers] on consistent tables *)
Lemma set_proposed_spec st l :
  disengaged = [] -> tables_ok st -> NoDup (key_id <$> l) ->
  let sorted := merge_sort key_id_le l in
  let '(st', es) := set_proposed_finalizers st l in
  tables_ok st' /\ finalizer_keys st' = finalizer_keys st /\ finalizers st' = finalizers st /\
  fin_key_id_generator st' = fin_key_id_generator st /\
  (if auth_infos_eqb sorted (proposed st)
   then es = [] /\ last_prop_finalizers st' = last_prop_finalizers st
   else es = [SetFinalizers (u64 (Z.of_nat (length l) * 2 / 3 + 1)) (fin_authority <$> sorted)]
        /\ last_prop_finalizers st' = Some sorted).
Proof.
  intros Hmem Hinv Hnd sorted. unfold set_proposed_finalizers. fold sorted.
  destruct (get_last_ok st Hmem Hinv) as (El & Hinv' & E1 & E2 & E3 & E4).
  destruct (get_last_proposed_finalizers st) as [st' last]. simpl in *. subst last.
  destruct (auth_infos_eqb sorted (proposed st)) eqn:Eq; [by split_and!|].
  assert (Elen : length (fin_authority <$> sorted) = length l).
  { rewrite length_fmap. unfold sorted. by rewrite merge_sort_Permutation. }
  rewrite Elen. split_and!; try done. destruct Hinv'.
  split; unfold proposed; simpl; try done; [by apply sort_strict|by right].
Qed.

Lemma entry_ok_ext st st' a :
  finalizer_keys st' = finalizer_keys st -> finalizers st' = finalizers st ->
  fin_key_id_generator st' = fin_key_id_generator st -> entry_ok st a -> entry_ok st' a.
Proof. unfold entry_ok, next_id. by intros -> -> ->. Qed.

(** A policy whose entries are in order keeps the invariant. *)
Lemma set_proposed_inv st l :
  disengaged = [] -> inv st -> NoDup (key_id <$> l) -> Forall (entry_ok st) l ->
  inv (set_proposed_finalizers st l).1.
Proof.
  intros Hmem [Ht He] Hnd Hl. pose proof (set_proposed_spec st l Hmem Ht Hnd) as Hs.
  cbn zeta in Hs. destruct (set_proposed_finalizers st l) as [st' es]. simpl.
  destruct Hs as (Ht' & E1 & E2 & E3 & Hlast). split; [done|]. unfold proposed in *.
  destruct (auth_infos_eqb _ _); destruct Hlast as [_ ->]; simpl.
  - eapply Forall_impl; [exact He|]. intros a. by apply entry_ok_ext.
  - rewrite Forall_forall in Hl. apply Forall_forall. intros a.
    rewrite merge_sort_Permutation. intros Ha. eapply entry_ok_ext, Hl; done.
Qed.
End policy.

Section operations.
Context {cdt : Cdt} {bls : Bls} {memory : Memory}.
Context (Hmem : disengaged = []).

(** ** Registration *)

Definition register_post (st : state) (n : name) (key : string) (binary : bytes) : state :=
  let i := next_id st in
  State (<[i := FinalizerKeyInfo i n key binary]> (finalizer_keys st))
    (<[n := match finalizers st !! n with
            | None => FinalizerInfo n i binary 1
            | Some f => FinalizerInfo n (active_key_id f) (active_key_binary f)
                          (finalizer_key_count f + 1)
            end]> (finalizers st))
    (last_prop_finalizers st) (last_prop_finalizers_cached st) (Some i).

(** Fewer keys than a [uint32_t] counts have been registered so far. *)
Definition ids_left (st : state) : Prop := next_id st < 2 ^ 32 - 1.

Lemma next_id_step st :
  tables_ok st -> ids_left st ->
  (get_next_finalizer_key_id st).2 = next_id st /\ 0 <= next_id st.
Proof.
  intros Ht Hl. unfold get_next_finalizer_key_id, ids_left, next_id in *. simpl.
  pose proof (fi_total _ Ht) as Htot. unfold next_id in Htot.
  assert (0 <= key_total (finalizer_keys st)) by (apply msum_nonneg; intros; lia).
  destruct (fin_key_id_generator st) as [m|]; [|done].
  split; [apply u64_id; unfold_ints; lia|lia].
Qed.

Lemma key_fresh st : tables_ok st -> finalizer_keys st !! next_id st = None.
Proof.
  intros Ht. destruct (finalizer_keys st !! next_id st) as [k|] eqn:E; [|done].
  destruct (fi_keys _ Ht _ _ E) as (_ & ? & _). lia.
Qed.

(** [regfinkey] succeeds exactly when its checks pass, and then adds the key. *)
Lemma regfinkey_Ok c st prods n key pop st' es :
  tables_ok st -> ids_left st ->
  regfinkey c st prods n key pop = Ok (st', es) <->
  has_auth c n = true /\ is_Some (prods !! n) /\ starts_with "SIG_BLS" pop = true /\
  exists binary sig, to_binary key = Ok binary /\ decode_bls_signature_to_g2 pop = Ok sig /\
    (forall i k, finalizer_keys st !! i = Some k -> by_fin_key k <> sha256 binary) /\
    bls_pop_verify binary sig = true /\ st' = register_post st n key binary /\ es = [].
Proof.
  intros Ht Hl. destruct (next_id_step st Ht Hl) as [Hid H0].
  pose proof (key_fresh st Ht) as Hfresh.
  assert (Hbody : forall binary,
    insert_finalizer_key st n key binary = Ok (register_post st n key binary, [])).
  { intros binary. unfold insert_finalizer_key. destruct (get_next_finalizer_key_id st) as [st1 i] eqn:Eg. simpl in Hid.
    subst i. injection Eg as <- _. unfold emplace. simpl. rewrite Hfresh.
    cbn [mbind result_bind]. unfold register_post.
    assert (Egen : Some (match fin_key_id_generator st with
      Some n0 => u64 (n0 + 1) | None => 0 end) = Some (next_id st)).
    { f_equal. by destruct (next_id_step st Ht Hl) as [<- _]. }
    rewrite Egen. destruct (finalizers st !! n) as [f|] eqn:Ef; [|done].
    destruct (fi_finalizers _ Ht _ _ Ef). simpl. rewrite fo_name0, u32_id; [done|].
    rewrite fo_count0. pose proof (key_count_bounds (finalizer_keys st) n).
    pose proof (fi_total _ Ht). unfold ids_left in Hl. unfold_ints. lia. }
  unfold regfinkey, require_auth. split.
  - intros E. apply bind_Ok in E as (_ & H1%check_Ok & E).
    apply bind_Ok in E as (_ & H2%check_Ok & E). apply bool_decide_eq_true in H2.
    apply bind_Ok in E as (_ & H3%check_Ok & E).
    apply bind_Ok in E as (binary & Hb & E). apply bind_Ok in E as (sig & Hs & E).
    apply bind_Ok in E as (_ & H4%check_Ok & E). apply bool_decide_eq_true in H4.
    apply bind_Ok in E as (_ & H5%check_Ok & E). rewrite (Hbody binary) in E.
    injection E as <- <-. split_and!; try done. exists binary, sig.
    rewrite find_by_None in H4. by split_and!.
  - intros (H1 & H2 & H3 & binary & sig & Hb & Hs & H4 & H5 & -> & ->).
    rewrite H1. cbn [check mbind result_bind]. rewrite bool_decide_true by done.
    cbn [check mbind result_bind]. rewrite H3, Hb. cbn [check mbind result_bind].
    rewrite Hs. cbn [check mbind result_bind]. unfold get_finalizer_key_hash.
    rewrite bool_decide_true by by apply find_by_None. rewrite H5. apply Hbody.
Qed.

Lemma register_key_inv st n key binary :
  inv st -> ids_left st ->
  (forall i k, finalizer_keys st !! i = Some k -> by_fin_key k <> sha256 binary) ->
  inv (register_post st n key binary).
Proof.
  intros [Ht He] Hl Hnew. destruct (next_id_step st Ht Hl) as [_ H0].
  pose proof (key_fresh st Ht) as Hfresh. pose proof Ht as [].
  assert (Hnext : next_id (register_post st n key binary) = next_id st + 1) by done.
  split; [split|]; try rewrite Hnext; simpl.
  - intros i k [[<- <-]|[Hne Hk]]%lookup_insert_Some.
    + simpl. split_and!; [done|lia|lia|]. rewrite lookup_insert_eq. by eexists.
    + destruct (fi_keys0 _ _ Hk) as (? & ? & Hf). split_and!; [done|lia|lia|].
      destruct (decide (k_finalizer_name k = n)) as [->|]; [rewrite lookup_insert_eq; by eexists|].
      by rewrite lookup_insert_ne.
  - intros i j k l Hk Hj E. apply lookup_insert_Some in Hk, Hj.
    destruct Hk as [[<- <-]|[Hne Hk]], Hj as [[<- <-]|[Hne' Hj]]; [done| | |by eapply fi_unique0].
    + exfalso. by apply (Hnew j l).
    + exfalso. by apply (Hnew i k).
  - unfold key_total. rewrite msum_insert_None by done. unfold key_total in *. lia.
  - intros m f [[<- <-]|[Hne Hf]]%lookup_insert_Some.
    + destruct (finalizers st !! n) as [f|] eqn:Ef.
      * destruct (fi_finalizers0 _ _ Ef). destruct fo_active0 as (k & Hk & ? & ?).
        split; simpl; [done| |].
        -- rewrite key_count_insert by done. simpl. rewrite Z.eqb_refl. lia.
        -- exists k. split; [|done]. rewrite lookup_insert_ne; [done|congruence].
      * split; simpl; [done| |].
        -- rewrite key_count_insert by done. simpl. rewrite Z.eqb_refl.
           enough (key_count (finalizer_keys st) n = 0) by lia. unfold key_count.
           etrans; [|apply (msum_zero (finalizer_keys st))]. apply msum_ext. intros i k Hk.
           destruct (Z.eqb_spec (k_finalizer_name k) n) as [E|]; [|done].
           destruct (fi_keys0 _ _ Hk) as (_ & _ & [? Hf]). rewrite E in Hf. congruence.
        -- eexists. rewrite lookup_insert_eq. done.
    + destruct (fi_finalizers0 _ _ Hf). destruct fo_active0 as (k & Hk & ? & ?).
      split; simpl; [done| |].
      * rewrite key_count_insert by done. simpl. rewrite (proj2 (Z.eqb_neq n m)) by done. lia.
      * exists k. split; [|done]. rewrite lookup_insert_ne; [done|congruence].
  - done.
  - done.
  - unfold proposed in *. simpl. eapply Forall_impl; [exact He|]. intros a [Ha1 Ha2].
    split; [rewrite Hnext; lia|]. simpl. intros k Hk.
    rewrite lookup_insert_ne in Hk by lia. destruct (Ha2 k Hk) as (f & Hf & Ea).
    destruct (decide (k_finalizer_name k = n)) as [E|].
    + rewrite E in *. rewrite Hf, lookup_insert_eq. by eexists.
    + rewrite lookup_insert_ne by done. eauto.
Qed.

(** ** Activation *)

(** The replaced list has the new id where the old one was. *)
Lemma replace_key_spec l active_id new_id key l' :
  StronglySorted key_id_lt l -> replace_key l active_id new_id key = l' ->
  match l' with
  | None => active_id ∉ (key_id <$> l)
  | Some m => active_id ∈ (key_id <$> l) /\
      key_id <$> m = (fun i => if i =? active_id then new_id else i) <$> (key_id <$> l) /\
      Forall (fun a => a ∈ l \/
        key_id a = new_id /\ fa_public_key (fin_authority a) = key) m
  end.
Proof.
  intros Hs. revert l'. induction Hs as [|a l Hs IH Ha]; intros l' <-; simpl; [set_solver|].
  assert (Htail : key_id a = active_id ->
    key_id <$> l = (fun i => if i =? active_id then new_id else i) <$> (key_id <$> l)).
  { intros <-. rewrite <- list_fmap_compose. apply list_fmap_ext. intros i b Hb. simpl.
    rewrite Forall_forall in Ha. specialize (Ha b (list_elem_of_lookup_2 _ _ _ Hb)).
    unfold key_id_lt in Ha. by rewrite (proj2 (Z.eqb_neq _ _)) by lia. }
  destruct (Z.ltb_spec (key_id a) active_id) as [Hlt|Hge].
  - specialize (IH _ eq_refl). destruct (replace_key l active_id new_id key) as [m|]; simpl.
    + destruct IH as (Hin & E & Hm). rewrite (proj2 (Z.eqb_neq _ _)) by lia.
      split_and!; [set_solver|by f_equal|]. constructor; [set_solver|].
      eapply Forall_impl; [exact Hm|]. set_solver.
    + apply not_elem_of_cons. split; [lia|done].
  - destruct (Z.eqb_spec (key_id a) active_id) as [E|Hne]; simpl.
    + split_and!; [set_solver| |].
      * f_equal. by apply Htail.
      * constructor; [by right|]. apply Forall_forall. set_solver.
    + apply not_elem_of_cons. split; [lia|].
      intros (b & E & Hb)%list_elem_of_fmap. rewrite Forall_forall in Ha.
      specialize (Ha b Hb). unfold key_id_lt in Ha. lia.
Qed.

(** The finalizer's row after activating key [k] *)
Definition activate_post (st : state) (n : name) (f : finalizer_info) (k : finalizer_key_info)
    : state :=
  State (finalizer_keys st)
    (<[n := FinalizerInfo (finalizer_name f) (id k) (finalizer_key_binary k)
              (finalizer_key_count f)]> (finalizers st))
    (last_prop_finalizers st) (last_prop_finalizers_cached st) (fin_key_id_generator st).

(** [actfinkey] activates another registered key of the same finalizer; when the old one
    is in the last proposed policy, it proposes the policy with the new key at once. *)
Lemma actfinkey_Ok c st n key st' es :
  tables_ok st -> actfinkey c st n key = Ok (st', es) ->
  exists f k, finalizers st !! n = Some f /\ finalizer_keys st !! id k = Some k /\
    k_finalizer_name k = n /\ id k <> active_key_id f /\
    get_finalizer_key_hash_text key = Ok (by_fin_key k) /\
    let st1 := activate_post st n f k in
    let '(st2, last) := get_last_proposed_finalizers st1 in
    (st', es) = match replace_key last (active_key_id f) (id k) (finalizer_key_binary k) with
                | Some m => set_proposed_finalizers st2 m
                | None => (st2, [])
                end.
Proof.
  intros Ht H. unfold actfinkey, get_finalizer_itr in H.
  apply bind_Ok in H as (_ & _ & H). apply bind_Ok in H as (f & Hf & H).
  apply bind_Ok in Hf as (f' & Hf%get_or_Ok & Hf'). apply bind_Ok in Hf' as (_ & _ & [= ->]).
  apply bind_Ok in H as (hash & Hh & H). apply bind_Ok in H as ([pk k] & Hk%get_or_Ok & H).
  apply find_by_Some in Hk as [Hk Hkey].
  apply bind_Ok in H as (_ & Hn%check_Ok%Z.eqb_eq & H).
  apply bind_Ok in H as (_ & Ha%check_Ok & H).
  apply negb_true_iff, Z.eqb_neq in Ha.
  destruct (fi_keys _ Ht _ _ Hk) as (Hid & _ & _). subst pk.
  exists f, k. split_and!; try done; [by rewrite Hkey|].
  fold (activate_post st n f k) in H. cbn zeta.
  destruct (get_last_proposed_finalizers (activate_post st n f k)) as [st2 [|a l]].
  - injection H as <- <-. done.
  - destruct (replace_key (a :: l) _ _ _); unfold mret, result_ret in H; congruence.
Qed.

Lemma activate_tables st n f k :
  tables_ok st -> finalizers st !! n = Some f -> finalizer_keys st !! id k = Some k ->
  k_finalizer_name k = n -> tables_ok (activate_post st n f k).
Proof.
  intros Ht Hf Hk Hn. pose proof Ht as []. split; simpl; try done.
  - intros i k' Hk'. destruct (fi_keys0 _ _ Hk') as (? & ? & Hsome). split; [done|split; [done|]].
    destruct (decide (k_finalizer_name k' = n)) as [->|];
      [rewrite lookup_insert_eq; by eexists|by rewrite lookup_insert_ne].
  - intros m g [[<- <-]|[Hne Hg]]%lookup_insert_Some; [|by apply fi_finalizers0].
    destruct (fi_finalizers0 _ _ Hf). split; simpl; [done|done|by exists k].
Qed.

(** Entries whose id is not the deactivated one stay in order. *)
Lemma activate_entry st n f k a :
  inv st -> finalizers st !! n = Some f -> entry_ok st a -> key_id a <> active_key_id f ->
  entry_ok (activate_post st n f k) a.
Proof.
  intros Hinv Hf [Ha1 Ha2] Hne. split; [done|]. simpl. intros k' Hk'.
  destruct (Ha2 k' Hk') as (g & Hg & Ea). exists g. split; [|done].
  rewrite lookup_insert_ne; [done|]. intros E. rewrite <- E, Hf in Hg. injection Hg as <-. congruence.
Qed.

(** The last proposed policy is replaced exactly when the old key is in it. *)
Lemma actfinkey_policy c st n key st' es :
  inv st -> actfinkey c st n key = Ok (st', es) ->
  exists f k, finalizers st !! n = Some f /\ finalizer_keys st !! id k = Some k /\
    k_finalizer_name k = n /\ id k <> active_key_id f /\
    get_finalizer_key_hash_text key = Ok (by_fin_key k) /\ tables_ok st' /\
    finalizer_keys st' = finalizer_keys st /\
    finalizers st' = finalizers (activate_post st n f k) /\
    fin_key_id_generator st' = fin_key_id_generator st /\
    let ids := key_id <$> proposed st in
    ((active_key_id f ∉ ids) /\ es = [] /\ last_prop_finalizers st' = last_prop_finalizers st \/
     (active_key_id f ∈ ids) /\ exists m,
       (key_id <$> m) = ((fun i => if i =? active_key_id f then id k else i) <$> ids) /\
       (forall a, a ∈ m -> a ∈ proposed st \/
          key_id a = id k /\ fa_public_key (fin_authority a) = finalizer_key_binary k) /\
       last_prop_finalizers st' = Some (merge_sort key_id_le m) /\
       es = [SetFinalizers (u64 (Z.of_nat (length m) * 2 / 3 + 1))
               (fin_authority <$> merge_sort key_id_le m)]).
Proof.
  intros Hinv H. pose proof Hinv as [Ht He].
  destruct (actfinkey_Ok _ _ _ _ _ _ Ht H) as (f & k & Hf & Hk & Hn & Hne & Hkey & Hst).
  clear H. cbn zeta in Hst. set (st1 := activate_post st n f k) in *. exists f, k.
  pose proof (activate_tables st n f k Ht Hf Hk Hn) as Ht1.
  destruct (get_last_ok st1 Hmem Ht1) as (El & Ht2 & E1 & E2 & E3 & E4).
  destruct (get_last_proposed_finalizers st1) as [st2 last]. simpl in *. subst last.
  change (proposed st1) with (proposed st) in *.
  pose proof (replace_key_spec _ (active_key_id f) (id k) (finalizer_key_binary k) _
    (fi_sorted _ Ht) eq_refl) as Hr.
  rewrite Forall_forall in He.
  destruct (replace_key (proposed st) _ _ _) as [m|].
  2:{ injection Hst as -> ->. split_and!; try done. by left. }
  destruct Hr as (Hin & Eids & Hm). rewrite Forall_forall in Hm.
  assert (Hnew : id k ∉ (key_id <$> proposed st)).
  { intros (a & Ea & Ha)%list_elem_of_fmap. destruct (He a Ha) as [_ He2].
    rewrite <- Ea in He2. destruct (He2 k Hk) as (g & Hg & Eg).
    rewrite Hn, Hf in Hg. injection Hg as <-. done. }
  assert (Hnold : active_key_id f ∉ (key_id <$> m)).
  { rewrite Eids. intros (i & Ei & _)%list_elem_of_fmap.
    destruct (Z.eqb_spec i (active_key_id f)); congruence. }
  assert (Hnd : NoDup (key_id <$> m)).
  { rewrite Eids. apply NoDup_fmap_2_strong.
    - intros x y Hx Hy. destruct (Z.eqb_spec x (active_key_id f)),
        (Z.eqb_spec y (active_key_id f)); intros; subst; try done.
    - pose proof (fi_sorted _ Ht) as Hs. clear -Hs. induction Hs as [|a l Hs IH Ha]; [constructor|].
      rewrite fmap_cons. constructor; [|done]. intros (b & Eb & Hb)%list_elem_of_fmap.
      rewrite Forall_forall in Ha. specialize (Ha b Hb). unfold key_id_lt in Ha. lia. }
  pose proof (set_proposed_spec st2 m Hmem Ht2 Hnd) as Hs. cbn zeta in Hs.
  rewrite <- Hst in Hs. destruct Hs as (Ht3 & F1 & F2 & F3 & Hlast).
  assert (Eq : auth_infos_eqb (merge_sort key_id_le m) (proposed st2) = false).
  { apply not_true_is_false. intros Eq%auth_infos_eqb_ids. apply Hnold.
    assert (Hp : active_key_id f ∈ (key_id <$> merge_sort key_id_le m))
      by (rewrite Eq; unfold proposed; rewrite E3; exact Hin).
    by rewrite merge_sort_Permutation in Hp. }
  rewrite Eq in Hlast. destruct Hlast as [-> Hlast].
  split_and!; try done; [by rewrite F1, E1|by rewrite F2, E2|by rewrite F3, E4|].
  right. split; [done|]. by exists m.
Qed.

Lemma actfinkey_inv c st n key st' es :
  inv st -> actfinkey c st n key = Ok (st', es) -> inv st'.
Proof.
  intros Hinv H. pose proof Hinv as [Ht He]. rewrite Forall_forall in He.
  destruct (actfinkey_policy _ _ _ _ _ _ Hinv H)
    as (f & k & Hf & Hk & Hn & Hne & _ & Ht' & E1 & E2 & E3 & Hor).
  assert (Hext : forall a, entry_ok (activate_post st n f k) a -> entry_ok st' a)
    by (intros a; by apply entry_ok_ext).
  split; [done|]. unfold proposed at 1. apply Forall_forall. intros a Ha. apply Hext.
  assert (Hold : a ∈ proposed st -> key_id a <> active_key_id f ->
    entry_ok (activate_post st n f k) a)
    by (intros Hin Hna; apply activate_entry; auto).
  destruct Hor as [(Hr & _ & El)|(Hr & m & Eids & Hm & El & _)]; rewrite El in Ha; simpl in Ha.
  - apply Hold; [done|]. intros E. apply Hr. rewrite <- E. by apply list_elem_of_fmap_2.
  - rewrite merge_sort_Permutation in Ha. destruct (Hm a Ha) as [Hin|[Enew _]].
    + apply Hold; [done|]. intros E. apply (list_elem_of_fmap_2 key_id) in Ha.
      rewrite Eids, E in Ha. apply list_elem_of_fmap in Ha as (i & Ei & _).
      destruct (Z.eqb_spec i (active_key_id f)); congruence.
    + split; [rewrite Enew; apply (fi_keys _ Ht _ _ Hk)|]. rewrite Enew. simpl. intros k' Hk'.
      rewrite Hk in Hk'. injection Hk' as <-. rewrite Hn, lookup_insert_eq. by eexists.
Qed.

(** ** Deletion *)

Definition delete_post (st : state) (n : name) (f : finalizer_info) (k : finalizer_key_info)
    : state :=
  State (delete (id k) (finalizer_keys st))
    (if finalizer_key_count f =? 1 then delete n (finalizers st)
     else <[n := FinalizerInfo (finalizer_name f) (active_key_id f) (active_key_binary f)
                   (finalizer_key_count f - 1)]> (finalizers st))
    (last_prop_finalizers st) (last_prop_finalizers_cached st) (fin_key_id_generator st).

(** [delfinkey] deletes a registered key of the finalizer that is not active, or its only
    one. *)
Lemma delfinkey_Ok c st n key st' es :
  inv st -> ids_left st ->
  delfinkey c st n key = Ok (st', es) <->
  has_auth c n = true /\
  exists f k, finalizers st !! n = Some f /\ get_finalizer_key_hash_text key = Ok (by_fin_key k) /\
    finalizer_keys st !! id k = Some k /\ k_finalizer_name k = n /\
    (id k <> active_key_id f \/ finalizer_key_count f = 1) /\
    st' = delete_post st n f k /\ es = [].
Proof.
  intros [Ht _] Hl. unfold delfinkey, get_finalizer_itr, require_auth.
  assert (Hcount : forall f, finalizers st !! n = Some f ->
    1 <= finalizer_key_count f < 2 ^ 32).
  { intros f Hf. destruct (fi_finalizers _ Ht _ _ Hf) as [_ -> (k & Hk & <- & _)].
    pose proof (key_count_pos _ _ _ Hk).
    pose proof (key_count_bounds (finalizer_keys st) (k_finalizer_name k)).
    pose proof (fi_total _ Ht). unfold ids_left in Hl. lia. }
  assert (Hu : forall f, finalizers st !! n = Some f ->
    u32 (finalizer_key_count f - 1) = finalizer_key_count f - 1).
  { intros f Hf. specialize (Hcount f Hf). apply u32_id. unfold_ints. lia. }
  split.
  - intros H. apply bind_Ok in H as (_ & H1%check_Ok & H). split; [done|].
    apply bind_Ok in H as (f & Hf & H). apply bind_Ok in Hf as (f' & Hf%get_or_Ok & Hf').
    apply bind_Ok in Hf' as (_ & _ & [= ->]).
    apply bind_Ok in H as (hash & Hh & H). apply bind_Ok in H as ([pk k] & Hk%get_or_Ok & H).
    apply find_by_Some in Hk as [Hk Hkey].
    apply bind_Ok in H as (_ & Hn%check_Ok%Z.eqb_eq & H).
    apply bind_Ok in H as (_ & Ha%check_Ok & [= <- <-]).
    destruct (fi_keys _ Ht _ _ Hk) as (Hid & _ & _). subst pk.
    exists f, k. split_and!; try done; [by rewrite Hkey| |].
    + apply orb_true_iff in Ha as [Ha|Ha]; [left|right; by apply Z.eqb_eq].
      by apply negb_true_iff, Z.eqb_neq in Ha.
    + unfold delete_post. by rewrite (Hu f Hf).
  - intros (H1 & f & k & Hf & Hh & Hk & Hn & Hor & -> & ->). rewrite H1, Hf.
    cbn [check get_or mbind result_bind]. specialize (Hcount f Hf).
    rewrite (proj2 (Z.ltb_lt 0 (finalizer_key_count f))) by lia.
    cbn [check mbind result_bind]. unfold mret, result_ret.
    cbn [check mbind result_bind]. rewrite Hh. cbn [mbind result_bind].
    rewrite (find_by_unique by_fin_key _ (id k) k Hk)
      by (intros j w Hj E; by eapply (fi_unique _ Ht)).
    cbn [get_or mbind result_bind]. rewrite Hn, Z.eqb_refl. cbn [check mbind result_bind].
    assert (Hb : negb (is_active_key k (active_key_id f)) || (finalizer_key_count f =? 1) = true).
    { unfold is_active_key. destruct Hor as [Hor| ->]; [|by rewrite orb_true_r].
      by rewrite (proj2 (Z.eqb_neq _ _) Hor). }
    rewrite Hb. cbn [check mbind result_bind]. rewrite (Hu f Hf). done.
Qed.

Lemma delete_inv st n f k :
  inv st -> finalizers st !! n = Some f -> finalizer_keys st !! id k = Some k ->
  k_finalizer_name k = n -> (id k <> active_key_id f \/ finalizer_key_count f = 1) ->
  inv (delete_post st n f k).
Proof.
  intros [Ht He] Hf Hk Hn Hor. pose proof Ht as [].
  destruct (fi_finalizers0 _ _ Hf) as [Hname Hcount (ka & Hka & Hna & Hba)].
  assert (Hpos : 1 <= finalizer_key_count f).
  { rewrite Hcount, <- Hn. by eapply key_count_pos. }
  assert (Honly : forall i k', finalizer_keys st !! i = Some k' -> k_finalizer_name k' = n ->
    finalizer_key_count f = 1 -> i = id k).
  { intros i k' Hk' Hn' H1. destruct (decide (i = id k)) as [|Hne]; [done|].
    pose proof (key_count_two _ _ _ _ _ Hk' Hk Hne ltac:(congruence)) as H2.
    rewrite Hn', <- Hcount in H2. lia. }
  split; [split|]; simpl; try done.
  - intros i k' [Hne Hk']%lookup_delete_Some. destruct (fi_keys0 _ _ Hk') as (? & ? & Hsome).
    split; [done|]. split; [done|]. destruct (Z.eqb_spec (finalizer_key_count f) 1) as [H1|H1].
    + rewrite lookup_delete_ne; [done|]. intros E. apply Hne. symmetry. eauto.
    + destruct (decide (k_finalizer_name k' = n)) as [->|];
        [rewrite lookup_insert_eq; by eexists|by rewrite lookup_insert_ne].
  - intros i j a b [_ Ha]%lookup_delete_Some [_ Hb]%lookup_delete_Some. by eapply fi_unique0.
  - unfold key_total in *. rewrite (msum_delete _ _ _ _ Hk) in fi_total0.
    unfold next_id in *. simpl in *. lia.
  - intros m g Hg.
    assert (Hother : m <> n -> finalizers st !! m = Some g -> finalizer_ok (delete (id k) (finalizer_keys st)) m g).
    { intros Hne Hg'. destruct (fi_finalizers0 _ _ Hg') as [Hm1 Hm2 (kb & Hkb & Hnb & Hbb)].
      split; [done| |].
      - rewrite (key_count_delete _ _ _ _ Hk), Hn, (proj2 (Z.eqb_neq n m)) by done. lia.
      - exists kb. split; [|done]. rewrite lookup_delete_ne; [done|]. intros E.
        rewrite <- E in Hkb. congruence. }
    destruct (Z.eqb_spec (finalizer_key_count f) 1) as [H1|H1].
    + apply lookup_delete_Some in Hg as [Hne Hg]. by apply Hother.
    + apply lookup_insert_Some in Hg as [[<- <-]|[Hne Hg]]; [|by apply Hother].
      split; simpl; [done| |].
      * rewrite (key_count_delete _ _ _ _ Hk), Hn, Z.eqb_refl. lia.
      * exists ka. split; [|done]. rewrite lookup_delete_ne; [done|]. destruct Hor; [done|lia].
  - unfold proposed in *. simpl. eapply Forall_impl; [exact He|]. intros a [Ha1 Ha2].
    split; [done|]. simpl. intros k' [Hne Hk']%lookup_delete_Some.
    destruct (Ha2 k' Hk') as (g & Hg & Eg).
    destruct (decide (k_finalizer_name k' = n)) as [En|En].
    + rewrite En, Hf in Hg. injection Hg as <-.
      destruct (Z.eqb_spec (finalizer_key_count f) 1) as [H1|H1].
      * exfalso. apply Hne. symmetry. by eapply Honly.
      * rewrite En, lookup_insert_eq. by eexists.
    + exists g. split; [|done]. destruct (_ =? _);
        [by rewrite lookup_delete_ne|by rewrite lookup_insert_ne].
Qed.

(** ** The policy proposed from the producers *)

(** What the loop of [switchtosvnn] collects: in the order of the producers, the rows of
    finalizers that have an active key. *)
Lemma collect_spec st prods limit : forall acc,
  (forall n p, (n, p) ∈ prods -> owner p = n) ->
  exists fs, collect_finalizers st prods limit acc = acc ++ (auth_info_of <$> fs) /\
    (tables_ok st -> (finalizer_name <$> fs) `sublist_of` prods.*1) /\
    (forall f, f ∈ fs -> exists n, finalizers st !! n = Some f).
Proof.
  induction prods as [|[n p] prods IH]; intros acc Hown.
  { exists []. simpl. rewrite app_nil_r. split_and!; [done|by constructor|set_solver]. }
  assert (Hown' : forall m q, (m, q) ∈ prods -> owner q = m) by (intros; apply Hown; set_solver).
  pose proof (Hown n p ltac:(set_solver)) as En. simpl. rewrite En.
  destruct (_ && _ && _); [|exists []; simpl; rewrite app_nil_r;
    split_and!; [done|intros; apply sublist_nil_l|set_solver]].
  assert (Hskip : exists fs, collect_finalizers st prods limit acc = acc ++ (auth_info_of <$> fs) /\
    (tables_ok st -> (finalizer_name <$> fs) `sublist_of` n :: prods.*1) /\
    (forall f, f ∈ fs -> exists n, finalizers st !! n = Some f)).
  { destruct (IH acc Hown') as (fs & E1 & E2 & E3). exists fs. split_and!; [done| |done].
    intros Ht. constructor. auto. }
  destruct (finalizers st !! n) as [f|] eqn:Ef; [|done].
  case_bool_decide; [done|].
  destruct (IH (acc ++ [auth_info_of f]) Hown') as (fs & E1 & E2 & E3).
  exists (f :: fs). split_and!.
  - rewrite E1, fmap_cons. by rewrite <- app_assoc.
  - intros Ht. rewrite fmap_cons. rewrite (fo_name _ _ _ (fi_finalizers _ Ht _ _ Ef)).
    constructor. auto.
  - intros g [->|Hg]%elem_of_cons; eauto.
Qed.

Lemma collect_length st prods limit acc :
  Z.of_nat (length acc) <= limit ->
  Z.of_nat (length (collect_finalizers st prods limit acc)) <= limit.
Proof.
  revert acc. induction prods as [|[n p] prods IH]; intros acc Hl; simpl; [done|].
  destruct (_ && _ && _) eqn:Hc; [|done]. destruct (finalizers st !! owner p); [|auto].
  case_bool_decide; [auto|]. apply IH. rewrite length_app. simpl.
  rewrite !andb_true_iff, Z.ltb_lt in Hc. lia.
Qed.

(** Entries made from finalizers with different names *)
Lemma auth_infos_ok st fs :
  inv st -> (forall f, f ∈ fs -> exists n, finalizers st !! n = Some f) ->
  NoDup (finalizer_name <$> fs) ->
  NoDup (key_id <$> (auth_info_of <$> fs)) /\ Forall (entry_ok st) (auth_info_of <$> fs).
Proof.
  intros [Ht He] Hfs Hnd.
  assert (Hrow : forall f, f ∈ fs -> finalizers st !! finalizer_name f = Some f /\
    exists k, finalizer_keys st !! active_key_id f = Some k /\ k_finalizer_name k = finalizer_name f).
  { intros f Hf. destruct (Hfs f Hf) as [n Hn].
    destruct (fi_finalizers _ Ht _ _ Hn) as [-> _ (k & Hk & En & _)]. split; [done|]. by exists k. }
  split.
  - rewrite <- list_fmap_compose. clear Hfs He. induction fs as [|f fs IH]; [constructor|].
    rewrite !fmap_cons in *. apply NoDup_cons in Hnd as [Hf Hnd]. constructor.
    + intros (g & Eg & Hg)%list_elem_of_fmap. simpl in Eg. apply Hf.
      destruct (Hrow f ltac:(set_solver)) as (_ & k & Hk & En).
      destruct (Hrow g ltac:(set_solver)) as (_ & k' & Hk' & En').
      rewrite Eg, Hk' in Hk. injection Hk as <-. rewrite <- En, En'.
      by apply list_elem_of_fmap_2.
    + apply IH; [done|]. intros g Hg. apply Hrow. set_solver.
  - apply Forall_fmap, Forall_forall. intros f Hf. destruct (Hrow f Hf) as (Hn & k & Hk & En).
    destruct (fi_keys _ Ht _ _ Hk) as (_ & ? & _). split; simpl; [done|].
    intros k' Hk'. rewrite Hk in Hk'. injection Hk' as <-. rewrite En. eauto.
Qed.

Definition producers_ok (producers : gmap name producer_info) : Prop :=
  forall n p, producers !! n = Some p -> owner p = n.

Lemma collect_ok st producers limit :
  inv st -> producers_ok producers ->
  let l := collect_finalizers st (by_index by_votes producers) limit [] in
  NoDup (key_id <$> l) /\ Forall (entry_ok st) l.
Proof.
  intros Hinv Hown l.
  destruct (collect_spec st (by_index by_votes producers) limit []) as (fs & E1 & E2 & E3).
  { intros n p Hin%by_index_elem. by apply Hown. }
  unfold l. rewrite E1. simpl. apply auth_infos_ok; [done..|].
  eapply sublist_NoDup; [apply (by_index_NoDup by_votes producers)|by apply E2, fi_tables].
Qed.

(** The switch: only before any policy, with exactly as many finalizers as producers were
    last scheduled. *)
Lemma switchtosvnn_Ok c st producers size st' es :
  inv st -> producers_ok producers -> switchtosvnn c st producers size = Ok (st', es) ->
  let l := collect_finalizers st (by_index by_votes producers) size [] in
  let sorted := merge_sort key_id_le l in
  proposed st = [] /\ Z.of_nat (length l) = size /\ 0 < size /\ inv st' /\
  last_prop_finalizers st' = Some sorted /\
  es = [SetFinalizers (u64 (size * 2 / 3 + 1)) (fin_authority <$> sorted)].
Proof.
  intros Hinv Hown H l sorted. pose proof Hinv as [Ht He]. unfold switchtosvnn in H.
  apply bind_Ok in H as (_ & _ & H). rewrite (is_savanna_ok st Hmem Ht) in H.
  apply bind_Ok in H as (_ & Hs%check_Ok & H). rewrite negb_true_iff, negb_false_iff in Hs.
  apply bool_decide_eq_true in Hs.
  destruct (get_last_ok st Hmem Ht) as (_ & Ht1 & E1 & E2 & E3 & E4).
  set (st1 := (get_last_proposed_finalizers st).1) in *.
  assert (Hl : collect_finalizers st1 (by_index by_votes producers) size [] = l).
  { unfold l. generalize (by_index by_votes producers), (@nil finalizer_auth_info).
    induction l0 as [|[n p] prods IH]; intros acc; simpl; [done|].
    rewrite E2. destruct (_ && _ && _); [|done].
    destruct (finalizers st !! owner p); [|done]. case_bool_decide; auto. }
  rewrite Hl in H. apply bind_Ok in H as (_ & Hlen%check_Ok%Z.eqb_eq & H).
  assert (Hinv1 : inv st1).
  { split; [done|]. unfold proposed in *. rewrite E3, Hs. constructor. }
  destruct (collect_ok st producers size Hinv Hown) as [Hnd Hent]. fold l in Hnd, Hent.
  assert (Hent1 : Forall (entry_ok st1) l)
    by (eapply Forall_impl; [exact Hent|]; intros a; by apply entry_ok_ext).
  pose proof (set_proposed_inv st1 l Hmem Hinv1 Hnd Hent1) as Hinv2.
  pose proof (set_proposed_spec st1 l Hmem Ht1 Hnd) as Hset. cbn zeta in Hset. fold sorted in Hset.
  destruct (set_proposed_finalizers st1 l) as [st2 es2]. simpl in Hinv2.
  destruct Hset as (Ht2 & _ & _ & _ & Hlast).
  rewrite (is_savanna_ok st2 Hmem Ht2) in H.
  apply bind_Ok in H as (_ & Hs2%check_Ok & H). apply negb_true_iff, bool_decide_eq_false in Hs2.
  unfold proposed in Hs, Hlast. rewrite E3 in Hlast. fold (proposed st) in Hlast, Hs.
  destruct (auth_infos_eqb sorted (proposed st)) eqn:Eq; destruct Hlast as [-> Hlast].
  { exfalso. apply Hs2. unfold proposed. by rewrite Hlast. }
  injection H as <- <-. rewrite Hlen in *.
  destruct (get_last_ok st2 Hmem Ht2) as (_ & Ht3 & F1 & F2 & F3 & F4).
  split_and!; try done.
  - destruct l; [|simpl in *; lia]. by rewrite Hs in Eq.
  - split; [done|]. unfold proposed. rewrite F3. eapply Forall_impl; [apply Hinv2|].
    intros a. by apply entry_ok_ext.
  - by rewrite F3.
Qed.
End operations.
