(* ===== verification/Voting.v ===== *)
(** * flon.system: producers, votes and the producer schedule

    [contracts/flon.system/src/voting.cpp]: registration of producers, stakes and votes of
    voters, refunds, and the election of the producer schedule. *)
From S2P Require Import Prelude Table Cdt CdtRef SystemData Finalizer.
From Stdlib Require Import ZArith Lia String.
From stdpp Require Import base tactics numbers list gmap sorting pretty.
Open Scope Z_scope.

(** ** Tables *)

Record state : Type := State {
  voters : gmap name voter_info;
  producers : gmap name producer_info;
  vote_refunds : gmap (name * name) vote_refund;     (* scoped by the voter *)
}.
Definition init_state : state := State ∅ ∅ ∅.

(** The row [emplace] hands to its lambda *)
Definition producer_info_default : producer_info :=
  ProducerInfo 0 0 [] true "" asset_default 0 0 block_signing_authority_default 0 0.

Section operations.
Context {cdt : Cdt} {bls : Bls} {memory : Memory}.

Definition convert_to_block_signing_authority (producer_key : bytes) : block_signing_authority :=
  BlockSigningAuthority 1 [(producer_key, 1)].

(** [registered] is what [flon_reward::is_producer_registered] reads from the reward
    contract. *)
Definition register_producer (c : ctx) (g : eosio_global_state) (st : state)
    (registered : name -> bool) (producer : name) (authority : block_signing_authority)
    (url : string) (location : Z) (reward_shared_ratio : option Z)
    : result (state * list effect) :=
  ensure Z.of_nat (String.length url) <? 512 else "url too long";
  ensure match reward_shared_ratio with Some r => r <=? ratio_boost | None => true end
    else "reward_shared_ratio is too large than " +:+ pretty ratio_boost;
  core_sym ← core_symbol g;
  let ct := current_time_point c in
  let producer_key := match auth_keys authority with [(key, _)] => key | _ => [] end in
  let es := if registered producer then []
            else [send reward_account [active_of producer] (reward_regproducer producer)] in
  match producers st !! producer with
  | Some info =>
      let info' := ProducerInfo (owner info) (total_votes info) producer_key true url
        (unclaimed_rewards info)
        (if last_claim_time info =? 0 then ct else last_claim_time info) location authority
        (default (SystemData.reward_shared_ratio info) reward_shared_ratio) (p_revision info) in
      mret (State (voters st) (<[producer := info']> (producers st)) (vote_refunds st), es)
  | None =>
      zero ← asset_ctor 0 core_sym;
      let info := ProducerInfo producer 0 producer_key true url zero ct location authority
        (default (SystemData.reward_shared_ratio producer_info_default) reward_shared_ratio)
        (p_revision producer_info_default) in
      producers' ← emplace (producers st) (owner info) info;
      mret (State (voters st) producers' (vote_refunds st), es)
  end.

Definition regproducer (c : ctx) (g : eosio_global_state) (st : state)
    (registered : name -> bool) (producer : name) (producer_key : bytes) (url : string)
    (location : Z) (reward_shared_ratio : option Z) : result (state * list effect) :=
  _ ← require_auth c producer;
  ensure Z.of_nat (String.length url) <? 512 else "url too long";
  register_producer c g st registered producer
    (convert_to_block_signing_authority producer_key) url location reward_shared_ratio.

Definition regproducer2 (c : ctx) (g : eosio_global_state) (st : state)
    (registered : name -> bool) (producer : name) (authority : block_signing_authority)
    (url : string) (location : Z) (reward_shared_ratio : option Z)
    : result (state * list effect) :=
  _ ← require_auth c producer;
  ensure Z.of_nat (String.length url) <? 512 else "url too long";
  ensure authority_valid authority else "invalid producer authority";
  register_producer c g st registered producer authority url location reward_shared_ratio.

Definition unregprod (c : ctx) (st : state) (producer : name) : result (state * list effect) :=
  _ ← require_auth c producer;
  prod ← get_or (producers st !! producer) "producer not found";
  mret (State (voters st) (<[producer := deactivate prod]> (producers st)) (vote_refunds st), []).

Definition rmvproducer (c : ctx) (st : state) (producer : name) : result (state * list effect) :=
  _ ← require_auth c (get_self c);
  prod ← get_or (producers st !! producer) "producer not found";
  mret (State (voters st) (<[producer := deactivate prod]> (producers st)) (vote_refunds st), []).

(** ** Votes *)

(** One iteration of [update_producer_votes] *)
Definition update_producer_vote (votes_delta : Z) (tbl : gmap name producer_info) (p : name)
    : result (gmap name producer_info) :=
  info ← get_or (tbl !! p) ("producer " +:+ name_to_string p +:+ " is not registered");
  ensure (votes_delta <=? 0) || active info
    else "producer " +:+ name_to_string (owner info) +:+ " is not active";
  let total' := i64 (total_votes info + votes_delta) in
  ensure 0 <=? total' else "producer's elected votes can not be negative";
  mret (<[p := with_total_votes total' info]> tbl).

Definition update_producer_votes (tbl : gmap name producer_info) (prods : list name)
    (votes_delta : Z) : result (gmap name producer_info) :=
  fold_res (update_producer_vote votes_delta) tbl prods.

(** [sizeof(name)] *)
Definition name_size : Z := 8.

(** The loop of [voteproducer].  It compares the iterators, that is the addresses of the
    elements: [a_old] and [a_new] are the addresses the two iterators hold.  The result:
    [removed_prods], [modified_prods], [added_prods]. *)
Fixpoint merge_producers (old : list name) (a_old : Z) : Z -> list name ->
    list name * list name * list name :=
  fix go (a_new : Z) (new : list name) :=
    match old, new with
    | o :: old', n :: new' =>
        if a_old <? a_new then
          let '(removed, modified, added) :=
            merge_producers old' (a_old + name_size) a_new new in
          (o :: removed, modified, added)
        else if a_new <? a_old then
          let '(removed, modified, added) := go (a_new + name_size) new' in
          (removed, modified, n :: added)
        else
          let '(removed, modified, added) :=
            merge_producers old' (a_old + name_size) (a_new + name_size) new' in
          (removed, o :: modified, added)
    | o :: old', [] =>
        let '(removed, modified, added) := merge_producers old' (a_old + name_size) a_new [] in
        (o :: removed, modified, added)
    | [], n :: new' =>
        let '(removed, modified, added) := go (a_new + name_size) new' in
        (removed, modified, n :: added)
    | [], [] => ([], [], [])
    end.

(** [old_address] and [new_address]: where the allocator put the elements of the stored
    vector and of the argument. *)
Definition voteproducer (c : ctx) (st : state) (old_address new_address : Z)
    (voter_name : name) (prods : list name) : result (state * list effect) :=
  _ ← require_auth c voter_name;
  ensure Z.of_nat (length prods) <=? max_vote_producer_count
    else "attempt to vote for too many producers";
  ensure strictly_sorted prods else "producer votes must be unique and sorted";
  v ← get_or (voters st !! voter_name) "voter not found";
  ensure 0 <=? v_votes v else "voter_itr->votes >= 0";
  _ ← checkc c (negb (bool_decide (v_producers v = prods))) VOTE_CHANGE_ERROR
        "producers no change";
  let now := current_time_point c in
  let '(removed, modified, added) :=
    merge_producers (v_producers v) old_address new_address prods in
  tbl1 ← update_producer_votes (producers st) removed (i64 (- v_votes v));
  tbl2 ← update_producer_votes tbl1 modified 0;
  tbl3 ← update_producer_votes tbl2 added (v_votes v);
  let act := send reward_account [active_of (get_self c); active_of voter_name]
               (reward_voteproducer voter_name prods) in
  let v' := VoterInfo (v_owner v) prods (v_votes v) (slot_of_time_point now) (v_revision v) in
  mret (State (<[voter_name := v']> (voters st)) tbl3 (vote_refunds st), [act]).

Definition addvote (c : ctx) (g : eosio_global_state) (st : state) (voter : name)
    (vote_staked : asset) : result (eosio_global_state * state * list effect) :=
  _ ← require_auth c voter;
  core_sym ← core_symbol g;
  ensure asset_symbol vote_staked =? core_sym else "vote_staked must be core symbol";
  ensure 0 <? amount vote_staked else "vote_staked must be positive";
  stake ← (if amount (total_vote_stake g) =? 0 then mret vote_staked
           else asset_add (total_vote_stake g) vote_staked);
  let votes := amount vote_staked in
  let transfer_act := send token_account [active_of voter]
    (token_transfer voter vote_account vote_staked "addvote") in
  '(voters', tbl) ←
    match voters st !! voter with
    | Some v =>
        tbl ← (if bool_decide (v_producers v = []) then mret (producers st)
               else update_producer_votes (producers st) (v_producers v) votes);
        mret (<[voter := VoterInfo (v_owner v) (v_producers v) (i64 (v_votes v + votes))
                           (last_unvoted_time v) (v_revision v)]> (voters st), tbl)
    | None =>
        voters' ← emplace (voters st) voter (VoterInfo voter [] votes 0 0);
        mret (voters', producers st)
    end;
  let addvote_act := send reward_account [active_of (get_self c); active_of voter]
    (reward_addvote voter votes) in
  mret (with_total_vote_stake stake g, State voters' tbl (vote_refunds st),
        [transfer_act; addvote_act]).

(** The sender id of the refund transaction: [uint128_t(act_name.value) << 64 | voter.value] *)
Definition refund_sender_id (voter : name) : Z :=
  Z.lor (Z.shiftl (name_lit "voterefund") 64) voter.

Definition subvote (c : ctx) (g : eosio_global_state) (st : state) (voter : name)
    (vote_staked : asset) : result (eosio_global_state * state * list effect) :=
  _ ← require_auth c voter;
  let now := current_time_point c in
  ensure negb (election_activated_time g =? 0) && (election_activated_time g <=? now)
    else "cannot subvote until the election is activated";
  core_sym ← core_symbol g;
  ensure asset_symbol vote_staked =? core_sym else "vote_staked must be core symbol";
  ensure 0 <? amount vote_staked else "vote_staked must be positive";
  let votes := amount vote_staked in
  v ← get_or (voters st !! voter) "voter not found";
  ensure votes <=? v_votes v else "votes insufficent";
  enough ← asset_ge (total_vote_stake g) vote_staked;
  ensure enough else "Total vote stake insufficent";
  stake ← asset_sub (total_vote_stake g) vote_staked;
  _ ← checkc c (bool_decide (vote_refunds st !! (voter, voter) = None)) VOTE_REFUND_ERROR
        "This account already has a vote refund";
  tbl ← update_producer_votes (producers st) (v_producers v) (i64 (- votes));
  let v' := VoterInfo (v_owner v) (v_producers v) (i64 (v_votes v - votes))
              (slot_of_time_point now) (v_revision v) in
  let subvote_act := send reward_account [active_of (get_self c); active_of voter]
    (reward_subvote voter votes) in
  refunds ← emplace (vote_refunds st) (voter, voter)
    (VoteRefund voter (sec_of_time_point now) vote_staked);
  let refund_trx := SendDeferred (refund_sender_id voter) voter refund_delay_sec
    (Action (get_self c) [active_of voter] (system_voterefund voter)) in
  mret (with_total_vote_stake stake g, State (<[voter := v']> (voters st)) tbl refunds,
        [subvote_act; refund_trx]).

Definition voterefund (c : ctx) (st : state) (owner : name) : result (state * list effect) :=
  r ← get_or (vote_refunds st !! (owner, owner)) "no vote refund found";
  ensure time_point_of_sec (request_time r) + seconds refund_delay_sec <=? current_time_point c
    else "refund period not mature yet";
  let transfer_act := send token_account [active_of vote_account]
    (token_transfer vote_account (r_owner r) (vote_staked r) "voterefund") in
  mret (State (voters st) (producers st) (delete (owner, owner) (vote_refunds st)),
        [transfer_act]).

(** ** The producer schedule *)

(** The loop of [update_elected_producers] *)
Fixpoint elect (finalizers : gmap name finalizer_info) (is_savanna : bool)
    (prods : list (name * producer_info)) (tops : list (Cdt.producer_authority * Z))
    (fins : list finalizer_auth_info)
    : list (Cdt.producer_authority * Z) * list finalizer_auth_info :=
  match prods with
  | [] => (tops, fins)
  | (_, p) :: prods' =>
      if (Z.of_nat (length tops) <? 21) && (0 <? total_votes p) && active p then
        let top := (ProducerAuthority (owner p) (producer_authority p), location p) in
        if is_savanna then
          match finalizers !! owner p with
          | None => elect finalizers is_savanna prods' tops fins
          | Some f =>
              if bool_decide (active_key_binary f = []) then
                elect finalizers is_savanna prods' tops fins
              else elect finalizers is_savanna prods' (tops ++ [top]) (fins ++ [auth_info_of f])
          end
        else elect finalizers is_savanna prods' (tops ++ [top]) fins
      else (tops, fins)
  end.

Definition name_le (a b : Cdt.producer_authority * Z) : Prop :=
  producer_name a.1 <= producer_name b.1.
#[export] Instance name_le_dec a b : Decision (name_le a b).
Proof. unfold name_le. apply _. Defined.

Definition update_elected_producers (c : ctx) (g : eosio_global_state) (st : state)
    (fin : Finalizer.state) (block_time : block_timestamp)
    : eosio_global_state * Finalizer.state * list effect :=
  let g := with_schedule (last_producer_schedule_size g) block_time g in
  let '(fin, is_savanna) := is_savanna_consensus fin in
  let '(tops, fins) :=
    elect (finalizers fin) is_savanna (by_index by_votes (producers st)) [] [] in
  if bool_decide (length tops = 0%nat)
     || (Z.of_nat (length tops) <? last_producer_schedule_size g)
  then (g, fin, [])
  else
    let prods := fst <$> merge_sort name_le tops in
    let g := if accepts_producers c prods
             then with_schedule (u16 (Z.of_nat (length prods))) block_time g else g in
    let '(fin, es) := if is_savanna then set_proposed_finalizers fin fins else (fin, []) in
    (g, fin, SetProposedProducers prods :: es).

End operations.
