(* ===== verification/VotingProps.v ===== *)
(** * flon.system: votes are conserved and the schedule is the top of the list

    The invariant of voters, producers and the total stake, what every voting action does
    on states in order, and what the elected schedule is. *)
From S2P Require Import Prelude Table Cdt CdtRef SystemData Finalizer FinalizerProps Voting.
From Stdlib Require Import ZArith Lia String.
From stdpp Require Import base tactics numbers list gmap sorting pretty.
Open Scope Z_scope.

(** ** The invariant *)

Definition stake_for (p : name) (v : voter_info) : Z :=
  if bool_decide (p ∈ v_producers v) then v_votes v else 0.
Definition votes_for (vs : gmap name voter_info) (p : name) : Z :=
  msum (fun _ v => stake_for p v) vs.
Definition votes_sum (vs : gmap name voter_info) : Z := msum (fun _ v => v_votes v) vs.

Record voter_ok (tbl : gmap name producer_info) (k : name) (v : voter_info) : Prop := {
  vo_owner : v_owner v = k;
  vo_votes : 0 <= v_votes v;
  vo_sorted : StronglySorted Z.lt (v_producers v);
  vo_count : Z.of_nat (length (v_producers v)) <= max_vote_producer_count;
  vo_registered : forall p, p ∈ v_producers v -> is_Some (tbl !! p);
}.

Record refund_ok (core : symbol) (k : name * name) (r : vote_refund) : Prop := {
  rf_key : k = (r_owner r, r_owner r);
  rf_symbol : asset_symbol (vote_staked r) = core;
  rf_amount : 0 < amount (vote_staked r) <= max_amount;
}.

Section invariant.
Context {cdt : Cdt}.

Definition core_of (g : eosio_global_state) : symbol := asset_symbol (total_vote_stake g).

Record inv (g : eosio_global_state) (st : state) : Prop := {
  vi_uninit : is_init g = false -> voters st = ∅ /\ vote_refunds st = ∅;
  vi_voters : forall k v, voters st !! k = Some v -> voter_ok (producers st) k v;
  vi_producers : forall p i, producers st !! p = Some i ->
    owner i = p /\ total_votes i = votes_for (voters st) p;
  vi_total : amount (total_vote_stake g) = votes_sum (voters st);
  vi_max : amount (total_vote_stake g) <= max_amount;
  vi_refunds : forall k r, vote_refunds st !! k = Some r -> refund_ok (core_of g) k r;
}.

Lemma stake_for_bounds tbl k v p : voter_ok tbl k v -> 0 <= stake_for p v <= v_votes v.
Proof. intros []. unfold stake_for. case_bool_decide; lia. Qed.

Lemma votes_for_bounds g st p :
  inv g st -> 0 <= votes_for (voters st) p <= amount (total_vote_stake g).
Proof.
  intros []. rewrite vi_total0. split.
  - apply msum_nonneg. intros k v Hk. by eapply stake_for_bounds, vi_voters0.
  - apply msum_le. intros k v Hk. by eapply stake_for_bounds, vi_voters0.
Qed.

Lemma voter_votes_le g st k v :
  inv g st -> voters st !! k = Some v -> 0 <= v_votes v <= amount (total_vote_stake g).
Proof.
  intros [] Hk. rewrite vi_total0. split; [by apply (vi_voters0 k v)|].
  apply (msum_member (fun _ v => v_votes v) (voters st) k v); [|done].
  intros k' v' Hk'. by apply (vi_voters0 k' v').
Qed.

Lemma sorted_NoDup l : StronglySorted Z.lt l -> NoDup l.
Proof.
  induction 1 as [|a l Hs IH Ha]; constructor; [|done].
  intros Hin. rewrite Forall_forall in Ha. specialize (Ha a Hin). lia.
Qed.

End invariant.

(** ** [update_producer_votes] *)

(** All producers of the list change by [d]. *)
Definition bump (l : list name) (d : Z) (tbl : gmap name producer_info) : gmap name producer_info :=
  map_imap (fun p i => Some (if bool_decide (p ∈ l) then with_total_votes (total_votes i + d) i else i))
    tbl.

Lemma bump_lookup l d tbl p :
  bump l d tbl !! p =
  (fun i => if bool_decide (p ∈ l) then with_total_votes (total_votes i + d) i else i) <$> tbl !! p.
Proof. unfold bump. rewrite map_lookup_imap. by destruct (tbl !! p). Qed.

Lemma bump_nil d tbl : bump [] d tbl = tbl.
Proof. apply map_eq. intros p. rewrite bump_lookup. by destruct (tbl !! p). Qed.

(** A producer may be given (or not lose) [d] votes. *)
Definition may_update (d : Z) (tbl : gmap name producer_info) (p : name) : Prop :=
  exists i, tbl !! p = Some i /\ (0 < d -> is_active i = true).

Section update.
Context {cdt : Cdt} {laws : CdtLaws}.

Lemma update_Ok l d : forall tbl tbl',
  NoDup l -> is_i64 d ->
  (forall p i, p ∈ l -> tbl !! p = Some i ->
    0 <= total_votes i <= int64_max /\ 0 <= total_votes i + d <= int64_max) ->
  update_producer_votes tbl l d = Ok tbl' <->
  Forall (may_update d tbl) l /\ tbl' = bump l d tbl.
Proof.
  induction l as [|p l IH]; intros tbl tbl' Hnd Hd Hb.
  { rewrite bump_nil. unfold update_producer_votes; simpl. split; [|by intros [_ ->]].
    intros [= ->]. by split. }
  apply NoDup_cons in Hnd as [Hp Hnd].
  unfold update_producer_votes. simpl. rewrite bind_Ok.
  assert (Hstep : forall t, update_producer_vote d tbl p = Ok t <->
    may_update d tbl p /\ exists i, tbl !! p = Some i /\
      t = <[p := with_total_votes (total_votes i + d) i]> tbl).
  { intros t. unfold update_producer_vote, may_update, active.
    destruct (tbl !! p) as [i|] eqn:Ei; simpl;
      [|split; [done|by intros [(? & ? & _) _]]].
    destruct (Hb p i ltac:(set_solver) Ei) as [Hb1 Hb2].
    rewrite i64_id by (unfold_ints; lia). rewrite (proj2 (Z.leb_le 0 (total_votes i + d))) by lia.
    assert (Hiff : (0 < d -> is_active i = true) ->
      Ok (<[p := with_total_votes (total_votes i + d) i]> tbl) = Ok t <->
      (exists j, Some i = Some j /\ (0 < d -> is_active j = true)) /\
      exists j, Some i = Some j /\ t = <[p := with_total_votes (total_votes j + d) j]> tbl).
    { intros Ha. split; [intros [= <-]; split; by exists i|]. by intros [_ (j & [= <-] & ->)]. }
    destruct (Z.leb_spec d 0); simpl; [apply Hiff; lia|].
    destruct (is_active i) eqn:Ea; simpl; [by apply Hiff|].
    split; [done|]. intros [(j & [= <-] & Hj) _]. rewrite Hj in Ea by lia. done. }
  assert (Hrest : forall i, tbl !! p = Some i ->
    let t := <[p := with_total_votes (total_votes i + d) i]> tbl in
    (fold_res (update_producer_vote d) t l = Ok tbl' <->
      Forall (may_update d tbl) l /\ tbl' = bump (p :: l) d tbl)).
  { intros i Hi t. unfold update_producer_votes in IH. rewrite IH; [|done|done|].
    - assert (E1 : Forall (may_update d t) l <-> Forall (may_update d tbl) l).
      { rewrite !Forall_forall. apply forall_proper. intros q. unfold may_update, t.
        split; intros H Hq; destruct (H Hq) as (j & Hj & Ha); exists j; split; try done.
        - rewrite lookup_insert_ne in Hj; [done|]. by intros ->.
        - rewrite lookup_insert_ne; [done|]. by intros ->. }
      assert (E2 : bump l d t = bump (p :: l) d tbl); [|by rewrite E1, E2].
      apply map_eq. intros q. rewrite !bump_lookup. unfold t.
      destruct (decide (p = q)) as [<-|Hne].
      + rewrite lookup_insert_eq, Hi. simpl. rewrite bool_decide_false by done.
        by rewrite bool_decide_true by set_solver.
      + rewrite lookup_insert_ne by done. f_equal.
        destruct (decide (q ∈ l)); [by rewrite !bool_decide_true by set_solver|].
        by rewrite !bool_decide_false by set_solver.
    - intros q j Hq Hj. unfold t in Hj. rewrite lookup_insert_ne in Hj by (by intros ->).
      apply (Hb q j); [set_solver|done]. }
  split.
  - intros (t & Ht & Hf). apply Hstep in Ht as [Hm (i & Hi & ->)].
    apply (Hrest i Hi) in Hf as [Hf ->]. split; [by constructor|done].
  - intros [Hm ->]. apply Forall_cons in Hm as [Hm1 Hm2]. pose proof Hm1 as (i & Hi & _).
    eexists. rewrite Hstep, (Hrest i Hi). split; [|by split]. split; [done|]. by exists i.
Qed.
End update.

(** ** The merge of [voteproducer] *)

(** Two arrays of names that do not overlap *)
Definition disjoint_at (a : Z) (l : list name) (b : Z) (m : list name) : Prop :=
  a + name_size * Z.of_nat (length l) <= b \/ b + name_size * Z.of_nat (length m) <= a.

Lemma merge_nil_new a_new new : forall a_old, merge_producers [] a_old a_new new = ([], [], new).
Proof.
  revert a_new. induction new as [|n new IH]; intros a_new a_old; [done|].
  change (merge_producers [] a_old a_new (n :: new)) with
    (let '(removed, modified, added) := merge_producers [] a_old (a_new + name_size) new in
     (removed, modified, n :: added)). by rewrite IH.
Qed.

Lemma merge_nil_old old : forall a_old a_new, merge_producers old a_old a_new [] = (old, [], []).
Proof. induction old as [|o old IH]; intros; [done|]. simpl. by rewrite IH. Qed.

Lemma merge_cons o old a_old n new a_new :
  merge_producers (o :: old) a_old a_new (n :: new) =
  (if a_old <? a_new then
     let '(removed, modified, added) := merge_producers old (a_old + name_size) a_new (n :: new) in
     (o :: removed, modified, added)
   else if a_new <? a_old then
     let '(removed, modified, added) := merge_producers (o :: old) a_old (a_new + name_size) new in
     (removed, modified, n :: added)
   else
     let '(removed, modified, added) :=
       merge_producers old (a_old + name_size) (a_new + name_size) new in
     (removed, o :: modified, added)).
Proof. done. Qed.

(** The vectors are different objects, so the loop never meets equal iterators: everything
    old is removed, everything new is added, nothing is modified. *)
Lemma merge_disjoint old : forall a_old new a_new,
  disjoint_at a_old old a_new new -> merge_producers old a_old a_new new = (old, [], new).
Proof.
  induction old as [|o old IHo]; intros a_old new a_new; [intros _; apply merge_nil_new|].
  revert a_new. induction new as [|n new IHn]; intros a_new Hd; [apply merge_nil_old|].
  rewrite merge_cons. unfold disjoint_at, name_size in *. cbn [length] in Hd.
  destruct (Z.ltb_spec a_old a_new).
  - rewrite IHo; [done|]. cbn [length]. lia.
  - rewrite (proj2 (Z.ltb_lt a_new a_old)) by lia. rewrite IHn; [done|]. cbn [length]. lia.
Qed.

(** ** Conservation *)

Section conservation.
Context {cdt : Cdt} {laws : CdtLaws}.

Lemma bump_is_Some l d tbl p : is_Some (tbl !! p) -> is_Some (bump l d tbl !! p).
Proof. rewrite bump_lookup. by intros [i ->]. Qed.

Lemma voter_ok_tables tbl tbl' k v :
  (forall p, is_Some (tbl !! p) -> is_Some (tbl' !! p)) -> voter_ok tbl k v -> voter_ok tbl' k v.
Proof. intros Hs []. split; auto. Qed.

(** The voter an action finds or creates *)
Definition voter_at (vs : gmap name voter_info) (k : name) : voter_info :=
  default (VoterInfo k [] 0 0 0) (vs !! k).

Lemma voter_at_ok g st k : inv g st -> voter_ok (producers st) k (voter_at (voters st) k).
Proof.
  intros []. unfold voter_at. destruct (voters st !! k) eqn:E; simpl; [by apply vi_voters0|].
  split; simpl; try done; [constructor|]. intros p Hp. by apply not_elem_of_nil in Hp.
Qed.

Lemma votes_for_insert vs k v p :
  votes_for (<[k := v]> vs) p = votes_for vs p - stake_for p (voter_at vs k) + stake_for p v.
Proof.
  unfold votes_for, voter_at. destruct (vs !! k) eqn:E; simpl.
  - by rewrite (msum_insert_Some _ _ _ _ _ E).
  - rewrite msum_insert_None by done.
    replace (stake_for p (VoterInfo k [] 0 0 0)) with 0 by done. lia.
Qed.

Lemma votes_sum_insert vs k v :
  votes_sum (<[k := v]> vs) = votes_sum vs - v_votes (voter_at vs k) + v_votes v.
Proof.
  unfold votes_sum, voter_at. destruct (vs !! k) eqn:E; simpl.
  - by rewrite (msum_insert_Some _ _ _ _ _ E).
  - rewrite msum_insert_None by done. lia.
Qed.

(** The votes of a producer without one of his voters *)
Lemma votes_for_minus g st k p :
  inv g st -> 0 <= votes_for (voters st) p - stake_for p (voter_at (voters st) k).
Proof.
  intros Hinv. pose proof (votes_for_bounds g st p Hinv).
  unfold voter_at, votes_for in *. destruct (voters st !! k) eqn:Hk; simpl.
  - rewrite (msum_delete _ _ _ _ Hk).
    enough (0 <= msum (fun _ v => stake_for p v) (delete k (voters st))) by lia.
    apply msum_nonneg. intros k' v' [_ Hk']%lookup_delete_Some.
    eapply stake_for_bounds, vi_voters; eauto.
  - replace (stake_for p (VoterInfo k [] 0 0 0)) with 0 by done. lia.
Qed.

(** Replacing a voter and moving the producers' votes accordingly keeps the invariant. *)
Lemma replace_voter_inv g st k v stake tbl refunds :
  let v0 := voter_at (voters st) k in
  inv g st -> is_init g = true ->
  (forall p, is_Some (producers st !! p) -> is_Some (tbl !! p)) -> voter_ok tbl k v ->
  (forall p i, tbl !! p = Some i -> owner i = p /\
    total_votes i = votes_for (voters st) p - stake_for p v0 + stake_for p v) ->
  amount stake = amount (total_vote_stake g) - v_votes v0 + v_votes v ->
  asset_symbol stake = core_of g -> amount stake <= max_amount ->
  (forall kr r, refunds !! kr = Some r -> refund_ok (core_of g) kr r) ->
  inv (with_total_vote_stake stake g) (State (<[k := v]> (voters st)) tbl refunds).
Proof.
  intros v0 Hinv Hini Htbl Hv Hprods Hstake Hsym Hmax Href.
  pose proof Hinv as []. split; simpl.
  - unfold is_init, core_of in *. simpl. rewrite Hsym. congruence.
  - intros k' v' [[<- <-]|[Hne Hk']]%lookup_insert_Some; [done|].
    eapply voter_ok_tables; eauto.
  - intros p i Hi. destruct (Hprods p i Hi) as [Ho Et]. split; [done|].
    by rewrite votes_for_insert.
  - rewrite votes_sum_insert. fold v0. lia.
  - done.
  - unfold core_of in *. simpl. by rewrite Hsym.
Qed.

(** A stake's votes moved in the table: what [update_producer_votes] needs and gives *)
Lemma update_voter g st k d tbl' :
  let v := voter_at (voters st) k in
  inv g st -> is_i64 d -> 0 <= v_votes v + d ->
  amount (total_vote_stake g) + d <= max_amount ->
  update_producer_votes (producers st) (v_producers v) d = Ok tbl' <->
  Forall (may_update d (producers st)) (v_producers v) /\
  tbl' = bump (v_producers v) d (producers st).
Proof.
  intros v Hinv Hd Hv Hmax. pose proof Hinv as [].
  pose proof (voter_at_ok g st k Hinv) as Hok.
  apply update_Ok; [apply sorted_NoDup; apply Hok|done|]. intros p i Hp Hi.
  destruct (vi_producers0 p i Hi) as [_ Et].
  pose proof (votes_for_bounds g st p Hinv) as Hb.
  pose proof (votes_for_minus g st k p Hinv) as Hm. fold v in Hm.
  unfold stake_for in Hm. rewrite bool_decide_true in Hm by done.
  unfold max_amount in *. unfold_ints. lia.
Qed.

(** ** Adding votes *)

Definition with_votes (n : Z) (t : block_timestamp) (v : voter_info) : voter_info :=
  VoterInfo (v_owner v) (v_producers v) n t (v_revision v).

Definition addvote_post (g : eosio_global_state) (st : state) (k : name) (n : Z)
    : eosio_global_state * state :=
  let v := voter_at (voters st) k in
  (with_total_vote_stake (Asset (amount (total_vote_stake g) + n) (core_of g)) g,
   State (<[k := with_votes (v_votes v + n) (last_unvoted_time v) v]> (voters st))
     (bump (v_producers v) n (producers st)) (vote_refunds st)).

Lemma i64_votes g st k d :
  inv g st -> 0 <= v_votes (voter_at (voters st) k) + d ->
  amount (total_vote_stake g) + d <= max_amount ->
  0 <= v_votes (voter_at (voters st) k) <= amount (total_vote_stake g) /\
  i64 (v_votes (voter_at (voters st) k) + d) = v_votes (voter_at (voters st) k) + d.
Proof.
  intros Hinv H0 Hmax.
  assert (Hle : 0 <= v_votes (voter_at (voters st) k) <= amount (total_vote_stake g)).
  { unfold voter_at in *. destruct (voters st !! k) eqn:E; simpl in *.
    - by eapply voter_votes_le.
    - pose proof (votes_for_bounds g st k Hinv). lia. }
  split; [done|]. apply i64_id. unfold max_amount in *. unfold_ints. lia.
Qed.

Lemma addvote_Ok c g st k q g' st' es :
  inv g st -> amount q <= max_amount ->
  let n := amount q in
  let v := voter_at (voters st) k in
  addvote c g st k q = Ok (g', st', es) <->
  has_auth c k = true /\ is_init g = true /\ asset_symbol q = core_of g /\ 0 < n /\
  amount (total_vote_stake g) + n <= max_amount /\
  Forall (may_update n (producers st)) (v_producers v) /\
  (g', st') = addvote_post g st k n /\
  es = [send token_account [active_of k] (token_transfer k vote_account q "addvote");
        send reward_account [active_of (get_self c); active_of k] (reward_addvote k n)].
Proof.
  intros Hinv Hq n v. pose proof Hinv as [].
  pose proof (votes_for_bounds g st k Hinv) as Hb.
  assert (Hstake : forall stake, asset_symbol q = core_of g -> 0 < n ->
    (if amount (total_vote_stake g) =? 0 then Ok q else asset_add (total_vote_stake g) q) = Ok stake
    <-> amount (total_vote_stake g) + n <= max_amount /\
        stake = Asset (amount (total_vote_stake g) + n) (core_of g)).
  { intros stake Hsym Hn. destruct (Z.eqb_spec (amount (total_vote_stake g)) 0) as [->|Hne].
    - unfold mret, result_ret. destruct q as [m s]. unfold n in *. simpl in *. subst s.
      split; [intros [= <-]; split; [lia|f_equal; lia]|]. by intros [_ ->].
    - rewrite law_asset_add; [|unfold_range; lia|unfold_range; lia]. fold (core_of g) n.
      unfold_range. intuition (congruence || lia). }
  assert (Htables : 0 < n -> amount (total_vote_stake g) + n <= max_amount -> forall vs tbl,
    match voters st !! k with
    | Some v => tbl ← (if bool_decide (v_producers v = []) then Ok (producers st)
                       else update_producer_votes (producers st) (v_producers v) n);
        Ok (<[k := VoterInfo (v_owner v) (v_producers v) (i64 (v_votes v + n))
                       (last_unvoted_time v) (v_revision v)]> (voters st), tbl)
    | None => voters' ← emplace (voters st) k (VoterInfo k [] n 0 0); Ok (voters', producers st)
    end = Ok (vs, tbl) <->
    Forall (may_update n (producers st)) (v_producers v) /\
    vs = <[k := with_votes (v_votes v + n) (last_unvoted_time v) v]> (voters st) /\
    tbl = bump (v_producers v) n (producers st)).
  { intros Hn Hmax vs tbl. destruct (i64_votes g st k n Hinv) as [Hv Hi]; [|done|].
    { pose proof (vo_votes _ _ _ (voter_at_ok g st k Hinv)). lia. }
    assert (Hu : forall tbl', update_producer_votes (producers st) (v_producers v) n = Ok tbl' <->
      Forall (may_update n (producers st)) (v_producers v) /\
      tbl' = bump (v_producers v) n (producers st)).
    { intros tbl'. eapply update_voter; [done|unfold_range; lia|fold v; fold v in Hv; lia|done]. }
    unfold with_votes. fold v in Hi, Hv. unfold v, voter_at in *.
    destruct (voters st !! k) as [w|] eqn:Ek; simpl in *.
    - rewrite Hi. assert (Hu' : forall tbl',
        (if bool_decide (v_producers w = []) then Ok (producers st)
         else update_producer_votes (producers st) (v_producers w) n) = Ok tbl' <->
        Forall (may_update n (producers st)) (v_producers w) /\
        tbl' = bump (v_producers w) n (producers st)).
      { intros tbl'. case_bool_decide as E; [|apply Hu]. rewrite E, bump_nil.
        unfold mret, result_ret. split; [intros [= <-]; by split|by intros [_ ->]]. }
      rewrite bind_Ok. setoid_rewrite Hu'. unfold mret, result_ret. split.
      + intros (t & [Hf ->] & [= <- <-]). done.
      + intros (Hf & -> & ->). eauto.
    - unfold emplace. rewrite Ek. simpl. rewrite bump_nil. unfold mret, result_ret. split.
      + intros [= <- <-]. done.
      + by intros (_ & -> & ->). }
  unfold addvote, require_auth, core_symbol. fold n. split.
  - intros H. apply bind_Ok in H as (_ & H1%check_Ok & H).
    apply bind_Ok in H as (core & Hc & H). apply core_symbol_Ok in Hc as [H2 ->].
    apply bind_Ok in H as (_ & H3%check_Ok%Z.eqb_eq & H).
    apply bind_Ok in H as (_ & H4%check_Ok%Z.ltb_lt & H).
    apply bind_Ok in H as (stake & Hs & H). apply Hstake in Hs as [H5 ->]; [|done..].
    apply bind_Ok in H as ([vs tbl] & Ht & [= <- <- <-]).
    apply Htables in Ht as (H6 & -> & ->); [|done..]. done.
  - intros (H1 & H2 & H3 & H4 & H5 & H6 & [= -> ->] & ->).
    rewrite H1, H2. cbn [check mbind result_bind]. rewrite H3. unfold core_of at 1.
    unfold mret, result_ret. cbn [mbind result_bind]. rewrite Z.eqb_refl, (proj2 (Z.ltb_lt 0 n) H4).
    cbn [check mbind result_bind].
    rewrite (proj2 (Hstake _ H3 H4)) by (split; [done|reflexivity]). cbn [mbind result_bind].
    rewrite (proj2 (Htables H4 H5 _ _)) by (split_and!; [done|reflexivity..]). done.
Qed.

Lemma addvote_inv g st k n :
  inv g st -> is_init g = true -> 0 < n -> amount (total_vote_stake g) + n <= max_amount ->
  inv (addvote_post g st k n).1 (addvote_post g st k n).2.
Proof.
  intros Hinv Hini Hn Hmax. unfold addvote_post. simpl.
  pose proof (voter_at_ok g st k Hinv) as Hv. destruct Hv.
  apply replace_voter_inv; simpl; try done; try lia.
  - intros p. apply bump_is_Some.
  - split; simpl; try done; [lia|]. intros p Hp. by apply bump_is_Some, vo_registered0.
  - intros p i Hi. rewrite bump_lookup in Hi. destruct (producers st !! p) as [j|] eqn:Ej; [|done].
    simpl in Hi. injection Hi as <-. destruct (vi_producers _ _ Hinv p j Ej) as [Ho Et].
    unfold stake_for. simpl. case_bool_decide; simpl; split; try done; lia.
  - apply Hinv.
Qed.

(** ** Withdrawing votes *)

Definition refund_of (c : ctx) (k : name) (q : asset) : vote_refund :=
  VoteRefund k (sec_of_time_point (current_time_point c)) q.

Definition subvote_post (c : ctx) (g : eosio_global_state) (st : state) (k : name) (q : asset)
    : eosio_global_state * state :=
  let v := voter_at (voters st) k in
  let n := amount q in
  (with_total_vote_stake (Asset (amount (total_vote_stake g) - n) (core_of g)) g,
   State (<[k := with_votes (v_votes v - n) (slot_of_time_point (current_time_point c)) v]>
            (voters st))
     (bump (v_producers v) (- n) (producers st))
     (<[(k, k) := refund_of c k q]> (vote_refunds st))).

Definition election_active (c : ctx) (g : eosio_global_state) : Prop :=
  election_activated_time g <> 0 /\ election_activated_time g <= current_time_point c.

Lemma checkc_Ok c b e m u : checkc c b e m = Ok u <-> b = true.
Proof. apply check_Ok. Qed.

Lemma may_update_neg g st k d :
  inv g st -> d <= 0 -> Forall (may_update d (producers st)) (v_producers (voter_at (voters st) k)).
Proof.
  intros Hinv Hd. apply Forall_forall. intros p Hp.
  destruct (vo_registered _ _ _ (voter_at_ok g st k Hinv) p Hp) as [i Hi].
  exists i. split; [done|lia].
Qed.

Lemma subvote_Ok c g st k q g' st' es :
  inv g st -> is_i64 (amount q) ->
  let n := amount q in
  let v := voter_at (voters st) k in
  subvote c g st k q = Ok (g', st', es) <->
  has_auth c k = true /\ election_active c g /\ is_init g = true /\
  asset_symbol q = core_of g /\ 0 < n <= v_votes v /\ vote_refunds st !! (k, k) = None /\
  (g', st') = subvote_post c g st k q /\
  es = [send reward_account [active_of (get_self c); active_of k] (reward_subvote k n);
        SendDeferred (refund_sender_id k) k refund_delay_sec
          (Action (get_self c) [active_of k] (system_voterefund k))].
Proof.
  intros Hinv Hq n v. pose proof Hinv as [].
  assert (Hle : 0 <= v_votes v <= amount (total_vote_stake g)).
  { pose proof (vo_votes _ _ _ (voter_at_ok g st k Hinv)) as Hv.
    destruct (i64_votes g st k 0 Hinv) as [Hle _]; [lia|lia|exact Hle]. }
  assert (Hg : in_range (amount (total_vote_stake g))) by (unfold in_range; unfold max_amount in *; lia).
  assert (Hu : 0 < n <= v_votes v -> forall tbl',
    update_producer_votes (producers st) (v_producers v) (i64 (- n)) = Ok tbl' <->
    tbl' = bump (v_producers v) (- n) (producers st)).
  { intros Hn tbl'. rewrite i64_id by (unfold max_amount in *; unfold_ints; lia).
    unfold v. rewrite (update_voter g); [|done|unfold max_amount in *; unfold_ints; lia|fold v; lia|lia].
    split; [by intros [_ ->]|]. intros ->. split; [|done]. apply (may_update_neg g); [done|lia]. }
  unfold subvote, require_auth, core_symbol, election_active. fold n. split.
  - intros H. apply bind_Ok in H as (_ & H1%check_Ok & H).
    apply bind_Ok in H as (_ & H2%check_Ok & H).
    apply bind_Ok in H as (core & Hc & H). apply core_symbol_Ok in Hc as [H3 ->].
    apply bind_Ok in H as (_ & H4%check_Ok%Z.eqb_eq & H).
    apply bind_Ok in H as (_ & H5%check_Ok%Z.ltb_lt & H).
    apply bind_Ok in H as (w & Hw%get_or_Ok & H).
    assert (Ev : v = w) by (unfold v, voter_at; by rewrite Hw).
    apply bind_Ok in H as (_ & H6%check_Ok%Z.leb_le & H).
    rewrite <- Ev in H, H6.
    apply bind_Ok in H as (b & Hb & H). apply bind_Ok in H as (_ & _ & H).
    apply bind_Ok in H as (stake & Hs & H). apply law_asset_sub in Hs as (_ & _ & ->); [|done..].
    apply bind_Ok in H as (_ & H7%checkc_Ok%bool_decide_eq_true & H).
    apply bind_Ok in H as (tbl & Ht & H). apply Hu in Ht as ->; [|done].
    apply bind_Ok in H as (rf & Hr%emplace_Ok & [= <- <- <-]). destruct Hr as [_ ->].
    rewrite andb_true_iff, negb_true_iff, Z.eqb_neq, Z.leb_le in H2. destruct H2 as [H2 H2'].
    split_and!; try done; try lia. unfold subvote_post, with_votes. fold v n.
    rewrite i64_id; [done|]. unfold max_amount in *. unfold_ints. lia.
  - intros (H1 & [H2 H2'] & H3 & H4 & H5 & H6 & [= -> ->] & ->).
    rewrite H1, H3. cbn [check mbind result_bind].
    rewrite (proj2 (Z.eqb_neq _ 0)) by done. rewrite (proj2 (Z.leb_le _ (current_time_point c))) by done.
    cbn [check negb andb mbind result_bind]. unfold mret, result_ret. cbn [mbind result_bind].
    rewrite H4. unfold core_of at 1. rewrite Z.eqb_refl, (proj2 (Z.ltb_lt 0 n)) by lia.
    cbn [check mbind result_bind].
    assert (Hk : voters st !! k = Some v).
    { unfold v, voter_at in *. destruct (voters st !! k); [done|]. simpl in H5. lia. }
    rewrite Hk. cbn [get_or mbind result_bind]. rewrite (proj2 (Z.leb_le n _)) by lia.
    cbn [check mbind result_bind].
    rewrite (proj2 (asset_ge_Ok (total_vote_stake g) q true))
      by (rewrite bool_decide_true; [by split|fold n; lia]).
    cbn [check mbind result_bind].
    rewrite asset_sub_Ok; [|done|done|done|fold n; unfold_range; lia]. cbn [mbind result_bind].
    unfold checkc. rewrite bool_decide_true by done. cbn [check mbind result_bind].
    rewrite (proj2 (Hu H5 _) eq_refl). cbn [mbind result_bind].
    unfold emplace. rewrite H6. cbn [mbind result_bind]. unfold subvote_post, with_votes. fold v n.
    rewrite i64_id; [done|]. unfold max_amount in *. unfold_ints. lia.
Qed.

Lemma subvote_inv c g st k q :
  inv g st -> is_init g = true -> asset_symbol q = core_of g ->
  0 < amount q <= v_votes (voter_at (voters st) k) ->
  inv (subvote_post c g st k q).1 (subvote_post c g st k q).2.
Proof.
  intros Hinv Hini Hsym Hn. unfold subvote_post. simpl.
  pose proof (voter_at_ok g st k Hinv) as Hv. destruct Hv.
  destruct (i64_votes g st k 0 Hinv) as [Hle _]; [lia|pose proof (vi_max _ _ Hinv); lia|].
  pose proof (vi_max _ _ Hinv) as Hmax.
  apply replace_voter_inv; simpl; try done; try lia.
  - intros p. apply bump_is_Some.
  - split; simpl; try done; [lia|]. intros p Hp. by apply bump_is_Some, vo_registered0.
  - intros p i Hi. rewrite bump_lookup in Hi. destruct (producers st !! p) as [j|] eqn:Ej; [|done].
    simpl in Hi. injection Hi as <-. destruct (vi_producers _ _ Hinv p j Ej) as [Ho Et].
    unfold stake_for. simpl. case_bool_decide; simpl; split; try done; lia.
  - intros kr r [[<- <-]|[Hne Hr]]%lookup_insert_Some; [|by apply Hinv].
    split; simpl; [done|done|lia].
Qed.

(** ** Refunds *)

Lemma voterefund_Ok c st k st' es :
  voterefund c st k = Ok (st', es) <->
  exists r, vote_refunds st !! (k, k) = Some r /\
    (request_time r + refund_delay_sec) * 1000000 <= current_time_point c /\
    st' = State (voters st) (producers st) (delete (k, k) (vote_refunds st)) /\
    es = [send token_account [active_of vote_account]
            (token_transfer vote_account (r_owner r) (vote_staked r) "voterefund")].
Proof.
  unfold voterefund. rewrite law_seconds. split.
  - intros H. apply bind_Ok in H as (r & Hr%get_or_Ok & H).
    apply bind_Ok in H as (_ & Ht%check_Ok%Z.leb_le & [= <- <-]).
    rewrite law_time_point_of_sec in Ht. exists r. split_and!; try done. lia.
  - intros (r & Hr & Ht & -> & ->). rewrite Hr. cbn [get_or mbind result_bind].
    rewrite law_time_point_of_sec, (proj2 (Z.leb_le _ _)) by lia. done.
Qed.

Lemma voterefund_inv g st k :
  inv g st -> inv g (State (voters st) (producers st) (delete (k, k) (vote_refunds st))).
Proof.
  intros []. split; simpl; try done.
  - intros Hi. destruct (vi_uninit0 Hi) as [-> ->]. split; [done|]. apply delete_empty.
  - intros kr r [_ Hr]%lookup_delete_Some. by apply vi_refunds0.
Qed.

(** ** Voting *)

Definition voteproducer_post (c : ctx) (st : state) (k : name) (v : voter_info)
    (prods : list name) : state :=
  State (<[k := VoterInfo (v_owner v) prods (v_votes v)
                  (slot_of_time_point (current_time_point c)) (v_revision v)]> (voters st))
    (bump prods (v_votes v) (bump (v_producers v) (- v_votes v) (producers st)))
    (vote_refunds st).

Lemma may_update_bump d l e tbl p : may_update d (bump l e tbl) p <-> may_update d tbl p.
Proof.
  unfold may_update. rewrite bump_lookup. destruct (tbl !! p) as [i|]; simpl; [|naive_solver].
  split; intros (j & [= <-] & Hj); eexists; (split; [done|]); by case_bool_decide.
Qed.

Lemma bump_zero_nil tbl l : update_producer_votes tbl [] l = Ok tbl.
Proof. done. Qed.

Lemma voteproducer_Ok c g st a_old a_new k prods st' es :
  inv g st ->
  (forall v, voters st !! k = Some v -> disjoint_at a_old (v_producers v) a_new prods) ->
  voteproducer c st a_old a_new k prods = Ok (st', es) <->
  has_auth c k = true /\ Z.of_nat (length prods) <= max_vote_producer_count /\
  StronglySorted Z.lt prods /\
  exists v, voters st !! k = Some v /\ v_producers v <> prods /\
    Forall (may_update (v_votes v) (producers st)) prods /\
    st' = voteproducer_post c st k v prods /\
    es = [send reward_account [active_of (get_self c); active_of k]
            (reward_voteproducer k prods)].
Proof.
  intros Hinv Hdis. pose proof Hinv as [].
  assert (Hbody : forall v, voters st !! k = Some v -> StronglySorted Z.lt prods ->
    forall tbl, (tbl1 ← update_producer_votes (producers st) (v_producers v) (i64 (- v_votes v));
      update_producer_votes tbl1 prods (v_votes v)) = Ok tbl <->
    Forall (may_update (v_votes v) (producers st)) prods /\
    tbl = bump prods (v_votes v) (bump (v_producers v) (- v_votes v) (producers st))).
  { intros v Hk Hs tbl. pose proof (voter_votes_le g st k v Hinv Hk) as Hle.
    assert (Hat : voter_at (voters st) k = v) by (unfold voter_at; by rewrite Hk).
    rewrite i64_id by (unfold max_amount in *; unfold_ints; lia).
    assert (H1 : update_producer_votes (producers st) (v_producers v) (- v_votes v) =
      Ok (bump (v_producers v) (- v_votes v) (producers st))).
    { pose proof (update_voter g st k (- v_votes v)) as Hu. cbn zeta in Hu. rewrite Hat in Hu.
      rewrite Hu; [|done|unfold max_amount in *; unfold_ints; lia|lia|lia]. split; [|done].
      pose proof (may_update_neg g st k (- v_votes v) Hinv ltac:(lia)) as Hm.
      by rewrite Hat in Hm. }
    rewrite H1. cbn [mbind result_bind]. rewrite update_Ok.
    - split; intros [Hf ->]; (split; [|done]); eapply Forall_impl; try exact Hf;
        intros p; by rewrite may_update_bump.
    - by apply sorted_NoDup.
    - unfold max_amount in *; unfold_ints; lia.
    - intros p i Hp Hi. rewrite bump_lookup in Hi.
      destruct (producers st !! p) as [j|] eqn:Ej; [|done]. simpl in Hi. injection Hi as <-.
      destruct (vi_producers0 p j Ej) as [_ Et].
      pose proof (votes_for_bounds g st p Hinv) as Hb.
      pose proof (votes_for_minus g st k p Hinv) as Hm. rewrite Hat in Hm.
      assert (Hadd : votes_for (voters st) p - stake_for p v + v_votes v <=
        amount (total_vote_stake g)).
      { rewrite vi_total0. unfold votes_for, votes_sum.
        rewrite !(msum_delete _ _ _ _ Hk).
        assert (msum (fun _ v => stake_for p v) (delete k (voters st)) <=
          msum (fun _ v => v_votes v) (delete k (voters st))); [|lia].
        apply msum_le. intros k' v' [_ Hk']%lookup_delete_Some.
        by eapply stake_for_bounds, vi_voters0. }
      unfold stake_for, max_amount in *. unfold_ints.
      case_bool_decide; simpl; lia. }
  unfold voteproducer, require_auth. split.
  - intros H. apply bind_Ok in H as (_ & H1%check_Ok & H).
    apply bind_Ok in H as (_ & H2%check_Ok%Z.leb_le & H).
    apply bind_Ok in H as (_ & H3%check_Ok%strictly_sorted_spec & H).
    apply bind_Ok in H as (v & Hk%get_or_Ok & H). apply bind_Ok in H as (_ & _ & H).
    apply bind_Ok in H as (_ & H4%checkc_Ok & H).
    apply negb_true_iff, bool_decide_eq_false in H4.
    rewrite (merge_disjoint _ _ _ _ (Hdis v Hk)) in H.
    apply bind_Ok in H as (t1 & Ht1 & H). apply bind_Ok in H as (t2 & Ht2 & H).
    unfold update_producer_votes in Ht2. simpl in Ht2. injection Ht2 as <-.
    apply bind_Ok in H as (t3 & Ht3 & [= <- <-]).
    destruct (proj1 (Hbody v Hk H3 t3)) as [Hf ->]; [by rewrite Ht1|].
    split_and!; try done. by exists v.
  - intros (H1 & H2 & H3 & v & Hk & H4 & Hf & -> & ->). rewrite H1.
    cbn [check mbind result_bind]. rewrite (proj2 (Z.leb_le _ _) H2).
    rewrite (proj2 (strictly_sorted_spec _) H3), Hk. cbn [check get_or mbind result_bind].
    rewrite (proj2 (Z.leb_le 0 (v_votes v))) by apply (vi_voters0 k v Hk).
    cbn [check mbind result_bind]. unfold checkc. rewrite bool_decide_false by done.
    cbn [check negb mbind result_bind]. rewrite (merge_disjoint _ _ _ _ (Hdis v Hk)).
    pose proof (proj2 (Hbody v Hk H3 _) (conj Hf eq_refl)) as Hb.
    destruct (update_producer_votes (producers st) (v_producers v) _) as [t1|]; [|done].
    cbn [mbind result_bind] in *. rewrite bump_zero_nil. cbn [mbind result_bind].
    rewrite Hb. done.
Qed.

Lemma voteproducer_inv c g st k v prods :
  inv g st -> voters st !! k = Some v -> Z.of_nat (length prods) <= max_vote_producer_count ->
  StronglySorted Z.lt prods -> Forall (may_update (v_votes v) (producers st)) prods ->
  inv g (voteproducer_post c st k v prods).
Proof.
  intros Hinv Hk Hlen Hs Hf. pose proof Hinv as []. destruct (vi_voters0 k v Hk).
  assert (Hini : is_init g = true).
  { destruct (is_init g) eqn:E; [done|]. destruct (vi_uninit0 eq_refl) as [Ev _].
    by rewrite Ev in Hk. }
  assert (Hat : voter_at (voters st) k = v) by (unfold voter_at; by rewrite Hk).
  assert (Hg : with_total_vote_stake (total_vote_stake g) g = g) by (by destruct g).
  unfold voteproducer_post. rewrite <- Hg.
  apply replace_voter_inv; simpl; try done; try rewrite Hat; simpl; try lia.
  - intros p Hp. by do 2 apply bump_is_Some.
  - split; simpl; try done. intros p Hp. do 2 apply bump_is_Some.
    rewrite Forall_forall in Hf. destruct (Hf p Hp) as (i & -> & _). by eexists.
  - intros p i Hi. rewrite !bump_lookup in Hi. destruct (producers st !! p) as [j|] eqn:Ej; [|done].
    simpl in Hi. injection Hi as <-. destruct (vi_producers0 p j Ej) as [Ho Et].
    unfold stake_for. simpl. repeat case_bool_decide; simpl; split; try done; lia.
Qed.

(** ** Registration *)

(** A row that keeps owner and votes *)
Lemma update_row_inv g st p i :
  inv g st -> owner i = p -> total_votes i = votes_for (voters st) p ->
  inv g (State (voters st) (<[p := i]> (producers st)) (vote_refunds st)).
Proof.
  intros [] Ho Et. split; simpl; try done.
  - intros k v Hk. eapply voter_ok_tables; [|by apply vi_voters0]. intros q [j Hq].
    destruct (decide (p = q)) as [<-|]; [rewrite lookup_insert_eq; by eexists|].
    rewrite lookup_insert_ne by done. by eexists.
  - intros q j [[<- <-]|[Hne Hq]]%lookup_insert_Some; [done|by apply vi_producers0].
Qed.

Lemma register_inv c g st reg p auth url loc ratio st' es :
  inv g st -> register_producer c g st reg p auth url loc ratio = Ok (st', es) -> inv g st'.
Proof.
  intros Hinv H. unfold register_producer in H.
  apply bind_Ok in H as (_ & _ & H). apply bind_Ok in H as (_ & _ & H).
  apply bind_Ok in H as (core & Hc & H). destruct (producers st !! p) as [i|] eqn:Ei.
  - injection H as <- _. destruct (vi_producers _ _ Hinv p i Ei) as [Ho Et].
    by apply update_row_inv.
  - apply bind_Ok in H as (zero & _ & H). apply bind_Ok in H as (tbl & Ht%emplace_Ok & [= <- _]).
    destruct Ht as [_ ->]. simpl. apply update_row_inv; [done|done|]. simpl.
    symmetry. etrans; [|apply (msum_zero (voters st))]. apply msum_ext. intros k v Hk.
    unfold stake_for. rewrite bool_decide_false; [done|]. intros Hp.
    destruct (vo_registered _ _ _ (vi_voters _ _ Hinv k v Hk) p Hp). congruence.
Qed.

Lemma deactivate_inv g st p i :
  inv g st -> producers st !! p = Some i ->
  inv g (State (voters st) (<[p := deactivate i]> (producers st)) (vote_refunds st)).
Proof. intros Hinv Hi. destruct (vi_producers _ _ Hinv p i Hi). by apply update_row_inv. Qed.

Lemma voting_inv_init g : is_init g = false -> total_vote_stake g = asset_default -> inv g init_state.
Proof. intros Hi Hg. split; rewrite ?Hg; simpl; done || (unfold max_amount; lia). Qed.
End conservation.
