(* ===== verification/Election.v ===== *)
(** * flon.system: the election of the producer schedule

    [update_elected_producers] of [Voting.v] proposes the eligible producers with the most
    votes, at most 21, and never a shorter schedule than the last one. *)
From S2P Require Import Prelude Table Cdt CdtRef SystemData Finalizer FinalizerProps.
From S2P Require Import Voting VotingProps.
From Stdlib Require Import ZArith Lia String.
From stdpp Require Import base tactics numbers list gmap sorting pretty.
Open Scope Z_scope.

(** Who can be scheduled: active, with votes, and under Savanna with an active key *)
Definition standing (p : producer_info) : bool := (0 <? total_votes p) && active p.
Definition has_key (fins : gmap name finalizer_info) (p : producer_info) : bool :=
  match fins !! owner p with
  | Some f => negb (bool_decide (active_key_binary f = []))
  | None => false
  end.
Definition eligible (fins : gmap name finalizer_info) (savanna : bool) (p : producer_info) : bool :=
  standing p && (negb savanna || has_key fins p).

Definition eligible_rows (fins : gmap name finalizer_info) (savanna : bool)
    (prods : list (name * producer_info)) : list (name * producer_info) :=
  filter (fun e => eligible fins savanna e.2 = true) prods.

Definition top_of (e : name * producer_info) : Cdt.producer_authority * Z :=
  (ProducerAuthority (owner e.2) (producer_authority e.2), location e.2).

Lemma standing_first p q :
  0 <= total_votes p <= int64_max -> 0 <= total_votes q <= int64_max ->
  by_votes p <= by_votes q -> standing p = false -> standing q = false.
Proof.
  intros Hp Hq Hle. unfold standing, active.
  pose proof (by_votes_order q p Hq Hp) as H.
  destruct (Z.ltb_spec 0 (total_votes p)), (Z.ltb_spec 0 (total_votes q)),
    (is_active p), (is_active q); simpl; try done; intros _;
    exfalso; enough (by_votes q < by_votes p) by lia; apply H; auto with lia.
Qed.

Lemma filter_none {A} (P : A -> Prop) `{!forall x, Decision (P x)} (l : list A) :
  (forall x, x ∈ l -> ~ P x) -> filter P l = [].
Proof.
  induction l as [|a l IH]; intros Hn; [done|]. rewrite filter_cons, decide_False.
  - apply IH. intros x Hx. apply Hn. set_solver.
  - apply Hn. set_solver.
Qed.

Section election.
Context {cdt : Cdt} {bls : Bls} {memory : Memory}.

Definition fin_of (fins : gmap name finalizer_info) (e : name * producer_info)
    : list finalizer_auth_info :=
  match fins !! owner e.2 with Some f => [auth_info_of f] | None => [] end.

(** The loop takes the first 21 eligible rows. *)
Lemma elect_spec fins savanna prods : forall tops fs,
  StronglySorted (index_le by_votes) prods ->
  Forall (fun e => 0 <= total_votes e.2 <= int64_max) prods -> (length tops <= 21)%nat ->
  let sel := take (21 - length tops) (eligible_rows fins savanna prods) in
  elect fins savanna prods tops fs =
  (tops ++ (top_of <$> sel), fs ++ (if savanna then mjoin (fin_of fins <$> sel) else [])).
Proof.
  induction prods as [|[k p] prods IH]; intros tops fs Hs Hb Hlen sel.
  { subst sel. unfold eligible_rows. simpl. rewrite firstn_nil. simpl.
    destruct savanna; by rewrite !app_nil_r. }
  apply StronglySorted_inv in Hs as [Hs Hp]. apply Forall_cons in Hb as [Hbp Hb].
  simpl in Hbp. subst sel. cbn [elect].
  assert (Econd : (Z.of_nat (length tops) <? 21) && (0 <? total_votes p) && active p =
    (Z.of_nat (length tops) <? 21) && standing p) by (unfold standing; by rewrite andb_assoc).
  rewrite Econd. destruct (Z.ltb_spec (Z.of_nat (length tops)) 21) as [Hlt|Hge].
  2:{ replace (21 - length tops)%nat with O by lia. simpl.
      destruct savanna; by rewrite !app_nil_r. }
  unfold eligible_rows in *. rewrite filter_cons. cbn [snd].
  destruct (standing p) eqn:Hst; cbn [andb].
  2:{ rewrite decide_False by (unfold eligible; by rewrite Hst).
      rewrite filter_none; [rewrite firstn_nil; simpl; destruct savanna; by rewrite !app_nil_r|].
      intros e He. rewrite Forall_forall in Hp, Hb.
      specialize (Hp e He). specialize (Hb e He). unfold eligible.
      rewrite (standing_first p e.2); [done..| |done]. unfold index_le in Hp. simpl in Hp. lia. }
  assert (Htake : forall e l, take (21 - length tops) (e :: l) =
    e :: take (21 - length (tops ++ [top_of e])) l).
  { intros e l. rewrite length_app. simpl.
    replace (21 - length tops)%nat with (S (21 - (length tops + 1))) by lia. done. }
  assert (Hlen' : forall e, (length (tops ++ [top_of e]) <= 21)%nat)
    by (intros e; rewrite length_app; simpl; lia).
  assert (Hel : eligible fins savanna p = negb savanna || has_key fins p)
    by (unfold eligible; by rewrite Hst).
  change (ProducerAuthority (owner p) (producer_authority p), location p) with (top_of (k, p)).
  destruct savanna; cbn [negb orb] in *.
  - unfold has_key in Hel. destruct (fins !! owner p) as [f|] eqn:Ef;
      [|rewrite decide_False by (by rewrite Hel); by apply IH].
    case_bool_decide as Hkey; cbn [negb] in Hel;
      [rewrite decide_False by (by rewrite Hel); by apply IH|].
    rewrite decide_True by done. rewrite Htake, IH by done. cbn [fmap list_fmap].
    rewrite <- !app_assoc. f_equal. f_equal.
    assert (Ee : fin_of fins (k, p) = [auth_info_of f]) by (unfold fin_of; simpl; by rewrite Ef).
    cbn [mjoin list_join]. by rewrite Ee.
  - rewrite decide_True by done. rewrite Htake, IH by done. cbn [fmap list_fmap].
    by rewrite <- !app_assoc.
Qed.

(** The winners, in the order of their votes *)
Definition winners (fins : gmap name finalizer_info) (savanna : bool)
    (producers : gmap name producer_info) : list (name * producer_info) :=
  take 21 (eligible_rows fins savanna (by_index by_votes producers)).

Lemma winners_spec fins savanna producers :
  let w := winners fins savanna producers in
  (forall k p, (k, p) ∈ w -> producers !! k = Some p /\ eligible fins savanna p = true) /\
  NoDup w.*1 /\ (length w <= 21)%nat /\
  (forall k p, producers !! k = Some p -> eligible fins savanna p = true -> (k, p) ∉ w ->
    length w = 21%nat /\ forall k' q, (k', q) ∈ w -> by_votes q <= by_votes p).
Proof.
  intros w. set (rows := eligible_rows fins savanna (by_index by_votes producers)) in *.
  assert (Hrows : forall k p, (k, p) ∈ rows <-> producers !! k = Some p /\ eligible fins savanna p = true).
  { intros k p. unfold rows, eligible_rows. rewrite list_elem_of_filter, by_index_elem. naive_solver. }
  assert (Hs : StronglySorted (index_le by_votes) rows).
  { apply sorted_filter, by_index_sorted. }
  assert (Hnd : NoDup rows.*1).
  { unfold rows, eligible_rows. eapply sublist_NoDup; [apply (by_index_NoDup by_votes producers)|].
    apply fmap_sublist, sublist_filter. }
  assert (Happ : rows = w ++ drop 21 rows) by (unfold w, winners; by rewrite take_drop).
  split_and!.
  - intros k p Hin. apply Hrows. rewrite Happ. set_solver.
  - rewrite Happ, fmap_app in Hnd. by apply NoDup_app in Hnd as (? & _ & _).
  - unfold w, winners. rewrite length_take. lia.
  - intros k p Hp He Hout. assert (Hin : (k, p) ∈ drop 21 rows).
    { assert (Hin : (k, p) ∈ rows) by by apply Hrows. rewrite Happ in Hin. set_solver. }
    assert (Hlen : length w = 21%nat).
    { unfold w, winners. fold rows. rewrite length_take.
      destruct (decide (21 <= length rows)%nat); [lia|].
      rewrite drop_ge in Hin by lia. set_solver. }
    split; [done|]. intros k' q Hq. rewrite Happ in Hs.
    pose proof (StronglySorted_app_1_elem_of _ _ _ _ _ Hs Hq Hin) as Hle.
    unfold index_le in Hle. simpl in Hle. lia.
Qed.

(** The policy entries that go with the winners *)
Lemma fins_of_winners st producers :
  tables_ok st -> producers_ok producers ->
  let w := winners (finalizers st) true producers in
  exists fs, mjoin (fin_of (finalizers st) <$> w) = auth_info_of <$> fs /\
    (finalizer_name <$> fs) = w.*1 /\ (forall f, f ∈ fs -> exists n, finalizers st !! n = Some f).
Proof.
  intros Ht Hown w. destruct (winners_spec (finalizers st) true producers) as (Hin & _).
  fold w in Hin. clearbody w. induction w as [|[k p] w IH]; [exists []; split_and!; [done|done|set_solver]|].
  destruct IH as (fs & E1 & E2 & E3); [intros k0 p0 H0; apply Hin; by right|].
  destruct (Hin k p ltac:(by left)) as [Hp He]. pose proof (Hown k p Hp) as Eo.
  unfold eligible, has_key in He. apply andb_true_iff in He as [_ He]. simpl in He.
  destruct (finalizers st !! owner p) as [f|] eqn:Ef; [|done].
  exists (f :: fs). split_and!.
  - change (fin_of (finalizers st) (k, p) ++ mjoin (fin_of (finalizers st) <$> w) =
      [auth_info_of f] ++ (auth_info_of <$> fs)).
    rewrite E1. unfold fin_of. simpl. by rewrite Ef.
  - rewrite !fmap_cons, E2. f_equal. simpl. rewrite <- Eo.
    exact (fo_name _ _ _ (fi_finalizers _ Ht _ _ Ef)).
  - intros g [->|Hg]%elem_of_cons; eauto.
Qed.

Lemma name_sort_sorted (l : list (Cdt.producer_authority * Z)) :
  NoDup (producer_name <$> l.*1) ->
  StronglySorted Z.lt (producer_name <$> (merge_sort name_le l).*1).
Proof.
  intros Hnd. assert (Hs : StronglySorted name_le (merge_sort name_le l)).
  { apply StronglySorted_merge_sort; unfold name_le; intros a b; lia. }
  assert (Hn : NoDup (producer_name <$> (merge_sort name_le l).*1))
    by by rewrite merge_sort_Permutation.
  clear Hnd. induction Hs as [|a m Hs IH Ha]; [constructor|].
  rewrite !fmap_cons in *. apply NoDup_cons in Hn as [Hna Hn]. constructor; [auto|].
  apply Forall_fmap, Forall_fmap, Forall_forall. intros b Hb. rewrite Forall_forall in Ha.
  specialize (Ha b Hb). unfold name_le in Ha. simpl.
  assert (producer_name a.1 <> producer_name b.1); [|lia]. intros E. apply Hna. rewrite E.
  by do 2 apply list_elem_of_fmap_2.
Qed.

(** [update_elected_producers] from a state in order: either nothing but the time changes,
    or the winners are proposed, sorted by name. *)
Lemma update_elected_spec c g st fin t :
  disengaged = [] -> inv g st -> FinalizerProps.inv fin ->
  let savanna := negb (bool_decide (proposed fin = [])) in
  let w := winners (finalizers fin) savanna (producers st) in
  let n := Z.of_nat (length w) in
  let '(g', fin', es) := update_elected_producers c g st fin t in
  FinalizerProps.inv fin' /\ finalizer_keys fin' = finalizer_keys fin /\
  finalizers fin' = finalizers fin /\ fin_key_id_generator fin' = fin_key_id_generator fin /\
  (if (n =? 0) || (n <? last_producer_schedule_size g) then
     es = [] /\ g' = with_schedule (last_producer_schedule_size g) t g /\
     proposed fin' = proposed fin
   else
     let prods := fst <$> merge_sort name_le (top_of <$> w) in
     (exists es', es = SetProposedProducers prods :: es' /\ Forall (fun e => match e with
        SetFinalizers _ _ => savanna = true | _ => False end) es') /\
     g' = with_schedule (if accepts_producers c prods then n
                         else last_producer_schedule_size g) t g).
Proof.
  intros Hmem Hinv Hfin savanna w n. unfold update_elected_producers.
  pose proof (fi_tables _ Hfin) as Ht. rewrite (is_savanna_ok fin Hmem Ht). fold savanna.
  destruct (get_last_ok fin Hmem Ht) as (_ & Ht1 & E1 & E2 & E3 & E4).
  set (fin1 := (get_last_proposed_finalizers fin).1) in *.
  assert (Hfin1 : FinalizerProps.inv fin1).
  { split; [done|]. unfold proposed. rewrite E3. eapply Forall_impl; [apply Hfin|].
    intros a. by apply entry_ok_ext. }
  assert (Hown : producers_ok (producers st)) by (intros k p Hp; by apply (vi_producers _ _ Hinv)).
  assert (Hb : Forall (fun e : name * producer_info => 0 <= total_votes e.2 <= int64_max)
    (by_index by_votes (producers st))).
  { apply Forall_forall. intros [k p] Hin%by_index_elem. simpl.
    destruct (vi_producers _ _ Hinv k p Hin) as [_ ->].
    pose proof (votes_for_bounds g st k Hinv). pose proof (vi_max _ _ Hinv).
    unfold max_amount in *. unfold_ints. lia. }
  rewrite E2, (elect_spec (finalizers fin) savanna _ [] [] (by_index_sorted _ _) Hb) by (simpl; lia).
  change (21 - length [])%nat with 21%nat.
  change (take 21 (eligible_rows (finalizers fin) savanna (by_index by_votes (producers st)))) with w.
  cbn [app]. rewrite length_fmap. fold n.
  assert (En : bool_decide (length w = 0%nat) = (n =? 0)).
  { unfold n. case_bool_decide as E; [by rewrite E|]. symmetry. apply Z.eqb_neq. lia. }
  rewrite En. cbn [last_producer_schedule_size with_schedule].
  destruct ((n =? 0) || (n <? last_producer_schedule_size g)) eqn:Hskip.
  { split_and!; try done. unfold proposed. by rewrite E3. }
  destruct (winners_spec (finalizers fin) savanna (producers st)) as (_ & Hnd & Hle & _).
  fold w in Hnd, Hle. set (prods := fst <$> merge_sort name_le (top_of <$> w)).
  assert (Elen : u16 (Z.of_nat (length prods)) = n).
  { unfold prods. rewrite length_fmap, merge_sort_Permutation, length_fmap. fold n.
    unfold u16, wrap_u. apply Z.mod_small. unfold n. lia. }
  rewrite Elen.
  assert (Hg : (if accepts_producers c prods then with_schedule n t
      (with_schedule (last_producer_schedule_size g) t g)
    else with_schedule (last_producer_schedule_size g) t g) =
    with_schedule (if accepts_producers c prods then n else last_producer_schedule_size g) t g)
    by by destruct (accepts_producers c prods).
  rewrite Hg. destruct savanna eqn:Esav; [|by split_and!; try done; exists []].
  destruct (fins_of_winners fin1 (producers st) Ht1 Hown) as (fs & F1 & F2 & F3).
  rewrite E2 in F1, F2, F3. fold w in F1, F2. rewrite F1.
  destruct (auth_infos_ok Hmem fin1 fs Hfin1) as [Hids Hent]; [by rewrite E2|by rewrite F2|].
  pose proof (set_proposed_inv fin1 _ Hmem Hfin1 Hids Hent) as Hfin2.
  pose proof (set_proposed_spec fin1 _ Hmem Ht1 Hids) as Hset. cbn zeta in Hset.
  destruct (set_proposed_finalizers fin1 (auth_info_of <$> fs)) as [fin2 es2].
  destruct Hset as (_ & G1 & G2 & G3 & Hes). simpl in Hfin2.
  split_and!; [done|congruence..| |done]. exists es2. split; [done|].
  destruct (auth_infos_eqb _ _); destruct Hes as [-> _]; by repeat constructor.
Qed.
End election.
