(* ===== verification/BlockInfo.v ===== *)
(** * flon.system: the rolling window of recent blocks

    [contracts/flon.system/src/block_info.cpp] and
    [contracts/flon.system/include/flon.system/block_info.hpp]: the [blockinfo] table,
    written by [onblock], and the query other contracts make on it. *)
From S2P Require Import Prelude Table Cdt CdtRef.
From Stdlib Require Import ZArith Lia String.
From stdpp Require Import base tactics numbers list gmap sorting.
Open Scope Z_scope.

Definition rolling_window_size : Z := 10.

Record block_info_record : Type := BlockInfoRecord {
  version : Z;
  block_height : Z;                      (* uint32_t *)
  block_time : time_point;               (* the field [block_timestamp] *)
}.

Abbreviation table := (gmap Z block_info_record) (only parsing).

Definition byte_at (b : bytes) (i : nat) : Z := default 0 (b !! i).
Definition block_height_from_id (block_id : bytes) : Z :=
  u32 (Z.lor (Z.lor (Z.lor (Z.shiftl (byte_at block_id 0) 24) (Z.shiftl (byte_at block_id 1) 16))
               (Z.shiftl (byte_at block_id 2) 8))
         (byte_at block_id 3)).

(** The pruning loop: at most [count] rows from the start of the table *)
Fixpoint prune (count : nat) (last_prunable_block_height : Z) (t : table) : table :=
  match count with
  | O => t
  | S count' =>
      match rows t with
      | (k, r) :: _ =>
          if block_height r <=? last_prunable_block_height
          then prune count' last_prunable_block_height (delete k t) else t
      | [] => t
      end
  end.

Section operations.
Context {cdt : Cdt}.

Definition add_to_blockinfo_table (t : table) (previous_block_id : bytes)
    (timestamp : block_timestamp) : result table :=
  let new_block_height := u32 (block_height_from_id previous_block_id + 1) in
  let new_block_timestamp := time_point_of_slot timestamp in
  t' ← (if 0 <? rolling_window_size then
          emplace t new_block_height (BlockInfoRecord 0 new_block_height new_block_timestamp)
        else mret t);
  let last_prunable_block_height :=
    u32 (Z.max new_block_height rolling_window_size - rolling_window_size) in
  mret (prune 2 last_prunable_block_height t').
End operations.

(** ** The query *)

Record block_batch_info : Type := BlockBatchInfo {
  batch_start_height : Z;
  batch_start_timestamp : time_point;
  batch_current_end_height : Z;
  batch_current_end_timestamp : time_point;
}.
Inductive error_code_enum : Type :=
  no_error | invalid_input | unsupported_version | insufficient_data.
Record latest_block_batch_info_result : Type := LatestResult {
  batch : option block_batch_info;       (* the field [result] *)
  error_code : error_code_enum;
}.

Definition get_latest_block_batch_info (t : table) (batch_start_height_offset batch_size : Z)
    : latest_block_batch_info_result :=
  if batch_size =? 0 then LatestResult None invalid_input
  else match last (rows t) with
  | None => LatestResult None insufficient_data
  | Some (_, latest) =>
      if negb (version latest =? 0) then LatestResult None unsupported_version
      else
        let end_height := block_height latest in
        if end_height <? batch_start_height_offset then LatestResult None insufficient_data
        else
          let start_height :=
            u32 (end_height - u32 (end_height - batch_start_height_offset) mod batch_size) in
          if start_height =? end_height then
            LatestResult (Some (BlockBatchInfo start_height (block_time latest)
                                  end_height (block_time latest))) no_error
          else match t !! start_height with
          | None => LatestResult None insufficient_data
          | Some start =>
              if negb (block_height start =? start_height)
              then LatestResult None insufficient_data
              else if negb (version start =? 0) then LatestResult None unsupported_version
              else LatestResult (Some (BlockBatchInfo start_height (block_time start)
                                         end_height (block_time latest))) no_error
          end
  end.

(** ** Properties *)

(** Rows are stored under their height; heights are [uint32_t]. *)
Definition table_ok (t : table) : Prop :=
  forall k r, t !! k = Some r -> block_height r = k /\ version r = 0 /\ is_u32 k.

(** No row is above height [h]. *)
Definition below (h : Z) (t : table) : Prop := forall k, is_Some (t !! k) -> k <= h.

(** The rows that have fallen out of the window of block [h] *)
Definition stale (h : Z) (t : table) : Z :=
  msum (fun k _ => if k <=? h - rolling_window_size then 1 else 0) t.

Implicit Type t : table.

Lemma rows_head t k r l :
  rows t = (k, r) :: l -> t !! k = Some r /\ forall j s, t !! j = Some s -> k <= j.
Proof.
  intros E. assert (Hin : (k, r) ∈ rows t) by (rewrite E; set_solver).
  apply rows_elem in Hin. split; [done|]. intros j s Hj%rows_elem.
  pose proof (by_index_sorted (fun _ => 0) t) as Hs. fold (rows t) in Hs. rewrite E in *.
  apply StronglySorted_inv in Hs as [_ Ha]. rewrite Forall_forall in Ha.
  apply elem_of_cons in Hj as [[= -> ->]|Hj]; [lia|].
  specialize (Ha _ Hj). unfold index_le in Ha. simpl in Ha. lia.
Qed.

Lemma rows_nil t : rows t = [] -> t = ∅.
Proof.
  intros E. apply map_empty. intros k. destruct (t !! k) as [r|] eqn:Hk; [|done].
  apply rows_elem in Hk. rewrite E in Hk. set_solver.
Qed.

Lemma rows_last t k r :
  last (rows t) = Some (k, r) -> t !! k = Some r /\ forall j s, t !! j = Some s -> j <= k.
Proof.
  intros E. apply last_Some in E as [l E].
  assert (Hin : (k, r) ∈ rows t) by (rewrite E; set_solver).
  apply rows_elem in Hin. split; [done|]. intros j s Hj%rows_elem.
  pose proof (by_index_sorted (fun _ => 0) t) as Hs. fold (rows t) in Hs. rewrite E in *.
  apply elem_of_app in Hj as [Hj|Hj].
  - pose proof (StronglySorted_app_1_elem_of _ _ _ _ _ Hs Hj ltac:(by left)) as Ha.
    unfold index_le in Ha. simpl in Ha. lia.
  - apply list_elem_of_singleton in Hj. injection Hj as -> ->. lia.
Qed.

(** Pruning removes stale rows only, and two of them when there are two. *)
Lemma prune_spec n h t :
  table_ok t ->
  let t' := prune n (h - rolling_window_size) t in
  t' ⊆ t /\ (forall k r, t !! k = Some r -> h - rolling_window_size < k -> t' !! k = Some r) /\
  stale h t' = Z.max 0 (stale h t - Z.of_nat n).
Proof.
  revert t. induction n as [|n IH]; intros t Hok; cbn zeta.
  { split_and!; [done|done|]. simpl.
    assert (0 <= stale h t); [|lia]. apply msum_nonneg. intros k r _. destruct (_ <=? _); lia. }
  simpl. destruct (rows t) as [|[k r] l] eqn:E.
  { apply rows_nil in E as ->. unfold stale. rewrite msum_empty. split_and!; [done|done|lia]. }
  apply rows_head in E as [Hk Hmin]. destruct (Hok k r Hk) as (-> & _ & _).
  destruct (Z.leb_spec k (h - rolling_window_size)) as [Hle|Hgt].
  - assert (Hok' : table_ok (delete k t)) by (intros j s [_ Hj]%lookup_delete_Some; eauto).
    destruct (IH _ Hok') as (H1 & H2 & H3). split_and!.
    + etrans; [exact H1|]. apply delete_subseteq.
    + intros j s Hj Hlt. apply H2; [|done]. rewrite lookup_delete_ne; [done|lia].
    + rewrite H3. unfold stale. rewrite (msum_delete _ _ _ _ Hk).
      rewrite (proj2 (Z.leb_le _ _) Hle). lia.
  - split_and!; [done|done|].
    assert (Es : stale h t = 0).
    { unfold stale. etrans; [|apply (msum_zero t)]. apply msum_ext. intros j s Hj.
      specialize (Hmin j s Hj). by rewrite (proj2 (Z.leb_gt _ _)) by lia. }
    rewrite Es. lia.
Qed.

(** Rows between two windows *)
Lemma stale_step h d t :
  table_ok t -> 0 <= d -> stale (h + d) t <= stale h t + d.
Proof.
  intros _ Hd. revert d Hd.
  apply (natlike_ind (fun d => stale (h + d) t <= stale h t + d)); [rewrite Z.add_0_r; lia|].
  intros d Hd IH. replace (h + Z.succ d) with (h + d + 1) by lia.
  enough (stale (h + d + 1) t <= stale (h + d) t + 1) by lia.
  unfold stale, rolling_window_size.
  destruct (t !! (h + d + 1 - 10)) as [r|] eqn:Hr.
  - rewrite !(msum_delete _ _ _ _ Hr).
    rewrite (proj2 (Z.leb_le _ _)) by lia. rewrite (proj2 (Z.leb_gt _ (h + d - 10))) by lia.
    enough (msum (fun k _ => if k <=? h + d + 1 - 10 then 1 else 0) (delete (h + d + 1 - 10) t) <=
      msum (fun k _ => if k <=? h + d - 10 then 1 else 0) (delete (h + d + 1 - 10) t)) by lia.
    apply msum_le. intros k s [Hne _]%lookup_delete_Some.
    destruct (Z.leb_spec k (h + d + 1 - 10)), (Z.leb_spec k (h + d - 10)); lia.
  - enough (msum (fun k _ => if k <=? h + d + 1 - 10 then 1 else 0) t <=
      msum (fun k _ => if k <=? h + d - 10 then 1 else 0) t) by lia.
    apply msum_le. intros k s Hk.
    destruct (Z.leb_spec k (h + d + 1 - 10)), (Z.leb_spec k (h + d - 10)); try lia.
    exfalso. replace k with (h + d + 1 - 10) in Hk by lia. congruence.
Qed.

Section properties.
Context {cdt : Cdt}.

(** C22 (the window of recent blocks).  When the newest recorded block is at height [h] and
    a later block [h' < 2^32 - 1] is recorded, this succeeds: its row is there with its timestamp and is
    the newest; rows of the window [h' - 9 .. h'] that were there are kept; and the number
    of rows out of the window shrinks to at most (old number + (h' - h) - 2), or zero. So
    with no block missed the table holds exactly the window, and after a gap it heals by
    one row per block. *)
Theorem blockinfo_window t h prev_id slot :
  table_ok t -> below h t ->
  let h' := block_height_from_id prev_id + 1 in
  h < h' < uint32_max -> rolling_window_size <= h' ->
  exists t', add_to_blockinfo_table t prev_id slot = Ok t' /\
  table_ok t' /\ below h' t' /\
  t' !! h' = Some (BlockInfoRecord 0 h' (time_point_of_slot slot)) /\
  (forall k r, t !! k = Some r -> h' - rolling_window_size < k -> t' !! k = Some r) /\
  stale h' t' <= Z.max 0 (stale h t + (h' - h) - 2).
Proof.
  intros Hok Hb h' Hh Hwin. unfold add_to_blockinfo_table.
  assert (Hid : 0 <= block_height_from_id prev_id) by apply u32_range. fold h'.
  rewrite (u32_id h') by (unfold_ints; lia).
  change (0 <? rolling_window_size) with true. cbv iota.
  assert (Hnone : t !! h' = None).
  { apply eq_None_not_Some. intros Hs%Hb. lia. }
  unfold emplace. rewrite Hnone. cbn [mbind result_bind]. eexists. split; [reflexivity|].
  rewrite Z.max_l by lia. rewrite u32_id by (unfold rolling_window_size in *; unfold_ints; lia).
  set (rec := BlockInfoRecord 0 h' _). set (t1 := <[h' := rec]> t).
  assert (Hok1 : table_ok t1).
  { intros k r [[<- <-]|[Hne Hk]]%lookup_insert_Some; [|by apply Hok].
    simpl. split_and!; try done; unfold_ints; lia. }
  destruct (prune_spec 2 h' t1 Hok1) as (H1 & H2 & H3).
  assert (Hnew : t1 !! h' = Some rec) by apply lookup_insert_eq.
  split_and!.
  - intros k r Hk. apply Hok1. by eapply lookup_weaken.
  - intros k [r Hk]. pose proof (lookup_weaken _ _ _ _ Hk H1) as Hk1.
    apply lookup_insert_Some in Hk1 as [[<- _]|[_ Hk1]]; [lia|].
    enough (k <= h) by lia. apply Hb. by eexists.
  - apply H2; [done|]. unfold rolling_window_size. lia.
  - intros k r Hk Hlt. apply H2; [|done]. unfold t1. rewrite lookup_insert_ne; [done|congruence].
  - etrans; [apply Z.eq_le_incl, H3|]. unfold t1, stale at 1. rewrite msum_insert_None by done.
    rewrite (proj2 (Z.leb_gt h' _)) by (unfold rolling_window_size; lia).
    pose proof (stale_step h (h' - h) t Hok ltac:(lia)) as Hst.
    replace (h + (h' - h)) with h' in Hst by lia. unfold stale in *. lia.
Qed.

(** The latest batch.  On tables written by [add_to_blockinfo_table] the query returns
    a batch exactly when the size is not zero, some block is recorded, the newest recorded
    height is at least the offset, and the batch's first block is still recorded; the batch
    ends at the newest height, starts at the largest height that is a multiple of the size
    away from the offset, and carries the recorded timestamps. *)
Theorem latest_batch_exact t offset size b :
  table_ok t -> is_u32 offset -> is_u32 size ->
  batch (get_latest_block_batch_info t offset size) = Some b <->
  size <> 0 /\ exists e re rs, last (rows t) = Some (e, re) /\ offset <= e /\
    let s := e - (e - offset) mod size in
    t !! s = Some rs /\ offset <= s <= e /\ e - s < size /\ (s - offset) mod size = 0 /\
    b = BlockBatchInfo s (block_time rs) e (block_time re).
Proof.
  intros Hok Hoff Hsize. unfold get_latest_block_batch_info.
  destruct (Z.eqb_spec size 0) as [->|Hne]; [simpl; naive_solver|].
  destruct (last (rows t)) as [[e re]|] eqn:El; simpl; [|naive_solver].
  pose proof (rows_last _ _ _ El) as [He _]. destruct (Hok e re He) as (Ee & -> & He32).
  rewrite Ee. simpl. destruct (Z.ltb_spec e offset) as [Hlt|Hge].
  { split; [done|]. intros (_ & e' & re' & rs & [= <- <-] & Hle & _). lia. }
  unfold_ints. assert (Hs0 : 0 < size) by lia.
  pose proof (Z.mod_pos_bound (e - offset) size Hs0) as Hm.
  pose proof (Z.mod_le (e - offset) size ltac:(lia) Hs0) as Hml.
  rewrite (u32_id (e - offset)) by (unfold_ints; lia).
  set (s := e - (e - offset) mod size) in *. rewrite (u32_id s) by (unfold_ints; lia).
  assert (Hmod : (s - offset) mod size = 0).
  { unfold s. replace (e - (e - offset) mod size - offset)
      with (e - offset - (e - offset) mod size) by lia.
    rewrite Zminus_mod_idemp_r, Z.sub_diag. by apply Z.mod_0_l. }
  assert (Hiff : forall rs, t !! s = Some rs ->
    Some (BlockBatchInfo s (block_time rs) e (block_time re)) = Some b <->
    size <> 0 /\ exists e' re' rs', Some (e, re) = Some (e', re') /\ offset <= e' /\
      let s := e' - (e' - offset) mod size in
      t !! s = Some rs' /\ offset <= s <= e' /\ e' - s < size /\ (s - offset) mod size = 0 /\
      b = BlockBatchInfo s (block_time rs') e' (block_time re')).
  { intros rs Hrs. split.
    - intros [= <-]. split; [done|]. exists e, re, rs. cbv zeta. fold s.
      split_and!; try done; unfold s; lia.
    - intros (_ & e' & re' & rs' & [= <- <-] & _ & Hrs' & _ & _ & _ & ->). fold s in Hrs'.
      rewrite Hrs in Hrs'. by injection Hrs' as <-. }
  destruct (Z.eqb_spec s e) as [Ese|Hse].
  { rewrite Ese in *. simpl. by apply Hiff. }
  destruct (t !! s) as [rs|] eqn:Hrs; simpl.
  - destruct (Hok s rs Hrs) as (-> & -> & _). rewrite Z.eqb_refl. simpl. by apply Hiff.
  - split; [done|]. intros (_ & e' & re' & rs' & [= <- <-] & _ & Hrs' & _).
    fold s in Hrs'. congruence.
Qed.
End properties.

(** ** Examples *)

(** The id of block [n]: its height in the first four bytes *)
Definition ex_id (n : Z) : bytes := [0; 0; 0; n].
Definition ex_table : table :=
  match fold_res (fun t n => add_to_blockinfo_table t (ex_id n) (1000 + n)) ∅ [20; 21; 22; 23] with
  | Ok t => t | Err _ => ∅ end.

Lemma ex_table_ok : table_ok ex_table.
Proof. apply (map_Forall_to_list (fun k r => block_height r = k /\ version r = 0 /\ is_u32 k)).
  repeat constructor; done. Qed.

Lemma blockinfo_window_witness :
  exists t', add_to_blockinfo_table ex_table (ex_id 24) 1024 = Ok t' /\
    t' !! 25 = Some (BlockInfoRecord 0 25 (time_point_of_slot 1024)).
Proof.
  edestruct (blockinfo_window ex_table 24 (ex_id 24) 1024 ex_table_ok) as (t' & E & _ & _ & Hk & _).
  - intros k [r Hk]. pose proof (map_Forall_to_list (fun k (_ : block_info_record) => k <= 24) ex_table) as Hf.
    assert (Hall : map_Forall (fun k (_ : block_info_record) => k <= 24) ex_table)
      by (apply Hf; repeat constructor; simpl; lia). by apply (Hall k r).
  - vm_compute. split; reflexivity.
  - vm_compute. discriminate.
  - exists t'. split; [exact E|exact Hk].
Defined.

Definition ex_batch : block_batch_info :=
  BlockBatchInfo 21 (@time_point_of_slot ref_cdt 1020) 24 (@time_point_of_slot ref_cdt 1023).

Lemma latest_batch_exact_witness :
  batch (get_latest_block_batch_info ex_table 1 4) = Some ex_batch /\
  exists rs, ex_table !! 21 = Some rs /\ ex_batch = BlockBatchInfo 21 (block_time rs) 24
    (batch_current_end_timestamp ex_batch).
Proof.
  assert (E : batch (get_latest_block_batch_info ex_table 1 4) = Some ex_batch)
    by (vm_compute; reflexivity).
  split; [exact E|].
  destruct (latest_batch_exact ex_table 1 4 ex_batch ex_table_ok
    ltac:(unfold_ints; lia) ltac:(unfold_ints; lia)) as [Hto _].
  destruct (Hto E) as (_ & e & re & rs & Hl & _ & Hs & _ & _ & _ & Eb).
  vm_compute in Hl. injection Hl as <- <-. exists rs. split; [exact Hs|].
  rewrite Eb at 1. rewrite Eb. reflexivity.
Defined.
