(* ===== verification/NameBid.v ===== *)
(** * flon.system: name auctions

    [contracts/flon.system/src/name_bidding.cpp] and the part of [onblock]
    ([producer_pay.cpp]) that closes the highest bid of the day. *)
From S2P Require Import Prelude Table Cdt CdtRef SystemData.
From Stdlib Require Import ZArith Lia String.
From stdpp Require Import base tactics numbers list gmap sorting pretty.
Open Scope Z_scope.

Record state : Type := State {
  bids : gmap name name_bid;
  bid_refunds : gmap (name * name) bid_refund;       (* scoped by the new name *)
}.
Definition init_state : state := State ∅ ∅.

Section operations.
Context {cdt : Cdt}.

(** The refund row of the outbid bidder *)
Definition add_bid_refund (core : symbol) (refunds : gmap (name * name) bid_refund)
    (newname : name) (current : name_bid) : result (gmap (name * name) bid_refund) :=
  let key := (newname, high_bidder current) in
  back ← asset_ctor (high_bid current) core;
  match refunds !! key with
  | Some r =>
      sum ← asset_add (refund_amount r) back;
      mret (<[key := BidRefund (bidder r) sum]> refunds)
  | None => emplace refunds key (BidRefund (high_bidder current) back)
  end.

Definition bidname (c : ctx) (g : eosio_global_state) (st : state) (bidder newname : name)
    (bid : asset) : result (state * list effect) :=
  _ ← require_auth c bidder;
  ensure name_suffix newname =? newname else "you can only bid on top-level suffix";
  ensure negb (newname =? 0) else "the empty name is not a valid account name to bid on";
  ensure Z.land newname 15 =? 0
    else "13 character names are not valid account names to bid on";
  ensure Z.land newname 496 =? 0
    else "accounts with 12 character names and no dots can be created without bidding required";
  ensure negb (is_account c newname) else "account already exists";
  core ← core_symbol g;
  ensure asset_symbol bid =? core else "asset must be system token";
  ensure 0 <? amount bid else "insufficient bid";
  let transfer_act := send token_account [active_of bidder]
    (token_transfer bidder names_account bid ("bid name " +:+ name_to_string newname)) in
  let row := NameBid newname bidder (amount bid) (current_time_point c) in
  match bids st !! newname with
  | None =>
      bids' ← emplace (bids st) newname row;
      mret (State bids' (bid_refunds st), [transfer_act])
  | Some current =>
      ensure 0 <? high_bid current else "this auction has already closed";
      ensure Z.quot (high_bid current) 10 <? i64 (amount bid - high_bid current)
        else "must increase bid by 10%";
      ensure negb (high_bidder current =? bidder) else "account is already highest bidder";
      refunds' ← add_bid_refund core (bid_refunds st) newname current;
      mret (State (<[newname := NameBid (SystemData.newname current) bidder (amount bid)
                                  (current_time_point c)]> (bids st)) refunds', [transfer_act])
  end.

Definition bidrefund (st : state) (bidder newname : name) : result (state * list effect) :=
  r ← get_or (bid_refunds st !! (newname, bidder)) "refund not found";
  let transfer_act := send token_account [active_of names_account; active_of bidder]
    (token_transfer names_account bidder (refund_amount r)
       ("refund bid on name " +:+ name_to_string newname)) in
  mret (State (bids st) (delete (newname, bidder) (bid_refunds st)), [transfer_act]).

(** The block of [onblock] that runs once a day *)
Definition close_highest_bid (c : ctx) (g : eosio_global_state) (st : state)
    (timestamp : block_timestamp) : result (eosio_global_state * state * list effect) :=
  if blocks_per_day <? u32 (timestamp - last_name_close g) then
    match lower_bound by_high_bid (uint64_max / 2) (bids st) with
    | Some (pk, highest) =>
        if (0 <? high_bid highest)
           && (useconds_per_day <? i64 (current_time_point c - last_bid_time highest))
        then
          core ← core_symbol g;
          fee ← asset_ctor (high_bid highest) core;
          mret (with_last_name_close timestamp g,
                State (<[pk := NameBid (newname highest) (high_bidder highest)
                                 (i64 (- high_bid highest)) (last_bid_time highest)]> (bids st))
                  (bid_refunds st),
                [channel_to_system_fees names_account fee;
                 send (get_self c) [active_of (get_self c)]
                   (system_logsystemfee names_account fee "buy name")])
        else mret (g, st, [])
    | None => mret (g, st, [])
    end
  else mret (g, st, []).
End operations.

(** ** The invariant *)

(** What the contract owes bidders of open auctions and outbid bidders *)
Definition open_amount (b : name_bid) : Z := Z.max 0 (high_bid b).
Definition owed (st : state) : Z :=
  msum (fun _ b => open_amount b) (bids st) +
  msum (fun _ r => amount (refund_amount r)) (bid_refunds st).

Record bid_ok (k : name) (b : name_bid) : Prop := {
  bd_name : newname b = k;
  bd_amount : 0 < Z.abs (high_bid b) <= max_amount;
}.
Record bid_refund_ok (core : symbol) (k : name * name) (r : bid_refund) : Prop := {
  br_bidder : bidder r = k.2;
  br_amount : 0 < amount (refund_amount r) <= max_amount;
  br_symbol : asset_symbol (refund_amount r) = core;
}.

Section invariant.
Context {cdt : Cdt} {laws : CdtLaws}.

Record inv (g : eosio_global_state) (st : state) : Prop := {
  ni_uninit : is_init g = false -> bids st = ∅ /\ bid_refunds st = ∅;
  ni_bids : map_Forall bid_ok (bids st);
  ni_refunds : map_Forall (bid_refund_ok (asset_symbol (total_vote_stake g))) (bid_refunds st);
}.

Lemma auction_inv_init g : inv g init_state.
Proof. by split. Qed.

(** The invariant depends on the core symbol only. *)
Lemma inv_global g g' st :
  asset_symbol (total_vote_stake g') = asset_symbol (total_vote_stake g) -> inv g st -> inv g' st.
Proof. intros E []. split; [|done|by rewrite E]. unfold is_init in *. by rewrite E. Qed.

Lemma open_amount_bounds k b : bid_ok k b -> 0 <= open_amount b <= max_amount.
Proof. intros []. unfold open_amount. lia. Qed.

Lemma owed_nonneg g st : inv g st -> 0 <= owed st.
Proof.
  intros []. unfold owed.
  assert (0 <= msum (fun _ b => open_amount b) (bids st)).
  { apply msum_nonneg. intros k b Hb. eapply open_amount_bounds, ni_bids0, Hb. }
  assert (0 <= msum (fun _ r => amount (refund_amount r)) (bid_refunds st)); [|lia].
  apply msum_nonneg. intros k r Hr. destruct (ni_refunds0 k r Hr). lia.
Qed.

(** Replacing one bid *)
Lemma owed_set_bid st k b refunds :
  owed (State (<[k := b]> (bids st)) refunds) =
  owed st - default 0 (open_amount <$> bids st !! k) + open_amount b
  - msum (fun _ r => amount (refund_amount r)) (bid_refunds st)
  + msum (fun _ r => amount (refund_amount r)) refunds.
Proof.
  unfold owed. simpl. destruct (bids st !! k) as [b0|] eqn:E; simpl.
  - rewrite (msum_insert_Some _ _ _ _ _ E). lia.
  - rewrite msum_insert_None by done. lia.
Qed.

(** ** The refund row *)

Definition refund_amount_at (refunds : gmap (name * name) bid_refund) (k : name * name) : Z :=
  default 0 ((fun r => amount (refund_amount r)) <$> refunds !! k).

Lemma add_bid_refund_Ok core refunds n cur refunds' :
  map_Forall (bid_refund_ok core) refunds -> symbol_valid core = true ->
  0 < high_bid cur <= max_amount ->
  let k := (n, high_bidder cur) in
  add_bid_refund core refunds n cur = Ok refunds' <->
  refund_amount_at refunds k + high_bid cur <= max_amount /\
  refunds' = <[k := BidRefund (high_bidder cur)
                      (Asset (refund_amount_at refunds k + high_bid cur) core)]> refunds.
Proof.
  intros Hok Hcore Hcur k. unfold add_bid_refund. fold k.
  rewrite asset_ctor_Ok by (done || unfold in_range; lia). cbn [mbind result_bind].
  unfold refund_amount_at. destruct (refunds !! k) as [r|] eqn:Hr; simpl.
  - destruct (Hok k r Hr) as [Hb Ha Hs]. rewrite bind_Ok. unfold mret, result_ret. simpl in Hb.
    setoid_rewrite law_asset_add; [|unfold_range; simpl; lia|unfold_range; simpl; lia]. simpl.
    rewrite Hs, Hb. unfold in_range. split.
    + intros (s & (_ & Hr' & ->) & [= <-]). split; [lia|done].
    + intros [Hle ->]. eexists. split; [|done]. split_and!; done || lia.
  - unfold emplace. rewrite Hr. split; [intros [= <-]; split; [lia|done]|by intros [_ ->]].
Qed.

(** ** Bidding *)

Definition bid_name_ok (c : ctx) (newname : name) : Prop :=
  name_suffix newname = newname /\ newname <> 0 /\ Z.land newname 15 = 0 /\
  Z.land newname 496 = 0 /\ is_account c newname = false.

(** The new bid beats the current one, if there is one. *)
Definition outbids (st : state) (bidder newname : name) (n : Z) : Prop :=
  forall current, bids st !! newname = Some current ->
    0 < high_bid current /\ high_bid current + Z.quot (high_bid current) 10 < n /\
    high_bidder current <> bidder /\
    refund_amount_at (bid_refunds st) (newname, high_bidder current) + high_bid current
      <= max_amount.

Definition bidname_post (c : ctx) (core : symbol) (st : state) (bidder newname : name) (n : Z)
    : state :=
  State (<[newname := NameBid newname bidder n (current_time_point c)]> (bids st))
    (match bids st !! newname with
     | None => bid_refunds st
     | Some current =>
         let k := (newname, high_bidder current) in
         <[k := BidRefund (high_bidder current)
                  (Asset (refund_amount_at (bid_refunds st) k + high_bid current) core)]>
           (bid_refunds st)
     end).

Lemma bidname_eq c g st bidder newname q st' es :
  inv g st -> amount q <= max_amount ->
  let core := asset_symbol (total_vote_stake g) in
  bidname c g st bidder newname q = Ok (st', es) <->
  has_auth c bidder = true /\ bid_name_ok c newname /\ is_init g = true /\
  asset_symbol q = core /\ 0 < amount q /\ outbids st bidder newname (amount q) /\
  st' = bidname_post c core st bidder newname (amount q) /\
  es = [send token_account [active_of bidder]
          (token_transfer bidder names_account q ("bid name " +:+ name_to_string newname))].
Proof.
  intros Hinv Hq core. pose proof Hinv as [].
  assert (Hrest : forall es', is_init g = true -> 0 < amount q ->
    (match bids st !! newname with
     | None =>
         bids' ← emplace (bids st) newname
           (NameBid newname bidder (amount q) (current_time_point c));
         Ok (State bids' (bid_refunds st), es')
     | Some current =>
         ensure 0 <? high_bid current else "this auction has already closed";
         ensure Z.quot (high_bid current) 10 <? i64 (amount q - high_bid current)
           else "must increase bid by 10%";
         ensure negb (high_bidder current =? bidder) else "account is already highest bidder";
         refunds' ← add_bid_refund core (bid_refunds st) newname current;
         Ok (State (<[newname := NameBid (SystemData.newname current) bidder (amount q)
                (current_time_point c)]> (bids st)) refunds', es')
     end = Ok (st', es)) <->
    outbids st bidder newname (amount q) /\
    st' = bidname_post c core st bidder newname (amount q) /\ es = es').
  { intros es' Hini Hpos. unfold outbids, bidname_post.
    destruct (bids st !! newname) as [cur|] eqn:Hb.
    - destruct (ni_bids0 newname cur Hb) as [Hn Ha]. unfold emplace. split.
      + intros H. apply bind_Ok in H as (_ & H1%check_Ok%Z.ltb_lt & H).
        apply bind_Ok in H as (_ & H2%check_Ok%Z.ltb_lt & H).
        apply bind_Ok in H as (_ & H3%check_Ok%negb_true_iff%Z.eqb_neq & H).
        apply bind_Ok in H as (rf & Hrf & [= <- <-]).
        apply add_bid_refund_Ok in Hrf as [Hle ->]; [|done|done|lia].
        rewrite i64_id in H2 by (unfold_range; lia). rewrite Hn.
        split_and!; [|done|done]. intros ? [= <-]. split_and!; done || lia.
      + intros (Ho & -> & ->). destruct (Ho cur eq_refl) as (H1 & H2 & H3 & H4).
        rewrite (proj2 (Z.ltb_lt 0 _)) by done. cbn [check mbind result_bind].
        rewrite i64_id by (unfold_range; lia). rewrite (proj2 (Z.ltb_lt (Z.quot _ _) _)) by lia.
        cbn [check mbind result_bind]. rewrite (proj2 (Z.eqb_neq _ _)) by done.
        cbn [check negb mbind result_bind].
        rewrite (proj2 (add_bid_refund_Ok core _ newname cur _ ni_refunds0 Hini ltac:(lia))
          (conj H4 eq_refl)).
        cbn [mbind result_bind]. by rewrite Hn.
    - unfold emplace. rewrite Hb. cbn [mbind result_bind]. split.
      + intros [= <- <-]. split_and!; done.
      + by intros (_ & -> & ->). }
  unfold bidname, require_auth, bid_name_ok. split.
  - intros H. apply bind_Ok in H as (_ & H1%check_Ok & H).
    apply bind_Ok in H as (_ & H2%check_Ok%Z.eqb_eq & H).
    apply bind_Ok in H as (_ & H3%check_Ok%negb_true_iff%Z.eqb_neq & H).
    apply bind_Ok in H as (_ & H4%check_Ok%Z.eqb_eq & H).
    apply bind_Ok in H as (_ & H5%check_Ok%Z.eqb_eq & H).
    apply bind_Ok in H as (_ & H6%check_Ok%negb_true_iff & H).
    apply bind_Ok in H as (cs & Hc%core_symbol_Ok & H). destruct Hc as [H7 ->].
    apply bind_Ok in H as (_ & H8%check_Ok%Z.eqb_eq & H).
    apply bind_Ok in H as (_ & H9%check_Ok%Z.ltb_lt & H).
    apply Hrest in H as (H10 & H11 & H12); done.
  - intros (H1 & (H2 & H3 & H4 & H5 & H6) & H7 & H8 & H9 & H10 & H11 & H12).
    rewrite H1, H2, H4, H5, H6, !Z.eqb_refl, (proj2 (Z.eqb_neq _ _) H3).
    rewrite (proj2 (core_symbol_Ok g core) (conj H7 eq_refl)).
    cbn [check negb mbind result_bind Z.eqb]. rewrite H8. fold core. rewrite Z.eqb_refl.
    rewrite (proj2 (Z.ltb_lt _ _) H9). cbn [check mbind result_bind].
    by apply Hrest.
Qed.

Lemma bidname_inv c g st b n q :
  let core := asset_symbol (total_vote_stake g) in
  inv g st -> is_init g = true -> 0 < q <= max_amount -> outbids st b n q ->
  inv g (bidname_post c core st b n q) /\
  owed (bidname_post c core st b n q) = owed st + q.
Proof.
  intros core Hinv Hini Hq Ho. pose proof Hinv as []. unfold bidname_post.
  split.
  - split; simpl; [congruence| |].
    + apply map_Forall_insert_2; [split; simpl; [done|lia]|done].
    + destruct (bids st !! n) as [cur|] eqn:Hb; [|done].
      destruct (Ho cur Hb) as (H1 & _ & _ & H4). apply map_Forall_insert_2; [|done].
      split; simpl; [done| |done]. unfold refund_amount_at in *.
      destruct (bid_refunds st !! _) as [r|] eqn:Hr; simpl in *; [|lia].
      destruct (ni_refunds0 _ _ Hr). lia.
  - rewrite owed_set_bid. unfold open_amount at 2. cbn [high_bid].
    destruct (bids st !! n) as [cur|] eqn:Hb; cbn [fmap option_fmap option_map default]; [|lia].
    destruct (Ho cur Hb) as (H1 & _ & _ & _).
    set (k := (n, high_bidder cur)). unfold open_amount, refund_amount_at.
    destruct (bid_refunds st !! k) as [r|] eqn:Hr; cbn [fmap option_fmap option_map default].
    + rewrite (msum_insert_Some _ _ _ _ _ Hr). simpl. lia.
    + rewrite msum_insert_None by done. simpl. lia.
Qed.

(** ** Refunds *)

Lemma bidrefund_Ok st b n st' es :
  bidrefund st b n = Ok (st', es) <->
  exists r, bid_refunds st !! (n, b) = Some r /\
    st' = State (bids st) (delete (n, b) (bid_refunds st)) /\
    es = [send token_account [active_of names_account; active_of b]
            (token_transfer names_account b (refund_amount r)
               ("refund bid on name " +:+ name_to_string n))].
Proof.
  unfold bidrefund. destruct (bid_refunds st !! (n, b)) as [r|]; simpl;
    unfold mret, result_ret; [|naive_solver].
  split; [intros [= <- <-]; by exists r|by intros (? & [= <-] & -> & ->)].
Qed.

Lemma bidrefund_inv g st b n r :
  inv g st -> bid_refunds st !! (n, b) = Some r ->
  let st' := State (bids st) (delete (n, b) (bid_refunds st)) in
  inv g st' /\ owed st' = owed st - amount (refund_amount r).
Proof.
  intros [] Hr st'. split.
  - split; simpl; [|done|by apply map_Forall_delete].
    intros Hi. destruct (ni_uninit0 Hi) as [-> ->]. split; [done|apply delete_empty].
  - unfold owed, st'. simpl. rewrite (msum_delete _ (bid_refunds st) _ _ Hr). lia.
Qed.

(** ** Closing the highest bid *)

Lemma by_high_bid_open b : 0 < high_bid b <= max_amount -> by_high_bid b = 2 ^ 64 - high_bid b.
Proof.
  unfold max_amount, by_high_bid, u64, wrap_u. intros Hb. symmetry.
  apply (Z.mod_unique_pos _ _ (-1)); lia.
Qed.

Lemma by_high_bid_closed b :
  - max_amount <= high_bid b <= 0 -> by_high_bid b = - high_bid b.
Proof. unfold max_amount, by_high_bid. intros Hb. apply u64_id. unfold_ints. lia. Qed.

Definition is_open (b : name_bid) : Prop := 0 < high_bid b.

(** What [onblock] finds: the highest open bid, the smallest name among equals; nothing
    when every auction is closed. *)
Lemma highest_bid st :
  map_Forall bid_ok (bids st) ->
  match lower_bound by_high_bid (uint64_max / 2) (bids st) with
  | Some (k, b) =>
      bids st !! k = Some b /\ is_open b /\
      forall j a, bids st !! j = Some a -> is_open a ->
        high_bid a < high_bid b \/ high_bid a = high_bid b /\ k <= j
  | None => forall j a, bids st !! j = Some a -> ~ is_open a
  end.
Proof.
  intros Hok. change (uint64_max / 2) with (2 ^ 63 - 1).
  assert (Hkey : forall j a, bids st !! j = Some a ->
    is_open a /\ by_high_bid a = 2 ^ 64 - high_bid a /\ 2 ^ 63 - 1 <= by_high_bid a /\
      high_bid a <= max_amount \/
    ~ is_open a /\ by_high_bid a < 2 ^ 63 - 1).
  { intros j a Ha. destruct (Hok j a Ha). unfold is_open.
    destruct (Z.ltb_spec 0 (high_bid a)).
    - left. rewrite by_high_bid_open by (unfold max_amount in *; lia). unfold max_amount in *. lia.
    - right. rewrite by_high_bid_closed by (unfold max_amount in *; lia).
      unfold max_amount in *. lia. }
  destruct (lower_bound _ _ _) as [[k b]|] eqn:El.
  - apply lower_bound_Some in El as (Hk & Hge & Hmin).
    destruct (Hkey k b Hk) as [(Ho & E & _)|[_ Hlt]]; [|lia]. split_and!; [done..|].
    intros j a Ha Hoa. destruct (Hkey j a Ha) as [(_ & Ea & Hge' & _)|[Hno _]]; [|done].
    specialize (Hmin j a Ha Hge'). unfold index_le in Hmin. simpl in Hmin. lia.
  - intros j a Ha Hoa. rewrite lower_bound_None in El. specialize (El j a Ha).
    destruct (Hkey j a Ha) as [(_ & _ & Hge & _)|[Hno _]]; [lia|done].
Qed.

(** The auction of [k] closes. *)
Definition close_post (st : state) (k : name) (b : name_bid) : state :=
  State (<[k := NameBid (newname b) (high_bidder b) (- high_bid b) (last_bid_time b)]> (bids st))
    (bid_refunds st).

(** No bid on it for a day *)
Definition one_day_old (c : ctx) (b : name_bid) : Prop :=
  useconds_per_day < i64 (current_time_point c - last_bid_time b).

Definition close_due (g : eosio_global_state) (t : block_timestamp) : Prop :=
  blocks_per_day < u32 (t - last_name_close g).

#[export] Instance one_day_old_dec c b : Decision (one_day_old c b).
Proof. unfold one_day_old. apply _. Defined.
#[export] Instance close_due_dec g t : Decision (close_due g t).
Proof. unfold close_due. apply _. Defined.

Lemma close_highest_bid_eq c g st t :
  inv g st -> is_init g = true ->
  close_highest_bid c g st t =
    match lower_bound by_high_bid (uint64_max / 2) (bids st) with
    | Some (k, b) =>
        if bool_decide (close_due g t /\ one_day_old c b)
        then let fee := Asset (high_bid b) (asset_symbol (total_vote_stake g)) in
          Ok (with_last_name_close t g, close_post st k b,
            [channel_to_system_fees names_account fee;
             send (get_self c) [active_of (get_self c)]
               (system_logsystemfee names_account fee "buy name")])
        else Ok (g, st, [])
    | None => Ok (g, st, [])
    end.
Proof.
  intros Hinv Hini. unfold close_highest_bid, close_due, one_day_old.
  pose proof Hinv as []. pose proof (highest_bid st ni_bids0) as Hh.
  destruct (lower_bound _ _ _) as [[k b]|]; [|by destruct (_ <? _)].
  destruct Hh as (Hk & Ho & _). unfold is_open in Ho. destruct (ni_bids0 k b Hk) as [En Ha].
  rewrite (proj2 (Z.ltb_lt 0 (high_bid b))) by done.
  destruct (Z.ltb_spec blocks_per_day (u32 (t - last_name_close g))).
  - simpl. destruct (Z.ltb_spec useconds_per_day (i64 (current_time_point c - last_bid_time b))).
    + rewrite bool_decide_true by lia. unfold core_symbol. rewrite Hini.
      cbn [check mbind result_bind]. unfold mret, result_ret. cbn [mbind result_bind].
      rewrite asset_ctor_Ok by (done || unfold in_range; lia). cbn [mbind result_bind].
      rewrite i64_id by (unfold_range; lia). done.
    + by rewrite bool_decide_false by lia.
  - by rewrite bool_decide_false by lia.
Qed.

Lemma close_inv g st k b :
  inv g st -> bids st !! k = Some b -> is_open b ->
  inv g (close_post st k b) /\ owed (close_post st k b) = owed st - high_bid b.
Proof.
  intros [] Hk Ho. unfold is_open in Ho. destruct (ni_bids0 k b Hk). split.
  - split; simpl; [|apply map_Forall_insert_2; [split; simpl; [done|lia]|done]|done].
    intros Hi. destruct (ni_uninit0 Hi) as [E _]. by rewrite E in Hk.
  - unfold close_post. rewrite owed_set_bid, Hk. unfold open_amount. simpl. lia.
Qed.
End invariant.
