(* ===== verification/AuthChange.v ===== *)
(** * flon.system: who may change an account's permissions

    [contracts/flon.system/src/limit_auth_changes.cpp] and the authorization actions of
    [contracts/flon.system/include/flon.system/native.hpp] that use it. *)
From S2P Require Import Prelude Cdt CdtRef.
From S2P Require Native.
From Stdlib Require Import ZArith Lia String.
From stdpp Require Import base tactics numbers list gmap.
Open Scope Z_scope.

Record limit_auth_change : Type := LimitAuthChange {
  version : Z;
  account : name;
  allow_perms : list name;
  disallow_perms : list name;
}.

Abbreviation table := (gmap Z limit_auth_change) (only parsing).

(** [std::find(l.begin(), l.end(), n) != l.end()] *)
Definition contains (l : list name) (n : name) : bool := existsb (Z.eqb n) l.

Section operations.
Context {cdt : Cdt}.

Definition owner_name : name := name_lit "owner".

Definition limitauthchg (c : ctx) (t : table) (account : name) (allow disallow : list name)
    : result table :=
  _ ← require_auth c account;
  ensure vec_empty allow || vec_empty disallow
    else "either allow_perms or disallow_perms must be empty";
  ensure vec_empty allow || contains allow owner_name else "allow_perms does not contain owner";
  ensure vec_empty disallow || negb (contains disallow owner_name)
    else "disallow_perms contains owner";
  let it := t !! account in
  if negb (vec_empty allow) || negb (vec_empty disallow) then
    match it with
    | None => emplace t account (LimitAuthChange 0 account allow disallow)
    | Some row =>
        mret (<[account := LimitAuthChange (version row) (AuthChange.account row)
                             allow disallow]> t)
    end
  else match it with
       | Some _ => mret (delete account t)
       | None => mret t
       end.

(** [authorized_by]: a [binary_extension], absent in old callers' data *)
Definition check_auth_change (c : ctx) (t : table) (account : name)
    (authorized_by : option name) : result unit :=
  let by_ := default 0 authorized_by in
  _ ← (if negb (by_ =? 0) then require_permission c (PermissionLevel account by_) else mret tt);
  match t !! account with
  | None => mret tt
  | Some row =>
      ensure negb (by_ =? 0) else "authorized_by is required for this account";
      if negb (vec_empty (allow_perms row)) then
        check (contains (allow_perms row) by_) "authorized_by does not appear in allow_perms"
      else
        check (negb (contains (disallow_perms row) by_))
          "authorized_by appears in disallow_perms"
  end.

(** The four actions: what the host then does with the permission is its own. *)
Definition updateauth c t account (permission parent : name) (authority : Native.authority)
    (authorized_by : option name) : result unit := check_auth_change c t account authorized_by.
Definition deleteauth c t account (permission : name) (authorized_by : option name)
    : result unit := check_auth_change c t account authorized_by.
Definition linkauth c t account (code type requirement : name) (authorized_by : option name)
    : result unit := check_auth_change c t account authorized_by.
Definition unlinkauth c t account (code type : name) (authorized_by : option name)
    : result unit := check_auth_change c t account authorized_by.
End operations.

(** ** Properties *)

Lemma contains_spec l n : contains l n = true <-> n ∈ l.
Proof.
  unfold contains. rewrite existsb_exists. setoid_rewrite Z.eqb_eq.
  setoid_rewrite <- list_elem_of_In. split; [by intros (x & Hx & ->)|eauto].
Qed.

Lemma contains_false l n : contains l n = false <-> n ∉ l.
Proof. rewrite <- not_true_iff_false, contains_spec. done. Qed.

Section properties.
Context {cdt : Cdt} {laws : CdtLaws}.

(** A limit that is in force: one list, which never shuts the owner out *)
Definition limit_ok (k : name) (r : limit_auth_change) : Prop :=
  account r = k /\
  (allow_perms r <> [] /\ owner_name ∈ allow_perms r /\ disallow_perms r = [] \/
   allow_perms r = [] /\ disallow_perms r <> [] /\ owner_name ∉ disallow_perms r).
Definition inv (t : table) : Prop := map_Forall limit_ok t.

(** What a permission may do under a limit *)
Definition permitted (t : table) (account perm : name) : Prop :=
  forall r, t !! account = Some r ->
    perm ∈ allow_perms r \/ allow_perms r = [] /\ perm ∉ disallow_perms r.

Lemma owner_permitted t account : inv t -> permitted t account owner_name.
Proof. intros Ht r [_ [(? & ? & ?)|(? & ? & ?)]]%Ht; auto. Qed.

Definition valid_lists (allow disallow : list name) : Prop :=
  (allow = [] \/ disallow = []) /\ (allow <> [] -> owner_name ∈ allow) /\
  (disallow <> [] -> owner_name ∉ disallow).

Definition limit_post (t : table) (k : name) (allow disallow : list name) : table :=
  if vec_empty allow && vec_empty disallow then delete k t
  else <[k := LimitAuthChange (default 0 (version <$> t !! k)) k allow disallow]> t.

Lemma limitauthchg_Ok c t k allow disallow t' :
  inv t ->
  limitauthchg c t k allow disallow = Ok t' <->
  has_auth c k = true /\ valid_lists allow disallow /\ t' = limit_post t k allow disallow.
Proof.
  intros Ht. unfold limitauthchg, require_auth, valid_lists, limit_post.
  assert (Hdel : t !! k = None -> delete k t = t) by apply delete_id.
  destruct (has_auth c k); simpl; [|naive_solver].
  destruct allow as [|a allow], disallow as [|d disallow]; cbn [empty negb andb orb check mbind result_bind].
  - destruct (t !! k) eqn:Hk; unfold mret, result_ret; simpl;
      (split; [intros [= <-]; split_and!; [done|auto|done|done|]|intros (_ & _ & ->)]);
      rewrite ?Hdel by done; done.
  - destruct (contains (d :: disallow) owner_name) eqn:E; cbn [negb check mbind result_bind].
    + apply contains_spec in E. split; [done|]. intros (_ & (_ & _ & H) & _). by destruct H.
    + apply contains_false in E. unfold emplace, mret, result_ret.
      destruct (t !! k) as [r|] eqn:Hr; simpl.
      * destruct (Ht k r Hr) as [-> _]. split; [intros [= <-]|by intros (_ & _ & ->)].
        split_and!; try done; auto; by intros [].
      * split; [intros [= <-]|by intros (_ & _ & ->)]. split_and!; try done; auto; by intros [].
  - destruct (contains (a :: allow) owner_name) eqn:E; cbn [negb check mbind result_bind].
    + apply contains_spec in E. unfold emplace, mret, result_ret.
      destruct (t !! k) as [r|] eqn:Hr; simpl.
      * destruct (Ht k r Hr) as [-> _]. split; [intros [= <-]|by intros (_ & _ & ->)].
        split_and!; try done; auto; by intros [].
      * split; [intros [= <-]|by intros (_ & _ & ->)]. split_and!; try done; auto; by intros [].
    + apply contains_false in E. split; [done|]. intros (_ & (_ & H & _) & _).
      by destruct E; apply H.
  - split; [done|]. naive_solver.
Qed.

Lemma limit_post_inv t k allow disallow :
  inv t -> valid_lists allow disallow -> inv (limit_post t k allow disallow).
Proof.
  intros Ht (H1 & H2 & H3). unfold limit_post.
  destruct allow as [|a allow], disallow as [|d disallow]; simpl.
  - by apply map_Forall_delete.
  - apply map_Forall_insert_2; [|done]. split; [done|]. right. simpl. auto.
  - apply map_Forall_insert_2; [|done]. split; [done|]. left. simpl. auto.
  - naive_solver.
Qed.

Lemma limit_inv_init : inv ∅.
Proof. done. Qed.

(** The check, exactly *)
Lemma check_auth_change_Ok c t k authorized_by :
  inv t ->
  let by_ := default 0 authorized_by in
  check_auth_change c t k authorized_by = Ok tt <->
  (by_ <> 0 -> has_permission c (PermissionLevel k by_) = true) /\
  (is_Some (t !! k) -> by_ <> 0 /\ permitted t k by_).
Proof.
  intros Ht by_. unfold check_auth_change, require_permission, permitted. fold by_.
  assert (Hlist : forall r, t !! k = Some r ->
    (if negb (vec_empty (allow_perms r))
     then check (contains (allow_perms r) by_) "authorized_by does not appear in allow_perms"
     else check (negb (contains (disallow_perms r) by_))
            "authorized_by appears in disallow_perms") = Ok tt <->
    (by_ ∈ allow_perms r \/ allow_perms r = [] /\ by_ ∉ disallow_perms r)).
  { intros r Hr. destruct (allow_perms r) as [|a l]; simpl negb; cbv iota.
    - rewrite check_Ok, negb_true_iff, contains_false. set_solver.
    - rewrite check_Ok, contains_spec. naive_solver. }
  destruct (Z.eqb_spec by_ 0) as [E|Hne]; simpl.
  - destruct (t !! k) as [r|] eqn:Hr; simpl.
    + split; [done|]. intros [_ H]. by destruct (H ltac:(by eexists)).
    + split; [intros _|done]. split; [done|by intros [? [=]]].
  - destruct (has_permission c _); simpl; [|naive_solver].
    destruct (t !! k) as [r|] eqn:Hr; simpl.
    + rewrite (Hlist r eq_refl). split; [|intros [_ H]; by apply (H ltac:(by eexists))].
      intros H. split; [done|]. intros _. split; [done|]. by intros ? [= <-].
    + split; [intros _|done]. split; [done|by intros [? [=]]].
Qed.
End properties.
