(* ===== verification/ProducerPay.v ===== *)
(** * flon.system: block rewards and the election's calendar

    [contracts/flon.system/src/producer_pay.cpp]: the reward a produced block earns, which
    halves every five years, and [cfgelection].  [onblock] itself, which also drives the
    other components, is in [System.v]. *)
From S2P Require Import Prelude Cdt CdtRef SystemData Voting.
From Stdlib Require Import ZArith Lia String.
From stdpp Require Import base tactics numbers list gmap.
Open Scope Z_scope.

(** [while (exp > 0) { ret *= base; --exp; }] on [int64_t] *)
Fixpoint power_loop (n : nat) (base ret : Z) : Z :=
  match n with O => ret | S n' => power_loop n' base (i64 (ret * base)) end.
Definition power (base exp : Z) : Z := power_loop (Z.to_nat exp) base 1.

(** [int64_t] division: traps on a zero divisor *)
Definition div64 (a b : Z) : result Z :=
  ensure negb (b =? 0) else "integer divide by zero"; mret (i64 (Z.quot a b)).

Section operations.
Context {cdt : Cdt}.

Definition halving_period (g : eosio_global_state) (now : time_point) : Z :=
  Z.quot (to_seconds (now - reward_started_time g)) reward_halving_period_seconds.

(** The reward branch of [onblock] *)
Definition pay_block (g : eosio_global_state) (st : Voting.state) (producer : name)
    (now : time_point) : result (eosio_global_state * Voting.state) :=
  match producers st !! producer with
  | Some p =>
      if negb (reward_started_time g =? 0) && (reward_started_time g <=? now) then
        rewards_per_block ←
          div64 (amount (initial_rewards_per_block g)) (power 2 (halving_period g now));
        let add a := Asset (i64 (amount a + rewards_per_block)) (asset_symbol a) in
        mret (with_rewards (initial_rewards_per_block g) (add (total_produced_rewards g))
                (add (total_unclaimed_rewards g)) g,
              Voting.State (voters st)
                (<[producer := with_unclaimed_rewards (add (unclaimed_rewards p)) p]>
                   (producers st)) (vote_refunds st))
      else mret (g, st)
  | None => mret (g, st)
  end.

Definition claimrewards (c : ctx) (owner : name) : result unit :=
  _ ← require_auth c owner;
  check false "unsupport claimrewards currently".

Definition cfgelection (c : ctx) (g : eosio_global_state)
    (election_activated reward_started : time_point) (initial_rewards : asset)
    : result eosio_global_state :=
  _ ← require_auth c (get_self c);
  core_symb ← core_symbol g;
  ensure asset_symbol initial_rewards =? core_symb
    else "reward symbol mismatch with core symbol";
  ensure 0 <=? amount initial_rewards else "reward can not be negative";
  let now := current_time_point c in
  activated ←
    (if (election_activated_time g =? 0) || (now <? election_activated_time g) then
       ensure now <? election_activated else "election activated time must larger than now";
       mret election_activated
     else
       ensure election_activated =? election_activated_time g
         else "can not change election activated time after election has already been activated";
       mret (election_activated_time g));
  ensure activated <=? reward_started
    else "reward start time can not less than election activated time";
  started ←
    (if (reward_started_time g =? 0) || (now <? reward_started_time g) then
       ensure now <? reward_started else "reward start time must larger than now";
       mret reward_started
     else
       ensure reward_started =? reward_started_time g
         else "can not change reward start timee after reward has already been started";
       mret (reward_started_time g));
  mret (with_rewards initial_rewards (total_produced_rewards g) (total_unclaimed_rewards g)
          (with_times activated started g)).
End operations.

(** ** Halving *)

Lemma power_loop_spec n ret :
  0 < ret -> ret * 2 ^ Z.of_nat n < 2 ^ 63 -> power_loop n 2 ret = ret * 2 ^ Z.of_nat n.
Proof.
  revert ret. induction n as [|n IH]; intros ret H0 Hb; [simpl; lia|].
  rewrite Nat2Z.inj_succ, Z.pow_succ_r in * by lia. simpl.
  pose proof (Z.pow_pos_nonneg 2 (Z.of_nat n) ltac:(lia) ltac:(lia)).
  rewrite i64_id by (unfold_ints; nia). rewrite IH by lia. lia.
Qed.

(** Exact up to 62 periods; then the sign bit, then zero *)
Lemma power_two k : 0 <= k <= 62 -> power 2 k = 2 ^ k.
Proof.
  intros Hk. unfold power. rewrite power_loop_spec; rewrite ?Z2Nat.id by lia; [lia|lia|].
  enough (2 ^ k <= 2 ^ 62) by lia. apply Z.pow_le_mono_r; lia.
Qed.

Lemma power_two_63 : power 2 63 = int64_min.
Proof. reflexivity. Qed.

Lemma power_two_64 k : 64 <= k -> power 2 k = 0.
Proof.
  intros Hk. unfold power. replace (Z.to_nat k) with (64 + Z.to_nat (k - 64))%nat by lia.
  assert (H : forall n m ret, power_loop (n + m) 2 ret = power_loop m 2 (power_loop n 2 ret)).
  { induction n as [|n IH]; intros m ret; [done|]. simpl. apply IH. }
  rewrite H. change (power_loop 64 2 1) with 0.
  generalize (Z.to_nat (k - 64)). intros n. induction n as [|n IH]; [done|]. exact IH.
Qed.

Section rewards.
Context {cdt : Cdt} {laws : CdtLaws}.

Definition period_of (g : eosio_global_state) (now : time_point) : Z :=
  (now - reward_started_time g) / (1000000 * reward_halving_period_seconds).

Lemma halving_period_eq g now :
  reward_started_time g <= now -> halving_period g now = period_of g now.
Proof.
  intros H. unfold halving_period, period_of. rewrite law_to_seconds by lia.
  rewrite Z.quot_div_nonneg;
    [|apply Z.div_pos; lia|unfold reward_halving_period_seconds, seconds_per_year; lia].
  rewrite Z.div_div; [done|lia|unfold reward_halving_period_seconds, seconds_per_year; lia].
Qed.

(** The reward of a block: halved once per period, nothing in the 64th, no block after. *)
Definition block_reward (g : eosio_global_state) (now : time_point) : option Z :=
  let k := period_of g now in
  if k <=? 62 then Some (amount (initial_rewards_per_block g) / 2 ^ k)
  else if k =? 63 then Some 0 else None.

Lemma block_reward_spec g now :
  0 <= amount (initial_rewards_per_block g) <= int64_max -> reward_started_time g <= now ->
  match block_reward g now with
  | Some r => div64 (amount (initial_rewards_per_block g)) (power 2 (halving_period g now)) = Ok r
              /\ 0 <= r <= amount (initial_rewards_per_block g)
  | None => is_ok (div64 (amount (initial_rewards_per_block g))
                     (power 2 (halving_period g now))) = false
  end.
Proof.
  intros Ha Ht. rewrite halving_period_eq by done. unfold block_reward.
  set (k := period_of g now). set (a := amount (initial_rewards_per_block g)) in *.
  assert (Hk : 0 <= k).
  { apply Z.div_pos; [lia|]. unfold reward_halving_period_seconds, seconds_per_year. lia. }
  destruct (Z.leb_spec k 62).
  - rewrite power_two by lia.
    pose proof (Z.pow_pos_nonneg 2 k ltac:(lia) ltac:(lia)) as Hp. unfold div64.
    rewrite (proj2 (Z.eqb_neq _ 0)) by lia. cbn [check negb mbind result_bind].
    rewrite Z.quot_div_nonneg by lia.
    assert (Hr : 0 <= a / 2 ^ k <= a).
    { split; [apply Z.div_pos; lia|]. apply Z.div_le_upper_bound; [lia|]. nia. }
    rewrite i64_id by (unfold_ints; lia). done.
  - destruct (Z.eqb_spec k 63) as [->|Hne].
    + rewrite power_two_63. unfold div64. change (negb (int64_min =? 0)) with true.
      cbn [check mbind result_bind]. unfold int64_min.
      rewrite Z.quot_opp_r by lia. rewrite Z.quot_small by (unfold_ints; lia).
      split; [done|lia].
    + rewrite power_two_64 by lia. done.
Qed.

(** ** The rewards not yet claimed *)

Definition unclaimed_sum (tbl : gmap name producer_info) : Z :=
  msum (fun _ p => amount (unclaimed_rewards p)) tbl.

(** Equal as 64-bit integers *)
Definition same64 (a b : Z) : Prop := a mod 2 ^ 64 = b mod 2 ^ 64.
#[export] Instance same64_equiv : Equivalence same64.
Proof. split; unfold same64; [by intros ?|by intros ?|intros ??? -> ->; done]. Qed.
#[export] Instance same64_add : Proper (same64 ==> same64 ==> same64) Z.add.
Proof. intros a b H c d H'. unfold same64 in *. by rewrite Zplus_mod, H, H', <- Zplus_mod. Qed.
#[export] Instance same64_sub : Proper (same64 ==> same64 ==> same64) Z.sub.
Proof. intros a b H c d H'. unfold same64 in *. by rewrite Zminus_mod, H, H', <- Zminus_mod. Qed.
Lemma same64_i64 z : same64 (i64 z) z.
Proof.
  unfold same64, i64, wrap_s. rewrite Zminus_mod_idemp_l. f_equal. lia.
Qed.
Lemma same64_eq a b : same64 a b -> is_i64 a -> is_i64 b -> a = b.
Proof.
  unfold same64. intros E Ha Hb.
  rewrite <- (i64_id a Ha), <- (i64_id b Hb). unfold i64, wrap_s.
  by rewrite Zplus_mod, E, <- Zplus_mod.
Qed.

Definition rewards_inv (g : eosio_global_state) (tbl : gmap name producer_info) : Prop :=
  amount (total_produced_rewards g) = amount (total_unclaimed_rewards g) /\
  same64 (unclaimed_sum tbl) (amount (total_unclaimed_rewards g)) /\
  0 <= amount (initial_rewards_per_block g) <= int64_max /\
  (reward_started_time g <> 0 -> election_activated_time g <= reward_started_time g).

Lemma unclaimed_insert tbl p i j :
  tbl !! p = Some i ->
  unclaimed_sum (<[p := j]> tbl) =
  unclaimed_sum tbl - amount (unclaimed_rewards i) + amount (unclaimed_rewards j).
Proof. intros Hi. unfold unclaimed_sum. by rewrite (msum_insert_Some _ _ _ _ _ Hi). Qed.

Lemma pay_block_inv g st p now g' st' :
  rewards_inv g (producers st) -> pay_block g st p now = Ok (g', st') ->
  rewards_inv g' (producers st').
Proof.
  intros Hinv H. unfold pay_block in H.
  destruct (producers st !! p) as [i|] eqn:Hi; [|by injection H as <- <-].
  destruct (_ && _); [|by injection H as <- <-].
  apply bind_Ok in H as (r & _ & [= <- <-]). destruct Hinv as (H1 & H2 & H3 & H4).
  split; [simpl; by rewrite H1|]. split; [|done]. simpl.
  rewrite (unclaimed_insert _ _ _ _ Hi). cbn [with_unclaimed_rewards unclaimed_rewards amount].
  rewrite !same64_i64.
  rewrite <- H2. by replace (unclaimed_sum (producers st) - amount (unclaimed_rewards i) +
    (amount (unclaimed_rewards i) + r)) with (unclaimed_sum (producers st) + r) by lia.
Qed.

(** ** The calendar *)

(** A time that has come *)
Definition has_come (c : ctx) (t : time_point) : Prop := t <> 0 /\ t <= current_time_point c.
#[export] Instance has_come_dec c t : Decision (has_come c t).
Proof. unfold has_come. apply _. Defined.

(** A time may be set while it has not come, and only to the future. *)
Definition may_set (c : ctx) (old new : time_point) : Prop :=
  if bool_decide (has_come c old) then new = old else current_time_point c < new.

Lemma may_set_spec c old new e1 e2 :
  (if (old =? 0) || (current_time_point c <? old) then
     ensure current_time_point c <? new else e1; mret new
   else ensure new =? old else e2; mret old) = Ok new <-> may_set c old new.
Proof.
  unfold may_set. destruct (decide (has_come c old)) as [Hc|Hc].
  - rewrite bool_decide_true by done. destruct Hc as [Hne Hle].
    rewrite (proj2 (Z.eqb_neq old 0)), (proj2 (Z.ltb_ge _ old)) by done. cbn [orb].
    destruct (Z.eqb_spec new old) as [->|]; cbn; naive_solver.
  - rewrite bool_decide_false by done. unfold has_come in Hc.
    assert ((old =? 0) || (current_time_point c <? old) = true) as ->.
    { to_prop. destruct (decide (old = 0)); [by left|right; lia]. }
    destruct (Z.ltb_spec (current_time_point c) new); cbn; (split; intros; done || lia).
Qed.
End rewards.
