(* ===== verification/Admin.v ===== *)
(** * flon.system: administration, accounts and gas

    [contracts/flon.system/src/flon.system.cpp] and
    [contracts/flon.system/src/delegate_bandwidth.cpp]: the chain's parameters, new
    accounts, ABI hashes, the initialisation and gas purchases. *)
From S2P Require Import Prelude Cdt CdtRef SystemData NameBid.
From S2P Require Token.
From Stdlib Require Import ZArith Lia String.
From stdpp Require Import base tactics numbers list gmap.
Open Scope Z_scope.

(** The toolkit's serialisation of a member of [blockchain_parameters] in its declared
    type: the member's position and its value *)
Class Serializer : Type := { pack_parameter : Z -> Z -> bytes }.

(** ** Chain parameters *)

(** [chain_config_params_v0]: the members in the order of their ids, 0 to 20 *)
Definition parameter_values (p : blockchain_parameters) : list Z :=
  [max_block_net_usage p; target_block_net_usage_pct p; max_transaction_net_usage p;
   base_per_transaction_net_usage p; net_usage_leeway p;
   context_free_discount_net_usage_num p; context_free_discount_net_usage_den p;
   max_block_cpu_usage p; target_block_cpu_usage_pct p; max_transaction_cpu_usage p;
   min_transaction_cpu_usage p; max_transaction_lifetime p; deferred_trx_expiration_window p;
   max_transaction_delay p; max_inline_action_size p; max_inline_action_depth p;
   max_authority_depth p; max_total_ram_usage p; gas_per_cpu_ms p; gas_per_net_kb p;
   gas_per_ram_kb p].
Definition CHAIN_CONFIG_PARAMS_V0_COUNT : Z := 21.
Definition max_action_return_value_size_id : Z := CHAIN_CONFIG_PARAMS_V0_COUNT.

Record wasm_parameters : Type := WasmParameters {
  max_mutable_global_bytes : Z;
  max_table_elements : Z;
  max_section_elements : Z;
  max_linear_memory_init : Z;
  max_func_local_bytes : Z;
  max_nested_structures : Z;
  max_symbol_bytes : Z;
  max_module_bytes : Z;
  max_code_bytes : Z;
  max_pages : Z;
  max_call_depth : Z;
}.
Definition default_limits : wasm_parameters :=
  WasmParameters 1024 1024 8192 (64 * 1024) 8192 1024 8192 (20 * 1024 * 1024)
    (20 * 1024 * 1024) 528 251.
Definition high_limits : wasm_parameters :=
  WasmParameters 8192 8192 8192 (16 * 64 * 1024) 8192 1024 8192 (20 * 1024 * 1024)
    (20 * 1024 * 1024) 528 1024.

(** A [uint32_t] in memory: little endian *)
Definition le32 (v : Z) : bytes :=
  [v mod 256; v / 256 mod 256; v / 65536 mod 256; v / 16777216 mod 256].
Definition wasm_words (p : wasm_parameters) : list Z :=
  [max_mutable_global_bytes p; max_table_elements p; max_section_elements p;
   max_linear_memory_init p; max_func_local_bytes p; max_nested_structures p;
   max_symbol_bytes p; max_module_bytes p; max_code_bytes p; max_pages p; max_call_depth p].
(** [set_wasm_parameters]: a zero word, then the struct *)
Definition set_wasm_parameters (p : wasm_parameters) : effect :=
  SetWasmParametersPacked (le32 0 ++ concat (le32 <$> wasm_words p)).

Section operations.
Context {cdt : Cdt} {serializer : Serializer}.

(** The stream [setparams] writes: the count, then ids and values *)
Definition packed_parameters (p : blockchain_parameters_v1) : bytes :=
  let entries := imap (fun i v => Z.of_nat i :: pack_parameter (Z.of_nat i) v)
                   (parameter_values (base_parameters p)) in
  match max_action_return_value_size p with
  | None => CHAIN_CONFIG_PARAMS_V0_COUNT :: concat entries
  | Some v =>
      CHAIN_CONFIG_PARAMS_V0_COUNT + 1 ::
      concat entries ++ max_action_return_value_size_id ::
        pack_parameter max_action_return_value_size_id v
  end.

Definition setparams (c : ctx) (g : eosio_global_state) (p : blockchain_parameters_v1)
    : result (eosio_global_state * list effect) :=
  _ ← require_auth c (get_self c);
  let g := with_params (base_parameters p) g in
  ensure 3 <=? max_authority_depth (params g) else "max_authority_depth should be at least 3";
  mret (g, [SetParametersPacked (packed_parameters p)]).

Definition wasmcfg (c : ctx) (settings : name) : result (list effect) :=
  _ ← require_auth c (get_self c);
  if (settings =? name_lit "default") || (settings =? name_lit "low") then
    mret [set_wasm_parameters default_limits]
  else if settings =? name_lit "high" then mret [set_wasm_parameters high_limits]
  else Err "Unknown configuration".

Definition setpriv (c : ctx) (account : name) (ispriv : Z) : result (list effect) :=
  _ ← require_auth c (get_self c); mret [SetPrivileged account ispriv].

Definition setalimits (c : ctx) (account : name) (gas : Z) (is_unlimited : bool)
    : result (list effect) :=
  _ ← require_auth c (get_self c);
  ensure is_account c account else "account not exists";
  let '(gas_old, is_unlimited_old) := get_resource_limits c account in
  ensure negb (gas =? gas_old) || negb (Bool.eqb is_unlimited is_unlimited_old)
    else "data does not have change";
  mret [SetResourceLimits account gas is_unlimited].

Definition activate (c : ctx) (feature_digest : bytes) : result (list effect) :=
  _ ← require_auth c (get_self c); mret [PreactivateFeature feature_digest].

Definition logsystemfee (c : ctx) (protocol : name) (fee : asset) (memo : string)
    : result (list effect) :=
  _ ← require_auth c (get_self c); mret [].

Definition setibintervl (c : ctx) (pcs : option producing_config) (idle_block_interval_ms : Z)
    : result (option producing_config) :=
  _ ← require_auth c (get_self c);
  let conf := default (ProducingConfig 0) pcs in
  ensure negb (SystemData.idle_block_interval_ms conf =? idle_block_interval_ms)
    else "idle block interval unchanged";
  mret (Some (ProducingConfig idle_block_interval_ms)).

(** [native::onerror] *)
Definition onerror : result unit :=
  check false "the onerror action cannot be called directly".

(** ** Accounts *)

(** The loop of [newaccount]: is one of the low [n] 5-bit digits of [tmp] zero? *)
Fixpoint has_dot_loop (n : nat) (tmp : Z) (has_dot : bool) : bool :=
  match n with
  | O => has_dot
  | S n' => has_dot_loop n' (Z.shiftr tmp 5) (has_dot || (Z.land tmp 31 =? 0))
  end.
Definition has_dot (n : name) : bool := has_dot_loop 12 (Z.shiftr n 4) false.

(** [stored] is the global state singleton: [is_init] reads it. *)
Definition newaccount (c : ctx) (stored : option eosio_global_state) (names : NameBid.state)
    (creators : gmap name account_creator) (creator new_account_name : name)
    : result (NameBid.state * gmap name account_creator * list effect) :=
  if negb (match stored with Some g => is_init g | None => false end)
  then mret (names, creators, [])
  else
    names' ←
      (if negb (creator =? get_self c) && has_dot new_account_name then
         let suffix := name_suffix new_account_name in
         if suffix =? new_account_name then
           current ← get_or (bids names !! new_account_name) "no active bid for name";
           ensure high_bidder current =? creator else "only highest bidder can claim";
           ensure high_bid current <? 0 else "auction for name is not closed yet";
           mret (NameBid.State (delete new_account_name (bids names)) (bid_refunds names))
         else
           ensure creator =? suffix else "only suffix may create this account";
           mret names
       else mret names);
    creators' ← emplace creators new_account_name (AccountCreator new_account_name creator);
    mret (names', creators', [SetResourceLimits new_account_name 0 false]).

(** [native::setabi]: the table [abihash] *)
Definition setabi (t : gmap name bytes) (acnt : name) (abi : bytes) : result (gmap name bytes) :=
  match t !! acnt with
  | None => emplace t acnt (sha256 abi)
  | Some _ => mret (<[acnt := sha256 abi]> t)
  end.

(** ** Initialisation *)

Definition with_core (core : symbol) (g : eosio_global_state) : eosio_global_state :=
  let set a := Asset (amount a) core in
  with_rewards (set (initial_rewards_per_block g)) (set (total_produced_rewards g))
    (set (total_unclaimed_rewards g)) (with_total_vote_stake (set (total_vote_stake g)) g).

(** [token]: the tables of flon.token that [token::get_supply] reads *)
Definition init (c : ctx) (g : eosio_global_state) (token : Token.state) (version : Z)
    (core : symbol) : result (eosio_global_state * list effect) :=
  _ ← require_auth c (get_self c);
  ensure version =? 0 else "unsupported version for init action";
  ensure negb (symbol_valid (asset_symbol (total_vote_stake g)))
    else "system contract has already been initialized";
  let g := with_core core g in
  supply ← Token.get_supply token (symbol_code core);
  ensure asset_symbol supply =? core
    else "specified core symbol does not exist (precision mismatch)";
  ensure 0 <? amount supply else "system token supply must be greater than 0";
  ensure is_account c token_account else "gas account does not exist";
  mret (g, [send token_account [active_of (get_self c)] (token_open gas_account core (get_self c));
            send reward_account [active_of (get_self c)] (reward_init core)]).

(** ** Gas *)

Definition buygas (c : ctx) (g : eosio_global_state) (payer receiver : name) (quant : asset)
    : result (list effect) :=
  _ ← require_auth c payer;
  core ← core_symbol g;
  ensure asset_symbol quant =? core else "must buy gas with core asset";
  ensure 0 <? amount quant else "must purchase a positive amount";
  ensure is_account c receiver else "receiver account not exists";
  ensure negb (payer =? gas_account) && negb (receiver =? gas_account)
    else "neither payer nor receiver can be system gas account";
  let transfer_act := send token_account [active_of payer; active_of gas_account]
    (token_transfer payer gas_account quant "buy gas") in
  let '(reserved_gas, is_unlimited) := get_resource_limits c receiver in
  ensure u64 (amount quant) <=? u64 (uint64_max - reserved_gas)
    else "Overflow when calculating new gas";
  mret [transfer_act;
        SetResourceLimits receiver (u64 (reserved_gas + u64 (amount quant))) is_unlimited].

Definition buygasself (c : ctx) (g : eosio_global_state) (account : name) (quant : asset)
    : result (list effect) := buygas c g account account quant.
End operations.
