(* ===== verification/Bios.v ===== *)
(** * flon.wrap, flon.boot and flon.bios: the contracts that start a chain

    [contracts/flon.wrap/src/flon.wrap.cpp], [contracts/flon.boot/src/flon.boot.cpp] and
    [contracts/flon.bios/src/flon.bios.cpp].  The interesting action is [setfinalizer],
    which checks a finalizer policy before it hands it to the host. *)
From S2P Require Import Prelude Cdt CdtRef Trx SystemData.
From S2P Require Finalizer Admin.
From Stdlib Require Import ZArith Lia String.
From stdpp Require Import base tactics numbers list gmap strings.
Open Scope Z_scope.

(** ** flon.wrap *)

(** [data]: the action's data, which the action reads itself *)
Definition wrap_exec `{Cdt, Transactions} (c : ctx) (data : bytes) : result (list effect) :=
  _ ← require_auth c (get_self c);
  '(executer, ds) ← read_name data;
  _ ← require_auth c executer;
  '(_, ds) ← read_header ds;
  '(context_free_actions, ds) ← read_actions ds;
  ensure vec_empty context_free_actions
    else "not allowed to `exec` a transaction with context-free actions";
  '(actions, _) ← read_actions ds;
  mret ((Send <$> actions) : list effect).

(** ** flon.boot *)

Module Boot.
Section boot.
Context {cdt : Cdt} (is_feature_activated : bytes -> bool).

Definition onerror : result (list effect) :=
  _ ← check false "the onerror action cannot be called directly"; mret [].
Definition activate (c : ctx) (feature_digest : bytes) : result (list effect) :=
  _ ← require_auth c (get_self c); mret [PreactivateFeature feature_digest].
Definition reqactivated (feature_digest : bytes) : result (list effect) :=
  _ ← check (is_feature_activated feature_digest) "protocol feature is not activated"; mret [].
End boot.
End Boot.

(** ** flon.bios *)

Definition max_finalizers : Z := 64 * 1024.
Definition max_finalizer_description_size : Z := 256.

Record finalizer_authority : Type := FinalizerAuthority {
  f_description : string;
  f_weight : Z;                          (* uint64_t *)
  f_public_key : string;
  f_pop : string;
}.
Record finalizer_policy : Type := FinalizerPolicy {
  p_threshold : Z;                       (* uint64_t *)
  p_finalizers : list finalizer_authority;
}.

Section bios.
Context {cdt : Cdt} {bls : Finalizer.Bls} (is_feature_activated : bytes -> bool).
Context (same_bucket : nat -> Z -> Z -> bool).

(** The table [abihash] *)
Definition setabi (t : gmap name bytes) (account : name) (abi : bytes)
    : result (gmap name bytes) :=
  match t !! account with
  | None => emplace t account (sha256 abi)
  | Some _ => mret (<[account := sha256 abi]> t)
  end.

(** [unique_finalizer_keys]: an [unordered_set] whose hash function is
    [std::hash<const char*>] on [g1.data()], that is the hash of the {e address} of the key's
    bytes.  The set keeps each key with the hash it was inserted under, and takes a new key for
    an old one when the bytes agree and the two are in one bucket: always when their hashes are
    equal, otherwise as the number of buckets has it, which the library chooses
    ([same_bucket n] with [n] keys in the set).  [insert] of the key in the loop's variable [pk]: *)
Definition is_duplicate (hash : Z) (pk : bytes) (set : list (Z * bytes)) : bool :=
  existsb (fun '(h, k) => ((h =? hash) || same_bucket (length set) h hash) && bool_decide (k = pk)) set.
Definition insert_key (hash : Z) (pk : bytes) (set : list (Z * bytes))
    : option (list (Z * bytes)) :=
  if is_duplicate hash pk set then None else Some ((hash, pk) :: set).

(** The loop of [setfinalizer].  [pk_hash n] is the hash of the address of [pk] in the
    loop's iteration with [n] keys in the set. *)
Fixpoint check_finalizers (pk_hash : nat -> Z) (l : list finalizer_authority)
    (keys : list (Z * bytes)) (weight_sum : Z)
    : result (Z * list Cdt.finalizer_authority) :=
  match l with
  | [] => mret (weight_sum, [])
  | f :: l' =>
      ensure Z.of_nat (String.length (f_description f)) <=? max_finalizer_description_size
        else "Finalizer description greater than max allowed size";
      ensure Finalizer.starts_with "PUB_BLS" (f_public_key f)
        else "public key shoud start with PUB_BLS";
      ensure Finalizer.starts_with "SIG_BLS" (f_pop f)
        else "proof of possession signature should start with SIG_BLS";
      ensure f_weight f <=? uint64_max - weight_sum
        else "sum of weights causes uint64_t overflow";
      let weight_sum := u64 (weight_sum + f_weight f) in
      pk ← Finalizer.decode_bls_public_key_to_g1 (f_public_key f);
      keys ← get_or (insert_key (pk_hash (length keys)) pk keys) "duplicate public key";
      signature ← Finalizer.decode_bls_signature_to_g2 (f_pop f);
      ensure Finalizer.bls_pop_verify pk signature else "proof of possession failed";
      '(sum, rest) ← check_finalizers pk_hash l' keys weight_sum;
      mret (sum, Cdt.FinalizerAuthority (f_description f) (f_weight f) pk :: rest)
  end.

Definition setfinalizer (c : ctx) (pk_hash : nat -> Z) (policy : finalizer_policy)
    : result (list effect) :=
  _ ← require_auth c (get_self c);
  let n := Z.of_nat (length (p_finalizers policy)) in
  ensure n <=? max_finalizers else "number of finalizers exceeds the maximum allowed";
  ensure 0 <? n else "require at least one finalizer";
  '(weight_sum, finalizers) ← check_finalizers pk_hash (p_finalizers policy) [] 0;
  ensure (p_threshold policy <=? weight_sum) && (weight_sum / 2 <? p_threshold policy)
    else "Finalizer policy threshold must be greater than half of the sum of the weights, and less than or equal to the sum of the weights";
  mret [SetFinalizers (p_threshold policy) finalizers].

Definition onerror : result (list effect) :=
  _ ← check false "the onerror action cannot be called directly"; mret [].
Definition setpriv (c : ctx) (account : name) (is_priv : Z) : result (list effect) :=
  _ ← require_auth c (get_self c); mret [SetPrivileged account is_priv].
Definition setalimits (c : ctx) (account : name) (gas : Z) (is_unlimited : bool)
    : result (list effect) :=
  _ ← require_auth c (get_self c); mret [SetResourceLimits account gas is_unlimited].
Definition setprods (c : ctx) (schedule : list Cdt.producer_authority) : result (list effect) :=
  _ ← require_auth c (get_self c); mret [SetProposedProducers schedule].
Definition setparams (c : ctx) (params : blockchain_parameters) : result (list effect) :=
  _ ← require_auth c (get_self c);
  mret [SetBlockchainParameters (Admin.parameter_values params)].
Definition reqauth (c : ctx) (from : name) : result (list effect) :=
  _ ← require_auth c from; mret [].
Definition activate (c : ctx) (feature_digest : bytes) : result (list effect) :=
  _ ← require_auth c (get_self c); mret [PreactivateFeature feature_digest].
Definition reqactivated (feature_digest : bytes) : result (list effect) :=
  _ ← check (is_feature_activated feature_digest) "protocol feature is not activated"; mret [].
End bios.

(** ** Properties *)

Definition total_weight (l : list Cdt.finalizer_authority) : Z :=
  foldr (fun f s => fa_weight f + s) 0 l.
(** The weight of the finalizers at the positions [P] selects, counted from [i] *)
Fixpoint weight_at (P : nat -> bool) (i : nat) (l : list Cdt.finalizer_authority) : Z :=
  match l with
  | [] => 0
  | f :: l' => (if P i then fa_weight f else 0) + weight_at P (S i) l'
  end.

Lemma weight_at_disjoint P Q l : forall i,
  Forall (fun f => 0 <= fa_weight f) l ->
  (forall j, (i <= j < i + length l)%nat -> P j && Q j = false) ->
  weight_at P i l + weight_at Q i l <= total_weight l.
Proof.
  induction l as [|f l IH]; intros i Hl Hd; simpl; [lia|].
  apply Forall_cons in Hl as [Hf Hl].
  assert (Hi := Hd i ltac:(simpl; lia)).
  assert (H := IH (S i) Hl (fun j Hj => Hd j ltac:(simpl; lia))).
  destruct (P i), (Q i); simpl in *; try discriminate; lia.
Qed.

Section properties.
Context {cdt : Cdt} {bls : Finalizer.Bls} {trx : Transactions} (same_bucket : nat -> Z -> Z -> bool).
#[local] Abbreviation check_finalizers := (check_finalizers same_bucket) (only parsing).
#[local] Abbreviation setfinalizer := (setfinalizer same_bucket) (only parsing).

(** What [setfinalizer] checks of one finalizer, and what it hands to the host for it *)
Definition finalizer_ok (f : finalizer_authority) (o : Cdt.finalizer_authority) : Prop :=
  Z.of_nat (String.length (f_description f)) <= 256 /\
  Finalizer.starts_with "PUB_BLS" (f_public_key f) = true /\
  Finalizer.starts_with "SIG_BLS" (f_pop f) = true /\
  Finalizer.decode_bls_public_key_to_g1 (f_public_key f) = Ok (fa_public_key o) /\
  (exists s, Finalizer.decode_bls_signature_to_g2 (f_pop f) = Ok s /\
     Finalizer.bls_pop_verify (fa_public_key o) s = true) /\
  o = Cdt.FinalizerAuthority (f_description f) (f_weight f) (fa_public_key o).

(** The loop, for one key *)
Lemma check_finalizers_cons h f l keys w r :
  is_u64 w -> is_u64 (f_weight f) ->
  check_finalizers h (f :: l) keys w = Ok r <->
  exists o sum rest, finalizer_ok f o /\ w + f_weight f <= uint64_max /\
    is_duplicate same_bucket (h (length keys)) (fa_public_key o) keys = false /\
    check_finalizers h l ((h (length keys), fa_public_key o) :: keys) (w + f_weight f)
      = Ok (sum, rest) /\ r = (sum, o :: rest).
Proof.
  intros Hw Hf. cbn [check_finalizers]. unfold max_finalizer_description_size, insert_key. split.
  - intros H. apply bind_Ok in H as (? & H1%check_Ok%Z.leb_le & H).
    apply bind_Ok in H as (? & H2%check_Ok & H). apply bind_Ok in H as (? & H3%check_Ok & H).
    apply bind_Ok in H as (? & H4%check_Ok%Z.leb_le & H). apply bind_Ok in H as (pk & H5 & H).
    apply bind_Ok in H as (keys' & H6%get_or_Ok & H). apply bind_Ok in H as (s & H7 & H).
    apply bind_Ok in H as (? & H8%check_Ok & H). apply bind_Ok in H as ([sum rest] & H9 & [= <-]).
    destruct (is_duplicate _ _ _ _) eqn:Hk; [done|]. injection H6 as <-.
    rewrite u64_id in H9 by (unfold_ints; lia).
    exists (Cdt.FinalizerAuthority (f_description f) (f_weight f) pk), sum, rest.
    split_and!; try done; [|lia]. split_and!; try done. by exists s.
  - intros ([d wt pk] & sum & rest & (H1 & H2 & H3 & H5 & (s & H7 & H8) & [= -> ->]) & H4 & Hk & H9 & ->).
    simpl in *. rewrite (proj2 (Z.leb_le _ _) H1), H2, H3.
    rewrite (proj2 (Z.leb_le (f_weight f) _)) by lia. cbn [check mbind result_bind].
    rewrite H5. cbn [mbind result_bind]. rewrite Hk.
    cbn [get_or mbind result_bind]. rewrite H7. cbn [mbind result_bind]. rewrite H8.
    cbn [check mbind result_bind]. rewrite u64_id by (unfold_ints; lia).
    rewrite H9. done.
Qed.

Lemma check_finalizers_weights h l : forall keys w sum out,
  is_u64 w -> Forall (fun f => is_u64 (f_weight f)) l ->
  check_finalizers h l keys w = Ok (sum, out) ->
  Forall2 finalizer_ok l out /\ sum = w + total_weight out /\ sum <= uint64_max /\
  Forall (fun o => 0 <= fa_weight o) out.
Proof.
  induction l as [|f l IH]; intros keys w sum out Hw Hl H.
  { injection H as <- <-. simpl. unfold_ints. split_and!; [done|lia|lia|done]. }
  apply Forall_cons in Hl as [Hf Hl].
  apply check_finalizers_cons in H as (o & sum' & rest & Ho & Hle & _ & H & [= -> ->]); [|done..].
  destruct (IH _ (w + f_weight f) _ _ ltac:(unfold_ints; lia) Hl H) as (H1 & H2 & H3 & H4).
  destruct o as [d wt pk]. destruct Ho as (? & ? & ? & ? & ? & [= -> ->]). simpl in *.
  split_and!; [constructor; [|done]|lia|lia|constructor; [unfold_ints; simpl; lia|done]].
  by split_and!.
Qed.

Lemma duplicate_one_hash h pk keys :
  is_duplicate same_bucket h pk (pair h <$> keys) = false <-> pk ∉ keys.
Proof.
  unfold is_duplicate. rewrite <- not_true_iff_false, existsb_exists. split.
  - intros H Hin. apply H. exists (h, pk). split; [by apply list_elem_of_In, list_elem_of_fmap_2|].
    by rewrite Z.eqb_refl, bool_decide_eq_true_2.
  - intros Hn ([h' k] & Hin%list_elem_of_In & [_ ->%bool_decide_eq_true]%andb_true_iff).
    apply list_elem_of_fmap in Hin as (k' & [= _ ->] & Hk). done.
Qed.

(** With one hash for every iteration the keys of the set are those taken so far. *)
Lemma check_finalizers_spec h l : forall keys w sum out,
  is_u64 w -> Forall (fun f => is_u64 (f_weight f)) l ->
  check_finalizers (fun _ => h) l (pair h <$> keys) w = Ok (sum, out) <->
  Forall2 finalizer_ok l out /\ sum = w + total_weight out /\ sum <= uint64_max /\
  NoDup (fa_public_key <$> out) /\ (forall k, k ∈ fa_public_key <$> out -> k ∉ keys).
Proof.
  induction l as [|f l IH]; intros keys w sum out Hw Hl.
  { simpl. split.
    - intros [= <- <-]. simpl. unfold_ints. split_and!; [done|lia|lia|constructor|set_solver].
    - intros (->%Forall2_nil_inv_l & -> & _). simpl. by rewrite Z.add_0_r. }
  apply Forall_cons in Hl as [Hf Hl]. rewrite check_finalizers_cons by done. split.
  - intros (o & sum' & rest & Ho & Hle & Hk & H & [= -> ->]). apply duplicate_one_hash in Hk.
    change ((h, fa_public_key o) :: (pair h <$> keys)) with (pair h <$> (fa_public_key o :: keys)) in H.
    apply IH in H as (H1 & H2 & H3 & H4 & H5); [|unfold_ints; lia|done].
    pose proof Ho as (_ & _ & _ & _ & _ & Eo).
    assert (fa_weight o = f_weight f) by (by rewrite Eo). simpl.
    split_and!; [by constructor|lia|lia| |].
    + constructor; [|done]. intros Hi. apply (H5 _ Hi). by left.
    + intros k [->|Hi]%elem_of_cons; [done|]. intros Hkk. apply (H5 _ Hi). by right.
  - intros (H1 & H2 & H3 & H4 & H5). apply Forall2_cons_inv_l in H1 as (o & rest & Ho & H1 & ->).
    pose proof Ho as (_ & _ & _ & _ & _ & Eo).
    assert (Ew : fa_weight o = f_weight f) by (by rewrite Eo).
    simpl in *. apply NoDup_cons in H4 as [Hn H4].
    assert (Hpos : 0 <= total_weight rest).
    { clear -H1 Hl. induction H1 as [|x y l rest Hx Hr IH]; simpl; [lia|].
      apply Forall_cons in Hl as [Hw Hl]. destruct Hx as (_ & _ & _ & _ & _ & ->). simpl.
      specialize (IH Hl). unfold_ints. lia. }
    exists o, sum, rest. rewrite duplicate_one_hash. split_and!; [done|lia|apply H5; by left| |done].
    change ((h, fa_public_key o) :: (pair h <$> keys)) with (pair h <$> (fa_public_key o :: keys)).
    apply IH; [unfold_ints; lia|done|]. split_and!; [done|lia|lia|done|].
    intros k Hk [->|Hi]%elem_of_cons; [done|]. eapply H5; [by right|done].
Qed.

(** C24 (finalizer policies of flon.bios).  When the hash of the loop variable's address is the same
    in every iteration, [setfinalizer] succeeds exactly for a policy of 1 to 65536
    finalizers with short descriptions, whose keys and proofs decode and verify, whose
    keys are all different, whose weights sum to a 64-bit number, and whose threshold is
    more than half of that sum and at most all of it; it hands this policy to the host. *)
Theorem setfinalizer_exact c h policy es :
  Forall (fun f => is_u64 (f_weight f)) (p_finalizers policy) ->
  setfinalizer c (fun _ => h) policy = Ok es <->
  has_auth c (get_self c) = true /\ (1 <= length (p_finalizers policy))%nat /\
  Z.of_nat (length (p_finalizers policy)) <= 65536 /\
  exists out, Forall2 finalizer_ok (p_finalizers policy) out /\
    NoDup (fa_public_key <$> out) /\ total_weight out <= uint64_max /\
    total_weight out < 2 * p_threshold policy /\ p_threshold policy <= total_weight out /\
    es = [SetFinalizers (p_threshold policy) out].
Proof.
  intros Hl. unfold setfinalizer, require_auth, max_finalizers. cbn zeta.
  assert (Hhalf : forall t w, w / 2 < t <-> w < 2 * t).
  { intros t w. pose proof (Z.div_mod w 2 ltac:(lia)). pose proof (Z.mod_pos_bound w 2 ltac:(lia)). lia. }
  split.
  - intros H. apply bind_Ok in H as (? & H1%check_Ok & H). apply bind_Ok in H as (? & H2%check_Ok%Z.leb_le & H).
    apply bind_Ok in H as (? & H3%check_Ok%Z.ltb_lt & H). apply bind_Ok in H as ([sum out] & H4 & H).
    apply bind_Ok in H as (? & [H5%Z.leb_le H6%Z.ltb_lt%Hhalf]%check_Ok%andb_true_iff & [= <-]).
    apply (check_finalizers_spec h _ [] 0) in H4 as (A1 & -> & A2 & A3 & _); [|unfold_ints; lia|done].
    rewrite Z.add_0_l in *. split_and!; [done|lia|lia|]. by exists out.
  - intros (H1 & H2 & H3 & out & A1 & A2 & A3 & A4 & A5 & ->). rewrite H1.
    rewrite (proj2 (Z.leb_le _ _)) by lia. rewrite (proj2 (Z.ltb_lt _ _)) by lia.
    cbn [check mbind result_bind].
    assert (E : check_finalizers (fun _ => h) (p_finalizers policy) [] 0 = Ok (total_weight out, out)).
    { apply (check_finalizers_spec h _ [] 0); [unfold_ints; lia|done|].
      split_and!; [done|lia|done|done|set_solver]. }
    rewrite E. cbn [mbind result_bind]. apply Hhalf in A4.
    by rewrite (proj2 (Z.leb_le _ _) A5), (proj2 (Z.ltb_lt _ _) A4).
Qed.

(** Quorums intersect.  Whatever addresses the loop sees, two sets of finalizers of a policy that
    [setfinalizer] handed to the host that both reach its threshold have a finalizer in
    common, so two conflicting decisions need one that signs both. *)
Theorem quorums_intersect c h policy thr out P Q :
  Forall (fun f => is_u64 (f_weight f)) (p_finalizers policy) ->
  setfinalizer c h policy = Ok [SetFinalizers thr out] ->
  thr <= weight_at P 0 out -> thr <= weight_at Q 0 out ->
  exists i f, out !! i = Some f /\ P i = true /\ Q i = true.
Proof.
  intros Hl H HP HQ. unfold setfinalizer in H. cbn zeta in H.
  apply bind_Ok in H as (? & _ & H). apply bind_Ok in H as (? & _ & H).
  apply bind_Ok in H as (? & _ & H). apply bind_Ok in H as ([sum out'] & Hc & H).
  apply bind_Ok in H as (? & [_ H6%Z.ltb_lt]%check_Ok%andb_true_iff & [= <- <-]).
  apply check_finalizers_weights in Hc as (_ & -> & _ & Hw); [|unfold_ints; lia|done].
  destruct (existsb (fun j => P j && Q j) (seq 0 (length out'))) eqn:E.
  - apply existsb_exists in E as (j & Hj%in_seq & [? ?]%andb_true_iff).
    destruct (lookup_lt_is_Some_2 out' j) as [f Hf]; [lia|]. by exists j, f.
  - exfalso. pose proof (weight_at_disjoint P Q out' 0 Hw) as Hd.
    pose proof (Z.div_mod (0 + total_weight out') 2 ltac:(lia)).
    pose proof (Z.mod_pos_bound (0 + total_weight out') 2 ltac:(lia)).
    enough (weight_at P 0 out' + weight_at Q 0 out' <= total_weight out') by lia.
    apply Hd. intros j Hj. apply not_true_iff_false. intros Hpq.
    apply not_true_iff_false in E. apply E, existsb_exists. exists j.
    split; [apply in_seq; lia|done].
Qed.

(** A key may be listed twice.  The set of keys is hashed by address: a policy of one
    finalizer that passes is also accepted with this finalizer listed twice, when the hashes of the addresses of
    the loop's variable in the two iterations fall into different buckets; in one bucket it is refused. *)
Theorem duplicate_key_accepted c h f thr out :
  is_u64 (f_weight f) -> 2 * f_weight f <= uint64_max -> 0 < f_weight f ->
  setfinalizer c h (FinalizerPolicy thr [f]) = Ok [SetFinalizers thr out] ->
  let twice := FinalizerPolicy (2 * f_weight f) [f; f] in
  if (h 0%nat =? h 1%nat) || same_bucket 1 (h 0%nat) (h 1%nat) then is_ok (setfinalizer c h twice) = false
  else setfinalizer c h twice = Ok [SetFinalizers (2 * f_weight f) (out ++ out)].
Proof.
  intros Hf Hmax Hpos H twice. unfold setfinalizer in H. cbn zeta in H.
  apply bind_Ok in H as (? & H1 & H). apply bind_Ok in H as (? & _ & H).
  apply bind_Ok in H as (? & _ & H). apply bind_Ok in H as ([sum out'] & Hc & H).
  apply bind_Ok in H as (? & _ & [= <-]). cbn [p_finalizers] in Hc.
  apply check_finalizers_cons in Hc as (o & s & rest & Ho & _ & _ & [= <- <-] & [= -> ->]);
    [|unfold_ints; lia|done].
  pose proof Ho as (_ & _ & _ & _ & _ & Eo).
  assert (Hstep : forall r, check_finalizers h [f; f] [] 0 = Ok r <->
    (h 0%nat =? h 1%nat) || same_bucket 1 (h 0%nat) (h 1%nat) = false /\ r = (2 * f_weight f, [o; o])).
  { intros r. rewrite check_finalizers_cons by (done || (unfold_ints; lia)). split.
    - intros (o1 & s1 & r1 & Ho1 & _ & _ & H & ->).
      apply check_finalizers_cons in H as (o2 & s2 & r2 & Ho2 & _ & Hin & [= <- <-] & [= -> ->]);
        [|unfold_ints; lia|done].
      assert (Hsame : forall o', finalizer_ok f o' -> o' = o).
      { intros o' (_ & _ & _ & Hd & _ & ->). destruct Ho as (_ & _ & _ & Hd' & _ & ->). simpl in *. congruence. }
      rewrite (Hsame _ Ho1), (Hsame _ Ho2) in *. simpl in Hin. split; [|f_equal; lia].
      unfold is_duplicate in Hin. simpl in Hin. by rewrite bool_decide_eq_true_2, andb_true_r, orb_false_r in Hin.
    - intros [Hh ->]. exists o, (2 * f_weight f), [o]. split_and!; [done|lia|done| |done].
      apply check_finalizers_cons; [unfold_ints; lia|done|].
      exists o, (2 * f_weight f), []. split_and!; [done|lia| | |done].
      { unfold is_duplicate. simpl. by rewrite bool_decide_eq_true_2, andb_true_r, orb_false_r. }
      simpl. do 2 f_equal. lia. }
  unfold setfinalizer, twice. cbn [p_finalizers p_threshold length]. rewrite H1.
  cbn [mbind result_bind]. change (Z.of_nat 2 <=? max_finalizers) with true.
  change (0 <? Z.of_nat 2) with true. cbn [check mbind result_bind].
  destruct (_ || _) eqn:E.
  - destruct (check_finalizers h [f; f] [] 0) as [r|] eqn:Ec; [|done].
    by destruct (proj1 (Hstep r) eq_refl).
  - rewrite (proj2 (Hstep (2 * f_weight f, [o; o]))) by auto. cbn [mbind result_bind].
    rewrite Z.leb_refl. rewrite (proj2 (Z.ltb_lt (2 * f_weight f / 2) _)); [done|].
    rewrite Z.mul_comm, Z.div_mul by lia. lia.
Qed.

(** Flon.wrap.  [exec] succeeds exactly when the contract's account and the executer
    signed and the data is an executer and a transaction without context-free actions; it
    sends the transaction's actions as they are, in order, and nothing else. *)
Theorem wrap_exec_exact c data es :
  wrap_exec c data = Ok es <->
  has_auth c (get_self c) = true /\
  exists executer packed h acts,
    read_name data = Ok (executer, packed) /\ has_auth c executer = true /\
    read_transaction packed = Ok (h, [], acts) /\ es = Send <$> acts.
Proof.
  unfold wrap_exec, read_transaction, require_auth. split.
  - intros H. apply bind_Ok in H as (? & H1%check_Ok & H). apply bind_Ok in H as ([ex ds] & H2 & H).
    apply bind_Ok in H as (? & H3%check_Ok & H). apply bind_Ok in H as ([h ds1] & H4 & H).
    apply bind_Ok in H as ([cfa ds2] & H5 & H). apply bind_Ok in H as (? & H6%check_Ok%vec_empty_spec & H).
    apply bind_Ok in H as ([acts ds3] & H7 & [= <-]). subst cfa. split; [done|].
    exists ex, ds, h, acts. rewrite H4. cbn [mbind result_bind]. rewrite H5. cbn [mbind result_bind].
    by rewrite H7.
  - intros (H1 & ex & ds & h & acts & H2 & H3 & H4 & ->). rewrite H1, H2. cbn [check mbind result_bind].
    rewrite H3. cbn [check mbind result_bind].
    apply bind_Ok in H4 as ([h' ds1] & H4 & H). apply bind_Ok in H as ([cfa ds2] & H5 & H).
    apply bind_Ok in H as ([acts' ds3] & H7 & [= -> -> ->]).
    rewrite H4. cbn [mbind result_bind]. rewrite H5. cbn [check vec_empty mbind result_bind]. by rewrite H7.
Qed.
End properties.

(** ** Examples *)

#[local] Existing Instance Finalizer.ref_bls.
(** Eight buckets *)
Definition mod_bucket (n : nat) (h h' : Z) : bool := h mod 8 =? h' mod 8.
Definition ex_finalizer (key : string) (w : Z) : finalizer_authority :=
  FinalizerAuthority "node" w (String.append "PUB_BLS_" key) "SIG_BLS_1".
Definition ex_policy : finalizer_policy :=
  FinalizerPolicy 4 [ex_finalizer "a" 3; ex_finalizer "b" 2; ex_finalizer "c" 1].
Lemma ex_weights : Forall (fun f => is_u64 (f_weight f)) (p_finalizers ex_policy).
Proof. repeat constructor; unfold_ints; simpl; lia. Qed.

Lemma setfinalizer_exact_witness :
  exists out, setfinalizer mod_bucket (ref_ctx 1 0) (fun _ => 7) ex_policy = Ok [SetFinalizers 4 out] /\
    total_weight out = 6 /\ NoDup (fa_public_key <$> out).
Proof.
  destruct (setfinalizer mod_bucket (ref_ctx 1 0) (fun _ => 7) ex_policy) as [es|] eqn:E;
    [|vm_compute in E; discriminate].
  destruct (proj1 (setfinalizer_exact _ _ _ _ _ ex_weights) E) as (_ & _ & _ & out & _ & Hnd & _ & _ & _ & ->).
  exists out. split; [done|]. split; [|exact Hnd].
  vm_compute in E. injection E as <-. reflexivity.
Defined.

Lemma quorums_intersect_witness :
  exists out i f, setfinalizer mod_bucket (ref_ctx 1 0) (fun n => Z.of_nat n) ex_policy = Ok [SetFinalizers 4 out] /\
    out !! i = Some f /\ (i =? 2)%nat = false /\ (i =? 1)%nat = false.
Proof.
  destruct (setfinalizer mod_bucket (ref_ctx 1 0) (fun n => Z.of_nat n) ex_policy) as [es|] eqn:E;
    [|vm_compute in E; discriminate].
  assert (exists out, es = [SetFinalizers 4 out]) as [out ->]
    by (vm_compute in E; injection E as <-; by eexists).
  destruct (quorums_intersect _ _ _ _ _ _ (fun i => negb (i =? 2)%nat) (fun i => negb (i =? 1)%nat) ex_weights E)
    as (i & f & Hf & H1 & H2).
  - vm_compute in E. injection E as <-. vm_compute. discriminate.
  - vm_compute in E. injection E as <-. vm_compute. discriminate.
  - exists out, i, f. apply negb_true_iff in H1, H2. by split_and!.
Defined.

Lemma duplicate_key_accepted_witness :
  exists out, setfinalizer mod_bucket (ref_ctx 1 0) (fun n => Z.of_nat n)
    (FinalizerPolicy 10 [ex_finalizer "a" 5; ex_finalizer "a" 5]) = Ok [SetFinalizers 10 (out ++ out)].
Proof.
  destruct (setfinalizer mod_bucket (ref_ctx 1 0) (fun n => Z.of_nat n) (FinalizerPolicy 5 [ex_finalizer "a" 5]))
    as [es|] eqn:E; [|vm_compute in E; discriminate].
  assert (exists out, es = [SetFinalizers 5 out]) as [out ->]
    by (vm_compute in E; injection E as <-; by eexists).
  exists out. apply (duplicate_key_accepted mod_bucket (ref_ctx 1 0) (fun n => Z.of_nat n) (ex_finalizer "a" 5) 5 out);
    [unfold_ints; simpl; lia..|simpl; lia|exact E].
Defined.
