(* ===== verification/Safe.v ===== *)
(** * pubkey.token: checked integers

    [contracts/pubkey.token/include/safe.hpp]: the template [safe<T>], whose operators abort
    instead of wrapping around.  [T] is a built-in two's complement or unsigned type of 32 to 64
    bits (narrower ones are promoted to [int], and the header rules 128 bits out); the
    contract uses [safe<int64_t>]. *)
From S2P Require Import Prelude.
From Stdlib Require Import ZArith Lia String.
From stdpp Require Import base tactics numbers.
Open Scope Z_scope.

(** ** The integer types *)

Inductive int_type : Type := Signed (w : Z) | Unsigned (w : Z).
Definition int64_t : int_type := Signed 64.

(** [std::numeric_limits<T>::min()] and [max()] *)
Definition min (T : int_type) : Z := match T with Signed w => - 2 ^ (w - 1) | Unsigned _ => 0 end.
Definition max (T : int_type) : Z :=
  match T with Signed w => 2 ^ (w - 1) - 1 | Unsigned w => 2 ^ w - 1 end.
(** Conversion to [T], and the result of an operation on [T]s *)
Definition conv (T : int_type) (z : Z) : Z :=
  match T with Signed w => wrap_s w z | Unsigned w => wrap_u w z end.

Definition has_type (T : int_type) (z : Z) : Prop := min T <= z <= max T.
Definition type_ok (T : int_type) : Prop := match T with Signed w | Unsigned w => 32 <= w <= 64 end.

(** ** The operators, on the [value] members *)

Section safe.
Context (T : int_type).

Definition add (a b : Z) : result Z :=
  ensure negb ((0 <? b) && (conv T (max T - b) <? a)) else "overflow_exception, (a)(b)";
  ensure negb ((b <? 0) && (a <? conv T (min T - b))) else "underflow_exception, (a)(b)";
  mret (conv T (a + b)).

Definition sub (a b : Z) : result Z :=
  ensure negb ((0 <? b) && (a <? conv T (min T + b))) else "underflow_exception, (a)(b)";
  ensure negb ((b <? 0) && (conv T (max T + b) <? a)) else "overflow_exception, (a)(b)";
  mret (conv T (a - b)).

Definition mul (a b : Z) : result Z :=
  _ ← (if 0 <? a then
         if 0 <? b then
           check (negb (conv T (Z.quot (max T) b) <? a)) "overflow_exception, (a)(b)"
         else check (negb (b <? conv T (Z.quot (min T) a))) "underflow_exception, (a)(b)"
       else
         if 0 <? b then
           check (negb (a <? conv T (Z.quot (min T) b))) "underflow_exception, (a)(b)"
         else check (negb (negb (a =? 0) && (b <? conv T (Z.quot (max T) a))))
                "overflow_exception, (a)(b)");
  mret (conv T (a * b)).

Definition div (a b : Z) : result Z :=
  ensure negb (b =? 0) else "divide_by_zero_exception, (a)(b)";
  ensure negb ((a =? min T) && (b =? conv T (-1))) else "overflow_exception, (a)(b)";
  mret (conv T (Z.quot a b)).

Definition rem (a b : Z) : result Z :=
  ensure negb (b =? 0) else "divide_by_zero_exception, (a)(b)";
  ensure negb ((a =? min T) && (b =? conv T (-1))) else "overflow_exception, (a)(b)";
  mret (conv T (Z.rem a b)).

Definition neg (a : Z) : result Z :=
  ensure negb (a =? min T) else ("overflow_exception, (" ++ "*this)")%string;
  mret (conv T (- a)).

(** [++x] and [--x]; [x++] and [x--] return the old value *)
Definition incr (a : Z) : result Z := add a 1.
Definition decr (a : Z) : result Z := sub a 1.
Definition post_incr (a : Z) : result (Z * Z) := a' ← incr a; mret (a, a').
Definition post_decr (a : Z) : result (Z * Z) := a' ← decr a; mret (a, a').

Definition eqb (a b : Z) : bool := a =? b.
Definition ltb (a b : Z) : bool := a <? b.
Definition gtb (a b : Z) : bool := b <? a.
Definition neqb (a b : Z) : bool := negb (eqb a b).
Definition leb (a b : Z) : bool := negb (gtb a b).
Definition geb (a b : Z) : bool := negb (ltb a b).

(** ** They compute exactly, or abort *)

Lemma conv_id z : type_ok T -> has_type T z -> conv T z = z.
Proof.
  unfold conv, has_type, min, max. destruct T as [w|w]; simpl; intros Hw Hz.
  - apply wrap_s_id; lia.
  - apply Z.mod_small. lia.
Qed.

Lemma type_bounds : type_ok T -> min T <= 0 /\ 2 ^ 31 - 1 <= max T /\ - max T - 1 <= min T.
Proof.
  unfold min, max. destruct T as [w|w]; simpl; intros Hw.
  - pose proof (Z.pow_le_mono_r 2 31 (w - 1) ltac:(lia) ltac:(lia)). lia.
  - pose proof (Z.pow_le_mono_r 2 32 w ltac:(lia) ltac:(lia)).
    assert (2 ^ 31 <= 2 ^ 32) by (apply Z.pow_le_mono_r; lia). lia.
Qed.

Lemma quot_pos m b a : 0 < b -> 0 <= m -> Z.quot m b < a <-> m < a * b.
Proof.
  intros Hb Hm. rewrite Z.quot_div_nonneg by lia.
  split; intros H; [|apply Z.div_lt_upper_bound; lia].
  apply Z.lt_nge. intros Hle. assert (a <= m / b) by (apply Z.div_le_lower_bound; lia). lia.
Qed.

Lemma quot_neg m b a : 0 < b -> m <= 0 -> a < Z.quot m b <-> a * b < m.
Proof.
  intros Hb Hm. pose proof (quot_pos (- m) b (- a) Hb ltac:(lia)) as H.
  rewrite Z.quot_opp_l in H by lia. split; intros; lia.
Qed.

(** The limit divided by a number stays in the type. *)
Lemma quot_limit m a : 0 <= m -> a <> 0 -> - m <= Z.quot m a <= m.
Proof.
  intros Hm Ha. assert (Hpos : forall c, 0 < c -> 0 <= Z.quot m c <= m).
  { intros c Hc. split; [by apply Z.quot_pos|].
    rewrite Z.quot_div_nonneg by lia. apply Z.div_le_upper_bound; [lia|]. nia. }
  destruct (decide (0 < a)); [specialize (Hpos a ltac:(lia)); lia|].
  specialize (Hpos (- a) ltac:(lia)). rewrite Z.quot_opp_r in Hpos by lia. lia.
Qed.

Context (HT : type_ok T).

Lemma add_exact a b r :
  has_type T a -> has_type T b -> add a b = Ok r <-> has_type T (a + b) /\ r = a + b.
Proof.
  intros Ha Hb. pose proof (type_bounds HT) as (B1 & B2 & B3). unfold has_type in *. unfold add.
  destruct (Z.ltb_spec 0 b); destruct (Z.ltb_spec b 0); try lia; cbn [andb negb].
  - rewrite (conv_id (max T - b)) by (done || (unfold has_type; lia)).
    destruct (Z.ltb_spec (max T - b) a); cbn [negb check mbind result_bind].
    + split; [done|lia].
    + rewrite (conv_id (a + b)) by (done || (unfold has_type; lia)). unfold mret, result_ret.
      split; [intros [= <-]; lia|by intros [_ ->]].
  - rewrite (conv_id (min T - b)) by (done || (unfold has_type; lia)).
    destruct (Z.ltb_spec a (min T - b)); cbn [negb check mbind result_bind].
    + split; [done|lia].
    + rewrite (conv_id (a + b)) by (done || (unfold has_type; lia)). unfold mret, result_ret.
      split; [intros [= <-]; lia|by intros [_ ->]].
  - cbn [check mbind result_bind]. rewrite (conv_id (a + b)) by (done || (unfold has_type; lia)).
    unfold mret, result_ret. split; [intros [= <-]; lia|by intros [_ ->]].
Qed.

Lemma sub_exact a b r :
  has_type T a -> has_type T b -> sub a b = Ok r <-> has_type T (a - b) /\ r = a - b.
Proof.
  intros Ha Hb. pose proof (type_bounds HT) as (B1 & B2 & B3). unfold has_type in *. unfold sub.
  destruct (Z.ltb_spec 0 b); destruct (Z.ltb_spec b 0); try lia; cbn [andb negb].
  - rewrite (conv_id (min T + b)) by (done || (unfold has_type; lia)).
    destruct (Z.ltb_spec a (min T + b)); cbn [negb check mbind result_bind].
    + split; [done|lia].
    + rewrite (conv_id (a - b)) by (done || (unfold has_type; lia)). unfold mret, result_ret.
      split; [intros [= <-]; lia|by intros [_ ->]].
  - rewrite (conv_id (max T + b)) by (done || (unfold has_type; lia)).
    destruct (Z.ltb_spec (max T + b) a); cbn [negb check mbind result_bind].
    + split; [done|lia].
    + rewrite (conv_id (a - b)) by (done || (unfold has_type; lia)). unfold mret, result_ret.
      split; [intros [= <-]; lia|by intros [_ ->]].
  - cbn [check mbind result_bind]. rewrite (conv_id (a - b)) by (done || (unfold has_type; lia)).
    unfold mret, result_ret. split; [intros [= <-]; lia|by intros [_ ->]].
Qed.

(** The guard of a multiplication, and its result *)
Lemma mul_guard (guard : bool) msg a b r :
  (guard = true <-> has_type T (a * b)) ->
  (_ ← check guard msg; mret (conv T (a * b))) = Ok r <-> has_type T (a * b) /\ r = a * b.
Proof.
  intros E. destruct guard; cbn [check mbind result_bind].
  - assert (H : has_type T (a * b)) by tauto. rewrite conv_id by done.
    unfold mret, result_ret. split; [by intros [= <-]|by intros [_ ->]].
  - split; [done|]. intros [H _]. apply E in H. done.
Qed.

Lemma mul_exact a b r :
  has_type T a -> has_type T b -> mul a b = Ok r <-> has_type T (a * b) /\ r = a * b.
Proof.
  intros Ha Hb. pose proof (type_bounds HT) as (B1 & B2 & B3). unfold has_type in Ha, Hb. unfold mul.
  destruct (Z.ltb_spec 0 a) as [Pa|Pa]; destruct (Z.ltb_spec 0 b) as [Pb|Pb];
    apply mul_guard; rewrite negb_true_iff; unfold has_type.
  - pose proof (quot_limit (max T) b ltac:(lia) ltac:(lia)).
    pose proof (Z.quot_pos (max T) b ltac:(lia) ltac:(lia)).
    rewrite (conv_id (Z.quot (max T) b)) by (done || (unfold has_type; lia)). rewrite Z.ltb_ge, Z.le_ngt, quot_pos by lia. nia.
  - assert (Z.quot (min T) a <= 0 /\ min T <= Z.quot (min T) a).
    { pose proof (quot_limit (- min T) a ltac:(lia) ltac:(lia)).
      pose proof (Z.quot_pos (- min T) a ltac:(lia) ltac:(lia)). rewrite Z.quot_opp_l in * by lia. lia. }
    rewrite (conv_id (Z.quot (min T) a)) by (done || (unfold has_type; lia)). rewrite Z.ltb_ge, Z.le_ngt, quot_neg by lia. nia.
  - assert (Z.quot (min T) b <= 0 /\ min T <= Z.quot (min T) b).
    { pose proof (quot_limit (- min T) b ltac:(lia) ltac:(lia)).
      pose proof (Z.quot_pos (- min T) b ltac:(lia) ltac:(lia)). rewrite Z.quot_opp_l in * by lia. lia. }
    rewrite (conv_id (Z.quot (min T) b)) by (done || (unfold has_type; lia)). rewrite Z.ltb_ge, Z.le_ngt, quot_neg by lia. nia.
  - destruct (Z.eqb_spec a 0) as [->|Na]; cbn [negb andb]; [split; [lia|done]|].
    assert (Hs : max T <= - min T) by (destruct T; simpl in *; lia).
    pose proof (quot_limit (max T) a ltac:(lia) ltac:(lia)).
    rewrite (conv_id (Z.quot (max T) a)) by (done || (unfold has_type; lia)).
    assert (E : b < Z.quot (max T) a <-> max T < a * b).
    { pose proof (quot_pos (max T) (- a) (- b) ltac:(lia) ltac:(lia)) as E.
      rewrite Z.quot_opp_r in E by lia. split; intros; lia. }
    rewrite Z.ltb_ge, Z.le_ngt, E. nia.
Qed.

(** A quotient is out of range only for the least number of a signed type and -1. *)
Lemma quot_fits a b :
  has_type T a -> has_type T b -> b <> 0 ->
  has_type T (Z.quot a b) <-> ~ (a = - max T - 1 /\ b = -1).
Proof.
  intros Ha Hb Hn. pose proof (type_bounds HT) as (B1 & B2 & B3). unfold has_type in *.
  assert (Habs : Z.abs (Z.quot a b) <= Z.abs a).
  { rewrite <- Z.quot_abs by done. rewrite Z.quot_div_nonneg by lia.
    apply Z.div_le_upper_bound; [lia|]. nia. }
  destruct T as [w|w]; simpl in *.
  - assert (Hpos : a = - 2 ^ (w - 1) -> b <> -1 -> Z.quot a b < 2 ^ (w - 1)).
    { intros -> Hb1. destruct (decide (b = 1)) as [->|]; [rewrite Z.quot_1_r; lia|].
      assert (E : Z.abs (Z.quot (- 2 ^ (w - 1)) b) <= 2 ^ (w - 1) / 2); [|].
      { rewrite <- Z.quot_abs by done. rewrite Z.quot_div_nonneg by lia.
        replace (Z.abs (- 2 ^ (w - 1))) with (2 ^ (w - 1)) by lia.
        apply Z.div_le_compat_l; lia. }
      pose proof (Z.div_mod (2 ^ (w - 1)) 2 ltac:(lia)).
      pose proof (Z.mod_pos_bound (2 ^ (w - 1)) 2 ltac:(lia)). lia. }
    split.
    + intros H [-> ->]. rewrite (Z.quot_opp_r _ 1), Z.quot_1_r in H by lia. lia.
    + intros H. destruct (decide (a = - 2 ^ (w - 1))) as [E|E]; [|lia].
      specialize (Hpos E ltac:(lia)). lia.
  - pose proof (Z.quot_pos a b ltac:(lia) ltac:(lia)). split; [intros _ [_ ->]; lia|lia].
Qed.

Lemma div_rem_guard a b :
  has_type T a -> has_type T b ->
  negb ((a =? min T) && (b =? conv T (-1))) = true <->
  match T with
  | Signed _ => ~ (a = - max T - 1 /\ b = -1)
  | Unsigned _ => ~ (a = 0 /\ b = max T)
  end.
Proof.
  intros Ha Hb. rewrite negb_true_iff, andb_false_iff, !Z.eqb_neq.
  assert (E : conv T (-1) = match T with Signed _ => -1 | Unsigned _ => max T end).
  { destruct T as [w|w] eqn:ET; simpl in *.
    - pose proof (Z.pow_pos_nonneg 2 (w - 1) ltac:(lia) ltac:(lia)). apply wrap_s_id; lia.
    - unfold wrap_u. pose proof (Z.pow_pos_nonneg 2 w ltac:(lia) ltac:(lia)).
      symmetry. apply (Z.mod_unique _ _ (-1)); lia. }
  rewrite E. destruct T; simpl; lia.
Qed.

Lemma rem_type a b : has_type T a -> has_type T b -> b <> 0 -> has_type T (Z.rem a b).
Proof.
  intros Ha Hb Hn. pose proof (type_bounds HT). unfold has_type in *.
  assert (Habs : Z.abs (Z.rem a b) <= Z.abs a).
  { rewrite <- Z.rem_abs by done. apply Z.rem_le; lia. }
  destruct (decide (0 <= a)) as [Hp|Hp].
  - pose proof (Z.rem_nonneg a b Hn Hp). lia.
  - pose proof (Z.rem_nonpos a b Hn ltac:(lia)). lia.
Qed.

Lemma quot_type a b :
  has_type T a -> has_type T b -> b <> 0 ->
  match T with
  | Signed _ => ~ (a = - max T - 1 /\ b = -1)
  | Unsigned _ => ~ (a = 0 /\ b = max T)
  end -> has_type T (Z.quot a b).
Proof.
  intros Ha Hb Hn H. apply quot_fits; [done..|]. destruct T; [done|].
  unfold has_type in Hb. simpl in *. intros [_ ->]. lia.
Qed.

(** What [/] and [%] share: the guards, then a result that fits *)
Lemma div_rem_exact a b v r :
  has_type T a -> has_type T b ->
  let fits := match T with
    | Signed _ => ~ (a = - max T - 1 /\ b = -1)
    | Unsigned _ => ~ (a = 0 /\ b = max T)
    end in
  (b <> 0 -> fits -> has_type T v) ->
  (ensure negb (b =? 0) else "divide_by_zero_exception, (a)(b)";
   ensure negb ((a =? min T) && (b =? conv T (-1))) else "overflow_exception, (a)(b)";
   mret (conv T v)) = Ok r <-> b <> 0 /\ fits /\ r = v.
Proof.
  intros Ha Hb fits Hv. pose proof (div_rem_guard a b Ha Hb) as Hg. fold fits in Hg.
  destruct (Z.eqb_spec b 0) as [->|Hn]; cbn [negb check mbind result_bind]; [split; [done|lia]|].
  destruct (negb ((a =? min T) && _)); cbn [check mbind result_bind].
  - assert (Hf : fits) by tauto. rewrite conv_id by auto. unfold mret, result_ret.
    split; [by intros [= <-]|by intros (_ & _ & ->)].
  - split; [done|]. intros (_ & Hf & _). apply Hg in Hf. done.
Qed.

Lemma neg_exact a r :
  has_type T a ->
  match T with
  | Signed _ => neg a = Ok r <-> has_type T (- a) /\ r = - a
  | Unsigned _ => neg a = Ok r <-> a <> 0 /\ r = max T + 1 - a
  end.
Proof.
  intros Ha. pose proof (type_bounds HT) as (B1 & B2 & B3). unfold neg, has_type in *.
  destruct T as [w|w]; simpl in *.
  - destruct (Z.eqb_spec a (- 2 ^ (w - 1))) as [E|E]; cbn [negb check mbind result_bind].
    + split; [done|lia].
    + rewrite wrap_s_id by lia. unfold mret, result_ret. split; [intros [= <-]; lia|by intros [_ ->]].
  - destruct (Z.eqb_spec a 0) as [->|E]; cbn [negb check mbind result_bind]; [split; [done|lia]|].
    unfold mret, result_ret, wrap_u.
    rewrite <- (Z.mod_unique (- a) (2 ^ w) (-1) (2 ^ w - a)) by lia.
    split; [intros [= <-]; lia|intros [_ ->]; f_equal; lia].
Qed.

(** C25 (when checked integers abort).  For [T] a signed or unsigned type of 32 to 64 bits: [+], [-] and [*] abort
    exactly when the result is not a number of [T], and are exact otherwise.  For a signed
    [T] so do [/] and the unary [-]; [/] and [%] also abort on a zero divisor, and [%] on
    the least number and -1.  For an unsigned [T], [/] and [%] abort on a zero
    divisor and on 0 and the greatest number (which the comparison with -1 converts to), and are exact otherwise;
    and the unary [-] aborts on 0 only, where the result would fit, and wraps around on every other number. *)
Theorem safe_exact a b r :
  has_type T a -> has_type T b ->
  (add a b = Ok r <-> has_type T (a + b) /\ r = a + b) /\
  (sub a b = Ok r <-> has_type T (a - b) /\ r = a - b) /\
  (mul a b = Ok r <-> has_type T (a * b) /\ r = a * b) /\
  match T with
  | Signed _ =>
      (div a b = Ok r <-> b <> 0 /\ has_type T (Z.quot a b) /\ r = Z.quot a b) /\
      (rem a b = Ok r <-> b <> 0 /\ has_type T (Z.quot a b) /\ r = Z.rem a b) /\
      (neg a = Ok r <-> has_type T (- a) /\ r = - a)
  | Unsigned _ =>
      (div a b = Ok r <-> b <> 0 /\ ~ (a = 0 /\ b = max T) /\ r = Z.quot a b) /\
      (rem a b = Ok r <-> b <> 0 /\ ~ (a = 0 /\ b = max T) /\ r = Z.rem a b) /\
      (neg a = Ok r <-> a <> 0 /\ r = max T + 1 - a)
  end.
Proof.
  intros Ha Hb. split; [by apply add_exact|]. split; [by apply sub_exact|]. split; [by apply mul_exact|].
  pose proof (div_rem_exact a b (Z.quot a b) r) as Hd.
  pose proof (div_rem_exact a b (Z.rem a b) r) as Hm.
  pose proof (quot_type a b Ha Hb) as Hq. pose proof (rem_type a b Ha Hb) as Hr.
  pose proof (neg_exact a r Ha) as Hneg. pose proof (quot_fits a b Ha Hb) as Hf. unfold div, rem, neg in *. destruct T as [w|w].
  - split_and!; [| |exact Hneg].
    + rewrite Hd by auto. split; intros (H1 & H2 & ->); split_and!; try done.
      * by apply Hf.
      * by apply Hf in H2.
    + rewrite Hm by auto. split; intros (H1 & H2 & ->); split_and!; try done.
      * by apply Hf.
      * by apply Hf in H2.
  - split_and!; [apply Hd|apply Hm|exact Hneg]; auto.
Qed.
End safe.

Lemma safe_exact_witness : mul int64_t (2 ^ 40) (2 ^ 22) = Ok (2 ^ 62).
Proof.
  apply (safe_exact int64_t); [simpl; lia|unfold has_type; vm_compute; intuition discriminate..|].
  split; [unfold has_type; vm_compute; intuition discriminate|reflexivity].
Defined.
