(* ===== verification/Utils.v ===== *)
(** * pubkey.token: utilities

    [contracts/pubkey.token/include/utils.hpp] and [math.hpp]: decimal arithmetic on wide
    integers, string views, numbers and assets read from strings, keys and hashes.  A
    [string_view] is a list of characters, a position in it a [size_t] (32 bits, with [npos] the
    greatest).  The toolkit's symbol constructor is the class [Symbols]. *)
From S2P Require Import Prelude Cdt CdtRef Safe.
From Stdlib Require Import ZArith Lia String Ascii.
From stdpp Require Import base tactics numbers list strings pretty.
Open Scope Z_scope.

(** ** Decimal arithmetic *)

(** [int128_t] division, by zero aborts *)
Definition div128 (a b : Z) : result Z :=
  ensure negb (b =? 0) else "divide by zero"; mret (i128 (Z.quot a b)).

Section wide.
Context (T : int_type).

(** A value within the limits of [T] *)
Definition within (z : Z) : bool := (Safe.min T <=? z) && (z <=? Safe.max T).

Definition multiply (a b : Z) : result Z :=
  let ret := i128 (a * b) in
  ensure within ret else "overflow exception of multiply";
  mret ret.

Definition divide_decimal (a b precision : Z) : result Z :=
  tmp ← div128 (i128 (i128 (10 * a) * precision)) b;
  ensure within tmp else "overflow exception of divide_decimal";
  div128 (i128 (tmp + 5)) 10.

Definition multiply_decimal (a b precision : Z) : result Z :=
  tmp ← div128 (i128 (i128 (10 * a) * b)) precision;
  ensure within tmp else "overflow exception of multiply_decimal";
  div128 (i128 (tmp + 5)) 10.
End wide.

Module SafeMath.
(** [wasm::safemath] of [math.hpp]: the same on [uint128_t], without limits *)
Definition u128 (z : Z) : Z := wrap_u 128 z.
Definition udiv128 (a b : Z) : result Z :=
  ensure negb (b =? 0) else "divide by zero"; mret (a / b).

Definition divide_decimal (a b precision : Z) : result Z :=
  tmp ← udiv128 (u128 (u128 (10 * a) * u128 precision)) b;
  udiv128 (u128 (tmp + 5)) 10.
Definition multiply_decimal (a b precision : Z) : result Z :=
  tmp ← udiv128 (u128 (u128 (10 * a) * b)) (u128 precision);
  udiv128 (u128 (tmp + 5)) 10.
End SafeMath.

(** [while (exp > 0) { ret *= base; --exp; }] *)
Fixpoint power_loop (n : nat) (base ret : Z) : Z :=
  match n with O => ret | S n' => power_loop n' base (i64 (ret * base)) end.
Definition power (base exp : Z) : Z := power_loop (Z.to_nat exp) base 1.
Definition power10 (exp : Z) : Z := power 10 exp.
Definition calc_precision (digit : Z) : Z := power10 digit.

(** ** String views *)

Abbreviation string_view := (list ascii) (only parsing).
(** A [char] is signed. *)
Definition char (c : ascii) : Z := wrap_s 8 (Z.of_nat (nat_of_ascii c)).
Definition npos : Z := uint32_max.
Definition size (sv : string_view) : Z := Z.of_nat (length sv).

(** [find_first_of] and [find_first_not_of] from a position on, [find_last_not_of] *)
Definition find_from (P : ascii -> bool) (sv : string_view) (pos : Z) : Z :=
  match list_find (fun c => P c = true) (drop (Z.to_nat pos) sv) with
  | Some (i, _) => pos + Z.of_nat i
  | None => npos
  end.
Definition find_last (P : ascii -> bool) (sv : string_view) : Z :=
  match list_find (fun c => P c = true) (reverse sv) with
  | Some (i, _) => size sv - 1 - Z.of_nat i
  | None => npos
  end.
(** [substr] from a position in the view: at most the characters that are left *)
Definition substr (sv : string_view) (pos n : Z) : string_view :=
  take (Z.to_nat (Z.min n (size sv - pos))) (drop (Z.to_nat pos) sv).

Definition is_char (a : ascii) (c : ascii) : bool := bool_decide (c = a).
Definition one_of (delims : string_view) (c : ascii) : bool := bool_decide (c ∈ delims).
Definition not_blank (c : ascii) : bool := negb (is_char " " c).

Definition trim (sv : string_view) : string_view :=
  let sv := drop (Z.to_nat (Z.min (find_from not_blank sv 0) (size sv))) sv in
  let n := Z.min (u32 (size sv - find_last not_blank sv - 1)) (size sv) in
  take (Z.to_nat (size sv - n)) sv.

(** The loop of [split]: [n] is how many delimiters it can still meet. *)
Fixpoint split_loop (n : nat) (str delims : string_view) (previous current : Z)
    : list string_view :=
  if current =? npos then [trim (substr str previous (u32 (current - previous)))]
  else match n with
       | O => []
       | S n' =>
           trim (substr str previous (u32 (current - previous))) ::
           split_loop n' str delims (current + 1)
             (find_from (one_of delims) str (current + 1))
       end.
Definition split (str delims : string_view) : list string_view :=
  split_loop (length str) str delims 0 (find_from (one_of delims) str 0).

Definition starts_with (sv s : string_view) : bool :=
  (size s <=? size sv) && bool_decide (substr sv 0 (size s) = s).

(** ** Numbers from strings *)

(** [for (itr = sv.rbegin(); ...)] of [to_int<safe<T>>], on the reversed view *)
Fixpoint to_int_loop (T : int_type) (rsv : string_view) (res p : Z) : result Z :=
  match rsv with
  | [] => Ok res
  | c :: rsv' =>
      ensure (char c <=? 57) && (48 <=? char c) else "invalid numeric character of int";
      d ← Safe.mul T p (char c - 48);
      res ← Safe.add T res d;
      p ← Safe.mul T p 10;
      to_int_loop T rsv' res p
  end.
Definition to_int (T : int_type) (sv : string_view) : result Z :=
  to_int_loop T (reverse sv) 0 1.

(** [while (p > 0) { p10 *= 10; --p; }]: [n] is [p] *)
Fixpoint precision_loop (T : int_type) (n : nat) (p10 : Z) : result Z :=
  match n with
  | O => Ok p10
  | S n' => p10 ← Safe.mul T p10 10; precision_loop T n' p10
  end.
Definition precision_from_decimals (T : int_type) (decimals : Z) : result Z :=
  ensure decimals <=? 18 else "precision should be <= 18";
  precision_loop T (Z.to_nat decimals) 1.

(** The number a list of digits denotes *)
Definition decimal (s : string_view) : Z := fold_left (fun n c => 10 * n + (char c - 48)) s 0.

(** [std::stoi]: white space, a sign, digits; it throws without digits and outside of [int].  What
    follows the digits is ignored. *)
Definition is_space (c : ascii) : bool := (char c =? 32) || ((9 <=? char c) && (char c <=? 13)).
Definition digit (c : ascii) : bool := (48 <=? char c) && (char c <=? 57).
Fixpoint drop_spaces (s : string_view) : string_view :=
  match s with c :: s' => if is_space c then drop_spaces s' else s | [] => [] end.
Fixpoint digits (s : string_view) : string_view :=
  match s with c :: s' => if digit c then c :: digits s' else [] | [] => [] end.
Definition stoi (s : string_view) : result Z :=
  let s := drop_spaces s in
  let '(sign, s) := match s with
    | c :: s' => if is_char "-" c then (-1, s') else if is_char "+" c then (1, s') else (1, s)
    | [] => (1, [])
    end in
  let ds := digits s in
  ensure negb (vec_empty ds) else "stoi: no conversion";
  let n := sign * decimal ds in
  ensure (- 2 ^ 31 <=? n) && (n <? 2 ^ 31) else "stoi: out of range";
  mret n.

(** The toolkit's [symbol(string_view, uint8_t)] and [symbol::precision()] *)
Class Symbols : Type := {
  symbol_ctor : string_view -> Z -> result symbol;
  symbol_precision : symbol -> Z;
}.
Class SymbolsLaws `{Symbols} : Prop := {
  law_symbol_precision s p sym :
    0 <= p < 256 -> symbol_ctor s p = Ok sym -> symbol_precision sym = p;
}.

Section assets.
Context {cdt : Cdt} {symbols : Symbols}.

Definition asset_from_string (from : string_view) : result asset :=
  let s := trim from in
  let space_pos := find_from (is_char " ") s 0 in
  ensure negb (space_pos =? npos)
    else "Asset's amount and symbol should be separated with space";
  let symbol_str := trim (substr s (space_pos + 1) npos) in
  let amount_str := substr s 0 space_pos in
  let dot_pos := find_from (is_char ".") amount_str 0 in
  let dot := negb (dot_pos =? npos) in
  ensure negb dot || negb (dot_pos =? u32 (size amount_str - 1))
    else "Missing decimal fraction after decimal point";
  let precision_digit := if dot then wrap_u 8 (size amount_str - dot_pos - 1) else 0 in
  sym ← symbol_ctor symbol_str precision_digit;
  '(int_part, fract_part) ←
    (if dot then
       int_part ← to_int int64_t (substr amount_str 0 dot_pos);
       fract_part ← to_int int64_t (substr amount_str (dot_pos + 1) npos);
       fract_part ← (if bool_decide (head amount_str = Some "-"%char) then Safe.mul int64_t fract_part (-1)
                     else mret fract_part);
       mret (int_part, fract_part)
     else int_part ← to_int int64_t amount_str; mret (int_part, 0));
  precision ← precision_from_decimals int64_t (wrap_s 8 (symbol_precision sym));
  amount ← Safe.mul int64_t int_part precision;
  amount ← Safe.add int64_t amount fract_part;
  asset_ctor amount sym.

(** [past_end]: what reading the vector's second element yields when it has only one *)
Definition to_symbol (past_end : result string_view) (str : string_view) : result symbol :=
  let symbol_parts := split str [","%char] in
  code ← match symbol_parts !! 1%nat with Some code => mret code | None => past_end end;
  n ← stoi (default [] (symbol_parts !! 0%nat));
  symbol_ctor code (wrap_u 8 n).

(** ** Keys and hashes *)

Definition make128key (a b : Z) : Z :=
  wrap_u 128 (wrap_u 128 (Z.shiftl a 64) + b).
Definition make64key (a b : Z) : Z := u64 (a + b).

Definition hash_account (account : name) : bytes := sha256 (string_bytes (name_to_string account)).
(** [std::to_string] of the microseconds *)
Definition hash_timepoint (tp : time_point) : bytes :=
  let microseconds := u64 tp in
  sha256 (string_bytes (pretty (Z.to_N microseconds))).
End assets.

(** ** Decimal operations round half up *)

(** One more decimal digit, plus five, and the digit dropped *)
Lemma half_up x y : 0 <= x -> 0 < y -> (10 * x / y + 5) / 10 = (2 * x + y) / (2 * y).
Proof.
  intros Hx Hy. rewrite <- Z.div_add, Z.div_div by lia.
  rewrite <- (Z.div_mul_cancel_l (2 * x + y) (2 * y) 5) by lia. f_equal; lia.
Qed.

Lemma div128_nonneg x y :
  0 <= x < 2 ^ 127 -> 0 < y -> div128 x y = Ok (x / y).
Proof.
  intros Hx Hy. unfold div128. rewrite (proj2 (Z.eqb_neq y 0)) by lia.
  cbn [negb check mbind result_bind]. rewrite Z.quot_div_nonneg by lia.
  rewrite i128_id; [done|]. pose proof (Z.div_pos x y ltac:(lia) Hy).
  pose proof (Z.div_le_upper_bound x y x Hy ltac:(nia)). lia.
Qed.

Lemma round_half_up T msg x y r :
  0 <= x -> 10 * x < 2 ^ 127 -> 0 < y -> type_ok T -> Safe.max T < 2 ^ 127 - 5 ->
  (tmp ← div128 (10 * x) y; ensure within T tmp else msg;
   div128 (i128 (tmp + 5)) 10) = Ok r <->
  10 * x / y <= Safe.max T /\ r = (2 * x + y) / (2 * y).
Proof.
  intros Hx Hx2 Hy HT Hm. rewrite div128_nonneg by lia. cbn [mbind result_bind].
  pose proof (Z.div_pos (10 * x) y ltac:(lia) Hy).
  pose proof (type_bounds T HT) as (Hmin & _ & _). unfold within. rewrite (proj2 (Z.leb_le _ _)) by lia.
  cbn [andb]. destruct (Z.leb_spec (10 * x / y) (Safe.max T)); cbn [check mbind result_bind].
  - rewrite i128_id, div128_nonneg by lia. rewrite half_up by lia.
    split; [by intros [= <-]|by intros [_ ->]].
  - split; [done|lia].
Qed.

(** Decimal operations round half up.  On amounts that are not negative,
    and when ten times the product fits 128 bits, dividing or multiplying decimals of a given precision
    returns the exact quotient rounded half up, and aborts exactly when ten times the
    quotient exceeds the limits of the type: a tenth of the range already overflows.  The
    unsigned versions of [math.hpp] return the same number, without that limit. *)
Theorem decimals_half_up T a b precision r :
  type_ok T -> Safe.max T < 2 ^ 127 - 5 -> 0 <= a -> 0 < b < 2 ^ 127 -> 0 < precision < 2 ^ 127 ->
  10 * a * precision < 2 ^ 127 -> 10 * a * b < 2 ^ 127 ->
  (divide_decimal T a b precision = Ok r <->
    10 * a * precision / b <= Safe.max T /\ r = (2 * a * precision + b) / (2 * b)) /\
  (multiply_decimal T a b precision = Ok r <->
    10 * a * b / precision <= Safe.max T /\
    r = (2 * a * b + precision) / (2 * precision)) /\
  SafeMath.divide_decimal a b precision = Ok ((2 * a * precision + b) / (2 * b)) /\
  SafeMath.multiply_decimal a b precision = Ok ((2 * a * b + precision) / (2 * precision)).
Proof.
  intros HT Hm Ha Hb Hp Hap Hab.
  assert (E : forall x y, 0 <= x -> 0 < y -> 10 * x < 2 ^ 127 ->
    (tmp ← SafeMath.udiv128 (SafeMath.u128 (10 * x)) y;
     SafeMath.udiv128 (SafeMath.u128 (tmp + 5)) 10) = Ok ((2 * x + y) / (2 * y))).
  { intros x y Hx Hy Hx2. unfold SafeMath.udiv128, SafeMath.u128, wrap_u.
    rewrite (proj2 (Z.eqb_neq y 0)) by lia. cbn [negb check mbind result_bind].
    pose proof (Z.div_pos (10 * x) y ltac:(lia) Hy).
    pose proof (Z.div_le_upper_bound (10 * x) y (10 * x) Hy ltac:(nia)).
    unfold mret, result_ret. cbn [mbind result_bind Z.eqb negb check].
    rewrite !Z.mod_small by (rewrite ?Z.mod_small; lia). by rewrite half_up. }
  assert (10 * a < 2 ^ 127) by nia.
  unfold divide_decimal, multiply_decimal, SafeMath.divide_decimal, SafeMath.multiply_decimal.
  rewrite (i128_id (10 * a)), (i128_id (10 * a * precision)), (i128_id (10 * a * b)) by nia.
  rewrite <- !Z.mul_assoc.
  split_and!; [apply round_half_up; (done || nia)|apply round_half_up; (done || nia)|..].
  - rewrite <- E by nia. unfold SafeMath.u128, wrap_u.
    rewrite (Z.mod_small (10 * a)), (Z.mod_small precision) by nia. by rewrite <- Z.mul_assoc.
  - rewrite <- E by nia. unfold SafeMath.u128, wrap_u.
    rewrite (Z.mod_small (10 * a)), (Z.mod_small precision) by nia. by rewrite <- Z.mul_assoc.
Qed.

Lemma decimals_half_up_witness :
  divide_decimal int64_t 5 2 1 = Ok 3 /\ 10 * 5 * 1 / 2 <= Safe.max int64_t.
Proof.
  split; [|vm_compute; discriminate].
  apply (decimals_half_up int64_t 5 2 1 3); try (simpl; lia).
Defined.

(** Powers, modulo the width *)
Lemma power_exact base exp : 0 <= exp -> power base exp = i64 (base ^ exp).
Proof.
  intros He. unfold power.
  assert (E : forall n ret, i64 (power_loop n base ret) = i64 (ret * base ^ Z.of_nat n)).
  { induction n as [|n IH]; intros ret; [by rewrite Z.mul_1_r|]. cbn [power_loop]. rewrite IH.
    rewrite Nat2Z.inj_succ, Z.pow_succ_r, Z.mul_assoc by lia.
    unfold i64, wrap_s. f_equal. rewrite Zplus_mod, (Zplus_mod (ret * base * _)). f_equal.
    rewrite Zmult_mod, (Zmult_mod (ret * base)). f_equal. f_equal. f_equal.
    rewrite Zminus_mod, Zmod_mod, <- Zminus_mod. f_equal. lia. }
  assert (Er : i64 (power_loop (Z.to_nat exp) base 1) = power_loop (Z.to_nat exp) base 1).
  { destruct (Z.to_nat exp) as [|n]; [done|]. cbn [power_loop]. generalize (1 * base).
    induction n as [|n IH]; intros z; cbn [power_loop]; [apply i64_id, i64_range|]. 
    apply IH. }
  rewrite <- Er, E. by rewrite Z2Nat.id, Z.mul_1_l.
Qed.

(** ** Numbers: at most 18 digits *)

Definition is_digit (c : ascii) : Prop := 48 <= char c <= 57.

Lemma to_int_loop_exact rsv n res v :
  0 <= n <= 18 -> 0 <= res < 10 ^ n ->
  to_int_loop int64_t rsv res (10 ^ n) = Ok v <->
  Forall is_digit rsv /\ n + size rsv <= 18 /\
  v = res + 10 ^ n * foldr (fun c m => 10 * m + (char c - 48)) 0 rsv.
Proof.
  assert (HT : type_ok int64_t) by (simpl; lia).
  assert (Hr : forall z, has_type int64_t z <-> - 2 ^ 63 <= z < 2 ^ 63)
    by (intros z; unfold has_type; simpl; lia).
  revert n res. induction rsv as [|c rsv IH]; intros n res Hn Hres; cbn [to_int_loop foldr].
  { unfold size. simpl. split; [intros [= <-]; split_and!; [constructor|lia..]|].
    intros (_ & _ & ->). f_equal. lia. }
  assert (Hp : 0 < 10 ^ n <= 10 ^ 18)
    by (split; [apply Z.pow_pos_nonneg|apply Z.pow_le_mono_r]; lia).
  rewrite Forall_cons. unfold is_digit at 1.
  destruct (decide (48 <= char c <= 57)) as [Hc|Hc].
  2: { assert (E : (char c <=? 57) && (48 <=? char c) = false) by (to_prop; lia).
       rewrite E. cbn [check mbind result_bind]. split; [done|tauto]. }
  assert (E : (char c <=? 57) && (48 <=? char c) = true) by (to_prop; lia).
  rewrite E. cbn [check mbind result_bind].
  assert (Hs : size (c :: rsv) = 1 + size rsv) by (unfold size; simpl; lia). rewrite Hs.
  assert (0 <= size rsv) by (unfold size; lia).
  destruct (decide (n = 18)) as [->|Hn18].
  { split; [|lia]. intros H'. apply bind_Ok in H' as (d & _ & H').
    apply bind_Ok in H' as (res' & _ & H'). apply bind_Ok in H' as (p' & H' & _). done. }
  assert (10 ^ n <= 10 ^ 17) by (apply Z.pow_le_mono_r; lia).
  assert (Em : Safe.mul int64_t (10 ^ n) (char c - 48) = Ok (10 ^ n * (char c - 48)))
    by (apply mul_exact; rewrite ?Hr; (done || nia)).
  rewrite Em. cbn [mbind result_bind].
  assert (Ea : Safe.add int64_t res (10 ^ n * (char c - 48)) = Ok (res + 10 ^ n * (char c - 48)))
    by (apply add_exact; rewrite ?Hr; (done || nia)).
  rewrite Ea. cbn [mbind result_bind].
  assert (E10 : 10 ^ (n + 1) = 10 ^ n * 10) by (rewrite Z.pow_add_r by lia; lia).
  assert (Et : Safe.mul int64_t (10 ^ n) 10 = Ok (10 ^ (n + 1)))
    by (apply mul_exact; rewrite ?Hr; (done || lia)).
  rewrite Et. cbn [mbind result_bind].
  assert (10 ^ n * (char c - 48) <= 10 ^ n * 9) by (apply Z.mul_le_mono_nonneg_l; lia).
  assert (0 <= 10 ^ n * (char c - 48)) by (apply Z.mul_nonneg_nonneg; lia).
  rewrite IH by lia. rewrite E10.
  split; intros; split_and!; try tauto; nia.
Qed.

Lemma to_int_exact sv v :
  to_int int64_t sv = Ok v <-> Forall is_digit sv /\ size sv <= 18 /\ v = decimal sv.
Proof.
  unfold to_int, decimal. rewrite (to_int_loop_exact (reverse sv) 0 0) by lia.
  rewrite Forall_reverse. unfold size. rewrite length_reverse.
  unfold reverse. rewrite <- rev_alt, fold_left_rev_right.
  split; intros (? & ? & ->); split_and!; try done; lia.
Qed.

Lemma decimal_bound s : Forall is_digit s -> 0 <= decimal s < 10 ^ size s.
Proof.
  unfold decimal, size. induction s as [|c s IH] using rev_ind; [simpl; lia|].
  intros [Hs Hc]%Forall_app. apply Forall_cons in Hc as [Hc _]. unfold is_digit in Hc.
  rewrite fold_left_app, length_app. simpl. specialize (IH Hs).
  rewrite Nat2Z.inj_add, Z.pow_add_r by lia. simpl. lia.
Qed.

Lemma precision_exact d : 0 <= d <= 18 -> precision_from_decimals int64_t d = Ok (10 ^ d).
Proof.
  intros Hd. rewrite <- (Z2Nat.id d) by lia. assert (Z.to_nat d <= 18)%nat as Hn by lia.
  generalize dependent (Z.to_nat d). intros n Hn. do 19 (destruct n as [|n]; [done|]). lia.
Qed.

(** ** Views *)

Lemma size_app s t : size (s ++ t) = size s + size t.
Proof. unfold size. rewrite length_app. lia. Qed.
Lemma size_cons c s : size (c :: s) = 1 + size s.
Proof. unfold size. simpl. lia. Qed.

Lemma list_find_here (P : ascii -> bool) l c r :
  Forall (fun x => P x = false) l -> P c = true ->
  list_find (fun x => P x = true) (l ++ c :: r) = Some (length l, c).
Proof.
  intros Hl Hc. apply list_find_Some. split_and!; [by rewrite list_lookup_middle|done|].
  intros j y Hj Hlt. rewrite lookup_app_l in Hj by done.
  rewrite Forall_lookup in Hl. rewrite (Hl j y Hj). done.
Qed.

Lemma find_from_here P l0 l c r pos :
  pos = size l0 -> Forall (fun x => P x = false) l -> P c = true ->
  find_from P (l0 ++ l ++ c :: r) pos = size l0 + size l.
Proof.
  intros -> Hl Hc. unfold find_from, size. rewrite Nat2Z.id, drop_app_length.
  by rewrite list_find_here.
Qed.

Lemma find_from_none P l0 l pos :
  pos = size l0 -> Forall (fun x => P x = false) l -> find_from P (l0 ++ l) pos = npos.
Proof.
  intros -> Hl. unfold find_from, size. rewrite Nat2Z.id, drop_app_length.
  assert (E : list_find (fun x => P x = true) l = None); [|by rewrite E].
  apply list_find_None. eapply Forall_impl; [done|]. simpl. congruence.
Qed.

(** The part of a view between two others *)
Lemma substr_middle l m r pos n :
  pos = size l -> n = size m -> substr (l ++ m ++ r) pos n = m.
Proof.
  intros -> ->. unfold substr, size. rewrite Nat2Z.id, drop_app_length, !length_app.
  replace (Z.to_nat _) with (length m) by lia. apply take_app_length.
Qed.
Lemma substr_rest l m pos : pos = size l -> size m <= npos -> substr (l ++ m) pos npos = m.
Proof.
  intros -> Hm. unfold substr. unfold size in *. rewrite Nat2Z.id, drop_app_length, length_app.
  rewrite take_ge; [done|lia].
Qed.

Definition blank (s : string_view) : Prop := Forall (fun c => c = " "%char) s.
(** Neither end is a blank. *)
Definition trimmed (s : string_view) : Prop :=
  head s <> Some " "%char /\ last s <> Some " "%char.

Lemma blank_not_blank s : blank s -> Forall (fun c => not_blank c = false) s.
Proof.
  intros H. eapply Forall_impl; [done|]. intros c ->. done.
Qed.

Lemma not_blank_true c : Some c <> Some " "%char -> not_blank c = true.
Proof.
  intros H. unfold not_blank, is_char. rewrite bool_decide_false; [done|]. congruence.
Qed.

(** [trim] removes the blanks at both ends, and nothing else. *)
Lemma trim_exact l m r :
  blank l -> blank r -> trimmed m -> size (l ++ m ++ r) < npos -> trim (l ++ m ++ r) = m.
Proof.
  intros Hl%blank_not_blank Hr [Hm1 Hm2] Hs. unfold trim.
  destruct (decide (m = [])) as [->|Hne].
  - simpl in Hs. simpl. rewrite (find_from_none _ [] (l ++ r)) by (done || (apply Forall_app_2; [done|by apply blank_not_blank])).
    rewrite Z.min_r by lia. rewrite (drop_ge (l ++ r)) by (unfold size; lia). apply take_nil.
  - assert (Ef0 : find_from not_blank (l ++ m ++ r) 0 = size l).
    { destruct m as [|c m]; [done|]. apply (find_from_here _ [] l); [done..|]. by apply not_blank_true. }
    rewrite Ef0, Z.min_l by (unfold size; rewrite length_app; lia).
    replace (drop (Z.to_nat (size l)) (l ++ m ++ r)) with (m ++ r)
      by (unfold size; by rewrite Nat2Z.id, drop_app_length).
    destruct m as [|c m' _] using rev_ind; [done|]. rewrite last_snoc in Hm2.
    assert (Ef : find_last not_blank ((m' ++ [c]) ++ r) = size m').
    { unfold find_last. rewrite !reverse_app. simpl. rewrite list_find_here; [| |by apply not_blank_true].
      - unfold size. rewrite length_reverse, !length_app. simpl. lia.
      - by apply Forall_reverse, blank_not_blank. }
    rewrite Ef. assert (Es : size ((m' ++ [c]) ++ r) = size m' + 1 + size r)
      by (unfold size; rewrite !length_app; simpl; lia).
    assert (size m' + 1 + size r <= size (l ++ (m' ++ [c]) ++ r))
      by (rewrite <- Es; unfold size; rewrite !length_app; lia).
    assert (0 <= size m' /\ 0 <= size r) by (unfold size; lia).
    rewrite Es, u32_id by (unfold npos in Hs; unfold_ints; lia).
    rewrite Z.min_l by lia. replace (Z.to_nat _) with (length (m' ++ [c])); [apply take_app_length|].
    rewrite length_app. unfold size. simpl. lia.
Qed.

(** A minus sign is no digit, so what follows it is never read. *)
Lemma to_int_minus s v : to_int int64_t ("-"%char :: s) <> Ok v.
Proof.
  intros [Hd _]%to_int_exact. apply Forall_cons in Hd as [Hd _].
  unfold is_digit in Hd. vm_compute in Hd. by destruct Hd.
Qed.

Lemma digits_no c s : Forall is_digit s -> ~ is_digit c -> Forall (fun x => is_char c x = false) s.
Proof.
  intros Hs Hc. eapply Forall_impl; [done|]. intros x Hx. unfold is_char.
  apply bool_decide_false. by intros ->.
Qed.

(** How the parts of a decimal are found, whatever its digits are *)
Lemma asset_parts {cdt : Cdt} {symbols : Symbols} ip fp code :
  let from := (ip ++ "."%char :: fp) ++ " "%char :: code in
  Forall (fun c => is_char "." c = false) ip ->
  Forall (fun c => is_char " " c = false) (ip ++ "."%char :: fp) ->
  fp <> [] -> code <> [] -> trimmed code -> size from < npos ->
  asset_from_string from =
    sym ← symbol_ctor code (wrap_u 8 (size fp));
    i ← to_int int64_t ip;
    f ← to_int int64_t fp;
    f ← (if bool_decide (head (ip ++ "."%char :: fp) = Some "-"%char)
         then Safe.mul int64_t f (-1) else mret f);
    p ← precision_from_decimals int64_t (wrap_s 8 (symbol_precision sym));
    a ← Safe.mul int64_t i p;
    a ← Safe.add int64_t a f;
    asset_ctor a sym.
Proof.
  intros from Hdot Hsp Hfp Hcode Ht Hs. unfold from, asset_from_string in *.
  assert (Hsize : size ip + 1 + size fp + 1 + size code < npos)
    by (unfold size in *; rewrite !length_app in Hs; simpl in Hs; lia).
  assert (0 < size fp /\ 0 <= size ip /\ 0 < size code)
    by (unfold size; destruct fp, code; simpl; done || lia).
  assert (Etrim : trim ((ip ++ "."%char :: fp) ++ " "%char :: code) =
    (ip ++ "."%char :: fp) ++ " "%char :: code).
  { rewrite <- (app_nil_r (_ ++ _ :: _)) at 1. apply (trim_exact []); [by constructor..| |by rewrite app_nil_r].
    split.
    - destruct ip as [|c ip]; [done|]. simpl. intros [= ->].
      apply Forall_cons in Hsp as [Hsp _]. by apply bool_decide_eq_false in Hsp.
    - rewrite last_app, last_cons. destruct Ht as [_ Ht]. by destruct (last code) eqn:E; [|apply last_None in E]. }
  rewrite Etrim.
  set (am := ip ++ "."%char :: fp) in *.
  assert (Ham : size am = size ip + 1 + size fp) by (unfold am, size; rewrite length_app; simpl; lia).
  assert (Esp : find_from (is_char " ") (am ++ " "%char :: code) 0 = size am)
    by (apply (find_from_here _ [] am); by try apply bool_decide_true).
  assert (Hn : npos = 4294967295) by done.
  rewrite Esp. rewrite (proj2 (Z.eqb_neq (size am) _)) by lia.
  cbn [negb check mbind result_bind].
  rewrite (cons_middle " "%char am code), app_assoc.
  rewrite (substr_rest (am ++ [" "%char]) code (size am + 1))
    by (unfold size in *; rewrite ?length_app; simpl; lia).
  rewrite <- app_assoc.
  rewrite (substr_middle [] am ([" "%char] ++ code) 0 (size am) eq_refl eq_refl : substr (am ++ _) 0 (size am) = am).
  assert (Edot : find_from (is_char ".") am 0 = size ip)
    by (apply (find_from_here _ [] ip); by try apply bool_decide_true).
  rewrite Edot. rewrite (proj2 (Z.eqb_neq (size ip) _)) by lia. cbn [negb orb].
  rewrite u32_id by (unfold_ints; lia). rewrite (proj2 (Z.eqb_neq (size ip) _)) by lia.
  cbn [negb check mbind result_bind].
  assert (Ec : trim code = code).
  { pose proof (trim_exact [] code []) as E. rewrite app_nil_r in E.
    apply E; [by constructor..|done|]. unfold size in *. simpl. lia. }
  assert (Ei : substr am 0 (size ip) = ip) by (by apply (substr_middle [] ip)).
  assert (Ef : substr am (size ip + 1) npos = fp).
  { unfold am. rewrite (cons_middle "."%char ip fp), app_assoc.
    apply substr_rest; [unfold size; rewrite length_app; simpl|]; lia. }
  rewrite Ec, Ei, Ef. replace (size am - size ip - 1) with (size fp) by lia.
  destruct (symbol_ctor code _); [|done]. cbn [mbind result_bind].
  destruct (to_int int64_t ip); [|done]. cbn [mbind result_bind].
  destruct (to_int int64_t fp); [|done]. cbn [mbind result_bind].
  by destruct (bool_decide _); [destruct (Safe.mul int64_t _ (-1))|].
Qed.

Lemma scaled_asset {cdt : Cdt} {laws : CdtLaws} i f d sym a :
  0 <= d <= 18 -> 0 <= i < 10 ^ 18 -> 0 <= f < 10 ^ 18 ->
  (p ← precision_from_decimals int64_t d;
   x ← Safe.mul int64_t i p; x ← Safe.add int64_t x f; asset_ctor x sym) = Ok a <->
  symbol_valid sym = true /\ in_range (i * 10 ^ d + f) /\ a = Asset (i * 10 ^ d + f) sym.
Proof.
  intros Hd Hi Hf. rewrite precision_exact by done. cbn [mbind result_bind].
  assert (HT : type_ok int64_t) by (simpl; lia).
  assert (Hr : forall z, has_type int64_t z <-> - 2 ^ 63 <= z < 2 ^ 63)
    by (intros z; unfold has_type; simpl; lia).
  assert (0 < 10 ^ d <= 10 ^ 18)
    by (split; [apply Z.pow_pos_nonneg|apply Z.pow_le_mono_r]; lia).
  split.
  - intros E. apply bind_Ok in E as (x & Hx & E). apply bind_Ok in E as (y & Hy & E).
    apply (mul_exact _ HT) in Hx as [Hx ->]; [|rewrite Hr; lia..].
    apply (add_exact _ HT) in Hy as [Hy ->]; [|done|rewrite Hr; lia].
    apply law_asset_ctor in E. tauto.
  - intros (Hs & Hin & ->). pose proof Hin as [_ Hmax].
    unfold max_amount in Hmax. assert (0 <= i * 10 ^ d) by (apply Z.mul_nonneg_nonneg; lia).
    rewrite (proj2 (mul_exact _ HT i (10 ^ d) (i * 10 ^ d) ltac:(apply Hr; lia) ltac:(apply Hr; lia)))
      by (rewrite Hr; lia). cbn [mbind result_bind].
    rewrite (proj2 (add_exact _ HT (i * 10 ^ d) f (i * 10 ^ d + f) ltac:(apply Hr; lia)
      ltac:(apply Hr; lia))) by (rewrite Hr; lia).
    by apply law_asset_ctor.
Qed.

(** C33 (reading an asset).  A decimal followed by a space and a symbol is read as its
    exact amount, with as many decimals as the fraction has digits; it is rejected exactly
    when either part of the number has more than 18 digits, when the symbol is not accepted or when the amount is
    out of an asset's range.  With a minus sign in front it is always rejected: the sign is
    handed to the digits' reader, and the branch for negative amounts is dead. *)
Theorem asset_from_string_exact {cdt : Cdt} {laws : CdtLaws}
    {symbols : Symbols} {slaws : SymbolsLaws} ip fp code a :
  Forall is_digit ip -> Forall is_digit fp -> fp <> [] -> code <> [] -> trimmed code ->
  size ip + size fp + size code + 3 < npos ->
  (asset_from_string ((ip ++ "."%char :: fp) ++ " "%char :: code) = Ok a <->
    exists sym, size ip <= 18 /\ size fp <= 18 /\ symbol_ctor code (size fp) = Ok sym /\
      symbol_valid sym = true /\ in_range (decimal ip * 10 ^ size fp + decimal fp) /\
      a = Asset (decimal ip * 10 ^ size fp + decimal fp) sym) /\
  asset_from_string ((("-"%char :: ip) ++ "."%char :: fp) ++ " "%char :: code) <> Ok a.
Proof.
  intros Hi Hf Hne Hc Ht Hs.
  assert (Hsz : forall i, size ((i ++ "."%char :: fp) ++ " "%char :: code) =
    size i + 1 + size fp + 1 + size code)
    by (intros i; rewrite !size_app, !size_cons; lia).
  assert (Hdot : forall c, Forall (fun x => is_char c x = false) ip /\
    Forall (fun x => is_char c x = false) fp \/ is_digit c).
  { intros c. destruct (decide (48 <= char c <= 57)) as [Hd|Hd]; [by right|left].
    split; by apply digits_no. }
  split.
  - rewrite asset_parts; [|..|done|done|done|rewrite Hsz; lia].
    + assert (Eh : bool_decide (head (ip ++ "."%char :: fp) = Some "-"%char) = false).
      { apply bool_decide_false. destruct ip as [|c ip]; [done|]. simpl. intros [= ->].
        apply Forall_cons in Hi as [[H _] _]. by vm_compute in H. }
      rewrite Eh. pose proof (decimal_bound ip Hi). pose proof (decimal_bound fp Hf).
      assert (Hpow : forall s, size s <= 18 -> 10 ^ size s <= 10 ^ 18)
        by (intros s ?; apply Z.pow_le_mono_r; lia).
      assert (0 < size fp) by (unfold size; destruct fp; simpl; done || lia).
      split.
      * intros H'. apply bind_Ok in H' as (sym & Hsym & H').
        apply bind_Ok in H' as (i & (_ & Hi18 & ->)%to_int_exact & H').
        apply bind_Ok in H' as (f & (_ & Hf18 & ->)%to_int_exact & H').
        pose proof (Hpow ip Hi18). pose proof (Hpow fp Hf18).
        unfold wrap_u in Hsym. rewrite Z.mod_small in Hsym by lia.
        cbn [mbind result_bind mret result_ret] in H'.
        rewrite (law_symbol_precision code (size fp) sym ltac:(lia) Hsym), wrap_s_id in H' by lia.
        apply scaled_asset in H'; [|lia..]. eauto 10.
      * intros (sym & Hi18 & Hf18 & Hsym & Hv & Hin & ->).
        pose proof (Hpow ip Hi18). pose proof (Hpow fp Hf18).
        unfold wrap_u. rewrite Z.mod_small, Hsym by lia. cbn [mbind result_bind].
        rewrite (proj2 (to_int_exact ip _)) by done. cbn [mbind result_bind].
        rewrite (proj2 (to_int_exact fp _)) by done. cbn [mbind result_bind mret result_ret].
        rewrite (law_symbol_precision code (size fp) sym ltac:(lia) Hsym), wrap_s_id by lia.
        apply scaled_asset; [lia..|done].
    + destruct (Hdot "."%char) as [[? _]|[H _]]; [done|by vm_compute in H].
    + apply Forall_app. destruct (Hdot " "%char) as [[? ?]|[H _]]; [|by vm_compute in H].
      split; [done|by constructor].
  - rewrite asset_parts; [|..|done|done|done|rewrite Hsz, size_cons; lia].
    + intros H. apply bind_Ok in H as (sym & _ & H). apply bind_Ok in H as (i & H & _).
      by apply to_int_minus in H.
    + destruct (Hdot "."%char) as [[? _]|[H _]]; [by constructor|by vm_compute in H].
    + apply Forall_app. destruct (Hdot " "%char) as [[? ?]|[H _]]; [|by vm_compute in H].
      split; by constructor.
Qed.

(** An instance for examples: a code's characters as the bytes of an integer above the precision *)
#[export] Instance ref_symbols : Symbols := {|
  symbol_ctor := fun s p => Ok (foldr (fun c n => 256 * n + Z.of_nat (nat_of_ascii c)) 0 s * 256 + p);
  symbol_precision := fun s => s mod 256;
|}.
#[export] Instance ref_symbols_laws : SymbolsLaws.
Proof.
  split. intros s p sym Hp [= <-]. rewrite Z.add_comm. unfold symbol_precision. simpl.
  rewrite Z_mod_plus_full. by apply Z.mod_small.
Qed.

Local Notation "'view' s" := (list_ascii_of_string s) (at level 10).
Lemma asset_from_string_exact_witness :
  asset_from_string (view "12.345 FLON") = Ok (Asset 12345 (0x4e4f4c46 * 256 + 3)).
Proof.
  apply (asset_from_string_exact (view "12") (view "345") (view "FLON")); try done.
  - by repeat constructor.
  - by repeat constructor.
  - exists (0x4e4f4c46 * 256 + 3). repeat split; done.
Defined.

(** ** Splitting undoes joining *)

Fixpoint join (d : ascii) (parts : list string_view) : string_view :=
  match parts with
  | [] => []
  | [p] => p
  | p :: parts' => p ++ d :: join d parts'
  end.

Definition without (d : ascii) (p : string_view) : Prop :=
  Forall (fun c => one_of [d] c = false) p.

Lemma split_loop_join d parts before n :
  parts <> [] -> Forall (without d) parts -> (length parts <= S n)%nat ->
  size (before ++ join d parts) < npos ->
  split_loop n (before ++ join d parts) [d] (size before)
    (find_from (one_of [d]) (before ++ join d parts) (size before)) = trim <$> parts.
Proof.
  assert (Hn : npos = 4294967295) by done.
  assert (Hpos : forall s, 0 <= size s) by (unfold size; lia).
  revert before n. induction parts as [|p parts IH]; intros before n Hne Hw Hl Hs; [done|].
  apply Forall_cons in Hw as [Hp Hw]. pose proof (Hpos before). pose proof (Hpos p).
  destruct parts as [|q parts].
  - cbn [join]. rewrite find_from_none by done. simpl join in Hs. rewrite size_app in Hs.
    assert (Es : substr (before ++ p) (size before) (u32 (npos - size before)) = p).
    { rewrite u32_id by (unfold_ints; lia). unfold substr.
      rewrite size_app, Z.min_r by lia. unfold size. rewrite Nat2Z.id, drop_app_length.
      apply take_ge. lia. }
    destruct n; cbn [split_loop]; rewrite Z.eqb_refl, Es; done.
  - change (join d (p :: q :: parts)) with (p ++ d :: join d (q :: parts)) in *.
    rewrite find_from_here by (done || by apply bool_decide_true; left).
    rewrite !size_app, size_cons in Hs. pose proof (Hpos (join d (q :: parts))).
    destruct n as [|n]; [simpl in Hl; lia|]. cbn [split_loop].
    rewrite (proj2 (Z.eqb_neq _ _)) by lia. rewrite fmap_cons. f_equal.
    + f_equal. rewrite u32_id by (unfold_ints; lia). apply substr_middle; lia.
    + assert (E : before ++ p ++ d :: join d (q :: parts) = (before ++ p ++ [d]) ++ join d (q :: parts))
        by (rewrite <- !app_assoc; done).
      rewrite E. replace (size before + size p + 1) with (size (before ++ p ++ [d]))
        by (rewrite !size_app; unfold size; simpl; lia).
      apply IH; [done..|simpl in *; lia|]. rewrite <- E, !size_app, size_cons. lia.
Qed.

(** Parts without the delimiter, joined and split again, come back trimmed. *)
Lemma split_join d parts :
  parts <> [] -> Forall (without d) parts -> size (join d parts) < npos ->
  split (join d parts) [d] = trim <$> parts.
Proof.
  intros Hne Hw Hs. apply (split_loop_join d parts []); [done..| |done].
  clear Hw Hs. induction parts as [|p [|q parts] IH]; [done|simpl; lia|].
  specialize (IH ltac:(done)). 
  change (join d (p :: q :: parts)) with (p ++ d :: join d (q :: parts)).
  rewrite length_app. simpl in *. lia.
Qed.

Lemma not_digit c x : char c < 48 -> is_digit x -> x <> c.
Proof. intros Hc Hx ->. unfold is_digit in Hx. lia. Qed.

Lemma digit_not_space c : is_digit c ->
  is_space c = false /\ digit c = true /\ is_char "-" c = false /\ is_char "+" c = false.
Proof.
  unfold is_digit. intros Hc. unfold is_space, digit, is_char. split_and!.
  - to_prop; lia.
  - to_prop; lia.
  - by apply bool_decide_eq_false, not_digit.
  - by apply bool_decide_eq_false, not_digit.
Qed.

Lemma digits_trimmed ds : Forall is_digit ds -> trimmed ds.
Proof.
  assert (Hb : forall c, is_digit c -> c <> " "%char) by (intros c; by apply not_digit).
  intros Hds. split.
  - destruct Hds as [|c ds Hc _]; [done|]. simpl. intros [= ->]. by eapply Hb.
  - destruct (last ds) as [c|] eqn:E; [|done]. intros [= ->].
    apply last_Some_elem_of in E. rewrite Forall_forall in Hds. by apply (Hb _ (Hds _ E)).
Qed.

Lemma stoi_digits ds :
  ds <> [] -> Forall is_digit ds ->
  stoi ds = (ensure decimal ds <? 2 ^ 31 else "stoi: out of range"; mret (decimal ds)).
Proof.
  intros Hne Hds. unfold stoi.
  assert (E : digits ds = ds).
  { clear Hne. induction Hds as [|c ds Hc Hds IH]; [done|]. simpl.
    destruct (digit_not_space c Hc) as (_ & -> & _). by rewrite IH. }
  pose proof (decimal_bound ds Hds) as Hb.
  destruct ds as [|c ds]; [done|]. apply Forall_cons in Hds as [Hc _].
  destruct (digit_not_space c Hc) as (H1 & _ & H3 & H4). cbn [drop_spaces]. rewrite H1, H3, H4, E.
  cbn [vec_empty negb check mbind result_bind]. rewrite Z.mul_1_l.
  rewrite (proj2 (Z.leb_le _ _)) by lia. done.
Qed.

(** A precision and a code around a comma: the symbol the toolkit makes of them, the precision modulo 256. *)
Theorem to_symbol_exact {symbols : Symbols} past_end ds code :
  ds <> [] -> Forall is_digit ds -> decimal ds < 2 ^ 31 -> trimmed code -> without "," code ->
  size ds + size code + 1 < npos ->
  to_symbol past_end (ds ++ ","%char :: code) = symbol_ctor code (wrap_u 8 (decimal ds)).
Proof.
  intros Hne Hds Hd Hcode Hw Hs. unfold to_symbol.
  assert (Hdw : without "," ds).
  { eapply Forall_impl; [exact Hds|]. intros c Hc. unfold one_of. apply bool_decide_eq_false.
    intros E%list_elem_of_singleton. by apply (not_digit "," c). }
  assert (E := split_join "," [ds; code] ltac:(done) ltac:(by repeat constructor)).
  simpl join in E. rewrite E by (rewrite size_app, size_cons; lia). cbn [fmap list_fmap].
  assert (Ht : forall m, trimmed m -> size m < npos -> trim m = m).
  { intros m Hm Hsm. pose proof (trim_exact [] m [] (Forall_nil_2 _) (Forall_nil_2 _) Hm) as Et.
    rewrite app_nil_r in Et. by apply Et. }
  assert (0 <= size ds /\ 0 <= size code) by (unfold size; lia).
  rewrite (Ht code) by (done || lia). rewrite (Ht ds); [|by apply digits_trimmed|lia].
  cbn [lookup list_lookup default mbind result_bind mret result_ret]. unfold default, id. rewrite stoi_digits by done.
  rewrite (proj2 (Z.ltb_lt _ _) Hd). done.
Qed.

Lemma to_symbol_exact_witness :
  to_symbol (Err "past the end") (view "8,BTC") = symbol_ctor (view "BTC") 8.
Proof.
  apply (to_symbol_exact (Err "past the end") (view "8") (view "BTC")); try done.
  - by repeat constructor.
  - by repeat constructor.
Defined.

(** The two halves of a 128-bit key can be read back. *)
Lemma make128key_inj a b a' b' :
  is_u64 a -> is_u64 b -> is_u64 a' -> is_u64 b' ->
  make128key a b = make128key a' b' -> a = a' /\ b = b'.
Proof.
  unfold_ints. intros Ha Hb Ha' Hb'. unfold make128key, wrap_u.
  rewrite !Z.shiftl_mul_pow2 by lia. rewrite !Z.mod_small; rewrite ?Z.mod_small; lia.
Qed.
