(* ===== verification/Base58.v ===== *)
(** * pubkey.token: public keys from text

    [contracts/pubkey.token/include/pubkey_utils.hpp]: the base-58 decoder and the reader of a
    public key.  [psz] is a C string: the characters before the terminating zero.  A byte
    vector [b256] that the source runs through with reverse iterators is kept least
    significant byte first, as [rb256]. *)
From Stdlib Require Import ZArith Lia String Ascii.
From stdpp Require Import base tactics numbers list strings.
From S2P Require Import Prelude Cdt Utils.
Open Scope Z_scope.

(** ** Characters *)

(** All alphanumeric characters except for "0", "I", "O", and "l" *)
Definition pszBase58 : string_view :=
  list_ascii_of_string "123456789ABCDEFGHJKLMNPQRSTUVWXYZabcdefghijkmnopqrstuvwxyz".

Definition mapBase58 : list Z := [
  -1; -1; -1; -1; -1; -1; -1; -1; -1; -1; -1; -1; -1; -1; -1; -1; -1; -1; -1;
  -1; -1; -1; -1; -1; -1; -1; -1; -1; -1; -1; -1; -1; -1; -1; -1; -1; -1; -1;
  -1; -1; -1; -1; -1; -1; -1; -1; -1; -1; -1; 0;  1;  2;  3;  4;  5;  6;  7;
  8;  -1; -1; -1; -1; -1; -1; -1; 9;  10; 11; 12; 13; 14; 15; 16; -1; 17; 18;
  19; 20; 21; -1; 22; 23; 24; 25; 26; 27; 28; 29; 30; 31; 32; -1; -1; -1; -1;
  -1; -1; 33; 34; 35; 36; 37; 38; 39; 40; 41; 42; 43; -1; 44; 45; 46; 47; 48;
  49; 50; 51; 52; 53; 54; 55; 56; 57; -1; -1; -1; -1; -1; -1; -1; -1; -1; -1;
  -1; -1; -1; -1; -1; -1; -1; -1; -1; -1; -1; -1; -1; -1; -1; -1; -1; -1; -1;
  -1; -1; -1; -1; -1; -1; -1; -1; -1; -1; -1; -1; -1; -1; -1; -1; -1; -1; -1;
  -1; -1; -1; -1; -1; -1; -1; -1; -1; -1; -1; -1; -1; -1; -1; -1; -1; -1; -1;
  -1; -1; -1; -1; -1; -1; -1; -1; -1; -1; -1; -1; -1; -1; -1; -1; -1; -1; -1;
  -1; -1; -1; -1; -1; -1; -1; -1; -1; -1; -1; -1; -1; -1; -1; -1; -1; -1; -1;
  -1; -1; -1; -1; -1; -1; -1; -1; -1; -1; -1; -1; -1; -1; -1; -1; -1; -1; -1;
  -1; -1; -1; -1; -1; -1; -1; -1; -1].

(** [mapBase58[static_cast<uint8_t>(c)]] *)
Definition digit (c : ascii) : Z := nth (nat_of_ascii c) mapBase58 (-1).

(** [isspace] of the C library *)
Definition isspace (c : ascii) : bool :=
  let n := Z.of_nat (nat_of_ascii c) in (n =? 32) || ((9 <=? n) && (n <=? 13)).

(** The C string at the start of a character buffer *)
Fixpoint c_str (s : string_view) : string_view :=
  match s with
  | [] => []
  | c :: s' => if bool_decide (c = zero) then [] else c :: c_str s'
  end.

(** ** The decoder *)

(** [while (P( *psz)) psz++] *)
Fixpoint skip (P : ascii -> bool) (psz : string_view) : string_view :=
  match psz with
  | c :: psz' => if P c then skip P psz' else psz
  | [] => []
  end.

(** Multiplying the buffer by 58 and adding a digit: what is left in the buffer, the carry
    and the number of bytes in use *)
Fixpoint carry_loop (rb256 : list Z) (i length carry : Z) : list Z * Z * Z :=
  match rb256 with
  | [] => ([], carry, i)
  | b :: rb256' =>
      if negb (carry =? 0) || (i <? length) then
        let carry := carry + 58 * b in
        let '(rb256', carry', i') := carry_loop rb256' (i + 1) length (carry / 256) in
        (carry mod 256 :: rb256', carry', i')
      else (rb256, carry, i)
  end.

(** The loop over the characters; [None] is [return false]. *)
Fixpoint digits_loop (psz : string_view) (rb256 : list Z) (length : Z)
    : option (string_view * list Z * Z) :=
  match psz with
  | [] => Some (psz, rb256, length)
  | c :: psz' =>
      if isspace c then Some (psz, rb256, length)
      else
        let carry := digit c in
        if carry =? -1 then None
        else
          let '(rb256, carry, i) := carry_loop rb256 0 length carry in
          if negb (carry =? 0) then None else digits_loop psz' rb256 i
  end.

Fixpoint skip_zeros (l : list Z) : list Z :=
  match l with
  | b :: l' => if b =? 0 then skip_zeros l' else l
  | [] => []
  end.

Definition DecodeBase58 (psz : string_view) : option (list Z) :=
  let psz := skip isspace psz in
  let ones := skip (fun c => bool_decide (c = "1"%char)) psz in
  let zeroes := (length psz - length ones)%nat in
  let psz := ones in
  let size := u32 (size psz * 733) / 1000 + 1 in
  '(psz, rb256, length) ← digits_loop psz (replicate (Z.to_nat size) 0) 0;
  match skip isspace psz with
  | [] => Some (replicate zeroes 0 ++ skip_zeros (reverse (take (Z.to_nat length) rb256)))
  | _ => None
  end.

Definition decode_base58 (str : string_view) : option (list Z) := DecodeBase58 (c_str str).

(** ** Public keys *)

(** [eosio::public_key]: a variant, by default the first alternative with zero bytes *)
Inductive public_key : Type :=
| K1 (data : bytes) | R1 (data : bytes) | WebAuthn (data : bytes).
#[export] Instance public_key_eq_dec : EqDecision public_key.
Proof. solve_decision. Defined.
Definition public_key_default : public_key := K1 (replicate 33 0).

Definition pubkey_prefix : string_view := ["F"; "U"]%char.

Definition str_to_pubkey (pubkey : string_view) : result public_key :=
  ensure (size pubkey_prefix <=? size pubkey) &&
    bool_decide (substr pubkey 0 (size pubkey_prefix) = pubkey_prefix)
    else "Invalid public key prefix";
  let base58substr := substr pubkey (size pubkey_prefix) npos in
  vch ← get_or (decode_base58 base58substr) "Failed to decode base58 for pubkey";
  ensure Z.of_nat (length vch) =? 37 else "Invalid public key length";
  mret (K1 (take 33 vch)).

(** ** Numbers in base 256 and base 58 *)

Definition is_byte (b : Z) : Prop := 0 <= b < 256.
(** Least significant byte first, and most significant byte first *)
Definition le_value (l : list Z) : Z := foldr (fun b v => b + 256 * v) 0 l.
Definition be_value (l : list Z) : Z := fold_left (fun v b => 256 * v + b) l 0.
Definition base58_char (c : ascii) : Prop := c ∈ pszBase58.
Definition base58_value (ds : string_view) : Z := fold_left (fun v c => 58 * v + digit c) ds 0.

(** The table inverts the alphabet, and nothing else is a digit. *)
Lemma digit_spec c :
  (base58_char c /\ 0 <= digit c < 58 /\ isspace c = false) \/ (~ base58_char c /\ digit c = -1).
Proof.
  set (ok c := (bool_decide (c ∈ pszBase58) && ((0 <=? digit c) && (digit c <? 58)) &&
    negb (isspace c)) || (negb (bool_decide (c ∈ pszBase58)) && (digit c =? -1))).
  assert (E : forallb (fun n => ok (ascii_of_nat n)) (seq 0 256) = true) by (vm_compute; reflexivity).
  rewrite forallb_forall in E. specialize (E (nat_of_ascii c)).
  rewrite ascii_nat_embedding in E. pose proof (nat_ascii_bounded c).
  assert (Hin : In (nat_of_ascii c) (seq 0 256)) by (apply in_seq; lia).
  specialize (E Hin). unfold ok in E. unfold base58_char.
  to_prop. tauto.
Qed.

Lemma le_value_app l m : le_value (l ++ m) = le_value l + 256 ^ Z.of_nat (length l) * le_value m.
Proof.
  induction l as [|b l IH]; [simpl; lia|]. simpl app. simpl length. unfold le_value in *. simpl.
  rewrite IH, Nat2Z.inj_succ, Z.pow_succ_r by lia. lia.
Qed.

Lemma le_value_zero l : Forall (fun b => b = 0) l -> le_value l = 0.
Proof. induction 1 as [|b l -> Hl IH]; [done|]. unfold le_value in *. simpl. lia. Qed.

Lemma le_value_bound l : Forall is_byte l -> 0 <= le_value l < 256 ^ Z.of_nat (length l).
Proof.
  induction 1 as [|b l Hb Hl IH]; [simpl; lia|]. unfold is_byte in Hb.
  simpl length. rewrite Nat2Z.inj_succ, Z.pow_succ_r by lia. unfold le_value in *. simpl. lia.
Qed.

Lemma be_value_reverse l : be_value (reverse l) = le_value l.
Proof.
  unfold be_value, reverse. rewrite <- rev_alt, <- fold_left_rev_right, rev_involutive.
  unfold le_value. induction l as [|b l IH]; [done|]. simpl. lia.
Qed.

Lemma be_value_app l m : be_value (l ++ m) = be_value l * 256 ^ Z.of_nat (length m) + be_value m.
Proof.
  rewrite <- (reverse_involutive l), <- (reverse_involutive m), <- reverse_app.
  rewrite !be_value_reverse, le_value_app, !length_reverse. lia.
Qed.

Lemma be_value_bound l : Forall is_byte l -> 0 <= be_value l < 256 ^ Z.of_nat (length l).
Proof.
  intros H. rewrite <- (reverse_involutive l), be_value_reverse, length_reverse.
  by apply le_value_bound, Forall_reverse.
Qed.

(** Bytes without leading zeros are determined by their value. *)
Lemma be_value_inj l m :
  Forall is_byte l -> Forall is_byte m -> head l <> Some 0 -> head m <> Some 0 ->
  be_value l = be_value m -> l = m.
Proof.
  assert (Hpos : forall b l, Forall is_byte (b :: l) -> b <> 0 ->
    256 ^ Z.of_nat (length l) <= be_value (b :: l)).
  { intros b l' Hb Hn. apply Forall_cons in Hb as [Hb Hl]. unfold is_byte in Hb.
    pose proof (be_value_bound l' Hl). 
    assert (E : be_value (b :: l') = b * 256 ^ Z.of_nat (length l') + be_value l')
      by apply (be_value_app [b] l').
    rewrite E. nia. }
  assert (Hlen : forall l m, Forall is_byte l -> Forall is_byte m -> head l <> Some 0 ->
    be_value l = be_value m -> (length l <= length m)%nat).
  { intros [|b l'] m' Hl Hm Hn E; [simpl; lia|].
    assert (Hb : b <> 0) by (intros ->; by apply Hn). pose proof (Hpos b l' Hl Hb).
    pose proof (be_value_bound m' Hm). assert (Hp : 256 ^ Z.of_nat (length l') < 256 ^ Z.of_nat (length m')) by lia.
    apply Z.pow_lt_mono_r_iff in Hp; simpl; lia. }
  intros Hl Hm Hnl Hnm E.
  assert (El : length l = length m)
    by (apply Nat.le_antisymm; [by apply Hlen|by apply Hlen]). clear Hnl Hnm Hpos Hlen.
  revert m Hm El E. induction l as [|b l IH] using rev_ind; intros m Hm El E.
  - symmetry. by apply nil_length_inv.
  - destruct m as [|b' m _] using rev_ind; [rewrite length_app in El; simpl in El; lia|].
    rewrite !length_app in El. simpl in El. rewrite !be_value_app in E.
    apply Forall_app in Hl as [Hl Hb]. apply Forall_app in Hm as [Hm Hb'].
    apply Forall_cons in Hb as [Hb _]. apply Forall_cons in Hb' as [Hb' _].
    unfold is_byte in Hb, Hb'. unfold be_value at 2 4 in E. simpl in E.
    assert (be_value l = be_value m /\ b = b') as [Ev ->] by lia.
    f_equal. apply IH; [done..|lia|done].
Qed.

(** ** The loops *)

(** [length] is the number of bytes in use: the others are zero. *)
Definition in_use (n : Z) (rb256 : list Z) : Prop :=
  Forall (fun b => b = 0) (drop (Z.to_nat n) rb256).

Lemma carry_loop_exact rb i len carry rb' carry' i' :
  Forall is_byte rb -> 0 <= carry -> in_use (len - i) rb ->
  carry_loop rb i len carry = (rb', carry', i') ->
  Forall is_byte rb' /\ length rb' = length rb /\ 0 <= carry' /\ i <= i' /\
  in_use (i' - i) rb' /\
  le_value rb' + 256 ^ Z.of_nat (length rb) * carry' = 58 * le_value rb + carry.
Proof.
  revert i carry rb' carry' i'.
  induction rb as [|b rb IH]; intros i carry rb' carry' i' Hb Hc Hu H; simpl in H.
  { injection H as <- <- <-. split_and!; [done|done|done|lia| |simpl; lia].
    unfold in_use. by rewrite drop_nil. }
  destruct (negb (carry =? 0) || (i <? len)) eqn:E.
  - destruct (carry_loop rb (i + 1) len ((carry + 58 * b) / 256)) as [[rb1 c1] i1] eqn:H1.
    injection H as <- <- <-. apply Forall_cons in Hb as [Hb Hbs]. unfold is_byte in Hb.
    pose proof (Z.mod_pos_bound (carry + 58 * b) 256 ltac:(lia)).
    pose proof (Z.div_mod (carry + 58 * b) 256 ltac:(lia)).
    assert (0 <= (carry + 58 * b) / 256) by (apply Z.div_pos; lia).
    apply IH in H1 as (Hb1 & Hl1 & Hc1 & Hi1 & Hu1 & Hv1); [|done|done|].
    + split_and!; [constructor; [unfold is_byte; lia|done]|simpl; lia|done|lia| |].
      * unfold in_use in *. replace (Z.to_nat (i1 - i)) with (S (Z.to_nat (i1 - (i + 1)))) by lia.
        done.
      * simpl length. rewrite Nat2Z.inj_succ, Z.pow_succ_r by lia. unfold le_value in *. simpl. lia.
    + unfold in_use in *. destruct (decide (i < len)).
      * replace (Z.to_nat (len - i)) with (S (Z.to_nat (len - (i + 1)))) in Hu by lia. done.
      * replace (Z.to_nat (len - i)) with O in Hu by lia. apply Forall_cons in Hu as [_ Hu].
        by apply Forall_drop.
  - injection H as <- <- <-. apply orb_false_iff in E as [E1%negb_false_iff%Z.eqb_eq E2%Z.ltb_ge].
    unfold in_use in Hu. replace (Z.to_nat (len - i)) with O in Hu by lia.
    split_and!; [done|done|lia|lia| |].
    + unfold in_use. by rewrite Z.sub_diag.
    + rewrite (le_value_zero (b :: rb)) by done. lia.
Qed.

(** The buffer, between two characters *)
Definition buffer_ok (rb256 : list Z) (len : Z) : Prop :=
  Forall is_byte rb256 /\ 0 <= len /\ in_use len rb256.

Lemma digits_loop_exact ds rest rb len :
  buffer_ok rb len -> Forall base58_char ds ->
  (forall c, head rest = Some c -> isspace c = true) ->
  (le_value rb + 1) * 58 ^ size ds <= 256 ^ Z.of_nat (length rb) ->
  exists rb' len', digits_loop (ds ++ rest) rb len = Some (rest, rb', len') /\
    buffer_ok rb' len' /\ le_value rb' = fold_left (fun v c => 58 * v + digit c) ds (le_value rb).
Proof.
  intros Hok Hds Hr. revert rb len Hok.
  induction Hds as [|c ds Hc Hds IH]; intros rb len Hok Hroom.
  - exists rb, len. split; [|done]. destruct rest as [|c rest]; [done|]. simpl.
    by rewrite Hr.
  - destruct (digit_spec c) as [(_ & Hd & Hsp)|[? _]]; [|done].
    destruct Hok as (Hb & Hl & Hu). pose proof (le_value_bound rb Hb).
    simpl. rewrite Hsp. rewrite (proj2 (Z.eqb_neq _ _)) by lia.
    destruct (carry_loop rb 0 len (digit c)) as [[rb1 c1] i1] eqn:E.
    apply carry_loop_exact in E as (Hb1 & Hl1 & Hc1 & Hi1 & Hu1 & Hv1); [|done|lia|by rewrite Z.sub_0_r].
    rewrite Z.sub_0_r in Hu1. rewrite size_cons, Z.pow_add_r in Hroom by (unfold size; lia).
    assert (0 < 58 ^ size ds) by (apply Z.pow_pos_nonneg; unfold size; lia).
    pose proof (le_value_bound rb1 Hb1). rewrite Hl1 in *.
    assert (58 * le_value rb + digit c < 256 ^ Z.of_nat (length rb)) by nia.
    assert (c1 = 0) as -> by nia. cbn [Z.eqb negb].
    rewrite Z.mul_0_r, Z.add_0_r in Hv1. 
    destruct (IH rb1 i1) as (rb' & len' & -> & Hok' & Hv'); [done| |].
    + rewrite Hv1, Hl1. nia.
    + exists rb', len'. by rewrite <- Hv1.
Qed.

Lemma digits_loop_invalid ds c rest rb len :
  Forall base58_char ds -> ~ base58_char c -> isspace c = false ->
  digits_loop (ds ++ c :: rest) rb len = None.
Proof.
  intros Hds Hc Hsp. revert rb len. induction Hds as [|c' ds Hc' Hds IH]; intros rb len; simpl.
  - rewrite Hsp. destruct (digit_spec c) as [[? _]|[_ ->]]; done.
  - destruct (digit_spec c') as [(_ & Hd & ->)|[? _]]; [|done].
    rewrite (proj2 (Z.eqb_neq _ _)) by lia.
    destruct (carry_loop rb 0 len (digit c')) as [[rb1 c1] i1]. by destruct (negb (c1 =? 0)).
Qed.

(** A base-58 digit has fewer than 293/50 bits. *)
Lemma digit_bits : 58 ^ 1000 <= 256 ^ 733.
Proof.
  assert (H : 58 ^ 50 <= 2 ^ 293) by (apply Z.leb_le; vm_compute; reflexivity).
  replace (58 ^ 1000) with ((58 ^ 50) ^ 20) by (rewrite <- Z.pow_mul_r by lia; f_equal).
  replace (256 ^ 733) with (2 ^ 5864) by (change 256 with (2 ^ 8); rewrite <- Z.pow_mul_r by lia; f_equal).
  transitivity ((2 ^ 293) ^ 20).
  - apply Z.pow_le_mono_l. lia.
  - rewrite <- Z.pow_mul_r by lia. apply Z.pow_le_mono_r; lia.
Qed.

(** [strlen * 733 / 1000 + 1] bytes hold any number of [strlen] base-58 digits. *)
Lemma buffer_suffices n : 0 <= n -> 58 ^ n <= 256 ^ (n * 733 / 1000 + 1).
Proof.
  intros Hn. pose proof (Z.div_mod (n * 733) 1000 ltac:(lia)).
  pose proof (Z.mod_pos_bound (n * 733) 1000 ltac:(lia)).
  set (s := n * 733 / 1000 + 1) in *. assert (0 <= s) by (unfold s; lia).
  apply Z.nlt_ge. intros Hlt.
  assert (Hpow1 : (256 ^ s) ^ 1000 < (58 ^ n) ^ 1000)
    by (apply Z.pow_lt_mono_l; [lia|split; [apply Z.pow_nonneg; lia|done]]).
  assert (Hpow2 : (58 ^ n) ^ 1000 <= (256 ^ n) ^ 733).
  { rewrite <- !Z.pow_mul_r, (Z.mul_comm n 1000), (Z.mul_comm n 733), !Z.pow_mul_r by lia.
    apply Z.pow_le_mono_l. split; [apply Z.pow_nonneg; lia|]. apply digit_bits. }
  rewrite <- !Z.pow_mul_r in * by lia.
  assert (256 ^ (n * 733) <= 256 ^ (s * 1000)) by (apply Z.pow_le_mono_r; lia). lia.
Qed.

(** ** The result *)

Lemma skip_spec P s :
  exists l, s = l ++ skip P s /\ Forall (fun c => P c = true) l /\
    forall c, head (skip P s) = Some c -> P c = false.
Proof.
  induction s as [|c s IH]; [by exists []|]. simpl. destruct (P c) eqn:E.
  - destruct IH as (l & Es & Hl & Hh). exists (c :: l). split; [by rewrite Es at 1|].
    split; [by constructor|done].
  - exists []. split_and!; [done|done|]. by intros c' [= <-].
Qed.

Lemma skip_app P l s :
  Forall (fun c => P c = true) l -> (forall c, head s = Some c -> P c = false) ->
  skip P (l ++ s) = s.
Proof.
  induction 1 as [|c l Hc Hl IH]; intros Hs; simpl; [|rewrite Hc; auto].
  destruct s as [|c s]; [done|]. simpl. by rewrite Hs.
Qed.

Lemma skip_zeros_spec l :
  Forall is_byte l ->
  Forall is_byte (skip_zeros l) /\ head (skip_zeros l) <> Some 0 /\
  be_value (skip_zeros l) = be_value l.
Proof.
  induction 1 as [|b l Hb Hl IH]; [done|]. simpl. destruct (Z.eqb_spec b 0) as [->|Hn].
  - destruct IH as (? & ? & IH). split_and!; [done..|]. rewrite IH. done.
  - split_and!; [by constructor|by intros [= ->]|done].
Qed.

Definition spaces (s : string_view) : Prop := Forall (fun c => isspace c = true) s.
Definition is_one (c : ascii) : bool := bool_decide (c = "1"%char).

Lemma DecodeBase58_parts sp1 z ds sp2 :
  let psz := sp1 ++ replicate z "1"%char ++ ds ++ sp2 in
  size psz < 2 ^ 21 -> spaces sp1 -> spaces sp2 ->
  Forall base58_char ds -> head ds <> Some "1"%char ->
  exists m, DecodeBase58 psz = Some (replicate z 0 ++ m) /\
    Forall is_byte m /\ head m <> Some 0 /\ be_value m = base58_value ds.
Proof.
  intros psz Hs Hsp1 Hsp2 Hds Hh.
  assert (Hd2 : forall c, head (ds ++ sp2) = Some c -> is_one c = false).
  { intros c Hc. apply bool_decide_false. intros ->. destruct ds as [|d ds]; [|done].
    destruct sp2 as [|d sp2]; [done|]. injection Hc as ->. by apply Forall_cons in Hsp2 as [H _]. }
  assert (E1 : skip isspace psz = replicate z "1"%char ++ ds ++ sp2 \/ z = O /\ ds = [] /\
    skip isspace psz = []).
  { destruct z as [|z]; [|left; apply skip_app; [done|by intros c [= <-]]].
    destruct ds as [|d ds].
    - right. split_and!; [done..|]. rewrite <- (app_nil_r psz). apply skip_app; [|done].
      by apply Forall_app_2.
    - left. apply skip_app; [done|]. intros c [= <-]. apply Forall_cons in Hds as [Hd _].
      by destruct (digit_spec d) as [(_ & _ & ?)|[? _]]. }
  destruct E1 as [E1|(-> & -> & E1)].
  2: { exists []. split; [|done]. unfold DecodeBase58. by rewrite E1. }
  assert (E2 : skip is_one (skip isspace psz) = ds ++ sp2).
  { rewrite E1. apply skip_app; [|done]. by apply Forall_replicate. }
  unfold DecodeBase58. fold is_one. rewrite E2, E1.
  set (n := u32 (size (ds ++ sp2) * 733) / 1000 + 1).
  assert (Hn : n = size (ds ++ sp2) * 733 / 1000 + 1).
  { unfold n. rewrite u32_id; [done|]. unfold psz in Hs. rewrite !size_app in *. unfold_ints.
    unfold size in *. lia. }
  assert (Hlen : (length (replicate z "1"%char ++ ds ++ sp2) - length (ds ++ sp2) = z)%nat)
    by (rewrite length_app, length_replicate; lia).
  rewrite Hlen.
  destruct (digits_loop_exact ds sp2 (replicate (Z.to_nat n) 0) 0) as (rb & len & E & Hok & Hv).
  - split_and!; [by apply Forall_replicate|done|]. unfold in_use. by apply Forall_replicate.
  - done.
  - intros c Hc. destruct sp2; [done|]. injection Hc as ->. by apply Forall_cons in Hsp2 as [? _].
  - rewrite (le_value_zero (replicate _ _)) by (by apply Forall_replicate).
    assert (0 <= size (ds ++ sp2) * 733 / 1000) by (apply Z.div_pos; unfold size; lia).
    rewrite length_replicate, Z2Nat.id by lia. rewrite Hn, Z.mul_1_l.
    etrans; [|apply buffer_suffices; unfold size; lia].
    apply Z.pow_le_mono_r; [lia|]. rewrite size_app. unfold size. lia.
  - assert (Esp : skip isspace sp2 = []) by (pose proof (skip_app isspace sp2 []) as Hsk;
      rewrite app_nil_r in Hsk; by apply Hsk).
    rewrite E. cbn [mbind option_bind]. rewrite Esp. destruct Hok as (Hb & Hl & Hu).
    destruct (skip_zeros_spec (reverse (take (Z.to_nat len) rb))) as (H1 & H2 & H3).
    { by apply Forall_reverse, Forall_take. }
    eexists. split; [done|]. split_and!; [done..|]. rewrite H3, be_value_reverse.
    assert (Ev : le_value rb = le_value (take (Z.to_nat len) rb)).
    { rewrite <- (take_drop (Z.to_nat len) rb) at 1. rewrite le_value_app.
      rewrite (le_value_zero (drop _ _)) by done. lia. }
    rewrite <- Ev, Hv. unfold base58_value.
    by rewrite (le_value_zero (replicate _ _)) by (by apply Forall_replicate).
Qed.

(** What the loop leaves unread, whatever the buffer holds *)
Lemma digits_loop_rest s rb len rest rb' len' :
  digits_loop s rb len = Some (rest, rb', len') ->
  exists ds, s = ds ++ rest /\ Forall base58_char ds.
Proof.
  revert rb len. induction s as [|c s IH]; intros rb len H; simpl in H.
  { injection H as <- _ _. by exists []. }
  destruct (isspace c).
  { injection H as <- _ _. by exists []. }
  destruct (digit_spec c) as [(Hc & Hd & _)|[_ Hd]]; [|by rewrite Hd in H].
  rewrite (proj2 (Z.eqb_neq _ _)) in H by lia.
  destruct (carry_loop rb 0 len (digit c)) as [[rb1 c1] i1].
  destruct (negb (c1 =? 0)); [done|]. apply IH in H as (ds & -> & Hds).
  exists (c :: ds). split; [done|by constructor].
Qed.

Lemma all_skipped P s : skip P s = [] -> Forall (fun c => P c = true) s.
Proof.
  intros E. destruct (skip_spec P s) as (l & El & Hl & _). rewrite E, app_nil_r in El. by subst.
Qed.

(** C23 (base 58).  The decoder accepts exactly the texts that are, between white
    space, some digits 1 followed by base-58 digits, and returns a zero byte for each leading 1
    and then the bytes of the number the digits denote, most significant first and without leading
    zeros.  The buffer it allocates is always large enough. *)
Theorem DecodeBase58_exact psz v :
  size psz < 2 ^ 21 ->
  DecodeBase58 psz = Some v <->
  exists sp1 z ds sp2 m,
    psz = sp1 ++ replicate z "1"%char ++ ds ++ sp2 /\ spaces sp1 /\ spaces sp2 /\
    Forall base58_char ds /\ head ds <> Some "1"%char /\
    v = replicate z 0 ++ m /\ Forall is_byte m /\ head m <> Some 0 /\
    be_value m = base58_value ds.
Proof.
  intros Hs. split.
  - intros H. destruct (skip_spec isspace psz) as (sp1 & E1 & Hsp1 & _).
    destruct (skip_spec is_one (skip isspace psz)) as (ones & E2 & Hones & Hhead).
    assert (Hz : ones = replicate (length ones) "1"%char).
    { symmetry. apply replicate_as_Forall. split; [done|]. eapply Forall_impl; [done|].
      intros c Hc. by apply bool_decide_eq_true in Hc. }
    assert (Hr : exists ds sp2, skip is_one (skip isspace psz) = ds ++ sp2 /\
      Forall base58_char ds /\ spaces sp2).
    { unfold DecodeBase58 in H. fold is_one in H. cbv zeta in H.
      destruct (digits_loop (skip is_one (skip isspace psz)) _ _) as [[[rest rb] len]|] eqn:E; [|done].
      cbn [mbind option_bind] in H. destruct (skip isspace rest) eqn:Er; [|done].
      apply digits_loop_rest in E as (ds & E & Hds). exists ds, rest.
      split_and!; [done|done|by apply all_skipped]. }
    destruct Hr as (ds & sp2 & E3 & Hds & Hsp2).
    assert (Hh : head ds <> Some "1"%char).
    { destruct ds as [|d ds]; [done|]. intros [= ->]. rewrite E3 in Hhead.
      by specialize (Hhead _ eq_refl). }
    assert (Ep : psz = sp1 ++ replicate (length ones) "1"%char ++ ds ++ sp2)
      by (rewrite <- Hz, <- E3, <- E2; done).
    destruct (DecodeBase58_parts sp1 (length ones) ds sp2) as (m & Em & Hm); [by rewrite <- Ep|done..|].
    rewrite <- Ep, H in Em. injection Em as Em.
    exists sp1, (length ones), ds, sp2, m. by destruct Hm as (? & ? & ?).
  - intros (sp1 & z & ds & sp2 & m & -> & Hsp1 & Hsp2 & Hds & Hh & -> & Hm & Hhm & Hv).
    destruct (DecodeBase58_parts sp1 z ds sp2) as (m' & Em & Hm' & Hhm' & Hv'); [done..|].
    rewrite Em. by rewrite (be_value_inj m m') by (done || congruence).
Qed.

Lemma DecodeBase58_exact_witness :
  DecodeBase58 (list_ascii_of_string " 112gE5Q ") = Some [0; 0; 1; 33; 116; 251].
Proof.
  apply DecodeBase58_exact; [vm_compute; reflexivity|].
  exists [" "%char], 2%nat, (list_ascii_of_string "2gE5Q"), [" "%char], [1; 33; 116; 251].
  split_and!; try reflexivity; try (repeat constructor; lia); try done.
Defined.

(** Keys without checksum.  A text with the prefix whose base-58 digits denote 37 bytes is
    accepted as the key of the first 33, whatever the other four are: they are the checksum of
    the encoding, and it is never computed. *)
Theorem str_to_pubkey_any_checksum ds m c :
  Forall base58_char ds -> head ds <> Some "1"%char -> size ds < 2 ^ 21 ->
  Forall is_byte (m ++ c) -> length m = 33%nat -> length c = 4%nat -> head m <> Some 0 ->
  be_value (m ++ c) = base58_value ds ->
  str_to_pubkey (pubkey_prefix ++ ds) = Ok (K1 m).
Proof.
  intros Hds Hh Hs Hb Hm Hc Hhm Hv. unfold str_to_pubkey.
  assert (E1 : substr (pubkey_prefix ++ ds) 0 (size pubkey_prefix) = pubkey_prefix)
    by (by apply (substr_middle [] pubkey_prefix)).
  assert (E2 : substr (pubkey_prefix ++ ds) (size pubkey_prefix) npos = ds)
    by (apply substr_rest; [done|unfold npos, uint32_max; lia]).
  rewrite E1, E2, bool_decide_true, (proj2 (Z.leb_le _ _)) by (done || (rewrite size_app; unfold size; lia)).
  cbn [andb check mbind result_bind].
  assert (Ec : c_str ds = ds).
  { clear - Hds. induction Hds as [|x ds Hx Hds IH]; [done|]. simpl.
    rewrite bool_decide_false, IH; [done|]. intros ->.
    destruct (digit_spec zero) as [(_ & H & _)|[? _]]; [by vm_compute in H; destruct H|done]. }
  assert (Ed : DecodeBase58 ds = Some (m ++ c)).
  { apply DecodeBase58_exact; [done|]. exists [], O, ds, [], (m ++ c). rewrite app_nil_r.
    assert (head (m ++ c) <> Some 0) by (destruct m; [done|exact Hhm]).
    by repeat split; try constructor. }
  unfold decode_base58. rewrite Ec, Ed. cbn [get_or mbind result_bind].
  rewrite length_app, Hm, Hc. change (Z.of_nat (33 + 4) =? 37) with true.
  cbn [check mbind result_bind]. by rewrite take_app_length'.
Qed.

Lemma str_to_pubkey_any_checksum_witness :
  str_to_pubkey (list_ascii_of_string
    "FU4tw6e36FfsDL3C8YZXGwhpPRYydrvZkSzYtmo7gMxG21T5bbkj") = Ok (K1 (2 :: (Z.of_nat <$> seq 1 32))).
Proof.
  apply (str_to_pubkey_any_checksum
    (list_ascii_of_string "4tw6e36FfsDL3C8YZXGwhpPRYydrvZkSzYtmo7gMxG21T5bbkj")
    (2 :: (Z.of_nat <$> seq 1 32)) [0; 0; 0; 0]).
  all: try reflexivity; try discriminate.
  - apply (Forall_impl (fun c => In c pszBase58)); [|intros; by apply list_elem_of_In].
    repeat (constructor; [vm_compute; tauto|]). constructor.
  - vm_compute. repeat constructor; discriminate.
Defined.
