(* ===== verification/WasmDb.v ===== *)
(** * pubkey.token: the generic table access

    [contracts/pubkey.token/include/wasm_db.hpp]: the class [dbc] reads and writes rows of any
    record type through the table of its [idx_t], in the contract's own scope or in a
    given one.  [code] is the contract's account; the tables of one record type are a map
    from scopes to maps from primary keys to rows.  Who pays for the memory of a row is
    not modelled. *)
From S2P Require Import Prelude Cdt.
From Stdlib Require Import ZArith Lia.
From stdpp Require Import base tactics numbers list gmap.
Open Scope Z_scope.

Inductive return_t : Type := NONE | MODIFIED | APPENDED.

(** What the templates use of [RecordType] *)
Class RecordType (V : Type) : Type := {
  primary_key : V -> Z;
  record_scope : V -> Z;
}.

Section dbc.
Context {V : Type} {record_type : RecordType V} (code : name).
Abbreviation tables := (gmap Z (gmap Z V)).
Implicit Types (db : tables) (record : V).

(** [idx_t idx(code, scope)] *)
Definition open_idx (scope : Z) (db : tables) : gmap Z V := default ∅ (db !! scope).

(** [get(scope, record)] replaces the record and returns true, or leaves it. *)
Definition get_scoped (scope : Z) (record : V) (db : tables) : bool * V :=
  let idx := open_idx scope db in
  match idx !! primary_key record with
  | None => (false, record)
  | Some row => (true, row)
  end.
Definition get (record : V) (db : tables) : bool * V := get_scoped code record db.

Definition get_idx (record : V) (db : tables) : gmap Z V :=
  let scope := record_scope record in
  let scope := if scope =? 0 then code else scope in
  open_idx scope db.

(** The three overloads of [set]; [modify] keeps the primary key, as the record has it. *)
Definition set_scoped (scope : Z) (record : V) (db : tables) : result (tables * return_t) :=
  let idx := open_idx scope db in
  match idx !! primary_key record with
  | Some _ => mret (<[scope := <[primary_key record := record]> idx]> db, MODIFIED)
  | None =>
      idx ← emplace idx (primary_key record) record;
      mret (<[scope := idx]> db, APPENDED)
  end.
Definition set (record : V) (db : tables) : result (tables * return_t) :=
  set_scoped code record db.
Definition set_paid (rampayer : name) (record : V) (db : tables) : result (tables * return_t) :=
  set_scoped code record db.

Definition del_scope (scope : Z) (record : V) (db : tables) : tables :=
  let idx := open_idx scope db in
  match idx !! primary_key record with
  | Some _ => <[scope := delete (primary_key record) idx]> db
  | None => db
  end.
Definition del (record : V) (db : tables) : tables := del_scope code record db.

(** ** A map from scope and key to the last record set *)

Definition row_at (db : tables) (at_ : Z * Z) : option V := open_idx at_.1 db !! at_.2.

Lemma dbc_row_at_insert db scope idx p :
  row_at (<[scope := idx]> db) p = if p.1 =? scope then idx !! p.2 else row_at db p.
Proof.
  unfold row_at, open_idx. destruct (Z.eqb_spec p.1 scope) as [->|Hn].
  - by rewrite lookup_insert_eq.
  - by rewrite lookup_insert_ne.
Qed.

(** The tables are a map.  Setting a record never fails, says whether there was
    one before, is read back by [get], and changes no other row of any scope; deleting it
    removes exactly that row; [get] of a missing row returns false and leaves the record. *)
Theorem dbc_is_map scope record db :
  (exists db' r, set_scoped scope record db = Ok (db', r) /\
    (r = MODIFIED <-> is_Some (row_at db (scope, primary_key record))) /\ r <> NONE /\
    (forall record', primary_key record' = primary_key record ->
      get_scoped scope record' db' = (true, record)) /\
    forall p, row_at db' p =
      if decide (p = (scope, primary_key record)) then Some record else row_at db p) /\
  (forall p, row_at (del_scope scope record db) p =
    if decide (p = (scope, primary_key record)) then None else row_at db p) /\
  get_scoped scope record (del_scope scope record db) = (false, record) /\
  (record_scope record = 0 -> get_idx record db = open_idx code db) /\
  (record_scope record <> 0 -> get_idx record db = open_idx (record_scope record) db).
Proof.
  set (k := primary_key record).
  assert (Hset : forall p, row_at (<[scope := <[k := record]> (open_idx scope db)]> db) p =
    if decide (p = (scope, k)) then Some record else row_at db p).
  { intros [s j]. rewrite dbc_row_at_insert. simpl. destruct (Z.eqb_spec s scope) as [->|Hn].
    - destruct (decide (j = k)) as [->|Hj].
      + rewrite decide_True by done. apply lookup_insert_eq.
      + rewrite decide_False by congruence. by rewrite lookup_insert_ne.
    - by rewrite decide_False by congruence. }
  assert (Hdel : forall p, row_at (del_scope scope record db) p =
    if decide (p = (scope, k)) then None else row_at db p).
  { intros [s j]. unfold del_scope. fold k. destruct (open_idx scope db !! k) as [v|] eqn:E.
    - rewrite dbc_row_at_insert. simpl. destruct (Z.eqb_spec s scope) as [->|Hn].
      + destruct (decide (j = k)) as [->|Hj].
        * rewrite decide_True by done. apply lookup_delete_eq.
        * rewrite decide_False by congruence. by rewrite lookup_delete_ne.
      + by rewrite decide_False by congruence.
    - destruct (decide (_ = _)) as [[= -> ->]|]; done. }
  split_and!.
  - exists (<[scope := <[k := record]> (open_idx scope db)]> db).
    exists (match open_idx scope db !! k with Some _ => MODIFIED | None => APPENDED end).
    unfold set_scoped, emplace, row_at. fold k. simpl.
    split; [by destruct (open_idx scope db !! k)|].
    split; [destruct (open_idx scope db !! k); split; naive_solver|].
    split; [by destruct (open_idx scope db !! k)|]. split; [|exact Hset].
    intros record' E. specialize (Hset (scope, k)). unfold row_at in Hset. simpl in Hset.
    unfold get_scoped. rewrite E. fold k. rewrite Hset. by rewrite decide_True.
  - exact Hdel.
  - specialize (Hdel (scope, k)). unfold row_at in Hdel. simpl in Hdel.
    unfold get_scoped. fold k. rewrite Hdel. by rewrite decide_True.
  - unfold get_idx. by intros ->.
  - unfold get_idx. intros Hn. by rewrite (proj2 (Z.eqb_neq _ _)).
Qed.
End dbc.
