(* ===== verification/PubkeyToken.v ===== *)
(** * pubkey.token

    [contracts/pubkey.token/src/pubkey.token.cpp] with the rows of [pubkey.token.db.hpp]: tokens
    sent to the contract with a public key as memo are held for the holder of the key,
    whom a miner pays out for a fee.

    A row is found by the hash of the memory its key object occupies
    ([reinterpret_cast<const char *>(&pubkey), sizeof(pubkey)]), which is not determined by the
    key alone: [key_object] is the memory of an action's own key object, [row_object] that
    of a row's, at the time of the action. *)
From Stdlib Require Import ZArith Lia String Ascii.
From stdpp Require Import base tactics numbers list gmap strings.
From S2P Require Import Prelude Table Cdt CdtRef Utils Base58.
Open Scope Z_scope.

(** ** Rows and state *)

Record pubkey_account_t : Type := PubkeyAccount {
  id : Z;                                (* uint64_t *)
  pubkey : public_key;
  quantity : asset;
  last_recv_at : time_point;
}.

Record global_t : Type := Global {
  admin : name;
  last_idx : Z;                          (* uint64_t *)
  miner_fee : asset;
}.

(** The tables, and the contract object: [global] is the stored singleton, and each row has
    its entry in the index [by.pubkey]. *)
Record state : Type := State {
  global : option global_t;
  pubkey_accts : gmap Z (pubkey_account_t * bytes);
}.
Definition init_state : state := State None ∅.
Definition by_pubkey_key (r : pubkey_account_t * bytes) : bytes := r.2.

(** The memory of the key objects during one action *)
Record objects : Type := Objects {
  key_object : public_key -> bytes;
  row_object : public_key -> bytes;
}.

(** What the contract takes from the toolkit and its host: the constant [FLON_SYMBOL], whether
    a signature of a digest recovers to a key, and keys as action data *)
Class Keys : Type := {
  FLON_SYMBOL : symbol;
  recovers : bytes -> bytes -> public_key -> bool;
  signature_default : bytes;
  pack_key : public_key -> bytes;
}.
Class KeysLaws `{Cdt} `{Keys} : Prop := {
  law_flon_symbol : symbol_valid FLON_SYMBOL = true;
}.

(** [enum class err] *)
Inductive err : Type :=
| NONE | RECORD_NOT_FOUND | RECORD_EXISTING | ADDRESS_ILLEGAL | SYMBOL_MISMATCH
| ADDRESS_MISMATCH | NOT_COMMON_XIN | STATUS_INCORRECT | PARAM_INCORRECT | NO_AUTH.
Definition err_code (e : err) : string :=
  match e with
  | NONE => "0" | RECORD_NOT_FOUND => "1" | RECORD_EXISTING => "2" | ADDRESS_ILLEGAL => "3"
  | SYMBOL_MISMATCH => "4" | ADDRESS_MISMATCH => "5" | NOT_COMMON_XIN => "6"
  | STATUS_INCORRECT => "7" | PARAM_INCORRECT => "8" | NO_AUTH => "9"
  end.
(** [CHECKC] *)
Definition checkc (b : bool) (code : err) (msg : string) : result unit :=
  check b ("$$$" ++ err_code code ++ "$$$ " ++ msg)%string.

Section contract.
Context {cdt : Cdt} {keys : Keys}.

Definition FLON_BANK : name := name_lit "flon.token".
Definition FLON_SYSTEM : name := name_lit "flonian".
Definition active_perm : name := name_lit "active".

Definition assert_recover_key (digest sig : bytes) (k : public_key) : result unit :=
  check (recovers digest sig k) "Error expected key different than recovered key".

(** [TRANSFER] *)
Definition TRANSFER (c : ctx) (bank from to : name) (q : asset) (memo : string) : effect :=
  send bank [PermissionLevel (get_self c) active_perm] (token_transfer from to q memo).

(** The constructor loads the singleton or makes the first one; the destructor stores it. *)
Definition load (c : ctx) (st : state) : result global_t :=
  match global st with
  | Some g => mret g
  | None => fee ← asset_ctor 1000 FLON_SYMBOL; mret (Global (get_self c) 0 fee)
  end.
Definition store (g : global_t) (t : gmap Z (pubkey_account_t * bytes)) : state :=
  State (Some g) t.

Section actions.
Context (c : ctx) (ob : objects).

(** [row.by_pubkey()], computed when a row is written *)
Definition by_pubkey (k : public_key) : bytes := sha256 (row_object ob k).
(** [idx.find(sha256(&pubkey, sizeof(pubkey)))] *)
Definition find_key (k : public_key) (t : gmap Z (pubkey_account_t * bytes))
    : option (Z * pubkey_account_t) :=
  match find_by by_pubkey_key (sha256 (key_object ob k)) t with
  | Some (pk, (row, _)) => Some (pk, row)
  | None => None
  end.

Definition on_pubkey_recv_token (k : public_key) (q : asset) (g : global_t)
    (t : gmap Z (pubkey_account_t * bytes))
    : result (global_t * gmap Z (pubkey_account_t * bytes)) :=
  match find_key k t with
  | None =>
      let idx := u64 (last_idx g + 1) in
      let g := Global (admin g) idx (miner_fee g) in
      t ← emplace t idx (PubkeyAccount idx k q (current_time_point c), by_pubkey k);
      mret (g, t)
  | Some (pk, row) =>
      q' ← asset_add (quantity row) q;
      mret (g, <[pk := (PubkeyAccount (id row) (pubkey row) q' (current_time_point c),
                        by_pubkey (pubkey row))]> t)
  end.

Definition ontransfer (from to : name) (q : asset) (memo : string) (st : state)
    : result (state * list effect) :=
  g ← load c st;
  if negb (to =? get_self c) then mret (store g (pubkey_accts st), [])
  else if from =? get_self c then mret (store g (pubkey_accts st), [])
  else
    ensure get_first_receiver c =? FLON_BANK else "Only `flon.token` is supported";
    ensure negb (asset_symbol q =? FLON_SYMBOL) else "Only FLON tokens are supported";
    k ← str_to_pubkey (list_ascii_of_string memo);
    '(g, t) ← on_pubkey_recv_token k q g (pubkey_accts st);
    mret (store g t, []).

(** The fee to the miner, what is left to the account, and the row erased *)
Definition pay_out (miner to : name) (fee_memo rest_memo : string) (pk : Z)
    (row : pubkey_account_t) (g : global_t) (t : gmap Z (pubkey_account_t * bytes))
    : result (state * list effect) :=
  let fee := TRANSFER c FLON_BANK (get_self c) miner (miner_fee g) fee_memo in
  more ← asset_gt (quantity row) (miner_fee g);
  rest ← (if more : bool then
            left_ ← asset_sub (quantity row) (miner_fee g);
            Ok [TRANSFER c FLON_BANK (get_self c) to left_ rest_memo]
          else Ok []);
  mret (store g (delete pk t), fee :: rest).

Definition newaccount (miner : name) (k : public_key) (acct : name) (sig : bytes) (st : state)
    : result (state * list effect) :=
  g ← load c st;
  require_auth c miner;;
  ensure negb (is_account c acct) else "Account already exists";
  '(pk, row) ← get_or (find_key k (pubkey_accts st)) "pubkey not found";
  enough ← asset_ge (quantity row) (miner_fee g);
  ensure enough else "insufficient proxy miner fees to pay";
  let digest := hash_account acct in
  assert_recover_key digest sig k;;
  let create := send FLON_SYSTEM [PermissionLevel (get_self c) (name_lit "active")]
    (system_newaccount (get_self c) acct (pack_key k) (pack_key k)) in
  '(st, es) ← pay_out miner acct ("newaccount fee: " ++ name_to_string acct)
    "newaccount pubkey token collection" pk row g (pubkey_accts st);
  mret (st, create :: es).

Definition move (miner : name) (k : public_key) (last_recv : time_point) (to_acct : name)
    (sig : bytes) (st : state) : result (state * list effect) :=
  g ← load c st;
  ensure is_account c to_acct else "Account does not exist";
  ensure negb (bool_decide (k = public_key_default)) else "Invalid public key";
  ensure negb (bool_decide (sig = signature_default)) else "Invalid signature";
  '(pk, row) ← get_or (find_key k (pubkey_accts st)) "pubkey not found";
  enough ← asset_ge (quantity row) (miner_fee g);
  ensure enough else "insufficient proxy miner fees to pay";
  let digest := hash_timepoint last_recv in
  assert_recover_key digest sig k;;
  ensure last_recv_at row =? last_recv else "Invalid last transfer time";
  pay_out miner to_acct ("move fee: " ++ name_to_string to_acct)
    "move pubkey tokens to account" pk row g (pubkey_accts st).

Definition check_admin (g : global_t) : result unit :=
  checkc (has_auth c (get_self c) || has_auth c (admin g)) NO_AUTH "no auth for operate".

Definition init (a : name) (st : state) : result (state * list effect) :=
  g ← load c st;
  check_admin g;;
  mret (store (Global a (last_idx g) (miner_fee g)) (pubkey_accts st), []).
End actions.

(** ** The contract's entry points *)

Inductive op : Type :=
| OnTransfer (from to : name) (q : asset) (memo : string)
| Newaccount (miner : name) (k : public_key) (acct : name) (sig : bytes)
| Move (miner : name) (k : public_key) (last_recv : time_point) (to_acct : name) (sig : bytes)
| Init (a : name).

Definition handle (o : ctx * objects * op) (st : state) : result (state * list effect) :=
  let '(c, ob, o) := o in
  match o with
  | OnTransfer from to q memo => ontransfer c ob from to q memo st
  | Newaccount miner k acct sig => newaccount c ob miner k acct sig st
  | Move miner k last_recv to_acct sig => move c ob miner k last_recv to_acct sig st
  | Init a => init c a st
  end.
Definition run (l : list (ctx * objects * op)) : result (state * list effect) :=
  runs handle l init_state.

(** ** Deposits *)

Section laws.
Context {laws : CdtLaws} {klaws : KeysLaws}.

(** Amounts are in range: the bank checks what it transfers, and the fee is constructed. *)
Definition well_formed (st : state) : Prop :=
  (forall g, global st = Some g -> in_range (amount (miner_fee g))) /\
  (forall pk r, pubkey_accts st !! pk = Some r -> in_range (amount (quantity r.1))).
(** What the inverted test of the symbol admits *)
Definition foreign (st : state) : Prop :=
  (forall g, global st = Some g -> asset_symbol (miner_fee g) = FLON_SYMBOL) /\
  (forall pk r, pubkey_accts st !! pk = Some r -> asset_symbol (quantity r.1) <> FLON_SYMBOL).

Definition op_ok (o : op) : Prop :=
  match o with OnTransfer _ _ q _ => in_range (amount q) | _ => True end.

Lemma load_fee c st g :
  well_formed st -> load c st = Ok g ->
  in_range (amount (miner_fee g)) /\
  (foreign st -> asset_symbol (miner_fee g) = FLON_SYMBOL).
Proof.
  unfold load. intros [Hg _] H. destruct (global st) as [g'|] eqn:E.
  - injection H as ->. split; [by apply Hg|]. intros [Hf _]. by apply Hf.
  - ok_inv. match goal with H : asset_ctor _ _ = Ok _ |- _ => apply law_asset_ctor in H as (? & _ & ->) end.
    done.
Qed.

Lemma find_key_Some ob k t pk row :
  find_key ob k t = Some (pk, row) -> t !! pk = Some (row, sha256 (key_object ob k)).
Proof.
  unfold find_key. destruct (find_by _ _ t) as [[pk' [row' h]]|] eqn:E; [|done].
  intros [= -> ->]. by apply find_by_Some in E as [E <-].
Qed.

(** Storing a row that is in range and not in FLON keeps both properties. *)
Lemma store_ok g t pk r :
  in_range (amount (miner_fee g)) -> asset_symbol (miner_fee g) = FLON_SYMBOL ->
  in_range (amount (quantity r.1)) -> asset_symbol (quantity r.1) <> FLON_SYMBOL ->
  well_formed (State None t) -> foreign (State None t) ->
  well_formed (store g (<[pk := r]> t)) /\ foreign (store g (<[pk := r]> t)).
Proof.
  intros Hg1 Hg2 Hr1 Hr2 [_ Hw] [_ Hf]. split; split; simpl.
  - by intros ? [= <-].
  - intros pk' r' H. apply lookup_insert_Some in H as [[_ <-]|[_ H]]; [done|by eapply Hw].
  - by intros ? [= <-].
  - intros pk' r' H. apply lookup_insert_Some in H as [[_ <-]|[_ H]]; [done|by eapply Hf].
Qed.

Lemma store_same g t :
  in_range (amount (miner_fee g)) -> asset_symbol (miner_fee g) = FLON_SYMBOL ->
  well_formed (State None t) -> foreign (State None t) ->
  well_formed (store g t) /\ foreign (store g t).
Proof.
  intros Hg1 Hg2 [_ Hw] [_ Hf]. split; split; simpl; [by intros ? [= <-]|done|by intros ? [= <-]|done].
Qed.

(** Comparing a foreign quantity with the fee aborts. *)
Lemma fee_not_comparable c ob k st g pk row b :
  well_formed st -> foreign st -> load c st = Ok g ->
  find_key ob k (pubkey_accts st) = Some (pk, row) ->
  asset_ge (quantity row) (miner_fee g) <> Ok b.
Proof.
  intros Hw Hf Hl Hk [Hs _]%asset_ge_Ok. apply find_key_Some in Hk.
  destruct (load_fee c st g Hw Hl) as [_ Hfee]. rewrite (Hfee Hf) in Hs.
  destruct Hf as [_ Hf]. by apply Hf in Hk.
Qed.

Lemma no_payout c ob st r :
  well_formed st -> foreign st ->
  (forall miner k acct sig, newaccount c ob miner k acct sig st <> Ok r) /\
  (forall miner k t to sig, move c ob miner k t to sig st <> Ok r).
Proof.
  intros Hw Hf. split.
  - intros miner k acct sig H. unfold newaccount in H.
    apply bind_Ok in H as (g & Hg & H). apply bind_Ok in H as (? & _ & H).
    apply bind_Ok in H as (? & _ & H). apply bind_Ok in H as ([pk row] & Hk%get_or_Ok & H).
    apply bind_Ok in H as (b & Hb & _). by eapply fee_not_comparable.
  - intros miner k t to sig H. unfold move in H.
    apply bind_Ok in H as (g & Hg & H). do 3 apply bind_Ok in H as (? & _ & H).
    apply bind_Ok in H as ([pk row] & Hk%get_or_Ok & H).
    apply bind_Ok in H as (b & Hb & _). by eapply fee_not_comparable.
Qed.

Lemma handle_locked c ob o st st' es :
  well_formed st -> foreign st -> op_ok o -> handle (c, ob, o) st = Ok (st', es) ->
  es = [] /\ well_formed st' /\ foreign st'.
Proof.
  intros Hw Hf Ho H. destruct o as [from to q memo|miner k acct sig|miner k t to sig|a]; simpl in H.
  2: { by apply (no_payout c ob st (st', es) Hw Hf) in H. }
  2: { by apply (no_payout c ob st (st', es) Hw Hf) in H. }
  - unfold ontransfer in H. apply bind_Ok in H as (g & Hg & H).
    destruct (load_fee c st g Hw Hg) as [Hg1 Hg2]. specialize (Hg2 Hf).
    assert (Hs : well_formed (State None (pubkey_accts st)) /\ foreign (State None (pubkey_accts st)))
      by (destruct Hw, Hf; split; by split).
    destruct Hs as [Hs1 Hs2].
    destruct (negb (to =? get_self c)); [injection H as <- <-; split; [done|by apply store_same]|].
    destruct (from =? get_self c); [injection H as <- <-; split; [done|by apply store_same]|].
    apply bind_Ok in H as (? & _ & H). apply bind_Ok in H as (? & Hq & H).
    apply check_Ok, negb_true_iff, Z.eqb_neq in Hq.
    apply bind_Ok in H as (k & _ & H). apply bind_Ok in H as ([g' t] & H & [= <- <-]).
    split; [done|]. unfold on_pubkey_recv_token in H.
    destruct (find_key ob k (pubkey_accts st)) as [[pk row]|] eqn:Ek.
    + apply find_key_Some in Ek. apply bind_Ok in H as (q' & Ha & [= <- <-]).
      destruct Hw as [_ Hw], Hf as [_ Hf]. pose proof (Hw _ _ Ek) as Hr. pose proof (Hf _ _ Ek) as Hr'.
      simpl in Hr, Hr', Ho. apply law_asset_add in Ha as (Hsym & Hin & ->); [|done|by apply in_range_i64].
      by apply store_ok.
    + apply bind_Ok in H as (t' & [_ ->]%emplace_Ok & [= <- <-]). by apply store_ok.
  - unfold init in H. apply bind_Ok in H as (g & Hg & H). apply bind_Ok in H as (? & _ & [= <- <-]).
    destruct (load_fee c st g Hw Hg) as [Hg1 Hg2]. split; [done|].
    destruct Hw, Hf. apply store_same; simpl; [done|by apply Hg2|by split..].
Qed.

Lemma run_locked l st es :
  Forall (fun o => op_ok o.2) l -> run l = Ok (st, es) ->
  es = [] /\ well_formed st /\ foreign st.
Proof.
  revert st es. induction l as [|[[c ob] o] l IH] using rev_ind; intros st es Hl H.
  { injection H as <- <-. by repeat split. }
  apply Forall_app in Hl as [Hl Ho]. apply Forall_cons in Ho as [Ho _].
  apply runs_snoc in H as (s1 & es1 & es2 & H1 & H2 & ->).
  destruct (IH _ _ Hl H1) as (-> & Hw & Hf).
  destruct (handle_locked c ob o s1 st es2 Hw Hf Ho H2) as (-> & ? & ?). done.
Qed.

(** C18 (deposits are locked).  The test on the symbol of a deposit is inverted: it turns
    away the token the fee is paid in and admits every other.  So whatever sequence
    of deposits and initialisations the contract has seen, [newaccount] and [move] always abort, with any
    signature, and the contract never sends a token. *)
Theorem deposits_locked l st es c ob r :
  Forall (fun o => op_ok o.2) l -> run l = Ok (st, es) ->
  es = [] /\
  (forall miner k acct sig, newaccount c ob miner k acct sig st <> Ok r) /\
  (forall miner k t to sig, move c ob miner k t to sig st <> Ok r).
Proof.
  intros Hl H. destruct (run_locked l st es Hl H) as (-> & Hw & Hf).
  split; [done|]. by apply no_payout.
Qed.

(** ** Paying out *)

Lemma pay_out_exact c miner to m1 m2 pk row g t st' es :
  in_range (amount (quantity row)) -> in_range (amount (miner_fee g)) ->
  amount (miner_fee g) <= amount (quantity row) ->
  pay_out c miner to m1 m2 pk row g t = Ok (st', es) ->
  asset_symbol (quantity row) = asset_symbol (miner_fee g) /\ st' = store g (delete pk t) /\
  transfers_of es =
    (get_self c, miner, miner_fee g) ::
    (if decide (amount (miner_fee g) < amount (quantity row))
     then [(get_self c, to, Asset (amount (quantity row) - amount (miner_fee g))
             (asset_symbol (quantity row)))]
     else []).
Proof.
  intros Hq Hm Hle H. unfold pay_out in H.
  apply bind_Ok in H as (more & [Hs ->]%asset_gt_Ok & H). apply bind_Ok in H as (rest & Hr & [= <- <-]).
  split_and!; [done|done|]. destruct (decide (amount (miner_fee g) < amount (quantity row))) as [Hlt|Hge].
  - rewrite bool_decide_true in Hr by done. apply bind_Ok in Hr as (left_ & Ha & [= <-]).
    apply law_asset_sub in Ha as (_ & _ & ->); [done|done|by apply in_range_i64].
  - rewrite bool_decide_false in Hr by done. by injection Hr as <-.
Qed.

(** A payout to [to]: a row of the key, a signature over what [digest] says, the fee to the
    miner, the rest to the account, and the row gone *)
Definition pays_out (c : ctx) (ob : objects) (miner : name) (k : public_key) (to : name)
    (sig : bytes) (digest : pubkey_account_t -> bytes) (st st' : state)
    (es : list effect) : Prop :=
  exists pk row g,
    pubkey_accts st !! pk = Some (row, sha256 (key_object ob k)) /\ load c st = Ok g /\
    recovers (digest row) sig k = true /\
    asset_symbol (quantity row) = asset_symbol (miner_fee g) /\
    amount (miner_fee g) <= amount (quantity row) /\
    st' = store g (delete pk (pubkey_accts st)) /\
    transfers_of es =
      (get_self c, miner, miner_fee g) ::
      (if decide (amount (miner_fee g) < amount (quantity row))
       then [(get_self c, to, Asset (amount (quantity row) - amount (miner_fee g))
               (asset_symbol (quantity row)))]
       else []).

(** A payout empties its row.  In any state with amounts in range, [newaccount] and
    [move] that succeed pay the fee to the miner and all the rest of the row's tokens to the account, and
    erase the row.  [newaccount] has the miner's authority and a signature over the
    new account's name; [move] has a signature over the time of the last deposit, which is the one
    the row records, and no authority. *)
Theorem payout_exact c ob miner k to sig st st' es :
  well_formed st ->
  (newaccount c ob miner k to sig st = Ok (st', es) ->
     has_auth c miner = true /\ is_account c to = false /\
     pays_out c ob miner k to sig (fun _ => hash_account to) st st' es) /\
  (forall t, move c ob miner k t to sig st = Ok (st', es) ->
     is_account c to = true /\ k <> public_key_default /\ sig <> signature_default /\
     pays_out c ob miner k to sig (fun row => hash_timepoint (last_recv_at row)) st st' es).
Proof.
  intros Hw. split.
  - intros H. unfold newaccount in H. apply bind_Ok in H as (g & Hg & H).
    apply bind_Ok in H as (? & Ha%check_Ok & H). apply bind_Ok in H as (? & Hacc%check_Ok & H).
    apply bind_Ok in H as ([pk row] & Hk%get_or_Ok & H).
    apply bind_Ok in H as (b & [_ ->]%asset_ge_Ok & H).
    apply bind_Ok in H as (? & Hle%check_Ok%bool_decide_eq_true & H).
    apply bind_Ok in H as (? & Hr%check_Ok & H). apply bind_Ok in H as ([st1 es1] & Hp & [= <- <-]).
    apply find_key_Some in Hk. destruct (load_fee c st g Hw Hg) as [Hfee _].
    apply pay_out_exact in Hp as (Hs & -> & He); [|by destruct Hw as [_ Hw]; apply Hw in Hk|done|done].
    split; [done|]. split; [by apply negb_true_iff|]. exists pk, row, g. by repeat split.
  - intros t H. unfold move in H. apply bind_Ok in H as (g & Hg & H).
    apply bind_Ok in H as (? & Hacc%check_Ok & H).
    apply bind_Ok in H as (? & Hkey%check_Ok%negb_true_iff%bool_decide_eq_false & H).
    apply bind_Ok in H as (? & Hsig%check_Ok%negb_true_iff%bool_decide_eq_false & H).
    apply bind_Ok in H as ([pk row] & Hk%get_or_Ok & H).
    apply bind_Ok in H as (b & [_ ->]%asset_ge_Ok & H).
    apply bind_Ok in H as (? & Hle%check_Ok%bool_decide_eq_true & H).
    apply bind_Ok in H as (? & Hr%check_Ok & H).
    apply bind_Ok in H as (? & Ht%check_Ok%Z.eqb_eq & Hp). subst t.
    apply find_key_Some in Hk. destruct (load_fee c st g Hw Hg) as [Hfee _].
    apply pay_out_exact in Hp as (Hs & -> & He); [|by destruct Hw as [_ Hw]; apply Hw in Hk|done|done].
    split_and!; [done..|]. exists pk, row, g. by repeat split.
Qed.

(** The destination is not signed.  A call of [move] that succeeds also succeeds with any other
    miner and any other existing account in its place, under the same signature and
    without further authority, and the same amounts go to them. *)
Theorem move_destination_not_signed c ob miner k t to sig st st' es miner2 to2 :
  move c ob miner k t to sig st = Ok (st', es) -> is_account c to2 = true ->
  exists es2, move c ob miner2 k t to2 sig st = Ok (st', es2) /\
    snd <$> transfers_of es2 = snd <$> transfers_of es /\
    forall f d q, (f, d, q) ∈ transfers_of es2 -> d = miner2 \/ d = to2.
Proof.
  intros H Hto2. unfold move in *. apply bind_Ok in H as (g & Hg & H).
  rewrite Hg. cbn [mbind result_bind]. rewrite Hto2. cbn [check mbind result_bind].
  apply bind_Ok in H as (? & _ & H).
  apply bind_Ok in H as (? & Hkey & H). rewrite Hkey. cbn [mbind result_bind].
  apply bind_Ok in H as (? & Hsig & H). rewrite Hsig. cbn [mbind result_bind].
  apply bind_Ok in H as ([pk row] & Hk & H). rewrite Hk. cbn [mbind result_bind].
  apply bind_Ok in H as (b & Hb & H). rewrite Hb. cbn [mbind result_bind].
  apply bind_Ok in H as (? & Hle & H). rewrite Hle. cbn [mbind result_bind].
  apply bind_Ok in H as (? & Hr & H). rewrite Hr. cbn [mbind result_bind].
  apply bind_Ok in H as (? & Ht & H). rewrite Ht. cbn [mbind result_bind].
  unfold pay_out in *. apply bind_Ok in H as (more & Hm & H). rewrite Hm. cbn [mbind result_bind].
  destruct more.
  - apply bind_Ok in H as (rest & Hr2 & [= <- <-]). apply bind_Ok in Hr2 as (left_ & Hl & [= <-]).
    rewrite Hl. cbn [mbind result_bind]. eexists. split; [done|]. split; [done|]. simpl. set_solver.
  - injection H as <- <-. eexists. split; [done|]. split; [done|]. simpl. set_solver.
Qed.
End laws.
End contract.

(** ** An instance, and examples *)

#[export] Instance ref_keys : Keys := {|
  FLON_SYMBOL := 0x4e4f4c46 * 256 + 4;
  recovers := fun digest sig k => bool_decide (sig = digest ++ [1]);
  signature_default := [];
  pack_key := fun k => match k with K1 d | R1 d | WebAuthn d => d end;
|}.
#[export] Instance ref_keys_laws : KeysLaws.
Proof. by split. Qed.

Module Ex.
Definition self : name := 900.
Definition key : public_key := K1 (2 :: (Z.of_nat <$> seq 1 32)).
Definition ob : objects := Objects pack_key pack_key.
Definition ctx_at (now : time_point) : ctx :=
  let c := ref_ctx self now in
  Ctx self (name_lit "flon.token") (has_auth c) (has_permission c) (is_account c)
    now (get_resource_limits c) (accepts_producers c) (indeterminate_i64 c).
Definition memo : string := "FU4tw6e36FfsDL3C8YZXGwhpPRYydrvZkSzYtmo7gMxG21T5bbkj".
(** Two deposits of another token *)
Definition ops : list (ctx * objects * op) :=
  [(ctx_at 1000000, ob, OnTransfer 5 self (Asset 300 (0x4b4f * 256 + 2)) memo);
   (ctx_at 2000000, ob, OnTransfer 5 self (Asset 40 (0x4b4f * 256 + 2)) memo)].
(** A row that holds the fee's token *)
Definition row : pubkey_account_t := PubkeyAccount 1 key (Asset 2500 FLON_SYMBOL) 2000000.
Definition funded : state :=
  State (Some (Global self 1 (Asset 1000 FLON_SYMBOL))) {[1 := (row, pack_key key)]}.
End Ex.

Lemma deposits_locked_witness :
  exists st, run Ex.ops = Ok (st, []) /\ is_Some (pubkey_accts st !! 1) /\
    forall r miner acct sig, newaccount (Ex.ctx_at 3000000) Ex.ob miner Ex.key acct sig st <> Ok r.
Proof.
  eexists. split; [vm_compute; reflexivity|]. split; [vm_compute; eauto|].
  intros r miner acct sig.
  refine (proj1 (proj2 (deposits_locked Ex.ops _ [] (Ex.ctx_at 3000000) Ex.ob r _ _)) _ _ _ _).
  - repeat constructor; vm_compute; discriminate.
  - vm_compute. reflexivity.
Defined.

Lemma funded_well_formed : well_formed Ex.funded.
Proof.
  split.
  - intros g [= <-]. unfold_range. simpl. lia.
  - intros pk r H. unfold Ex.funded in H. simpl in H. apply lookup_singleton_Some in H as [_ <-]. unfold_range. simpl. lia.
Qed.

Lemma payout_exact_witness :
  exists st es, move (Ex.ctx_at 3000000) Ex.ob 7 Ex.key 2000000 8
      (hash_timepoint 2000000 ++ [1]) Ex.funded = Ok (st, es) /\
    pays_out (Ex.ctx_at 3000000) Ex.ob 7 Ex.key 8 (hash_timepoint 2000000 ++ [1])
      (fun r => hash_timepoint (last_recv_at r)) Ex.funded st es.
Proof.
  eexists _, _. split; [vm_compute; reflexivity|].
  refine (proj2 (proj2 (proj2 (proj2 (payout_exact _ Ex.ob 7 Ex.key 8 _ Ex.funded _ _ _) 2000000 _)))).
  - exact funded_well_formed.
  - vm_compute. reflexivity.
Defined.

Lemma move_destination_not_signed_witness :
  exists st es, move (Ex.ctx_at 3000000) Ex.ob 66 Ex.key 2000000 67
      (hash_timepoint 2000000 ++ [1]) Ex.funded = Ok (st, es).
Proof.
  eexists.
  edestruct (move_destination_not_signed (Ex.ctx_at 3000000) Ex.ob 7 Ex.key 2000000 8
    (hash_timepoint 2000000 ++ [1]) Ex.funded) as (es2 & H & _).
  - vm_compute. reflexivity.
  - reflexivity.
  - exists es2. exact H.
Defined.
