(* ===== verification/Reward.v ===== *)
(** * flon.reward: distribution of block rewards to voters

    [contracts/flon.reward/src/flon.reward.cpp] with the tables of its header.  A producer
    transfers rewards to the contract; [rewards_per_vote] accumulates, scaled by 10^18,
    what one vote has earned since the beginning; a voter's entry for a producer remembers
    the accumulator's value at the last settlement.  The operations come first, then the
    accounting invariant, then the theorems. *)
From S2P Require Import Prelude Cdt CdtRef.
From Stdlib Require Import ZArith Lia String.
From stdpp Require Import base tactics numbers list gmap.
Open Scope Z_scope.

(** [HIGH_PRECISION]: 10^18 *)
Definition HIGH_PRECISION : Z := 1000000000000000000.

(** ** Tables *)

Record producer : Type := Producer {
  owner : name;
  is_registered : bool;
  total_rewards : asset;
  allocating_rewards : asset;
  allocated_rewards : asset;
  votes : Z;                 (* int64_t *)
  rewards_per_vote : Z;      (* int128_t *)
  update_at : block_timestamp;
}.

Record voted_producer_info : Type := VotedProducerInfo { last_rewards_per_vote : Z }.

Record voter : Type := Voter {
  v_owner : name;
  v_votes : Z;               (* int64_t, without initialiser *)
  v_producers : list (name * voted_producer_info);   (* std::map *)
  unclaimed_rewards : asset;
  claimed_rewards : asset;
  v_update_at : block_timestamp;
}.

Record state : Type := State {
  global : option asset;     (* the singleton's [total_rewards] *)
  voters : gmap name voter;
  producers : gmap name producer;
}.

Definition init_state : state := State None ∅ ∅.

(** The rows a [multi_index::emplace] hands to its lambda *)
Definition producer_default : producer :=
  Producer 0 false asset_default asset_default asset_default 0 0 0.
Definition voter_default (c : ctx) : voter :=
  Voter 0 (indeterminate_i64 c) [] asset_default asset_default 0.

Section operations.
Context {cdt : Cdt}.

Definition SYSTEM_CONTRACT : name := name_lit "flon".
Definition CORE_TOKEN : name := name_lit "flon.token".
Definition ACTIVE_PERM : name := name_lit "active".

(** The constructor: [_gstate = _global.exists() ? _global.get() : global_state{}] *)
Definition gstate (st : state) : asset := default asset_default (global st).
Definition core_symbol (st : state) : symbol := asset_symbol (gstate st).

Definition check_init (st : state) : result unit :=
  check (symbol_valid (asset_symbol (gstate st))) "reward contract has not been initialized".

Definition is_producer_registered (st : state) (p : name) : bool :=
  match producers st !! p with Some row => is_registered row | None => false end.

(** [db::set]: emplace or modify a row; the setter also computes what its lambda captures
    by reference. *)
Definition db_set {row X : Type} (tbl : gmap name row) (k : name) (fresh : row)
    (primary_key : row -> name) (setter : row -> bool -> result (row * X))
    : result (gmap name row * X) :=
  match tbl !! k with
  | None =>
      '(r, x) ← setter fresh true;
      tbl' ← emplace tbl (primary_key r) r;
      mret (tbl', x)
  | Some r =>
      '(r', x) ← setter r false;
      mret (<[k := r']> tbl, x)
  end.

Definition calc_rewards_per_vote (old_rewards_per_vote : Z) (rewards : asset) (votes : Z)
    : result Z :=
  ensure (0 <=? amount rewards) && (0 <=? votes) else "rewards.amount >= 0 && votes >= 0";
  if (0 <? amount rewards) && (0 <? votes) then
    let n := i128 (old_rewards_per_vote +
                   Z.quot (i128 (amount rewards * HIGH_PRECISION)) votes) in
    ensure old_rewards_per_vote <=? n else "calculated rewards_per_vote overflow";
    mret n
  else mret old_rewards_per_vote.

Definition calc_voter_rewards (core : symbol) (votes rewards_per_vote : Z) : result asset :=
  ensure (0 <=? votes) && (0 <=? rewards_per_vote) else "votes >= 0 && rewards_per_vote >= 0";
  let product := i128 (votes * rewards_per_vote) in
  ensure rewards_per_vote <=? product else "calculated rewards overflow";
  let rewards := Z.quot product HIGH_PRECISION in
  ensure (0 <=? rewards) && (rewards <=? int64_max) else "calculated rewards overflow";
  asset_ctor rewards core.

(** What the lambdas of [allocate_producer_rewards] and [regproducer] do to a new row *)
Definition new_producer_row (core : symbol) (prod_name : name) (p : producer) (is_new : bool)
    : result producer :=
  if is_new then
    zero ← asset_ctor 0 core;
    mret (Producer prod_name (is_registered p) zero zero zero
            (votes p) (rewards_per_vote p) (update_at p))
  else mret p.

(** The rewards of one voter from one producer: the new allocating and allocated rewards
    of the producer and the voter's sum. *)
Definition allocate_rewards (core : symbol) (votes_old delta : Z) (p : producer) (out : asset)
    : result (asset * asset * asset) :=
  if (0 <? delta) && (0 <? votes_old) then
    ensure votes_old <=? votes p else "votes_old <= p.votes";
    new_rewards ← calc_voter_rewards core votes_old delta;
    enough ← asset_ge (allocating_rewards p) new_rewards;
    ensure enough else "producer allocating rewards insufficient";
    allocating ← asset_sub (allocating_rewards p) new_rewards;
    allocated ← asset_add (allocated_rewards p) new_rewards;
    sum ← asset_add allocating allocated;
    balanced ← asset_eq (total_rewards p) sum;
    ensure balanced else "p.total_rewards == p.allocating_rewards + p.allocated_rewards";
    out' ← asset_add out new_rewards;
    mret (allocating, allocated, out')
  else mret (allocating_rewards p, allocated_rewards p, out).

(** The body of the loop of [allocate_producer_rewards] for one producer: the row, the
    rewards added for the voter, the new [last_rewards_per_vote]. *)
Definition allocate_row (c : ctx) (core : symbol) (prod_name : name)
    (votes_old votes_delta last : Z) (out : asset) (row : producer) (is_new : bool)
    : result (producer * (asset * Z)) :=
  p ← new_producer_row core prod_name row is_new;
  ensure last <=? rewards_per_vote p else "last_rewards_per_vote invalid";
  let delta := i128 (rewards_per_vote p - last) in
  '(allocating, allocated, out') ← allocate_rewards core votes_old delta p out;
  let votes' := i64 (votes p + votes_delta) in
  ensure 0 <=? votes' else "producer votes can not be negative";
  mret (Producer (owner p) (is_registered p) (total_rewards p) allocating allocated votes'
          (rewards_per_vote p) (slot_of_time_point (current_time_point c)),
        (out', rewards_per_vote p)).

Fixpoint allocate_producer_rewards (c : ctx) (core : symbol) (tbl : gmap name producer)
    (prods : list (name * voted_producer_info)) (votes_old votes_delta : Z) (out : asset)
    : result (gmap name producer * list (name * voted_producer_info) * asset) :=
  match prods with
  | [] => mret (tbl, [], out)
  | (prod_name, info) :: rest =>
      '(tbl1, (out1, last)) ←
        db_set tbl prod_name producer_default owner
          (allocate_row c core prod_name votes_old votes_delta (last_rewards_per_vote info) out);
      '(tbl2, rest', out2) ←
        allocate_producer_rewards c core tbl1 rest votes_old votes_delta out1;
      mret (tbl2, (prod_name, VotedProducerInfo last) :: rest', out2)
  end.

(** ** Actions *)

Definition init (c : ctx) (st : state) (core : symbol) : result (state * list effect) :=
  _ ← require_auth c SYSTEM_CONTRACT;
  ensure negb (symbol_valid (asset_symbol (gstate st)))
    else "reward contract has already been initialized";
  zero ← asset_ctor 0 core;
  mret (State (Some zero) (voters st) (producers st), []).

Definition regproducer (c : ctx) (st : state) (prod : name) : result (state * list effect) :=
  _ ← check_init st;
  _ ← require_auth c prod;
  ensure is_account c prod else "producer account not found";
  '(tbl, _) ← db_set (producers st) prod producer_default owner (fun p is_new =>
    p ← new_producer_row (core_symbol st) prod p is_new;
    mret (Producer (owner p) true (total_rewards p) (allocating_rewards p)
            (allocated_rewards p) (votes p) (rewards_per_vote p)
            (slot_of_time_point (current_time_point c)), tt));
  mret (State (global st) (voters st) tbl, []).

(** What the lambdas of [change_vote] and [voteproducer] do to a new row *)
Definition new_voter_row (core : symbol) (voter_name : name) (v : voter) (is_new : bool)
    : result voter :=
  if is_new then
    zero ← asset_ctor 0 core;
    mret (Voter voter_name (v_votes v) (v_producers v) zero zero (v_update_at v))
  else mret v.

Definition change_vote (c : ctx) (st : state) (voter_name : name) (votes : Z)
    (is_adding : bool) : result state :=
  _ ← require_auth c SYSTEM_CONTRACT;
  _ ← require_auth c voter_name;
  ensure 0 <? votes else "votes must be positive";
  '(vtbl, ptbl) ← db_set (voters st) voter_name (voter_default c) v_owner (fun v is_new =>
    v ← new_voter_row (core_symbol st) voter_name v is_new;
    votes_delta ← (if is_adding then mret votes
                   else ensure votes <=? v_votes v else "voter's votes insufficent";
                        mret (i64 (- votes)));
    '(ptbl, prods, unclaimed) ←
      allocate_producer_rewards c (core_symbol st) (producers st) (v_producers v)
        (v_votes v) votes_delta (unclaimed_rewards v);
    let votes' := i64 (v_votes v + votes_delta) in
    ensure 0 <=? votes' else "voter's votes can not be negative";
    mret (Voter (v_owner v) votes' prods unclaimed (claimed_rewards v)
            (slot_of_time_point (current_time_point c)), ptbl));
  mret (State (global st) vtbl ptbl).

Definition addvote (c : ctx) (st : state) (voter_name : name) (votes : Z)
    : result (state * list effect) :=
  _ ← check_init st;
  st' ← change_vote c st voter_name votes true;
  mret (st', []).

Definition subvote (c : ctx) (st : state) (voter_name : name) (votes : Z)
    : result (state * list effect) :=
  _ ← check_init st;
  st' ← change_vote c st voter_name votes false;
  mret (st', []).

(** The loop of [voteproducer] over the old map and the new sorted list: the entries kept
    in [v.producers], [removed_prods], [added_prods]. *)
Fixpoint split_votes (old : list (name * voted_producer_info)) : list name ->
    list (name * voted_producer_info) * list (name * voted_producer_info)
    * list (name * voted_producer_info) :=
  fix go (new : list name) :=
    match old, new with
    | [], [] => ([], [], [])
    | (o, info) :: old', n :: new' =>
        if o <? n then
          let '(kept, removed, added) := split_votes old' new in
          (kept, smap_emplace o info removed, added)
        else if n <? o then
          let '(kept, removed, added) := go new' in
          (kept, removed, smap_set n (VotedProducerInfo 0) added)
        else
          let '(kept, removed, added) := split_votes old' new' in
          ((o, info) :: kept, removed, added)
    | (o, info) :: old', [] =>
        let '(kept, removed, added) := split_votes old' [] in
        (kept, smap_emplace o info removed, added)
    | [], n :: new' =>
        let '(kept, removed, added) := go new' in
        (kept, removed, smap_set n (VotedProducerInfo 0) added)
    end.

Definition voteproducer (c : ctx) (st : state) (voter_name : name) (prods : list name)
    : result (state * list effect) :=
  _ ← check_init st;
  _ ← require_auth c SYSTEM_CONTRACT;
  _ ← require_auth c voter_name;
  ensure strictly_sorted prods else "producer votes must be uniqued and sorted";
  let core := core_symbol st in
  '(vtbl, ptbl) ← db_set (voters st) voter_name (voter_default c) v_owner (fun v is_new =>
    v ← new_voter_row core voter_name v is_new;
    let '(kept, removed, added) := split_votes (v_producers v) prods in
    '(tbl1, _, out1) ← allocate_producer_rewards c core (producers st) removed
      (v_votes v) (i64 (- v_votes v)) (unclaimed_rewards v);
    '(tbl2, kept', out2) ← allocate_producer_rewards c core tbl1 kept (v_votes v) 0 out1;
    '(tbl3, added', out3) ← allocate_producer_rewards c core tbl2 added 0 (v_votes v) out2;
    mret (Voter (v_owner v) (v_votes v)
            (fold_left (fun m e => smap_emplace e.1 e.2 m) added' kept')
            out3 (claimed_rewards v) (slot_of_time_point (current_time_point c)), tbl3));
  mret (State (global st) vtbl ptbl, []).

Definition claim_rewards (c : ctx) (st : state) (voter_name : name)
    : result (state * list effect) :=
  v ← get_or (voters st !! voter_name) "voter info not found";
  '(ptbl, prods, unclaimed) ←
    (if 0 <? v_votes v then
       allocate_producer_rewards c (core_symbol st) (producers st) (v_producers v)
         (v_votes v) 0 (unclaimed_rewards v)
     else mret (producers st, v_producers v, unclaimed_rewards v));
  ensure 0 <? amount unclaimed else "no rewards to claim";
  let pay := send CORE_TOKEN [PermissionLevel (get_self c) ACTIVE_PERM]
               (token_transfer (get_self c) voter_name unclaimed "voted rewards") in
  claimed ← asset_add (claimed_rewards v) unclaimed;
  let v' := Voter (v_owner v) (v_votes v) prods (Asset 0 (asset_symbol unclaimed)) claimed
              (slot_of_time_point (current_time_point c)) in
  mret (State (global st) (<[voter_name := v']> (voters st)) ptbl, [pay]).

Definition claimrewards (c : ctx) (st : state) (voter_name : name)
    : result (state * list effect) :=
  _ ← check_init st;
  _ ← require_auth c voter_name;
  claim_rewards c st voter_name.

Definition claimfor (c : ctx) (st : state) (claimer voter_name : name)
    : result (state * list effect) :=
  _ ← check_init st;
  _ ← require_auth c claimer;
  claim_rewards c st voter_name.

(** The notification of a transfer by flon.token *)
Definition ontransfer (c : ctx) (st : state) (from to : name) (quantity : asset)
    (memo : string) : result (state * list effect) :=
  if (get_first_receiver c =? CORE_TOKEN) && (asset_symbol quantity =? core_symbol st)
     && negb (from =? get_self c) && (to =? get_self c) then
    total ← asset_add (gstate st) quantity;
    p ← get_or (producers st !! from) "producer(from) not found";
    ensure is_registered p else "producer(from) not registered";
    total' ← asset_add (total_rewards p) quantity;
    allocating' ← asset_add (allocating_rewards p) quantity;
    rpv ← calc_rewards_per_vote (rewards_per_vote p) quantity (votes p);
    let p' := Producer (owner p) (is_registered p) total' allocating' (allocated_rewards p)
                (votes p) rpv (slot_of_time_point (current_time_point c)) in
    mret (State (Some total) (voters st) (<[from := p']> (producers st)), [])
  else mret (st, []).

End operations.

(** ** Accounting of one producer row

    For one producer row, the stake of one voter is a pair (votes, accumulator at the last
    settlement); [B] and [Q rpv] are the votes of all other voters and what the
    accumulator owes them, scaled by 10^18, when it stands at [rpv]. *)

Record row_ok (core : symbol) (B : Z) (Q : Z -> Z) (p : name) (w last : Z) (row : producer)
    : Prop := {
  ro_owner : owner row = p;
  ro_total_sym : asset_symbol (total_rewards row) = core;
  ro_allocating_sym : asset_symbol (allocating_rewards row) = core;
  ro_allocated_sym : asset_symbol (allocated_rewards row) = core;
  ro_total : amount (total_rewards row) =
    amount (allocating_rewards row) + amount (allocated_rewards row);
  ro_allocating : 0 <= amount (allocating_rewards row);
  ro_allocated : 0 <= amount (allocated_rewards row);
  ro_max : amount (total_rewards row) <= max_amount;
  ro_votes : votes row = B + w;
  ro_B : 0 <= B;
  ro_w : 0 <= w;
  ro_i64 : votes row <= int64_max;
  ro_last : 0 <= last <= rewards_per_vote row;
  ro_rpv : rewards_per_vote row <= amount (total_rewards row) * HIGH_PRECISION;
  ro_Q : 0 <= Q (rewards_per_vote row);
  ro_solvent : Q (rewards_per_vote row) + w * (rewards_per_vote row - last)
    <= amount (allocating_rewards row) * HIGH_PRECISION;
}.

(** The row an operation finds or creates for a producer *)
Definition fresh_row (core : symbol) (p : name) : producer :=
  Producer p false (Asset 0 core) (Asset 0 core) (Asset 0 core) 0 0 0.
Definition row_at (core : symbol) (tbl : gmap name producer) (p : name) : producer :=
  default (fresh_row core p) (tbl !! p).

(** The reward of [w] votes for an increase [d] of the accumulator *)
Definition payout (w d : Z) : Z := w * d / HIGH_PRECISION.

(** Settling one voter's stake with one producer *)
Definition settle (now : block_timestamp) (w d last : Z) (row : producer) : producer :=
  let r := payout w (rewards_per_vote row - last) in
  Producer (owner row) (is_registered row) (total_rewards row)
    (Asset (amount (allocating_rewards row) - r) (asset_symbol (allocating_rewards row)))
    (Asset (amount (allocated_rewards row) + r) (asset_symbol (allocated_rewards row)))
    (votes row + d) (rewards_per_vote row) now.

Lemma payout_bounds core B Q p w last row :
  row_ok core B Q p w last row ->
  0 <= payout w (rewards_per_vote row - last) <= amount (allocating_rewards row) /\
  payout w (rewards_per_vote row - last) * HIGH_PRECISION
    <= w * (rewards_per_vote row - last).
Proof.
  intros []. unfold payout, HIGH_PRECISION in *.
  set (x := w * (rewards_per_vote row - last)) in *.
  assert (0 <= x) by (apply Z.mul_nonneg_nonneg; lia).
  pose proof (Z.mul_div_le x 1000000000000000000 ltac:(lia)).
  pose proof (Z.div_pos x 1000000000000000000 ltac:(lia) ltac:(lia)).
  split; [|lia]. split; [lia|].
  apply Z.div_le_upper_bound; lia.
Qed.

Lemma payout_zero_l d : payout 0 d = 0.
Proof. done. Qed.
Lemma payout_zero_r w : payout w 0 = 0.
Proof. unfold payout. by rewrite Z.mul_0_r. Qed.

(** Settlement keeps the row in order, with the stake settled at the accumulator. *)
Lemma settle_ok core B Q p w last row now d :
  row_ok core B Q p w last row -> 0 <= w + d -> votes row + d <= int64_max ->
  row_ok core B Q p (w + d) (rewards_per_vote row) (settle now w d last row).
Proof.
  intros Hok Hd Hi. pose proof (payout_bounds _ _ _ _ _ _ _ Hok) as [Hb Hs].
  destruct Hok. split; simpl; done || (unfold HIGH_PRECISION in *; lia).
Qed.

(** [db_set] loads the row or a fresh one, runs the setter, stores the row. *)
Lemma db_set_eq {row X : Type} (tbl : gmap name row) k fresh primary_key
    (setter : row -> bool -> result (row * X)) :
  let loaded := default fresh (tbl !! k) in
  let is_new := bool_decide (tbl !! k = None) in
  (forall r x, setter loaded is_new = Ok (r, x) -> primary_key r = k) ->
  db_set tbl k fresh primary_key setter =
  ('(r, x) ← setter loaded is_new; mret (<[k := r]> tbl, x)).
Proof.
  intros loaded is_new Hpk. subst loaded is_new. unfold db_set.
  destruct (tbl !! k) as [r0|] eqn:E; simpl in *; [done|].
  destruct (setter fresh true) as [[r x]|e]; simpl; [|done].
  unfold emplace. by rewrite (Hpk r x eq_refl), E.
Qed.

Section settlement.
Context {cdt : Cdt} {laws : CdtLaws}.

Lemma calc_voter_rewards_spec core w d :
  symbol_valid core = true -> 0 < w -> 0 < d -> w * d <= max_amount * HIGH_PRECISION ->
  calc_voter_rewards core w d = Ok (Asset (payout w d) core).
Proof.
  intros Hc Hw Hd Hwd. unfold calc_voter_rewards, payout.
  assert (Hprod : d <= w * d) by nia.
  set (x := w * d) in *. clearbody x. unfold max_amount, HIGH_PRECISION in Hwd.
  rewrite (proj2 (Z.leb_le 0 w)), (proj2 (Z.leb_le 0 d)) by lia. simpl.
  rewrite i128_id by lia. cmp_true. simpl.
  assert (Hdiv : 0 <= x / HIGH_PRECISION <= max_amount).
  { split; [apply Z.div_pos; unfold HIGH_PRECISION; lia|].
    apply Z.div_le_upper_bound; unfold max_amount, HIGH_PRECISION in *; lia. }
  rewrite Z.quot_div_nonneg by (unfold HIGH_PRECISION; lia).
  unfold int64_max. unfold max_amount in Hdiv. do 2 cmp_true.
  simpl. apply asset_ctor_Ok; [unfold in_range; unfold max_amount in *; lia|done].
Qed.

Lemma add_votes_sign B w d n :
  0 <= B -> 0 <= w -> 0 <= w + d -> n = B + w -> n <= int64_max -> is_i64 d ->
  (0 <=? i64 (n + d)) = bool_decide (n + d <= int64_max) /\
  (n + d <= int64_max -> i64 (n + d) = n + d).
Proof.
  intros HB Hw Hd -> Hn Hi. split.
  - case_bool_decide as E.
    + rewrite i64_id by (unfold_ints; lia). apply Z.leb_le. lia.
    + apply Z.leb_gt. apply Z.nle_gt. intros H. apply E.
      pose proof (i64_range (B + w + d)) as Hr.
      rewrite (i64_add_nonneg (B + w) d) in Hr; [apply Hr| |done|lia|done].
      unfold_ints; lia.
  - intros E. apply i64_id. unfold_ints; lia.
Qed.

Lemma allocate_rewards_spec core B Q p w last row out :
  symbol_valid core = true -> asset_symbol out = core -> 0 <= amount out ->
  amount out + amount (allocating_rewards row) <= max_amount ->
  row_ok core B Q p w last row ->
  let d := rewards_per_vote row - last in
  allocate_rewards core w d row out =
  Ok (Asset (amount (allocating_rewards row) - payout w d) core,
      Asset (amount (allocated_rewards row) + payout w d) core,
      Asset (amount out + payout w d) core).
Proof.
  intros Hcore Hout Hout0 Hmax Hok d.
  pose proof (payout_bounds _ _ _ _ _ _ _ Hok) as [Hpb _]. fold d in Hpb.
  destruct Hok. fold d in ro_solvent0. unfold allocate_rewards.
  destruct ((0 <? d) && (0 <? w)) eqn:Hg; to_prop.
  - destruct Hg as [Hg1 Hg2]. cmp_true. simpl.
    assert (w * d <= max_amount * HIGH_PRECISION) by (unfold HIGH_PRECISION in *; lia).
    rewrite calc_voter_rewards_spec by (done || lia). simpl.
    rewrite (proj2 (asset_ge_Ok _ (Asset _ core) true))
      by (rewrite bool_decide_eq_true_2; simpl; [auto|lia]). simpl.
    rewrite asset_sub_Ok by (simpl; done || unfold_range; lia). simpl.
    do 3 (rewrite asset_add_Ok by (simpl; congruence || unfold_range; lia); simpl).
    rewrite (proj2 (asset_eq_Ok _ _ true))
      by (rewrite bool_decide_eq_true_2; simpl; [split; [congruence|done]|lia]). simpl.
    unfold mret, result_ret. congruence.
  - assert (Hz : payout w d = 0).
    { destruct Hg; [replace d with 0 by lia; apply payout_zero_r
                   |replace w with 0 by lia; apply payout_zero_l]. }
    rewrite Hz, Z.sub_0_r, !Z.add_0_r.
    destruct row as [? ? ? [] [] ? ? ?], out; simpl in *; subst; done.
Qed.

(** One iteration of [allocate_producer_rewards] on a row in order: every check passes but
    possibly the last one, which detects the overflow of the producer's votes. *)
Lemma allocate_row_spec c core B Q p w last row d out r0 is_new :
  symbol_valid core = true -> is_i64 d -> 0 <= w + d ->
  asset_symbol out = core -> 0 <= amount out ->
  amount out + amount (allocating_rewards row) <= max_amount ->
  new_producer_row core p r0 is_new = Ok row ->
  row_ok core B Q p w last row ->
  allocate_row c core p w d last out r0 is_new =
  if bool_decide (votes row + d <= int64_max) then
    Ok (settle (slot_of_time_point (current_time_point c)) w d last row,
        (Asset (amount out + payout w (rewards_per_vote row - last)) core,
         rewards_per_vote row))
  else Err "producer votes can not be negative".
Proof.
  intros Hcore Hd Hwd Hout Hout0 Hmax Hload Hok.
  pose proof (allocate_rewards_spec _ _ _ _ _ _ _ _ Hcore Hout Hout0 Hmax Hok) as Hbody.
  destruct Hok. simpl in Hbody.
  destruct (add_votes_sign B w d (votes row)) as [Hsign Hid]; try done.
  unfold allocate_row. rewrite Hload. simpl. cmp_true. simpl.
  rewrite i128_id by (unfold max_amount, HIGH_PRECISION in *; lia).
  rewrite Hbody. simpl. rewrite Hsign. case_bool_decide as E; [simpl|done].
  rewrite (Hid E). unfold settle. do 2 f_equal. congruence.
Qed.

Lemma new_producer_row_fresh core p :
  symbol_valid core = true ->
  new_producer_row core p producer_default true = Ok (fresh_row core p).
Proof. intros H. unfold new_producer_row. rewrite asset_ctor_Ok; [done|unfold_range; lia|done]. Qed.

End settlement.
