(* ===== verification/RewardInv.v ===== *)
(** * flon.reward: solvency and exact distribution

    The accounting of [Reward.v] lifted from one row to the tables: the loop over a
    voter's producers, the invariant of the contract's state, its preservation by every
    action, and the properties that follow. *)
From S2P Require Import Prelude Cdt CdtRef Reward.
From Stdlib Require Import ZArith Lia String.
From stdpp Require Import base tactics numbers list gmap.
Open Scope Z_scope.

(** ** Stakes *)

(** The votes a voter has on a producer, and the accumulator at the last settlement *)
Definition stake_of (v : voter) (p : name) : Z * Z :=
  match smap_get p (v_producers v) with
  | Some i => (v_votes v, last_rewards_per_vote i)
  | None => (0, 0)
  end.

(** What a stake is worth, scaled by 10^18, when the accumulator stands at [r] *)
Definition accrued (s : Z * Z) (r : Z) : Z := s.1 * (r - s.2).

Definition votes_for (vs : gmap name voter) (p : name) : Z :=
  msum (fun _ v => (stake_of v p).1) vs.
Definition pending_for (vs : gmap name voter) (p : name) (r : Z) : Z :=
  msum (fun _ v => accrued (stake_of v p) r) vs.

(** All rows are in order, when the voter being processed has the stakes [f] and all other
    voters have [B] votes and [Q] pending. *)
Definition table_ok (core : symbol) (B : name -> Z) (Q : name -> Z -> Z)
    (f : name -> Z * Z) (tbl : gmap name producer) : Prop :=
  forall p, row_ok core (B p) (Q p) p (f p).1 (f p).2 (row_at core tbl p).

Definition allocating_sum (tbl : gmap name producer) : Z :=
  msum (fun _ p => amount (allocating_rewards p)) tbl.
Definition allocated_sum (tbl : gmap name producer) : Z :=
  msum (fun _ p => amount (allocated_rewards p)) tbl.
Definition total_sum (tbl : gmap name producer) : Z :=
  msum (fun _ p => amount (total_rewards p)) tbl.

(** ** The loop over a voter's producers *)

(** The stakes after settling those of the list [ps] *)
Definition restake (core : symbol) (tbl : gmap name producer) (w : Z)
    (ps : list (name * voted_producer_info)) (f : name -> Z * Z) (p : name) : Z * Z :=
  if bool_decide (p ∈ ps.*1) then (w, rewards_per_vote (row_at core tbl p)) else f p.

Fixpoint settle_table (core : symbol) (now : block_timestamp) (w d : Z)
    (ps : list (name * voted_producer_info)) (tbl : gmap name producer)
    : gmap name producer :=
  match ps with
  | [] => tbl
  | (p, i) :: ps' =>
      settle_table core now w d ps'
        (<[p := settle now w d (last_rewards_per_vote i) (row_at core tbl p)]> tbl)
  end.

(** The rewards of [w] votes from all producers of the list *)
Definition earned (core : symbol) (tbl : gmap name producer) (w : Z)
    (ps : list (name * voted_producer_info)) : Z :=
  foldr (fun e acc =>
    payout w (rewards_per_vote (row_at core tbl e.1) - last_rewards_per_vote e.2) + acc) 0 ps.

Definition settled_infos (core : symbol) (tbl : gmap name producer)
    (ps : list (name * voted_producer_info)) : list (name * voted_producer_info) :=
  (fun e => (e.1, VotedProducerInfo (rewards_per_vote (row_at core tbl e.1)))) <$> ps.

Definition votes_fit (core : symbol) (tbl : gmap name producer) (d : Z)
    (ps : list (name * voted_producer_info)) : bool :=
  forallb (fun e => bool_decide (votes (row_at core tbl e.1) + d <= int64_max)) ps.

(** What the loop keeps of the table *)
Record same_books (core : symbol) (tbl tbl' : gmap name producer) (paid : Z) : Prop := {
  sb_rpv : forall p,
    rewards_per_vote (row_at core tbl' p) = rewards_per_vote (row_at core tbl p);
  sb_registered : forall p, is_registered (row_at core tbl' p) = is_registered (row_at core tbl p);
  sb_total : total_sum tbl' = total_sum tbl;
  sb_allocating : allocating_sum tbl' = allocating_sum tbl - paid;
  sb_allocated : allocated_sum tbl' = allocated_sum tbl + paid;
}.

Lemma row_at_insert core tbl p r q :
  row_at core (<[p := r]> tbl) q = if bool_decide (p = q) then r else row_at core tbl q.
Proof.
  unfold row_at. case_bool_decide as E; [subst; by rewrite lookup_insert_eq|].
  by rewrite lookup_insert_ne.
Qed.

Lemma msum_row_insert (g : producer -> Z) core tbl p r :
  g (fresh_row core p) = 0 ->
  msum (fun _ => g) (<[p := r]> tbl) = msum (fun _ => g) tbl - g (row_at core tbl p) + g r.
Proof.
  intros H0. unfold row_at. destruct (tbl !! p) eqn:E; simpl.
  - by rewrite (msum_insert_Some _ _ _ _ _ E).
  - rewrite msum_insert_None, H0 by done. lia.
Qed.

Lemma same_books_refl core tbl : same_books core tbl tbl 0.
Proof. by split; try lia. Qed.

Lemma same_books_trans core t1 t2 t3 a b :
  same_books core t1 t2 a -> same_books core t2 t3 b -> same_books core t1 t3 (a + b).
Proof. intros [] []. split; intros; try congruence; try lia. Qed.

Lemma same_books_settle core tbl p now w d last :
  same_books core tbl (<[p := settle now w d last (row_at core tbl p)]> tbl)
    (payout w (rewards_per_vote (row_at core tbl p) - last)).
Proof.
  split; try (intros q; rewrite row_at_insert; case_bool_decide; by subst);
    unfold total_sum, allocating_sum, allocated_sum.
  - rewrite (msum_row_insert (fun p => amount (total_rewards p)) core) by done. simpl; lia.
  - rewrite (msum_row_insert (fun p => amount (allocating_rewards p)) core) by done. simpl; lia.
  - rewrite (msum_row_insert (fun p => amount (allocated_rewards p)) core) by done. simpl; lia.
Qed.

(** The voter's rewards so far and everything still allocating stay below the maximum. *)
Definition out_ok (core : symbol) (tbl : gmap name producer) (out : asset) : Prop :=
  asset_symbol out = core /\ 0 <= amount out /\
  amount out + allocating_sum tbl <= max_amount.

Lemma table_allocating_nonneg core B Q f tbl k r :
  table_ok core B Q f tbl -> tbl !! k = Some r -> 0 <= amount (allocating_rewards r).
Proof.
  intros Ht Hk. specialize (Ht k). unfold row_at in Ht. rewrite Hk in Ht. apply Ht.
Qed.

Lemma allocating_le_sum core B Q f tbl p :
  table_ok core B Q f tbl ->
  amount (allocating_rewards (row_at core tbl p)) <= allocating_sum tbl.
Proof.
  intros Ht. unfold row_at. destruct (tbl !! p) eqn:E; simpl.
  - apply (msum_member (fun _ p => amount (allocating_rewards p)) tbl p); [|done].
    intros k r Hk. by eapply table_allocating_nonneg.
  - apply msum_nonneg. intros k r Hk. by eapply table_allocating_nonneg.
Qed.

Lemma table_ok_ext core B Q f g tbl :
  (forall p, f p = g p) -> table_ok core B Q f tbl -> table_ok core B Q g tbl.
Proof. intros E H p. rewrite <- E. apply H. Qed.

(** Settling one entry keeps the table in order. *)
Lemma table_ok_settle core B Q f tbl p w d last now :
  table_ok core B Q f tbl -> f p = (w, last) -> 0 <= w + d ->
  votes (row_at core tbl p) + d <= int64_max ->
  table_ok core B Q
    (fun q => if bool_decide (p = q) then (w + d, rewards_per_vote (row_at core tbl p)) else f q)
    (<[p := settle now w d last (row_at core tbl p)]> tbl).
Proof.
  intros Ht Hf Hwd Hfit q. rewrite row_at_insert. specialize (Ht q).
  case_bool_decide as E; [subst q|done]. rewrite Hf in Ht. simpl in *. by apply settle_ok.
Qed.

(** The summaries of a list depend on the rows of its keys only. *)
Lemma summaries_ext core t1 t2 w d ps :
  (forall p, p ∈ ps.*1 -> row_at core t1 p = row_at core t2 p) ->
  earned core t1 w ps = earned core t2 w ps /\
  settled_infos core t1 ps = settled_infos core t2 ps /\
  votes_fit core t1 d ps = votes_fit core t2 d ps.
Proof.
  induction ps as [|[p i] ps IH]; intros E; [done|].
  destruct IH as (E1 & E2 & E3); [intros q Hq; apply E; simpl; set_solver|].
  simpl. unfold settled_infos in *. rewrite E1, E2, E3.
  rewrite E by (simpl; set_solver). done.
Qed.

Section loop.
Context {cdt : Cdt} {laws : CdtLaws}.
Context (c : ctx) (core : symbol) (B : name -> Z) (Q : name -> Z -> Z).
Context (Hcore : symbol_valid core = true).
Let now : block_timestamp := slot_of_time_point (current_time_point c).

(** Settling the head of the list: the row is found or created, and settled. *)
Lemma db_set_allocate tbl f p i w d out :
  is_i64 d -> 0 <= w + d -> table_ok core B Q f tbl ->
  f p = (w, last_rewards_per_vote i) -> out_ok core tbl out ->
  let row := row_at core tbl p in
  db_set tbl p producer_default owner
    (allocate_row c core p w d (last_rewards_per_vote i) out) =
  if bool_decide (votes row + d <= int64_max) then
    Ok (<[p := settle now w d (last_rewards_per_vote i) row]> tbl,
        (Asset (amount out + payout w (rewards_per_vote row - last_rewards_per_vote i)) core,
         rewards_per_vote row))
  else Err "producer votes can not be negative".
Proof.
  intros Hd Hwd Ht Hf (Hsym & Hout0 & Hmax) row.
  pose proof (allocating_le_sum core B Q f tbl p Ht) as Hle. fold row in Hle.
  specialize (Ht p). rewrite Hf in Ht. simpl in Ht. fold row in Ht.
  assert (Hload : new_producer_row core p (default producer_default (tbl !! p))
    (bool_decide (tbl !! p = None)) = Ok row).
  { unfold row, row_at. destruct (tbl !! p) eqn:E; simpl; [done|].
    by apply new_producer_row_fresh. }
  pose proof (allocate_row_spec c core _ _ p w _ row d out _ _ Hcore Hd Hwd Hsym Hout0
    ltac:(lia) Hload Ht) as Hrow.
  rewrite db_set_eq; rewrite Hrow.
  - by destruct (bool_decide (votes row + d <= int64_max)).
  - intros r x. destruct (bool_decide (_ <= _)); [|done]. intros [= <- _]. simpl. apply Ht.
Qed.

Lemma loop_spec w d ps : forall tbl f out,
  is_i64 d -> 0 <= w + d -> NoDup ps.*1 ->
  (forall p i, (p, i) ∈ ps -> f p = (w, last_rewards_per_vote i)) ->
  table_ok core B Q f tbl -> out_ok core tbl out ->
  let tbl' := settle_table core now w d ps tbl in
  let out' := Asset (amount out + earned core tbl w ps) core in
  allocate_producer_rewards c core tbl ps w d out =
    (if votes_fit core tbl d ps then Ok (tbl', settled_infos core tbl ps, out')
     else Err "producer votes can not be negative") /\
  (votes_fit core tbl d ps = true ->
    same_books core tbl tbl' (earned core tbl w ps) /\
    table_ok core B Q (restake core tbl (w + d) ps f) tbl' /\ out_ok core tbl' out').
Proof.
  induction ps as [|[p i] ps IH]; intros tbl f out Hd Hwd Hnd Hf Ht Hout; simpl.
  { destruct Hout as (Hsym & Hout). rewrite Z.add_0_r. split.
    - destruct out; simpl in *; by subst.
    - intros _. split; [apply same_books_refl|]. split; [|by split].
      eapply table_ok_ext, Ht. intros q. done. }
  apply NoDup_cons in Hnd as [Hp Hnd]. pose proof (Hf p i ltac:(set_solver)) as Hfp.
  rewrite (db_set_allocate tbl f p i w d out) by done.
  set (row := row_at core tbl p). set (last := last_rewards_per_vote i).
  case_bool_decide as Hfit; simpl; [|done].
  set (tbl1 := <[p := settle now w d last row]> tbl).
  set (pay := payout w (rewards_per_vote row - last)).
  destruct (summaries_ext core tbl1 tbl w d ps) as (E1 & E2 & E3).
  { intros q Hq. unfold tbl1. rewrite row_at_insert, bool_decide_false; [done|]. by intros ->. }
  pose proof (same_books_settle core tbl p now w d last) as Hb1. fold row in Hb1. fold tbl1 in Hb1.
  assert (Hpay : 0 <= pay).
  { pose proof (Ht p) as Hrow. rewrite Hfp in Hrow. by destruct (payout_bounds _ _ _ _ _ _ _ Hrow) as [[? _] _]. }
  destruct (IH tbl1
    (fun q => if bool_decide (p = q) then (w + d, rewards_per_vote row) else f q)
    (Asset (amount out + pay) core) Hd Hwd Hnd) as [Hrun Hok].
  - intros q j Hq. rewrite bool_decide_false; [apply Hf; set_solver|].
    intros ->. apply Hp. apply list_elem_of_fmap. by exists (q, j).
  - by apply (table_ok_settle core B Q f).
  - destruct Hout as (_ & ? & ?). destruct Hb1. unfold out_ok; simpl. fold pay in sb_allocating0. lia.
  - rewrite Hrun. rewrite E1, E2, E3 in *. simpl in *. unfold settled_infos in *.
    fold row. split.
    + destruct (votes_fit core tbl d ps); simpl; [|done].
      replace (amount out + pay + earned core tbl w ps)
        with (amount out + (pay + earned core tbl w ps)) by lia. done.
    + intros Hfits. destruct (Hok Hfits) as (Hb & Ht' & Hout'). split_and!.
      * by eapply same_books_trans.
      * eapply table_ok_ext, Ht'. intros q. unfold restake; simpl.
        destruct (decide (q ∈ ps.*1)) as [Hq|Hq].
        -- rewrite !bool_decide_true by set_solver. f_equal. apply Hb1.
        -- rewrite (bool_decide_false (q ∈ ps.*1)) by done.
           destruct (decide (p = q)) as [<-|Hne].
           ++ rewrite !bool_decide_true by set_solver. done.
           ++ rewrite !bool_decide_false by set_solver. done.
      * destruct Hout' as (? & ? & ?). split_and!; simpl in *; [done|lia..].
Qed.
End loop.

(** ** The state *)

Definition fresh_voter (core : symbol) (k : name) : voter :=
  Voter k 0 [] (Asset 0 core) (Asset 0 core) 0.
Definition voter_at (core : symbol) (vs : gmap name voter) (k : name) : voter :=
  default (fresh_voter core k) (vs !! k).

Record voter_ok (core : symbol) (tbl : gmap name producer) (k : name) (v : voter) : Prop := {
  vo_owner : v_owner v = k;
  vo_votes : 0 <= v_votes v <= int64_max;
  vo_map : smap_ok (v_producers v);
  vo_last : forall p, 0 <= (stake_of v p).2 <= rewards_per_vote (row_at core tbl p);
  vo_unclaimed_sym : asset_symbol (unclaimed_rewards v) = core;
  vo_claimed_sym : asset_symbol (claimed_rewards v) = core;
  vo_unclaimed : 0 <= amount (unclaimed_rewards v);
  vo_claimed : 0 <= amount (claimed_rewards v);
}.

Definition no_stake (p : name) : Z * Z := (0, 0).

(** What voters have been credited: claimed, or waiting to be claimed *)
Definition credited_sum (vs : gmap name voter) : Z :=
  msum (fun _ v => amount (unclaimed_rewards v) + amount (claimed_rewards v)) vs.
Definition unclaimed_sum (vs : gmap name voter) : Z :=
  msum (fun _ v => amount (unclaimed_rewards v)) vs.
Definition claimed_sum (vs : gmap name voter) : Z :=
  msum (fun _ v => amount (claimed_rewards v)) vs.

Record inv_ (core : symbol) (total : Z) (vs : gmap name voter) (tbl : gmap name producer)
    : Prop := {
  inv_rows : table_ok core (votes_for vs) (pending_for vs) no_stake tbl;
  inv_voters : forall k v, vs !! k = Some v -> voter_ok core tbl k v;
  inv_total : total_sum tbl = total;
  inv_max : total <= max_amount;
  inv_credited : allocated_sum tbl = credited_sum vs;
}.

Section invariant.
Context {cdt : Cdt} {laws : CdtLaws}.

Record inv (st : state) : Prop := {
  inv_init : global st = None -> voters st = ∅ /\ producers st = ∅;
  inv_sym : forall g, global st = Some g -> symbol_valid (asset_symbol g) = true;
  inv_core : inv_ (core_symbol st) (amount (gstate st)) (voters st) (producers st);
}.

Lemma reward_voter_ok core total vs tbl k :
  inv_ core total vs tbl -> voter_ok core tbl k (voter_at core vs k).
Proof.
  intros Hi. unfold voter_at. destruct (vs !! k) eqn:E; simpl; [by apply Hi|].
  split; simpl; try done; try (unfold_ints; lia); [constructor|].
  intros p. simpl. destruct (inv_rows _ _ _ _ Hi p). simpl in *. lia.
Qed.

(** The voter being processed against the others *)
Lemma votes_for_split core vs k p :
  votes_for vs p = votes_for (delete k vs) p + (stake_of (voter_at core vs k) p).1.
Proof.
  unfold votes_for, voter_at. destruct (vs !! k) eqn:E; simpl.
  - rewrite (msum_delete _ _ _ _ E). lia.
  - rewrite delete_id by done. simpl. lia.
Qed.

Lemma pending_for_split core vs k p r :
  pending_for vs p r =
  pending_for (delete k vs) p r + accrued (stake_of (voter_at core vs k) p) r.
Proof.
  unfold pending_for, voter_at. destruct (vs !! k) eqn:E; simpl.
  - rewrite (msum_delete _ _ _ _ E). lia.
  - rewrite delete_id by done. unfold accrued; simpl. lia.
Qed.

Lemma stake_nonneg core tbl k v p : voter_ok core tbl k v -> 0 <= (stake_of v p).1.
Proof. intros []. unfold stake_of. destruct (smap_get _ _); simpl; lia. Qed.

Lemma accrued_nonneg core tbl k v p r :
  voter_ok core tbl k v -> rewards_per_vote (row_at core tbl p) <= r ->
  0 <= accrued (stake_of v p) r.
Proof.
  intros Hv Hr. pose proof (stake_nonneg core tbl k v p Hv).
  pose proof (vo_last _ _ _ _ Hv p). unfold accrued. nia.
Qed.

Lemma inv_split core total vs tbl k :
  inv_ core total vs tbl ->
  table_ok core (votes_for (delete k vs)) (pending_for (delete k vs))
    (stake_of (voter_at core vs k)) tbl.
Proof.
  intros Hi p. pose proof (reward_voter_ok _ _ _ _ k Hi) as Hv.
  pose proof (stake_nonneg _ _ _ _ p Hv). pose proof (vo_last _ _ _ _ Hv p).
  destruct (inv_rows _ _ _ _ Hi p).
  rewrite (votes_for_split core vs k p), (pending_for_split core vs k p) in *. simpl in *.
  assert (Hothers : forall k' v', delete k vs !! k' = Some v' -> voter_ok core tbl k' v')
    by (intros k' v' [_ Hk]%lookup_delete_Some; by apply Hi).
  split; try done; try lia.
  - apply msum_nonneg. intros k' v' Hk. eapply stake_nonneg. eauto.
  - apply msum_nonneg. intros k' v' Hk. eapply accrued_nonneg; [eauto|lia].
  - unfold accrued in *. lia.
Qed.

(** Storing the processed voter: the table is in order with all voters counted. *)
Lemma table_ok_join core vs tbl k v :
  table_ok core (votes_for (delete k vs)) (pending_for (delete k vs)) (stake_of v) tbl ->
  table_ok core (votes_for (<[k := v]> vs)) (pending_for (<[k := v]> vs)) no_stake tbl.
Proof.
  intros Ht p. specialize (Ht p). destruct Ht.
  assert (Hat : voter_at core (<[k := v]> vs) k = v)
    by (unfold voter_at; by rewrite lookup_insert_eq).
  pose proof (votes_for_split core (<[k := v]> vs) k p) as E1.
  pose proof (fun r => pending_for_split core (<[k := v]> vs) k p r) as E2.
  rewrite delete_insert_eq, Hat in E1. setoid_rewrite delete_insert_eq in E2. rewrite Hat in E2.
  split; rewrite ?E1, ?E2; unfold accrued, no_stake in *; simpl; try done; lia || nia.
Qed.

(** Storing the processed voter keeps the invariant when his new stakes are in order and
    what he was credited is what was allocated. *)
Lemma store_voter core total vs tbl k v tbl' paid :
  inv_ core total vs tbl -> same_books core tbl tbl' paid ->
  table_ok core (votes_for (delete k vs)) (pending_for (delete k vs)) (stake_of v) tbl' ->
  v_owner v = k -> 0 <= v_votes v <= int64_max -> smap_ok (v_producers v) ->
  asset_symbol (unclaimed_rewards v) = core -> asset_symbol (claimed_rewards v) = core ->
  0 <= amount (unclaimed_rewards v) -> 0 <= amount (claimed_rewards v) ->
  let v0 := voter_at core vs k in
  amount (unclaimed_rewards v) + amount (claimed_rewards v) =
    amount (unclaimed_rewards v0) + amount (claimed_rewards v0) + paid ->
  inv_ core total (<[k := v]> vs) tbl'.
Proof.
  intros Hi Hb Ht Hk Hw Hm Hs1 Hs2 Hu Hc v0 Hpaid. pose proof Hb as []. destruct Hi. split.
  - by apply table_ok_join.
  - intros k' v' [[<- <-]|[Hne Hk']]%lookup_insert_Some.
    + split; try done. intros p. apply (Ht p).
    + destruct (inv_voters0 _ _ Hk'). split; try done. intros p. by rewrite sb_rpv0.
  - congruence.
  - done.
  - rewrite sb_allocated0, inv_credited0. unfold credited_sum, v0, voter_at in *.
    destruct (vs !! k) eqn:E; simpl in *.
    + rewrite (msum_insert_Some _ _ _ _ _ E). lia.
    + rewrite msum_insert_None by done. lia.
Qed.

Lemma total_split core B Q f tbl :
  table_ok core B Q f tbl -> total_sum tbl = allocating_sum tbl + allocated_sum tbl.
Proof.
  intros Ht. unfold total_sum, allocating_sum, allocated_sum. rewrite <- msum_add.
  apply msum_ext. intros p r Hp. specialize (Ht p). unfold row_at in Ht. rewrite Hp in Ht.
  apply Ht.
Qed.

Lemma out_ok_start core total vs tbl k :
  inv_ core total vs tbl -> out_ok core tbl (unclaimed_rewards (voter_at core vs k)).
Proof.
  intros Hi. pose proof (reward_voter_ok _ _ _ _ k Hi) as [].
  split_and!; [done..|]. pose proof (total_split _ _ _ _ _ (inv_rows _ _ _ _ Hi)).
  destruct Hi. enough (amount (unclaimed_rewards (voter_at core vs k)) <= credited_sum vs) by lia.
  assert (Hv : forall k' v', vs !! k' = Some v' ->
    0 <= amount (unclaimed_rewards v') + amount (claimed_rewards v')).
  { intros k' v' Hk'. destruct (inv_voters0 _ _ Hk'). lia. }
  unfold voter_at, credited_sum in *. destruct (vs !! k) as [v|] eqn:E; simpl in *.
  - pose proof (msum_member _ _ _ _ Hv E). simpl in *. lia.
  - by apply msum_nonneg.
Qed.

(** ** Stakes after the loop *)

Lemma smap_get_settled core tbl ps p :
  smap_get p (settled_infos core tbl ps) =
  if bool_decide (p ∈ ps.*1)
  then Some (VotedProducerInfo (rewards_per_vote (row_at core tbl p))) else None.
Proof.
  induction ps as [|[q i] ps IH]; simpl; [done|]. rewrite IH.
  destruct (Z.eqb_spec p q) as [->|Hne].
  - by rewrite bool_decide_true by set_solver.
  - destruct (decide (p ∈ ps.*1)).
    + by rewrite !bool_decide_true by set_solver.
    + by rewrite !bool_decide_false by set_solver.
Qed.

Lemma settled_keys core tbl ps : (settled_infos core tbl ps).*1 = ps.*1.
Proof. unfold settled_infos. rewrite <- list_fmap_compose. by apply list_fmap_ext. Qed.

Lemma smap_ok_keys {V W} (l : list (Z * V)) (m : list (Z * W)) :
  l.*1 = m.*1 -> smap_ok l -> smap_ok m.
Proof.
  revert m. induction l as [|[k v] l IH]; intros [|[k' v'] m] E; try done; [constructor|].
  assert (k' = k /\ l.*1 = m.*1) as [-> E'].
  { rewrite !fmap_cons in E. by apply (inj2 cons) in E as [E1 E2]. }
  rewrite !smap_ok_cons. intros [Hlt Hok].
  split; [|eauto]. apply Forall_forall. intros x Hx. simpl.
  assert (Hx1 : x.1 ∈ l.*1).
  { rewrite E'. by apply list_elem_of_fmap_2. }
  apply list_elem_of_fmap in Hx1 as (y & Ey & Hy). rewrite Forall_forall in Hlt.
  specialize (Hlt _ Hy). simpl in *. lia.
Qed.

(** The stakes a voter's map stands for *)
Lemma stake_elem v p i :
  smap_ok (v_producers v) -> (p, i) ∈ v_producers v ->
  stake_of v p = (v_votes v, last_rewards_per_vote i).
Proof. intros Hok Hin. unfold stake_of. by rewrite (proj2 (smap_get_Some _ _ _ Hok) Hin). Qed.

(** The voter after settling all his stakes and changing his votes by [d] *)
Definition settle_voter (now : block_timestamp) (core : symbol) (tbl : gmap name producer)
    (d : Z) (v : voter) : voter :=
  Voter (v_owner v) (v_votes v + d) (settled_infos core tbl (v_producers v))
    (Asset (amount (unclaimed_rewards v) + earned core tbl (v_votes v) (v_producers v)) core)
    (claimed_rewards v) now.

Lemma stake_settle_voter now core tbl d v p :
  restake core tbl (v_votes v + d) (v_producers v) (stake_of v) p =
  stake_of (settle_voter now core tbl d v) p.
Proof.
  unfold restake, stake_of at 2; simpl. rewrite smap_get_settled.
  case_bool_decide as E; simpl; [done|]. unfold stake_of.
  by rewrite (proj2 (smap_get_None _ _) E).
Qed.

(** The loop over all producers of a voter, from a state in order *)
Lemma settle_all c core total vs tbl k d :
  symbol_valid core = true -> inv_ core total vs tbl -> is_i64 d ->
  let v := voter_at core vs k in
  let now := slot_of_time_point (current_time_point c) in
  let tbl' := settle_table core now (v_votes v) d (v_producers v) tbl in
  let v' := settle_voter now core tbl d v in
  0 <= v_votes v + d ->
  allocate_producer_rewards c core tbl (v_producers v) (v_votes v) d (unclaimed_rewards v) =
    (if votes_fit core tbl d (v_producers v)
     then Ok (tbl', v_producers v', unclaimed_rewards v')
     else Err "producer votes can not be negative") /\
  (votes_fit core tbl d (v_producers v) = true -> v_votes v + d <= int64_max ->
    inv_ core total (<[k := v']> vs) tbl' /\
    same_books core tbl tbl' (earned core tbl (v_votes v) (v_producers v)) /\
    amount (unclaimed_rewards v') <= max_amount).
Proof.
  intros Hcore Hi Hd v now tbl' v' Hwd.
  pose proof (reward_voter_ok _ _ _ _ k Hi) as Hv. fold v in Hv. pose proof Hv as [].
  destruct (loop_spec c core (votes_for (delete k vs)) (pending_for (delete k vs))
    Hcore (v_votes v) d (v_producers v) tbl (stake_of v)
    (unclaimed_rewards v) Hd Hwd) as [Hrun Hok].
  - by apply smap_ok_NoDup.
  - intros p i. by apply stake_elem.
  - by apply (inv_split core total).
  - by eapply out_ok_start.
  - split; [exact Hrun|]. intros Hfit Hmax. destruct (Hok Hfit) as (Hb & Ht & Ho1 & Ho2 & Ho3).
    fold now tbl' in Hb, Ht, Ho3. simpl in Ho2, Ho3. split_and!; [|done|].
    + eapply store_voter; try done.
      * eapply table_ok_ext, Ht. intros p. apply stake_settle_voter.
      * simpl. eapply smap_ok_keys; [symmetry; apply settled_keys|done].
      * simpl. fold v. lia.
    + simpl. enough (0 <= allocating_sum tbl') by lia. apply msum_nonneg.
      intros p r Hp. by eapply table_allocating_nonneg.
Qed.
End invariant.
