(* ===== verification/RewardProps.v ===== *)
(** * flon.reward: the actions on states in order, and the properties

    Every action computed on a state that satisfies the invariant of [RewardInv.v], the
    preservation of the invariant, and the theorems about runs of the contract. *)
From S2P Require Import Prelude Cdt CdtRef Reward RewardInv.
From Stdlib Require Import ZArith Lia String.
From stdpp Require Import base tactics numbers list gmap sorting.
Open Scope Z_scope.

(** ** The merge of [voteproducer] *)

Lemma filter_ext_in {A} (P Q : A -> Prop) `{!forall x, Decision (P x)}
    `{!forall x, Decision (Q x)} (l : list A) :
  (forall x, x ∈ l -> P x <-> Q x) -> filter P l = filter Q l.
Proof.
  induction l as [|a l IH]; intros E; [done|].
  rewrite !filter_cons, IH by (intros; apply E; set_solver).
  destruct (decide (P a)) as [HP|HP], (decide (Q a)) as [HQ|HQ]; try done;
    exfalso; [apply HQ, (E a); [set_solver|done]|apply HP, (E a); [set_solver|done]].
Qed.

Lemma Forall_filter_keep {A} (R : A -> Prop) (P : A -> Prop) `{!forall x, Decision (P x)} l :
  Forall R l -> Forall R (filter P l).
Proof. rewrite !Forall_forall. intros HR x [_ Hx]%list_elem_of_filter. auto. Qed.

Definition zero_info : voted_producer_info := VotedProducerInfo 0.
Definition kept_of (old : list (name * voted_producer_info)) (new : list name)
    : list (name * voted_producer_info) := filter (fun e => e.1 ∈ new) old.
Definition removed_of (old : list (name * voted_producer_info)) (new : list name)
    : list (name * voted_producer_info) := filter (fun e => e.1 ∉ new) old.
Definition added_of (old : list (name * voted_producer_info)) (new : list name)
    : list (name * voted_producer_info) :=
  (fun n => (n, zero_info)) <$> filter (fun n => n ∉ old.*1) new.

Lemma removed_front old new o :
  Forall (fun b => o < b.1) old -> Forall (fun e => o < e.1) (removed_of old new).
Proof. apply Forall_filter_keep. Qed.

Lemma added_front old new n :
  Forall (fun b => n < b) new -> Forall (fun e => n < e.1) (added_of old new).
Proof. intros H. apply Forall_fmap. by apply Forall_filter_keep. Qed.

Lemma not_elem_lt (o : name) new : Forall (fun b => o < b) new -> o ∉ new.
Proof. rewrite Forall_forall. intros H Hin. specialize (H _ Hin). lia. Qed.

Lemma split_votes_nil_cons n new :
  split_votes [] (n :: new) =
  (let '(kept, removed, added) := split_votes [] new in
   (kept, removed, smap_set n (VotedProducerInfo 0) added)).
Proof. done. Qed.

Lemma split_votes_cons o info old n new :
  split_votes ((o, info) :: old) (n :: new) =
  (if o <? n then
     let '(kept, removed, added) := split_votes old (n :: new) in
     (kept, smap_emplace o info removed, added)
   else if n <? o then
     let '(kept, removed, added) := split_votes ((o, info) :: old) new in
     (kept, removed, smap_set n (VotedProducerInfo 0) added)
   else
     let '(kept, removed, added) := split_votes old new in
     ((o, info) :: kept, removed, added)).
Proof. done. Qed.

(** The loop computes intersection and differences. *)
Lemma split_votes_spec old : forall new,
  smap_ok old -> StronglySorted Z.lt new ->
  split_votes old new = (kept_of old new, removed_of old new, added_of old new).
Proof.
  induction old as [|[o info] old IHo]; intros new Ho Hn.
  - induction new as [|n new IHn]; [done|]. apply StronglySorted_inv in Hn as [Hn Hlt].
    rewrite split_votes_nil_cons, (IHn Hn). unfold smap_set.
    rewrite smap_insert_front by (apply added_front; done). done.
  - apply smap_ok_cons in Ho as [Hlo Ho]. simpl in Hlo.
    induction new as [|n new IHn].
    + cbn [split_votes]. rewrite (IHo [] Ho (SSorted_nil _)). unfold smap_emplace.
      rewrite smap_insert_front by (apply removed_front; done). done.
    + apply StronglySorted_inv in Hn as [Hn Hlt]. specialize (IHn Hn).
      assert (Hall : StronglySorted Z.lt (n :: new)) by by constructor.
      rewrite split_votes_cons. destruct (Z.ltb_spec o n) as [Hon|Hon].
      * rewrite (IHo _ Ho Hall). unfold smap_emplace.
        rewrite smap_insert_front by (apply removed_front; done).
        assert (o ∉ n :: new).
        { apply not_elem_lt. constructor; [done|]. eapply Forall_impl; [done|]. simpl; lia. }
        unfold kept_of, removed_of, added_of. rewrite !(filter_cons _ (o, info) old).
        rewrite (decide_False (P := o ∈ n :: new)), (decide_True (P := o ∉ n :: new)) by done.
        do 3 f_equal. f_equal. apply filter_ext_in. intros x Hx. simpl. set_solver.
      * destruct (Z.ltb_spec n o) as [Hno|Hno].
        -- rewrite IHn.
           unfold smap_set. rewrite smap_insert_front by (apply added_front; done).
           assert (Hnk : n ∉ ((o, info) :: old).*1).
           { simpl. apply not_elem_of_cons. split; [lia|].
             intros (e & -> & He)%list_elem_of_fmap. rewrite Forall_forall in Hlo.
             specialize (Hlo _ He). simpl in Hlo. lia. }
           assert (Hk : forall e, e ∈ (o, info) :: old -> e.1 ∈ n :: new <-> e.1 ∈ new).
           { intros e He. assert (e.1 <> n); [|set_solver]. intros <-. apply Hnk.
             by apply list_elem_of_fmap_2. }
           unfold kept_of, removed_of, added_of. rewrite (filter_cons _ n new).
           rewrite (decide_True (P := n ∉ _)) by done. do 3 f_equal.
           ++ apply filter_ext_in. intros e He. symmetry. by apply Hk.
           ++ apply filter_ext_in. intros e He. by rewrite (Hk e He).
        -- assert (o = n) as -> by lia. rewrite (IHo new Ho Hn).
           assert (Hnn : n ∉ new) by by apply not_elem_lt.
           assert (Hk : forall e, e ∈ old -> e.1 ∈ n :: new <-> e.1 ∈ new).
           { intros e He. rewrite Forall_forall in Hlo. specialize (Hlo _ He). simpl in Hlo.
             assert (e.1 <> n) by lia. set_solver. }
           unfold kept_of, removed_of, added_of. rewrite !filter_cons.
           rewrite (decide_True (P := (n, info).1 ∈ n :: new)) by (simpl; set_solver).
           rewrite (decide_False (P := (n, info).1 ∉ n :: new)) by (simpl; set_solver).
           rewrite (decide_False (P := n ∉ ((n, info) :: old).*1)) by (simpl; set_solver).
           f_equal; [f_equal|].
           ++ f_equal. apply filter_ext_in. intros e He. symmetry. by apply Hk.
           ++ apply filter_ext_in. intros e He. by rewrite (Hk e He).
           ++ f_equal. apply filter_ext_in. intros x Hx. simpl. set_solver.
Qed.

(** ** Sums over parts of a voter's list *)

Lemma earned_rpv core t1 t2 w ps :
  (forall p, rewards_per_vote (row_at core t1 p) = rewards_per_vote (row_at core t2 p)) ->
  earned core t1 w ps = earned core t2 w ps.
Proof. intros E. induction ps as [|e ps IH]; simpl; [done|]. by rewrite IH, E. Qed.

Lemma settled_rpv core t1 t2 ps :
  (forall p, rewards_per_vote (row_at core t1 p) = rewards_per_vote (row_at core t2 p)) ->
  settled_infos core t1 ps = settled_infos core t2 ps.
Proof. intros E. apply list_fmap_ext. intros i e _. by rewrite E. Qed.

Lemma earned_zero core tbl ps : earned core tbl 0 ps = 0.
Proof. induction ps as [|e ps IH]; [done|]. simpl. by rewrite IH, payout_zero_l. Qed.

Lemma earned_split core tbl w old new :
  earned core tbl w (removed_of old new) + earned core tbl w (kept_of old new) =
  earned core tbl w old.
Proof.
  induction old as [|e old IH]; [done|]. unfold removed_of, kept_of in *.
  rewrite !filter_cons. destruct (decide (e.1 ∈ new)) as [Hin|Hin].
  - rewrite (decide_False (P := e.1 ∉ new)) by tauto. simpl. lia.
  - rewrite (decide_True (P := e.1 ∉ new)) by done. simpl. lia.
Qed.

Lemma settle_table_other core now w d ps : forall tbl p,
  p ∉ ps.*1 -> row_at core (settle_table core now w d ps tbl) p = row_at core tbl p.
Proof.
  induction ps as [|[q i] ps IH]; intros tbl p Hp; simpl in *; [done|].
  rewrite IH by set_solver. rewrite row_at_insert, bool_decide_false by set_solver. done.
Qed.

Lemma votes_fit_le core B Q f tbl d ps :
  table_ok core B Q f tbl -> d <= 0 -> votes_fit core tbl d ps = true.
Proof.
  intros Ht Hd. apply forallb_forall. intros e _. apply bool_decide_eq_true.
  destruct (Ht e.1). lia.
Qed.

Lemma kept_keys old new p : p ∈ (kept_of old new).*1 <-> p ∈ old.*1 /\ p ∈ new.
Proof.
  unfold kept_of. rewrite !list_elem_of_fmap. setoid_rewrite list_elem_of_filter.
  naive_solver.
Qed.
Lemma removed_keys old new p : p ∈ (removed_of old new).*1 <-> p ∈ old.*1 /\ p ∉ new.
Proof.
  unfold removed_of. rewrite !list_elem_of_fmap. setoid_rewrite list_elem_of_filter.
  naive_solver.
Qed.
Lemma added_keys old new : (added_of old new).*1 = filter (fun n => n ∉ old.*1) new.
Proof. unfold added_of. rewrite <- list_fmap_compose. apply list_fmap_id. Qed.

Lemma fmap_filter_NoDup {V} (P : Z * V -> Prop) `{!forall x, Decision (P x)} (l : list (Z * V)) :
  NoDup l.*1 -> NoDup (filter P l).*1.
Proof.
  induction l as [|e l IH]; [done|]. simpl. intros [He Hl]%NoDup_cons.
  rewrite filter_cons. destruct (decide (P e)); [|auto]. simpl. constructor; [|auto].
  intros (x & Ex & [_ Hx]%list_elem_of_filter)%list_elem_of_fmap. apply He. rewrite Ex.
  by apply list_elem_of_fmap_2.
Qed.

(** The producers of a voter after voting for [prods] *)
Definition revoted (core : symbol) (tbl : gmap name producer) (prods : list name)
    : list (name * voted_producer_info) :=
  (fun n => (n, VotedProducerInfo (rewards_per_vote (row_at core tbl n)))) <$> prods.

Lemma revoted_keys core tbl prods : (revoted core tbl prods).*1 = prods.
Proof. unfold revoted. rewrite <- list_fmap_compose. apply list_fmap_id. Qed.

Lemma revoted_ok core tbl prods : StronglySorted Z.lt prods -> smap_ok (revoted core tbl prods).
Proof.
  induction prods as [|n prods IH]; intros Hs; [constructor|].
  apply StronglySorted_inv in Hs as [Hs Hn]. simpl. apply smap_ok_cons. split; [|auto].
  simpl. apply Forall_fmap. done.
Qed.

Lemma smap_get_revoted core tbl prods p :
  smap_get p (revoted core tbl prods) =
  if bool_decide (p ∈ prods)
  then Some (VotedProducerInfo (rewards_per_vote (row_at core tbl p))) else None.
Proof.
  induction prods as [|q ps IH]; simpl; [done|]. rewrite IH.
  destruct (Z.eqb_spec p q) as [->|Hne].
  - by rewrite bool_decide_true by set_solver.
  - destruct (decide (p ∈ ps)).
    + by rewrite !bool_decide_true by set_solver.
    + by rewrite !bool_decide_false by set_solver.
Qed.

Lemma smap_ok_filter {V} (P : Z * V -> Prop) `{!forall x, Decision (P x)} (l : list (Z * V)) :
  smap_ok l -> smap_ok (filter P l).
Proof.
  induction l as [|e l IH]; [done|]. intros [Hlt Hok]%smap_ok_cons. rewrite filter_cons.
  destruct (decide (P e)); [|auto]. apply smap_ok_cons.
  split; [by apply Forall_filter_keep|auto].
Qed.

(** The three settled parts merge into the new map. *)
Lemma merge_revoted core tbl old prods :
  smap_ok old -> StronglySorted Z.lt prods ->
  fold_left (fun m e => smap_emplace e.1 e.2 m)
    (settled_infos core tbl (added_of old prods)) (settled_infos core tbl (kept_of old prods))
  = revoted core tbl prods.
Proof.
  intros Ho Hp.
  assert (Hk : smap_ok (kept_of old prods)).
  { by apply smap_ok_filter. }
  assert (Hnd : NoDup prods).
  { rewrite <- (revoted_keys core tbl prods). apply smap_ok_NoDup. by apply revoted_ok. }
  apply smap_ext.
  - apply smap_merge_ok. eapply smap_ok_keys; [symmetry; apply settled_keys|done].
  - by apply revoted_ok.
  - intros p. rewrite smap_get_merge.
    + rewrite !smap_get_settled, smap_get_revoted.
      destruct (decide (p ∈ (added_of old prods).*1)) as [Ha|Ha];
        [rewrite bool_decide_true by done|rewrite bool_decide_false by done];
        rewrite added_keys, list_elem_of_filter in Ha.
      * by rewrite bool_decide_true by tauto.
      * apply f_equal with (f := fun b : bool => if b then _ else _).
        apply bool_decide_ext. rewrite kept_keys.
        destruct (decide (p ∈ old.*1)); tauto.
    + rewrite settled_keys, added_keys. by apply NoDup_filter.
    + intros j. rewrite settled_keys, added_keys, list_elem_of_filter. intros [Hj _].
      rewrite smap_get_settled, bool_decide_false; [done|]. rewrite kept_keys. tauto.
Qed.

(** ** The actions on a state in order *)

Section actions.
Context {cdt : Cdt} {laws : CdtLaws}.
Implicit Types (c : ctx) (st : state).

Definition initialised (st : state) : Prop := symbol_valid (core_symbol st) = true.
Definition now (c : ctx) : block_timestamp := slot_of_time_point (current_time_point c).

Lemma voter_load c core vs k :
  symbol_valid core = true -> indeterminate_i64 c = 0 ->
  new_voter_row core k (default (voter_default c) (vs !! k)) (bool_decide (vs !! k = None))
  = Ok (voter_at core vs k).
Proof.
  intros Hc Hi. unfold new_voter_row, voter_at. destruct (vs !! k); simpl; [done|].
  rewrite asset_ctor_Ok; [|unfold_range; lia|done]. simpl. rewrite Hi. done.
Qed.

(** [addvote] and [subvote]: the state after the voter's votes changed by [d] *)
Definition vote_post (c : ctx) (st : state) (k : name) (d : Z) : state :=
  let core := core_symbol st in
  let v := voter_at core (voters st) k in
  State (global st) (<[k := settle_voter (now c) core (producers st) d v]> (voters st))
    (settle_table core (now c) (v_votes v) d (v_producers v) (producers st)).

Lemma change_vote_eq c st k n (adding : bool) :
  inv st -> initialised st -> indeterminate_i64 c = 0 -> is_i64 n ->
  let core := core_symbol st in
  let v := voter_at core (voters st) k in
  let d := if adding then n else - n in
  change_vote c st k n adding =
  (_ ← require_auth c SYSTEM_CONTRACT;
   _ ← require_auth c k;
   ensure 0 <? n else "votes must be positive";
   ensure adding || (n <=? v_votes v) else "voter's votes insufficent";
   ensure votes_fit core (producers st) d (v_producers v)
     else "producer votes can not be negative";
   ensure v_votes v + d <=? int64_max else "voter's votes can not be negative";
   mret (vote_post c st k d)).
Proof.
  intros Hinv Hini Hind Hn core v d. unfold change_vote.
  destruct (require_auth c SYSTEM_CONTRACT) as [[]|]; simpl; [|done].
  destruct (require_auth c k) as [[]|]; simpl; [|done].
  destruct (0 <? n) eqn:Hpos; simpl; [|done]. apply Z.ltb_lt in Hpos.
  pose proof (inv_core _ Hinv) as Hi. fold core in Hi.
  pose proof (reward_voter_ok _ _ _ _ k Hi) as Hv. fold v in Hv.
  pose proof (vo_votes _ _ _ _ Hv) as Hvotes.
  assert (Hload := voter_load c core (voters st) k Hini Hind). fold v core in Hload.
  rewrite db_set_eq.
  2:{ intros r x. fold core. rewrite Hload. simpl. intros E.
      apply bind_Ok in E as (delta & _ & E). apply bind_Ok in E as ([[??]?] & _ & E).
      apply bind_Ok in E as (_ & _ & E). injection E as <- _. apply Hv. }
  fold core. rewrite Hload. cbn -[allocate_producer_rewards i64 int64_max].
  assert (Hdelta : (if adding then mret n
            else ensure n <=? v_votes v else "voter's votes insufficent"; mret (i64 (- n)))
    = (ensure adding || (n <=? v_votes v) else "voter's votes insufficent"; Ok d)).
  { unfold d. destruct adding; simpl; [done|]. rewrite i64_id by (unfold_ints; lia). done. }
  rewrite Hdelta. destruct (adding || (n <=? v_votes v)) eqn:Hsub; [|done].
  cbn -[allocate_producer_rewards i64 int64_max].
  assert (Hd : is_i64 d /\ 0 <= v_votes v + d).
  { unfold d. destruct adding; simpl in Hsub; [unfold_ints; lia|].
    apply Z.leb_le in Hsub. unfold_ints; lia. }
  destruct (settle_all c core _ (voters st) (producers st) k d Hini Hi) as [Hrun _];
    [apply Hd|apply Hd|]. fold v in Hrun. rewrite Hrun.
  destruct (votes_fit core (producers st) d (v_producers v)); [|done].
  cbn -[i64 int64_max]. destruct (add_votes_sign 0 (v_votes v) d (v_votes v)) as [Hs Hid];
    try lia; [apply Hd|]. rewrite Hs. destruct (Z.leb_spec (v_votes v + d) int64_max).
  - rewrite bool_decide_true by done. simpl. rewrite Hid by done. done.
  - rewrite bool_decide_false by lia. done.
Qed.

(** Restoring the invariant of a state from that of its tables *)
Lemma inv_intro g vs tbl :
  symbol_valid (asset_symbol g) = true -> inv_ (asset_symbol g) (amount g) vs tbl ->
  inv (State (Some g) vs tbl).
Proof. intros Hg Hi. split; [done| |done]. intros g' [= <-]. done. Qed.

Lemma initialised_global st : initialised st -> exists g, global st = Some g.
Proof.
  unfold initialised, core_symbol, gstate. destruct (global st); [eauto|].
  simpl. by rewrite law_symbol_default.
Qed.

Lemma inv_update st vs tbl :
  inv st -> initialised st -> inv_ (core_symbol st) (amount (gstate st)) vs tbl ->
  inv (State (global st) vs tbl).
Proof.
  intros Hinv Hini Hi. destruct (initialised_global st Hini) as [g Eg].
  unfold core_symbol, gstate in *. rewrite Eg in *. simpl in *.
  apply inv_intro; [by apply (inv_sym _ Hinv)|done].
Qed.

Lemma vote_post_inv c st k d :
  inv st -> initialised st -> is_i64 d ->
  let v := voter_at (core_symbol st) (voters st) k in
  0 <= v_votes v + d -> v_votes v + d <= int64_max ->
  votes_fit (core_symbol st) (producers st) d (v_producers v) = true ->
  inv (vote_post c st k d).
Proof.
  intros Hinv Hini Hd v H0 Hmax Hfit. apply inv_update; [done..|].
  destruct (settle_all c (core_symbol st) _ _ _ k d Hini (inv_core _ Hinv) Hd H0) as [_ Hok].
  by destruct (Hok Hfit Hmax).
Qed.

(** [voteproducer]: the voter afterwards, and the three settlements of the rows *)
Definition revote_voter (c : ctx) (core : symbol) (tbl : gmap name producer)
    (prods : list name) (v : voter) : voter :=
  Voter (v_owner v) (v_votes v) (revoted core tbl prods)
    (Asset (amount (unclaimed_rewards v) + earned core tbl (v_votes v) (v_producers v)) core)
    (claimed_rewards v) (now c).
Definition revote_table (c : ctx) (core : symbol) (tbl : gmap name producer)
    (prods : list name) (v : voter) : gmap name producer :=
  let w := v_votes v in
  let old := v_producers v in
  settle_table core (now c) 0 w (added_of old prods)
    (settle_table core (now c) w 0 (kept_of old prods)
      (settle_table core (now c) w (- w) (removed_of old prods) tbl)).

Definition revote_post (c : ctx) (st : state) (k : name) (prods : list name) : state :=
  let core := core_symbol st in
  let v := voter_at core (voters st) k in
  State (global st) (<[k := revote_voter c core (producers st) prods v]> (voters st))
    (revote_table c core (producers st) prods v).

Lemma restake_in core tbl w ps f p :
  p ∈ ps.*1 -> restake core tbl w ps f p = (w, rewards_per_vote (row_at core tbl p)).
Proof. intros H. unfold restake. by rewrite bool_decide_true. Qed.
Lemma restake_out core tbl w ps f p : p ∉ ps.*1 -> restake core tbl w ps f p = f p.
Proof. intros H. unfold restake. by rewrite bool_decide_false. Qed.

(** A stake without votes may forget its accumulator. *)
Definition same_stake (s t : Z * Z) : Prop := s = t \/ s.1 = 0 /\ t = (0, 0).

Lemma table_ok_same_stake core B Q f g tbl :
  (forall p, same_stake (f p) (g p)) -> table_ok core B Q f tbl -> table_ok core B Q g tbl.
Proof.
  intros E H p. specialize (H p). destruct (E p) as [<-|[E1 ->]]; [done|].
  destruct H. rewrite E1 in *. split; simpl; done || lia.
Qed.

(** After the three settlements the voter's stakes are those of the new map. *)
Lemma revote_stakes c core tbl tbl1 tbl2 prods v p :
  smap_ok (v_producers v) ->
  (forall p, rewards_per_vote (row_at core tbl1 p) = rewards_per_vote (row_at core tbl p)) ->
  (forall p, rewards_per_vote (row_at core tbl2 p) = rewards_per_vote (row_at core tbl p)) ->
  let old := v_producers v in
  let w := v_votes v in
  same_stake
    (restake core tbl2 (0 + w) (added_of old prods)
      (restake core tbl1 (w + 0) (kept_of old prods)
        (restake core tbl (w + - w) (removed_of old prods) (stake_of v))) p)
    (stake_of (revote_voter c core tbl prods v) p).
Proof.
  intros Hm E1 E2 old w. unfold stake_of at 2. simpl. rewrite smap_get_revoted.
  destruct (decide (p ∈ prods)) as [Hin|Hin];
    [rewrite bool_decide_true by done|rewrite bool_decide_false by done];
    destruct (decide (p ∈ old.*1)) as [Hold|Hold].
  - left. rewrite restake_out by (rewrite added_keys, list_elem_of_filter; tauto).
    rewrite restake_in by (rewrite kept_keys; tauto). rewrite E1. simpl. f_equal. lia.
  - left. rewrite restake_in by (rewrite added_keys, list_elem_of_filter; tauto).
    rewrite E2. done.
  - right. rewrite restake_out by (rewrite added_keys, list_elem_of_filter; tauto).
    rewrite restake_out by (rewrite kept_keys; tauto).
    rewrite restake_in by (rewrite removed_keys; tauto). simpl. split; [lia|done].
  - left. rewrite restake_out by (rewrite added_keys, list_elem_of_filter; tauto).
    rewrite restake_out by (rewrite kept_keys; tauto).
    rewrite restake_out by (rewrite removed_keys; tauto).
    unfold stake_of. by rewrite (proj2 (smap_get_None p (v_producers v))) by done.
Qed.

(** The three loops of [voteproducer] *)
Lemma revote_loops c core total vs tbl k prods :
  symbol_valid core = true -> inv_ core total vs tbl -> StronglySorted Z.lt prods ->
  let v := voter_at core vs k in
  let w := v_votes v in
  let '(kept, removed, added) := split_votes (v_producers v) prods in
  let m := ('(tbl1, _, out1) ← allocate_producer_rewards c core tbl removed w (i64 (- w))
              (unclaimed_rewards v);
            '(tbl2, kept', out2) ← allocate_producer_rewards c core tbl1 kept w 0 out1;
            '(tbl3, added', out3) ← allocate_producer_rewards c core tbl2 added 0 w out2;
            mret (fold_left (fun m e => smap_emplace e.1 e.2 m) added' kept', out3, tbl3)) in
  let v' := revote_voter c core tbl prods v in
  let tbl' := revote_table c core tbl prods v in
  let fits := votes_fit core tbl w (added_of (v_producers v) prods) in
  m = (if fits then Ok (v_producers v', unclaimed_rewards v', tbl')
       else Err "producer votes can not be negative") /\
  (fits = true -> inv_ core total (<[k := v']> vs) tbl' /\
    same_books core tbl tbl' (earned core tbl w (v_producers v))).
Proof.
  intros Hcore Hi Hp v w.
  pose proof (reward_voter_ok _ _ _ _ k Hi) as Hv. fold v in Hv. pose proof Hv as [].
  rewrite split_votes_spec by done. set (old := v_producers v) in *.
  cbn zeta. set (B := votes_for (delete k vs)). set (Q := pending_for (delete k vs)).
  pose proof (inv_split core total vs tbl k Hi : table_ok core B Q (stake_of v) tbl) as Ht0.
  pose proof (out_ok_start core total vs tbl k Hi) as Ho0. fold v in Ho0.
  pose proof (smap_ok_NoDup _ vo_map) as Hnd. fold old in Hnd.
  assert (Hw : is_i64 (- w) /\ is_i64 w /\ is_i64 0) by (unfold_ints; subst w; lia).
  destruct Hw as (Hw1 & Hw2 & Hw3). rewrite i64_id by done.
  (* removed *)
  destruct (loop_spec c core B Q Hcore w (- w) (removed_of old prods) tbl (stake_of v) _ Hw1
    ltac:(lia) (fmap_filter_NoDup _ _ Hnd)
    ltac:(intros p i [_ Hin]%list_elem_of_filter; by apply stake_elem) Ht0 Ho0) as [R1 K1].
  rewrite (votes_fit_le core B Q _ _ _ _ Ht0) in R1, K1 by (subst w; lia).
  specialize (K1 eq_refl) as (Hb1 & Ht1 & Ho1). rewrite R1. cbn [mbind result_bind].
  set (out1 := Asset (amount (unclaimed_rewards v) + _) core) in *.
  set (tbl1 := settle_table core _ w (- w) (removed_of old prods) tbl) in *.
  set (f1 := restake _ _ _ _ _) in Ht1.
  (* kept *)
  destruct (loop_spec c core B Q Hcore w 0 (kept_of old prods) tbl1 f1 out1 Hw3
    ltac:(subst w; lia) (fmap_filter_NoDup _ _ Hnd)) as [R2 K2]; [|exact Ht1|exact Ho1|].
  { intros p i [Hpin Hin]%list_elem_of_filter. unfold f1.
    rewrite restake_out by (rewrite removed_keys; tauto). by apply stake_elem. }
  rewrite (votes_fit_le core B Q _ _ _ _ Ht1) in R2, K2 by lia.
  specialize (K2 eq_refl) as (Hb2 & Ht2 & Ho2). rewrite R2. cbn [mbind result_bind].
  set (out2 := Asset (amount out1 + _) core) in *.
  set (tbl2 := settle_table core _ w 0 (kept_of old prods) tbl1) in *.
  set (f2 := restake _ _ _ _ _) in Ht2.
  (* added *)
  assert (Hprods : NoDup prods).
  { rewrite <- (revoted_keys core tbl prods). apply smap_ok_NoDup. by apply revoted_ok. }
  destruct (loop_spec c core B Q Hcore 0 w (added_of old prods) tbl2 f2 out2 Hw2
    ltac:(subst w; lia)) as [R3 K3]; [| |exact Ht2|exact Ho2|].
  { rewrite added_keys. by apply NoDup_filter. }
  { intros p i Hin. assert (Hkey : p ∈ (added_of old prods).*1).
    { apply list_elem_of_fmap. by exists (p, i). }
    rewrite added_keys, list_elem_of_filter in Hkey. unfold f2, f1.
    rewrite restake_out by (rewrite kept_keys; tauto).
    rewrite restake_out by (rewrite removed_keys; tauto).
    apply list_elem_of_fmap in Hin as (n & [= <- ->] & _). unfold stake_of.
    by rewrite (proj2 (smap_get_None p (v_producers v))) by tauto. }
  (* the rows of the added producers are untouched so far, accumulators never change *)
  assert (E1 : forall p, rewards_per_vote (row_at core tbl1 p) = rewards_per_vote (row_at core tbl p))
    by apply Hb1.
  assert (E2 : forall p, rewards_per_vote (row_at core tbl2 p) = rewards_per_vote (row_at core tbl p))
    by (intros p; by rewrite (sb_rpv _ _ _ _ Hb2), E1).
  destruct (summaries_ext core tbl2 tbl 0 w (added_of old prods)) as (_ & _ & Efit).
  { intros p. rewrite added_keys, list_elem_of_filter. intros [Hno _]. unfold tbl2, tbl1.
    rewrite !settle_table_other; rewrite ?removed_keys, ?kept_keys; tauto. }
  rewrite Efit in R3, K3. rewrite R3. split.
  - destruct (votes_fit core tbl w (added_of old prods)); [|done]. cbn [mbind result_bind].
    rewrite (settled_rpv core tbl2 tbl), (settled_rpv core tbl1 tbl) by done.
    rewrite merge_revoted by done. rewrite earned_zero. unfold out2, out1. simpl.
    rewrite (earned_rpv core tbl1 tbl) by done. fold old w.
    rewrite <- (earned_split core tbl w old prods).
    unfold mret, result_ret, revote_table. fold w old (now c).
    do 3 f_equal. f_equal. lia.
  - intros Hfit. destruct (K3 Hfit) as (Hb3 & Ht3 & Ho3).
    rewrite earned_zero in Hb3. rewrite (earned_rpv core tbl1 tbl) in Hb2 by done.
    pose proof (same_books_trans _ _ _ _ _ _ Hb1 (same_books_trans _ _ _ _ _ _ Hb2 Hb3)) as Hb.
    replace (_ + _) with (earned core tbl w old) in Hb
      by (rewrite <- (earned_split core tbl w old prods); lia).
    split; [|done]. eapply store_voter; try done.
    + eapply table_ok_same_stake, Ht3. intros p. by apply revote_stakes.
    + by apply revoted_ok.
    + simpl. fold w old. destruct Ho3 as (_ & Ho3 & _). simpl in Ho3.
      rewrite earned_zero, (earned_rpv core tbl1 tbl) in Ho3 by done.
      rewrite <- (earned_split core tbl w old prods). lia.
    + simpl. fold v w old. lia.
Qed.

Lemma voteproducer_eq c st k prods :
  inv st -> initialised st -> indeterminate_i64 c = 0 ->
  let core := core_symbol st in
  let v := voter_at core (voters st) k in
  voteproducer c st k prods =
  (_ ← require_auth c SYSTEM_CONTRACT;
   _ ← require_auth c k;
   ensure strictly_sorted prods else "producer votes must be uniqued and sorted";
   ensure votes_fit core (producers st) (v_votes v) (added_of (v_producers v) prods)
     else "producer votes can not be negative";
   mret (revote_post c st k prods, [])).
Proof.
  intros Hinv Hini Hind core v. unfold voteproducer, check_init.
  unfold initialised, core_symbol in Hini. rewrite Hini. simpl.
  destruct (require_auth c SYSTEM_CONTRACT) as [[]|]; simpl; [|done].
  destruct (require_auth c k) as [[]|]; simpl; [|done].
  destruct (strictly_sorted prods) eqn:Hs; simpl; [|done].
  apply strictly_sorted_spec in Hs. fold core.
  pose proof (inv_core _ Hinv) as Hi. fold core in Hi.
  pose proof (reward_voter_ok _ _ _ _ k Hi) as Hv. fold v in Hv.
  assert (Hload := voter_load c core (voters st) k Hini Hind). fold v core in Hload.
  pose proof (revote_loops c core _ _ _ k prods Hini Hi Hs) as Hl. cbn zeta in Hl. fold v in Hl.
  destruct (split_votes (v_producers v) prods) as [[kept removed] added] eqn:Esplit.
  destruct Hl as [Hl _].
  rewrite db_set_eq.
  2:{ intros r x. rewrite Hload. cbn [mbind result_bind]. rewrite Esplit. intros E.
      apply bind_Ok in E as ([[??]?] & _ & E). apply bind_Ok in E as ([[??]?] & _ & E).
      apply bind_Ok in E as ([[??]?] & _ & E). injection E as <- _. apply Hv. }
  rewrite Hload. cbn [mbind result_bind]. rewrite Esplit.
  destruct (allocate_producer_rewards c core (producers st) removed _ _ _) as [[[t1 l1] o1]|];
    cbn [mbind result_bind] in *;
    [|destruct (votes_fit _ _ _ _); [discriminate Hl|]; injection Hl as ->; done].
  destruct (allocate_producer_rewards c core t1 kept _ _ _) as [[[t2 l2] o2]|];
    cbn [mbind result_bind] in *;
    [|destruct (votes_fit _ _ _ _); [discriminate Hl|]; injection Hl as ->; done].
  destruct (allocate_producer_rewards c core t2 added _ _ _) as [[[t3 l3] o3]|];
    cbn [mbind result_bind] in *;
    destruct (votes_fit _ _ _ _); try discriminate Hl; [|by injection Hl as ->].
  injection Hl as -> -> ->. done.
Qed.

(** What a claim pays: the unclaimed rewards and what the voter's stakes have earned *)
Definition due (core : symbol) (tbl : gmap name producer) (v : voter) : Z :=
  amount (unclaimed_rewards v) + earned core tbl (v_votes v) (v_producers v).

Definition claim_post (c : ctx) (st : state) (k : name) (v : voter) : state :=
  let core := core_symbol st in
  let tbl := producers st in
  let '(v1, tbl1) :=
    if 0 <? v_votes v then
      (settle_voter (now c) core tbl 0 v,
       settle_table core (now c) (v_votes v) 0 (v_producers v) tbl)
    else (v, tbl) in
  State (global st)
    (<[k := Voter (v_owner v) (v_votes v) (v_producers v1) (Asset 0 core)
              (Asset (amount (claimed_rewards v) + due core tbl v) core) (now c)]> (voters st))
    tbl1.

Lemma amount_eta (a : asset) n s : amount a = n -> asset_symbol a = s -> a = Asset n s.
Proof. destruct a. simpl. by intros -> ->. Qed.

(** Settling, without the zero test *)
Lemma settle_claim c core total vs tbl k v :
  symbol_valid core = true -> inv_ core total vs tbl -> vs !! k = Some v ->
  let '(v1, tbl1) :=
    if 0 <? v_votes v then
      (settle_voter (now c) core tbl 0 v, settle_table core (now c) (v_votes v) 0 (v_producers v) tbl)
    else (v, tbl) in
  (if 0 <? v_votes v then
     allocate_producer_rewards c core tbl (v_producers v) (v_votes v) 0 (unclaimed_rewards v)
   else mret (tbl, v_producers v, unclaimed_rewards v)) =
    Ok (tbl1, v_producers v1, Asset (due core tbl v) core) /\
  inv_ core total (<[k := v1]> vs) tbl1 /\
  v_owner v1 = v_owner v /\ v_votes v1 = v_votes v /\ claimed_rewards v1 = claimed_rewards v /\
  amount (unclaimed_rewards v1) = due core tbl v.
Proof.
  intros Hcore Hi Hk. pose proof (inv_voters _ _ _ _ Hi _ _ Hk) as Hv. destruct Hv.
  assert (Hat : voter_at core vs k = v) by (unfold voter_at; by rewrite Hk).
  destruct (Z.ltb_spec 0 (v_votes v)) as [Hpos|Hpos].
  - destruct (settle_all c core total vs tbl k 0 Hcore Hi) as [Hrun Hok];
      [unfold_ints; lia|rewrite Hat; lia|]. rewrite Hat, Z.add_0_r in *.
    rewrite (votes_fit_le core _ _ _ _ 0 _ (inv_rows _ _ _ _ Hi)) in * by lia.
    destruct (Hok eq_refl ltac:(lia)) as (? & _ & _). unfold due. simpl.
    split_and!; try done. lia.
  - assert (E0 : v_votes v = 0) by lia. unfold due. rewrite E0, earned_zero, Z.add_0_r.
    split_and!; try done; [by rewrite <- (amount_eta _ _ _ eq_refl vo_unclaimed_sym)|].
    by rewrite insert_id.
Qed.

Lemma claim_rewards_eq c st k :
  inv st -> initialised st ->
  claim_rewards c st k =
  match voters st !! k with
  | None => Err "voter info not found"
  | Some v =>
      ensure 0 <? due (core_symbol st) (producers st) v else "no rewards to claim";
      mret (claim_post c st k v,
            [send CORE_TOKEN [PermissionLevel (get_self c) ACTIVE_PERM]
               (token_transfer (get_self c) k
                  (Asset (due (core_symbol st) (producers st) v) (core_symbol st))
                  "voted rewards")])
  end.
Proof.
  intros Hinv Hini. unfold claim_rewards, claim_post.
  destruct (voters st !! k) as [v|] eqn:Hk; [|done]. cbn [get_or mbind result_bind].
  pose proof (settle_claim c _ _ _ _ k v Hini (inv_core _ Hinv) Hk) as Hs.
  destruct (if 0 <? v_votes v then _ else (v, producers st)) as [v1 tbl1].
  destruct Hs as (-> & Hi & _ & _ & Hcl & Hdue). cbn [mbind result_bind amount asset_symbol].
  destruct (0 <? _) eqn:Hpos; [|done]. cbn [check mbind result_bind].
  pose proof (inv_voters _ _ _ _ (inv_core _ Hinv) _ _ Hk) as [].
  pose proof (out_ok_start _ _ _ _ k Hi) as (_ & Hu & _).
  pose proof (total_split _ _ _ _ _ (inv_rows _ _ _ _ Hi)) as Ets.
  assert (Hle : amount (claimed_rewards v) + due (core_symbol st) (producers st) v <= max_amount).
  { assert (Hall : 0 <= allocating_sum tbl1).
    { apply msum_nonneg. intros p r. by eapply table_allocating_nonneg, Hi. }
    enough (amount (unclaimed_rewards v1) + amount (claimed_rewards v1)
      <= credited_sum (<[k := v1]> (voters st))).
    { rewrite Hdue, Hcl in *. destruct Hi. lia. }
    apply (msum_member (fun _ v => amount (unclaimed_rewards v) + amount (claimed_rewards v))
      (<[k := v1]> (voters st)) k v1); [|by rewrite lookup_insert_eq].
    intros k' v' Hk'. destruct (inv_voters _ _ _ _ Hi _ _ Hk'). lia. }
  unfold voter_at in Hu. rewrite lookup_insert_eq in Hu. simpl in Hu.
  rewrite asset_add_Ok; [|unfold_range; lia|unfold_range; simpl; lia|done|simpl; unfold_range; lia].
  cbn. by rewrite vo_claimed_sym.
Qed.

Lemma claim_post_inv c st k v :
  inv st -> initialised st -> voters st !! k = Some v ->
  0 < due (core_symbol st) (producers st) v -> inv (claim_post c st k v).
Proof.
  intros Hinv Hini Hk Hpos. unfold claim_post.
  pose proof (settle_claim c _ _ _ _ k v Hini (inv_core _ Hinv) Hk) as Hs.
  destruct (if 0 <? v_votes v then _ else (v, producers st)) as [v1 tbl1].
  destruct Hs as (_ & Hi & Ho & Hw & Hcl & Hdue). apply inv_update; [done..|].
  set (v2 := Voter _ _ _ _ _ _). rewrite <- (insert_insert_eq (voters st) k v2 v1).
  assert (Hat : voter_at (core_symbol st) (<[k := v1]> (voters st)) k = v1)
    by (unfold voter_at; by rewrite lookup_insert_eq).
  pose proof (reward_voter_ok _ _ _ _ k Hi) as Hv1. rewrite Hat in Hv1. destruct Hv1.
  eapply store_voter; try done.
  - apply same_books_refl.
  - pose proof (inv_split _ _ _ _ k Hi) as Ht. rewrite Hat in Ht.
    eapply table_ok_ext, Ht. intros p. unfold stake_of, v2. simpl. by rewrite Hw.
  - simpl. congruence.
  - simpl. lia.
  - simpl. rewrite Hcl in vo_claimed. lia.
  - rewrite Hat. simpl. rewrite Hdue, Hcl. lia.
Qed.

(** A transfer to the contract is accepted from a registered producer, as long as the sum
    of all rewards stays representable. *)
Definition transfer_post (c : ctx) (st : state) (from : name) (q : asset) (p : producer)
    : state :=
  State (Some (Asset (amount (gstate st) + amount q) (core_symbol st))) (voters st)
    (<[from := Producer (owner p) true
        (Asset (amount (total_rewards p) + amount q) (core_symbol st))
        (Asset (amount (allocating_rewards p) + amount q) (core_symbol st))
        (allocated_rewards p) (votes p)
        (if 0 <? votes p then
           rewards_per_vote p + amount q * HIGH_PRECISION / votes p
         else rewards_per_vote p) (now c)]> (producers st)).

(** The transfer is core tokens coming in from somebody else. *)
Definition incoming (c : ctx) (st : state) (from to : name) (q : asset) : bool :=
  (get_first_receiver c =? CORE_TOKEN) && (asset_symbol q =? core_symbol st)
  && negb (from =? get_self c) && (to =? get_self c).

Lemma rpv_step rpv q w T :
  0 <= rpv <= T * HIGH_PRECISION -> 0 <= T -> T + q <= max_amount -> 0 < q -> 0 <= w ->
  forall s, calc_rewards_per_vote rpv (Asset q s) w =
    Ok (if 0 <? w then rpv + q * HIGH_PRECISION / w else rpv) /\
    (0 < w -> 0 <= q * HIGH_PRECISION / w <= q * HIGH_PRECISION /\
      w * (q * HIGH_PRECISION / w) <= q * HIGH_PRECISION).
Proof.
  intros Hr HT Hmax Hq Hw s. unfold calc_rewards_per_vote. simpl. do 2 cmp_true. simpl.
  rewrite (proj2 (Z.ltb_lt 0 q) Hq). simpl.
  destruct (Z.ltb_spec 0 w) as [Hpos|Hpos]; [|split; [done|lia]].
  assert (Hd : 0 <= q * HIGH_PRECISION / w <= q * HIGH_PRECISION).
  { unfold HIGH_PRECISION. split; [apply Z.div_pos; lia|].
    apply Z.div_le_upper_bound; nia. }
  assert (Hm : w * (q * HIGH_PRECISION / w) <= q * HIGH_PRECISION) by (apply Z.mul_div_le; lia).
  split; [|done]. unfold max_amount, HIGH_PRECISION in *.
  rewrite (i128_id (q * _)) by lia. rewrite Z.quot_div_nonneg by lia.
  rewrite i128_id by lia. cmp_true. done.
Qed.

Lemma row_at_Some core tbl p r : tbl !! p = Some r -> row_at core tbl p = r.
Proof. unfold row_at. by intros ->. Qed.

Lemma total_le_sum core B Q f tbl p r :
  table_ok core B Q f tbl -> tbl !! p = Some r -> amount (total_rewards r) <= total_sum tbl.
Proof.
  intros Ht Hp. apply (msum_member (fun _ p => amount (total_rewards p)) tbl p); [|done].
  intros k r' Hk. specialize (Ht k). rewrite (row_at_Some _ _ _ _ Hk) in Ht. destruct Ht. lia.
Qed.

Lemma ontransfer_Ok c st from to q memo r :
  inv st -> initialised st -> 0 < amount q <= max_amount ->
  ontransfer c st from to q memo = Ok r <->
  if incoming c st from to q then
    amount (gstate st) + amount q <= max_amount /\
    exists p, producers st !! from = Some p /\ is_registered p = true /\
      r = (transfer_post c st from q p, [])
  else r = (st, []).
Proof.
  intros Hinv Hini Hq. unfold ontransfer, incoming. fold (core_symbol st).
  destruct (_ && _ && _ && _) eqn:Hin; [|unfold mret, result_ret; naive_solver].
  rewrite !andb_true_iff, !Z.eqb_eq in Hin. destruct Hin as [[[_ Hsym] _] _].
  pose proof (inv_core _ Hinv) as Hi. pose proof (inv_rows _ _ _ _ Hi) as Ht.
  assert (Hg : in_range (amount (gstate st))).
  { destruct Hi. rewrite <- inv_total.
    assert (0 <= total_sum (producers st)); [|unfold_range; lia]. apply msum_nonneg.
    intros p row Hp. specialize (Ht p). rewrite (row_at_Some _ _ _ _ Hp) in Ht.
    destruct Ht. lia. }
  assert (Hrow : forall p, producers st !! from = Some p ->
    amount (gstate st) + amount q <= max_amount ->
    (total' ← asset_add (total_rewards p) q;
     allocating' ← asset_add (allocating_rewards p) q;
     rpv ← calc_rewards_per_vote (rewards_per_vote p) q (votes p);
     mret (State (Some (Asset (amount (gstate st) + amount q) (core_symbol st))) (voters st)
       (<[from := Producer (owner p) true total' allocating' (allocated_rewards p)
                    (votes p) rpv (now c)]> (producers st)), []))
    = Ok (transfer_post c st from q p, [] : list effect)).
  { intros p Hp Hmax. pose proof (total_le_sum _ _ _ _ _ _ _ Ht Hp) as Hle.
    rewrite (inv_total _ _ _ _ Hi) in Hle.
    specialize (Ht from). rewrite (row_at_Some _ _ _ _ Hp) in Ht. destruct Ht.
    do 2 (rewrite asset_add_Ok by (congruence || (unfold_range; simpl in *; lia));
      cbn [mbind result_bind]).
    destruct (rpv_step (rewards_per_vote p) (amount q) (votes p) (amount (total_rewards p)))
      with (s := asset_symbol q) as [Hrpv _]; try (simpl in *; lia).
    rewrite <- (amount_eta q _ _ eq_refl eq_refl) in Hrpv. rewrite Hrpv. simpl.
    unfold transfer_post. rewrite ro_total_sym, ro_allocating_sym. done. }
  split.
  - intros E. apply bind_Ok in E as (total & Et & E).
    apply law_asset_add in Et as (_ & Hr & ->); [|done|unfold_range; lia].
    apply bind_Ok in E as (p & Hp%get_or_Ok & E). apply bind_Ok in E as (? & Hreg%check_Ok & E).
    assert (Hmax : amount (gstate st) + amount q <= max_amount) by apply Hr.
    specialize (Hrow p Hp Hmax). rewrite Hreg in E. unfold now in Hrow.
    fold (core_symbol st) in E. rewrite Hrow in E. injection E as <-. eauto.
  - intros (Hmax & p & Hp & Hreg & ->).
    rewrite asset_add_Ok; [|done|unfold_range; lia|by rewrite Hsym|unfold_range; lia].
    cbn [mbind result_bind]. rewrite Hp. cbn [get_or mbind result_bind].
    rewrite Hreg. cbn [check mbind result_bind]. by apply Hrow.
Qed.

Lemma transfer_post_inv c st from q p :
  inv st -> initialised st -> 0 < amount q -> amount (gstate st) + amount q <= max_amount ->
  producers st !! from = Some p -> inv (transfer_post c st from q p).
Proof.
  intros Hinv Hini Hq Hmax Hp. unfold transfer_post. pose proof (inv_core _ Hinv) as Hi.
  pose proof (inv_rows _ _ _ _ Hi) as Ht.
  pose proof (total_le_sum _ _ _ _ _ _ _ Ht Hp) as Hle. rewrite (inv_total _ _ _ _ Hi) in Hle.
  apply inv_intro; [done|]. simpl. set (p' := Producer _ _ _ _ _ _ _ _).
  assert (Hrows : table_ok (core_symbol st) (votes_for (voters st)) (pending_for (voters st))
    no_stake (<[from := p']> (producers st)) /\
    rewards_per_vote p <= rewards_per_vote p').
  { pose proof (Ht from) as Hrow. rewrite (row_at_Some _ _ _ _ Hp) in Hrow.
    pose proof Hrow as []. simpl in *.
    destruct (rpv_step (rewards_per_vote p) (amount q) (votes p) (amount (total_rewards p)))
      with (s := 0) as [_ Hstep]; try lia.
    assert (Hpend : forall d, pending_for (voters st) from (rewards_per_vote p + d) =
      pending_for (voters st) from (rewards_per_vote p) + votes p * d).
    { intros d. rewrite ro_votes, Z.add_0_r. unfold pending_for, votes_for.
      rewrite Z.mul_comm, <- msum_scale, <- msum_add. apply msum_ext.
      intros k v _. unfold accrued. lia. }
    split.
    - intros p0. rewrite row_at_insert. case_bool_decide as E; [subst p0|apply Ht].
      unfold p'. split; simpl; try done; try congruence; try lia.
      all: unfold HIGH_PRECISION in *.
      all: destruct (Z.ltb_spec 0 (votes p)) as [Hv|Hv];
        [destruct (Hstep Hv); rewrite ?Hpend; lia|lia].
    - simpl. destruct (Z.ltb_spec 0 (votes p)) as [Hv|Hv]; [|lia]. destruct (Hstep Hv). lia. }
  destruct Hrows as [Hrows Hrpv]. destruct Hi. split; try done.
  - intros k v Hk. destruct (inv_voters _ _ Hk). split; try done.
    intros p0. rewrite row_at_insert. specialize (vo_last p0).
    case_bool_decide as E; [subst p0|done]. rewrite (row_at_Some _ _ _ _ Hp) in vo_last. lia.
  - unfold total_sum in *. rewrite (msum_insert_Some _ _ _ _ _ Hp). simpl. lia.
  - unfold allocated_sum in *. rewrite (msum_insert_Some _ _ _ _ _ Hp). simpl. lia.
Qed.

(** A row that differs in its registration and time only *)
Lemma reregister_inv core total vs tbl p r :
  inv_ core total vs tbl ->
  let r0 := row_at core tbl p in
  owner r = owner r0 -> total_rewards r = total_rewards r0 ->
  allocating_rewards r = allocating_rewards r0 -> allocated_rewards r = allocated_rewards r0 ->
  votes r = votes r0 -> rewards_per_vote r = rewards_per_vote r0 ->
  inv_ core total vs (<[p := r]> tbl).
Proof.
  intros [] r0 E1 E2 E3 E4 E5 E6. split.
  - intros q. rewrite row_at_insert. case_bool_decide as E; [subst q|done].
    destruct (inv_rows p). split; rewrite ?E1, ?E2, ?E3, ?E4, ?E5, ?E6; done.
  - intros k v Hk. destruct (inv_voters k v Hk). split; try done. intros q.
    rewrite row_at_insert. case_bool_decide as E; [subst q; by rewrite E6|done].
  - rewrite <- inv_total. unfold total_sum.
    rewrite (msum_row_insert (fun p => amount (total_rewards p)) core) by done.
    fold r0. rewrite E2. lia.
  - done.
  - rewrite <- inv_credited. unfold allocated_sum.
    rewrite (msum_row_insert (fun p => amount (allocated_rewards p)) core) by done.
    fold r0. rewrite E4. lia.
Qed.

Lemma regproducer_eq c st p :
  inv st -> initialised st ->
  let r := row_at (core_symbol st) (producers st) p in
  regproducer c st p =
  (_ ← require_auth c p;
   ensure is_account c p else "producer account not found";
   mret (State (global st) (voters st)
     (<[p := Producer (owner r) true (total_rewards r) (allocating_rewards r)
               (allocated_rewards r) (votes r) (rewards_per_vote r) (now c)]> (producers st)), [])).
Proof.
  intros Hinv Hini r. unfold regproducer, check_init. unfold initialised in Hini.
  fold (core_symbol st). rewrite Hini. cbn [check mbind result_bind].
  destruct (require_auth c p) as [[]|]; simpl; [|done].
  destruct (is_account c p); simpl; [|done].
  pose proof (inv_rows _ _ _ _ (inv_core _ Hinv) p) as Hrow. fold r in Hrow.
  assert (Hload : new_producer_row (core_symbol st) p (default producer_default (producers st !! p))
    (bool_decide (producers st !! p = None)) = Ok r).
  { unfold r, row_at. destruct (producers st !! p) eqn:E; simpl; [done|].
    by apply new_producer_row_fresh. }
  rewrite db_set_eq; rewrite Hload; simpl; [done|]. intros ? ? [= <- _]. apply Hrow.
Qed.
End actions.

(** ** Runs *)

Inductive op : Type :=
| op_init (core : symbol)
| op_regproducer (producer : name)
| op_addvote (voter : name) (votes : Z)
| op_subvote (voter : name) (votes : Z)
| op_voteproducer (voter : name) (producers : list name)
| op_claimrewards (voter : name)
| op_claimfor (claimer voter : name)
| op_ontransfer (from to : name) (quantity : asset) (memo : string).

Section machine.
Context {cdt : Cdt}.

(** Arguments as the callers produce them: [int64_t] votes, and the positive valid
    quantities flon.token transfers.  A new voter row starts from zeroed memory. *)
Definition op_ok (co : ctx * op) : Prop :=
  indeterminate_i64 co.1 = 0 /\
  match co.2 with
  | op_addvote _ n | op_subvote _ n => is_i64 n
  | op_ontransfer _ _ q _ => asset_valid q = true /\ 0 < amount q
  | _ => True
  end.

Definition exec (c : ctx) (o : op) (st : state) : result (state * list effect) :=
  match o with
  | op_init core => init c st core
  | op_regproducer p => regproducer c st p
  | op_addvote k n => addvote c st k n
  | op_subvote k n => subvote c st k n
  | op_voteproducer k ps => voteproducer c st k ps
  | op_claimrewards k => claimrewards c st k
  | op_claimfor cl k => claimfor c st cl k
  | op_ontransfer from to q memo => ontransfer c st from to q memo
  end.

(** Successful actions in order: the final state and all effects *)
Fixpoint run (l : list (ctx * op)) (st : state) : result (state * list effect) :=
  match l with
  | [] => Ok (st, [])
  | (c, o) :: l' =>
      '(st1, es1) ← exec c o st;
      '(st2, es2) ← run l' st1;
      Ok (st2, es1 ++ es2)
  end.

Definition reachable (st : state) : Prop :=
  exists l es, Forall op_ok l /\ run l init_state = Ok (st, es).

(** The core tokens an action pays out *)
Definition paid (es : list effect) : Z :=
  foldr (fun t acc => amount t.2 + acc) 0 (transfers_of es).
End machine.

Section invariance.
Context {cdt : Cdt} {laws : CdtLaws}.

Lemma paid_app es1 es2 : paid (es1 ++ es2) = paid es1 + paid es2.
Proof.
  unfold paid, transfers_of. rewrite omap_app.
  induction (omap _ es1) as [|t l IH]; [done|]. simpl. rewrite IH. lia.
Qed.

Lemma paid_nil : paid [] = 0.
Proof. done. Qed.

Lemma claimed_insert core vs k v :
  claimed_sum (<[k := v]> vs) =
  claimed_sum vs - amount (claimed_rewards (voter_at core vs k)) + amount (claimed_rewards v).
Proof.
  unfold claimed_sum, voter_at. destruct (vs !! k) eqn:E; simpl.
  - by rewrite (msum_insert_Some _ _ _ _ _ E).
  - rewrite msum_insert_None by done. lia.
Qed.

Lemma check_init_Ok st u : check_init st = Ok u <-> initialised st.
Proof. unfold check_init. by rewrite check_Ok. Qed.

Definition step_ok (st st' : state) (es : list effect) : Prop :=
  inv st' /\ claimed_sum (voters st') = claimed_sum (voters st) + paid es.

Lemma reward_init_step c st core st' es :
  inv st -> init c st core = Ok (st', es) -> step_ok st st' es.
Proof.
  intros Hinv H. unfold init in H. ok_inv. to_prop.
  match goal with HA : asset_ctor _ _ = Ok _ |- _ =>
    apply law_asset_ctor in HA as (_ & Hcore & ->) end.
  assert (Hg : global st = None).
  { destruct (global st) as [g|] eqn:Eg; [|done]. exfalso.
    pose proof (inv_sym _ Hinv _ Eg). unfold gstate in *. rewrite Eg in *. simpl in *.
    congruence. }
  destruct (inv_init _ Hinv Hg) as [Ev Ep]. unfold step_ok. rewrite Ev, Ep.
  split; [|simpl; rewrite paid_nil; lia].
  apply inv_intro; [done|]. split; try done.
Qed.

Lemma vote_step c st k n (adding : bool) st' :
  inv st -> initialised st -> indeterminate_i64 c = 0 -> is_i64 n ->
  change_vote c st k n adding = Ok st' -> step_ok st st' [].
Proof.
  intros Hinv Hini Hind Hn H. rewrite change_vote_eq in H by done.
  repeat (apply bind_Ok in H as (? & ?Hc & H)). injection H as <-. to_prop.
  pose proof (reward_voter_ok _ _ _ _ k (inv_core _ Hinv)) as Hv.
  pose proof (vo_votes _ _ _ _ Hv). split.
  - apply vote_post_inv; try done; destruct adding; unfold_ints; simpl in *; to_prop; lia.
  - simpl. rewrite (claimed_insert (core_symbol st)). rewrite paid_nil; simpl; lia.
Qed.

Lemma claim_step c st k st' es :
  inv st -> initialised st -> claim_rewards c st k = Ok (st', es) -> step_ok st st' es.
Proof.
  intros Hinv Hini H. rewrite claim_rewards_eq in H by done.
  destruct (voters st !! k) as [v|] eqn:Hk; [|done]. ok_inv. to_prop.
  split; [by apply claim_post_inv|]. unfold claim_post.
  destruct (if 0 <? v_votes v then _ else (v, producers st)) as [v1 tbl1]. simpl.
  rewrite (claimed_insert (core_symbol st)). unfold voter_at, paid. rewrite Hk. simpl. lia.
Qed.

Lemma reward_exec_step c o st st' es :
  inv st -> op_ok (c, o) -> exec c o st = Ok (st', es) -> step_ok st st' es.
Proof.
  intros Hinv [Hind Hty] H.
  destruct o as [core|p|k n|k n|k ps|k|cl k|from to q memo]; simpl in *.
  - by eapply reward_init_step.
  - assert (Hini : initialised st).
    { unfold regproducer in H. apply bind_Ok in H as (u & H & _). by eapply check_init_Ok. }
    rewrite regproducer_eq in H by done. ok_inv.
    split; [|simpl; rewrite paid_nil; lia]. apply inv_update; try done.
    eapply reregister_inv; [apply Hinv|done..].
  - apply bind_Ok in H as (u & Hini%check_init_Ok & H). ok_inv. by eapply vote_step.
  - apply bind_Ok in H as (u & Hini%check_init_Ok & H). ok_inv. by eapply vote_step.
  - assert (Hini : initialised st).
    { unfold voteproducer in H. apply bind_Ok in H as (u & H & _). by eapply check_init_Ok. }
    rewrite voteproducer_eq in H by done. ok_inv. to_prop.
    pose proof (revote_loops c (core_symbol st) _ _ _ k ps Hini (inv_core _ Hinv)
      (proj1 (strictly_sorted_spec _) ltac:(eassumption))) as Hl.
    cbn zeta in Hl. destruct (split_votes _ _) as [[??]?]. destruct Hl as [_ Hl].
    split; [apply inv_update; [done..|]; by apply Hl|].
    simpl. rewrite (claimed_insert (core_symbol st)). unfold paid; simpl. lia.
  - apply bind_Ok in H as (u & Hini%check_init_Ok & H). apply bind_Ok in H as (_ & _ & H).
    by eapply claim_step.
  - apply bind_Ok in H as (u & Hini%check_init_Ok & H). apply bind_Ok in H as (_ & _ & H).
    by eapply claim_step.
  - destruct Hty as [Hval Hpos]. apply law_asset_valid in Hval as [Hr Hval].
    destruct (symbol_valid (core_symbol st)) eqn:Hini.
    + rewrite ontransfer_Ok in H; [|done|done|unfold_range; lia].
      destruct (incoming _ _ _ _ _).
      * destruct H as (Hmax & p & Hp & _ & [= -> ->]).
        split; [by apply transfer_post_inv|simpl; rewrite paid_nil; lia].
      * injection H as -> ->. split; [done|]. rewrite paid_nil. lia.
    + unfold ontransfer in H.
      destruct (_ && _ && _ && _) eqn:Hin.
      { exfalso. rewrite !andb_true_iff, !Z.eqb_eq in Hin. destruct Hin as [[[_ Hs] _] _].
        congruence. }
      injection H as <- <-. split; [done|]. rewrite paid_nil. lia.
Qed.

Lemma inv_init_state : inv init_state.
Proof. split; [done|done|]. by split. Qed.

Lemma run_step l st st' es :
  inv st -> Forall op_ok l -> run l st = Ok (st', es) -> step_ok st st' es.
Proof.
  revert st es. induction l as [|[c o] l IH]; intros st es Hinv Hl Hrun; simpl in Hrun.
  - injection Hrun as <- <-. split; [done|]. rewrite paid_nil. lia.
  - apply Forall_cons in Hl as [Ho Hl].
    apply bind_Ok in Hrun as ([st1 es1] & He & Hrun).
    apply bind_Ok in Hrun as ([st2 es2] & Hrun & [= -> <-]).
    destruct (reward_exec_step _ _ _ _ _ Hinv Ho He) as [Hinv1 Hp1].
    destruct (IH _ _ Hinv1 Hl Hrun) as [Hinv2 Hp2].
    split; [done|]. rewrite paid_app. lia.
Qed.

Lemma reward_reachable_inv st : reachable st -> inv st.
Proof. intros (l & es & Hl & Hrun). eapply run_step; [apply inv_init_state|done..]. Qed.
End invariance.

(** ** Solvency *)

Section solvency.
Context {cdt : Cdt} {laws : CdtLaws}.

(** A duplicate-free list of stakes earns at most what a sum over all rows accrues. *)
Lemma earned_le_msum core w ps : forall tbl (g : name -> producer -> Z),
  NoDup ps.*1 -> (forall p r, tbl !! p = Some r -> 0 <= g p r) ->
  (forall p i, (p, i) ∈ ps -> exists r, tbl !! p = Some r /\
    g p r = w * (rewards_per_vote r - last_rewards_per_vote i)) ->
  earned core tbl w ps * HIGH_PRECISION <= msum g tbl.
Proof.
  induction ps as [|[p i] ps IH]; intros tbl g Hnd Hg Hps; simpl.
  { by apply msum_nonneg. }
  simpl in Hnd. apply NoDup_cons in Hnd as [Hp Hnd].
  destruct (Hps p i ltac:(set_solver)) as (r & Hr & Eg).
  rewrite (row_at_Some _ _ _ _ Hr), (msum_delete _ _ _ _ Hr), Eg.
  assert (Hpay : payout w (rewards_per_vote r - last_rewards_per_vote i) * HIGH_PRECISION
    <= w * (rewards_per_vote r - last_rewards_per_vote i)).
  { unfold payout, HIGH_PRECISION. rewrite Z.mul_comm. apply Z.mul_div_le. lia. }
  destruct (summaries_ext core (delete p tbl) tbl w 0 ps) as (E & _).
  { intros q Hq. unfold row_at. rewrite lookup_delete_ne; [done|]. by intros ->. }
  enough (earned core tbl w ps * HIGH_PRECISION <= msum g (delete p tbl)) by lia.
  rewrite <- E. apply IH; [done| |].
  - intros q r' [_ Hq]%lookup_delete_Some. by apply Hg.
  - intros q j Hq. destruct (Hps q j ltac:(set_solver)) as (r' & Hr' & Eg').
    exists r'. split; [|done]. rewrite lookup_delete_ne; [done|].
    intros ->. apply Hp. apply list_elem_of_fmap. by exists (q, j).
Qed.

Lemma earned_accrued core total vs tbl k v :
  inv_ core total vs tbl -> vs !! k = Some v ->
  earned core tbl (v_votes v) (v_producers v) * HIGH_PRECISION <=
  msum (fun p r => accrued (stake_of v p) (rewards_per_vote r)) tbl.
Proof.
  intros Hi Hk. pose proof (inv_voters _ _ _ _ Hi _ _ Hk) as Hv. pose proof Hv as [].
  assert (Hnn : forall p r, tbl !! p = Some r -> 0 <= accrued (stake_of v p) (rewards_per_vote r)).
  { intros p r Hp. eapply accrued_nonneg; [done|]. by rewrite (row_at_Some _ _ _ _ Hp). }
  destruct (decide (v_votes v = 0)) as [E|E]; [rewrite E, earned_zero; by apply msum_nonneg|].
  apply earned_le_msum; [by apply smap_ok_NoDup|done|]. intros p i Hin.
  pose proof (stake_elem v p i vo_map Hin) as Es. rewrite Es.
  assert (Hat : voter_at core vs k = v) by (unfold voter_at; by rewrite Hk).
  pose proof (inv_split _ _ _ _ k Hi p) as Hrow. rewrite Hat, Es in Hrow.
  destruct (tbl !! p) as [r|] eqn:Hp; [by exists r|].
  unfold row_at in Hrow. rewrite Hp in Hrow. destruct Hrow. simpl in *. lia.
Qed.

(** Everything all voters could claim now is covered by what was received and not yet
    paid out. *)
Lemma due_covered core total vs tbl :
  inv_ core total vs tbl ->
  msum (fun _ v => due core tbl v) vs <= total - claimed_sum vs.
Proof.
  intros Hi. pose proof (total_split _ _ _ _ _ (inv_rows _ _ _ _ Hi)) as Ets.
  unfold due. rewrite msum_add. pose proof Hi as [].
  assert (Ecr : credited_sum vs = unclaimed_sum vs + claimed_sum vs)
    by (unfold credited_sum; by rewrite msum_add).
  enough (msum (fun _ v => earned core tbl (v_votes v) (v_producers v)) vs
    <= allocating_sum tbl) by (unfold unclaimed_sum in *; lia).
  assert (Hle : HIGH_PRECISION * msum (fun _ v => earned core tbl (v_votes v) (v_producers v)) vs
    <= HIGH_PRECISION * allocating_sum tbl); [|unfold HIGH_PRECISION in *; lia].
  unfold allocating_sum. rewrite <- !msum_scale. etrans.
  - apply (msum_le _ (fun _ v => msum (fun p r => accrued (stake_of v p) (rewards_per_vote r)) tbl)).
    intros k v Hk. rewrite Z.mul_comm. by eapply earned_accrued.
  - rewrite msum_swap. apply msum_le. intros p r Hp.
    specialize (inv_rows p). rewrite (row_at_Some _ _ _ _ Hp) in inv_rows.
    destruct inv_rows. simpl in *. unfold pending_for in ro_solvent. lia.
Qed.
End solvency.

(** ** Properties *)

Section properties.
Context {cdt : Cdt} {laws : CdtLaws}.

(** C2 (solvency).  After any sequence of successful actions: the recorded total of
    rewards is the sum over the producers, each producer's total splits into rewards still
    allocating and rewards allocated, the allocated rewards are exactly those claimed by
    or credited to voters, the claimed ones are exactly the core tokens paid out so far,
    and what all voters together could claim right now is at most the total received minus
    the total paid out: every claim is covered. *)
Theorem solvency l st es :
  Forall op_ok l -> run l init_state = Ok (st, es) ->
  total_sum (producers st) = amount (gstate st) /\
  total_sum (producers st) = allocating_sum (producers st) + allocated_sum (producers st) /\
  allocated_sum (producers st) = unclaimed_sum (voters st) + claimed_sum (voters st) /\
  claimed_sum (voters st) = paid es /\
  (forall p r, producers st !! p = Some r -> 0 <= amount (allocating_rewards r)) /\
  msum (fun _ v => due (core_symbol st) (producers st) v) (voters st)
    <= amount (gstate st) - paid es.
Proof.
  intros Hl Hrun. destruct (run_step _ _ _ _ inv_init_state Hl Hrun) as [Hinv Hpaid].
  pose proof (inv_core _ Hinv) as Hi. simpl in Hpaid.
  assert (Hp0 : claimed_sum (voters st) = paid es) by exact Hpaid.
  split_and!; [apply Hi|by eapply total_split, Hi| |done| |].
  - rewrite (inv_credited _ _ _ _ Hi). unfold credited_sum. by rewrite msum_add.
  - intros p r Hp. eapply table_allocating_nonneg; [apply Hi|done].
  - rewrite <- Hp0. by apply due_covered.
Qed.

(** Votes are conserved.  In every reachable state a producer's votes are the sum of
    the votes of the voters whose list names him, they are a non-negative [int64_t], and
    every voter's list is sorted without duplicates and remembers an accumulator value no
    later than the producer's. *)
Theorem votes_conserved st :
  reachable st ->
  (forall p, votes (row_at (core_symbol st) (producers st) p) =
    msum (fun _ v => if bool_decide (p ∈ (v_producers v).*1) then v_votes v else 0) (voters st)
    /\ 0 <= votes (row_at (core_symbol st) (producers st) p) <= int64_max) /\
  (forall k v, voters st !! k = Some v ->
    v_owner v = k /\ smap_ok (v_producers v) /\ 0 <= v_votes v <= int64_max /\
    forall p i, (p, i) ∈ v_producers v -> 0 < v_votes v ->
      exists r, producers st !! p = Some r /\
        0 <= last_rewards_per_vote i <= rewards_per_vote r /\ v_votes v <= votes r).
Proof.
  intros Hinv%reward_reachable_inv. pose proof (inv_core _ Hinv) as Hi. split.
  - intros p. destruct (inv_rows _ _ _ _ Hi p). split; [|simpl in *; lia].
    rewrite ro_votes. simpl. rewrite Z.add_0_r. apply msum_ext. intros k v _. unfold stake_of.
    destruct (smap_get p (v_producers v)) as [i|] eqn:E; simpl.
    + rewrite bool_decide_true; [done|]. apply smap_get_elem in E.
      apply list_elem_of_fmap. by exists (p, i).
    + apply smap_get_None in E. by rewrite bool_decide_false.
  - intros k v Hk. pose proof (inv_voters _ _ _ _ Hi _ _ Hk) as []. split_and!; [done|done|lia|lia|].
    intros p i Hin Hpos. pose proof (stake_elem v p i vo_map Hin) as Es.
    pose proof (inv_split _ _ _ _ k Hi p) as Hrow. unfold voter_at in Hrow.
    rewrite Hk in Hrow. simpl in Hrow. rewrite Es in Hrow.
    destruct (producers st !! p) as [r|] eqn:Hp; unfold row_at in Hrow; rewrite Hp in Hrow;
      destruct Hrow; simpl in *; [exists r; split_and!; try done; lia|lia].
Qed.

(** C20 (claims pay exactly what is due).  In every reachable state, [claimrewards] (and
    [claimfor], authorised by the claimer instead) succeeds exactly when the voter exists
    and is due a positive amount: his unclaimed rewards plus, for every producer he voted
    for, his votes times the increase of the producer's accumulator since his last
    settlement, divided by 10^18 rounding down.  It then sends one transfer of exactly
    that amount and settles the voter; none of the internal consistency checks can fire. *)
Theorem claim_exact c st claimer k st' es :
  reachable st ->
  let core := core_symbol st in
  let paid_out v := [send CORE_TOKEN [PermissionLevel (get_self c) ACTIVE_PERM]
    (token_transfer (get_self c) k (Asset (due core (producers st) v) core) "voted rewards")] in
  let claims who := initialised st /\ has_auth c who = true /\
    exists v, voters st !! k = Some v /\ 0 < due core (producers st) v /\
      st' = claim_post c st k v /\ es = paid_out v in
  (claimrewards c st k = Ok (st', es) <-> claims k) /\
  (claimfor c st claimer k = Ok (st', es) <-> claims claimer).
Proof.
  intros Hinv%reward_reachable_inv core paid_out claims.
  assert (H : forall who, (_ ← check_init st; _ ← require_auth c who; claim_rewards c st k)
    = Ok (st', es) <-> claims who); [|split; apply H].
  intros who. unfold claims, require_auth. rewrite bind_Ok. setoid_rewrite check_init_Ok.
  split.
  - intros (_ & Hini & E). apply bind_Ok in E as (_ & Ha%check_Ok & E).
    rewrite claim_rewards_eq in E by done.
    destruct (voters st !! k) as [v|] eqn:Hk; [|done].
    apply bind_Ok in E as (_ & Hd%check_Ok & [= <- <-]). apply Z.ltb_lt in Hd. eauto 10.
  - intros (Hini & Ha & v & Hk & Hd & -> & ->). exists tt. split; [done|].
    rewrite Ha. cbn [check mbind result_bind]. rewrite claim_rewards_eq, Hk by done.
    fold core. by rewrite (proj2 (Z.ltb_lt _ _) Hd).
Qed.

(** Changing a voter's votes.  In every reachable state [addvote] succeeds exactly
    when the contract is initialised, both flon and the voter authorised it, the number is
    positive, and neither the voter's nor any of his producers' votes leave [int64_t];
    [subvote] exactly when the number is positive and at most the voter's votes.  Both
    settle all the voter's rewards at the old number of votes first. *)
Theorem change_vote_exact c st k n st' es :
  reachable st -> indeterminate_i64 c = 0 -> is_i64 n ->
  let core := core_symbol st in
  let v := voter_at core (voters st) k in
  let authorised := initialised st /\ has_auth c SYSTEM_CONTRACT = true /\ has_auth c k = true in
  (addvote c st k n = Ok (st', es) <->
    authorised /\ 0 < n /\ v_votes v + n <= int64_max /\
    votes_fit core (producers st) n (v_producers v) = true /\
    st' = vote_post c st k n /\ es = []) /\
  (subvote c st k n = Ok (st', es) <->
    authorised /\ 0 < n <= v_votes v /\ st' = vote_post c st k (- n) /\ es = []).
Proof.
  intros Hinv%reward_reachable_inv Hind Hn core v authorised. unfold authorised.
  pose proof (inv_core _ Hinv) as Hi. pose proof (reward_voter_ok _ _ _ _ k Hi) as Hv.
  fold core v in Hv. pose proof (vo_votes _ _ _ _ Hv) as Hw.
  assert (Hfit : forall d, d <= 0 -> votes_fit core (producers st) d (v_producers v) = true)
    by (intros d Hd; eapply votes_fit_le; [apply Hi|done]).
  unfold addvote, subvote. split; rewrite bind_Ok; setoid_rewrite check_init_Ok.
  - split.
    + intros (_ & Hini & E). apply bind_Ok in E as (s & E & [= <- <-]).
      rewrite change_vote_eq in E by done. unfold require_auth in E.
      repeat (apply bind_Ok in E as (_ & ?H%check_Ok & E)). injection E as <-. to_prop. done.
    + intros ((Hini & H1 & H2) & Hpos & Hmax & Hf & -> & ->). exists tt. split; [done|].
      rewrite change_vote_eq by done. unfold require_auth. fold core v.
      rewrite H1, H2, Hf. cbn [check mbind result_bind orb].
      rewrite (proj2 (Z.ltb_lt 0 n)), (proj2 (Z.leb_le _ int64_max)) by lia. done.
  - split.
    + intros (_ & Hini & E). apply bind_Ok in E as (s & E & [= <- <-]).
      rewrite change_vote_eq in E by done. unfold require_auth in E.
      repeat (apply bind_Ok in E as (_ & ?H%check_Ok & E)). injection E as <-.
      simpl in *. to_prop. done.
    + intros ((Hini & H1 & H2) & Hpos & -> & ->). exists tt. split; [done|].
      rewrite change_vote_eq by done. unfold require_auth. fold core v.
      rewrite H1, H2, Hfit by lia. cbn [check mbind result_bind orb].
      rewrite (proj2 (Z.ltb_lt 0 n)), (proj2 (Z.leb_le n _)) by lia.
      cbn [check mbind result_bind]. by rewrite (proj2 (Z.leb_le _ int64_max)) by lia.
Qed.

Lemma votes_settle_table core t w d ps : forall tbl p, NoDup ps.*1 ->
  votes (row_at core (settle_table core t w d ps tbl) p) =
  votes (row_at core tbl p) + (if bool_decide (p ∈ ps.*1) then d else 0).
Proof.
  induction ps as [|[q i] ps IH]; intros tbl p Hnd; simpl; [lia|].
  simpl in Hnd. apply NoDup_cons in Hnd as [Hq Hnd].
  rewrite IH by done. rewrite row_at_insert. destruct (decide (q = p)) as [->|Hne].
  - rewrite !(bool_decide_true (p = p)) by done. rewrite (bool_decide_false (p ∈ ps.*1)) by done.
    rewrite bool_decide_true by set_solver. simpl. lia.
  - rewrite (bool_decide_false (q = p)) by done. f_equal.
    destruct (decide (p ∈ ps.*1)).
    + by rewrite !bool_decide_true by set_solver.
    + by rewrite !bool_decide_false by set_solver.
Qed.

(** C40 (voting for producers).  In every reachable state [voteproducer] succeeds exactly
    when it is authorised by flon and the voter, the list is strictly increasing and the
    votes of the newly added producers stay in [int64_t].  Afterwards the voter's list is
    exactly the new one, every entry settled at the producer's accumulator; each producer
    lost the voter's votes if he was on the old list and gained them if he is on the new
    one; and the voter was credited what his old list had earned.  The header allows at most 30
    producers; this contract does not check it, only flon.system does, which sends it the list. *)
Theorem voteproducer_exact c st k prods st' es :
  reachable st -> indeterminate_i64 c = 0 ->
  let core := core_symbol st in
  let v := voter_at core (voters st) k in
  let in_list (p : name) l : Z := if bool_decide (p ∈ l) then v_votes v else 0 in
  (voteproducer c st k prods = Ok (st', es) <->
    initialised st /\ has_auth c SYSTEM_CONTRACT = true /\ has_auth c k = true /\
    StronglySorted Z.lt prods /\
    votes_fit core (producers st) (v_votes v) (added_of (v_producers v) prods) = true /\
    st' = revote_post c st k prods /\ es = []) /\
  (voteproducer c st k prods = Ok (st', es) ->
    voters st' = <[k := revote_voter c core (producers st) prods v]> (voters st) /\
    (forall p, votes (row_at core (producers st') p) =
      votes (row_at core (producers st) p) - in_list p (v_producers v).*1 + in_list p prods)).
Proof.
  intros Hinv%reward_reachable_inv Hind core v in_list.
  pose proof (reward_voter_ok _ _ _ _ k (inv_core _ Hinv)) as Hv. fold core v in Hv.
  assert (Hiff : voteproducer c st k prods = Ok (st', es) <->
    initialised st /\ has_auth c SYSTEM_CONTRACT = true /\ has_auth c k = true /\
    StronglySorted Z.lt prods /\
    votes_fit core (producers st) (v_votes v) (added_of (v_producers v) prods) = true /\
    st' = revote_post c st k prods /\ es = []).
  { split.
    - intros E. assert (Hini : initialised st).
      { apply bind_Ok in E as (u & E & _). by eapply check_init_Ok. }
      rewrite voteproducer_eq in E by done. unfold require_auth in E.
      repeat (apply bind_Ok in E as (_ & ?H%check_Ok & E)). injection E as <- <-.
      by rewrite <- strictly_sorted_spec.
    - intros (Hini & H1 & H2 & Hs & Hf & -> & ->). rewrite voteproducer_eq by done.
      unfold require_auth. fold core v.
      by rewrite H1, H2, (proj2 (strictly_sorted_spec _) Hs), Hf. }
  split; [exact Hiff|]. intros (_ & _ & _ & Hs & _ & -> & _)%Hiff. split; [done|]. intros p.
  pose proof (smap_ok_NoDup _ (vo_map _ _ _ _ Hv)) as Hnd.
  assert (Hp : NoDup prods).
  { rewrite <- (revoted_keys core (producers st) prods). by apply smap_ok_NoDup, revoted_ok. }
  unfold revote_post, revote_table. simpl. fold core v.
  rewrite !votes_settle_table; [|by apply fmap_filter_NoDup..|
    rewrite added_keys; by apply NoDup_filter].
  unfold in_list. rewrite added_keys.
  destruct (decide (p ∈ (v_producers v).*1)) as [Ho|Ho], (decide (p ∈ prods)) as [Hn|Hn];
    repeat case_bool_decide; rewrite ?removed_keys, ?kept_keys, ?list_elem_of_filter in *;
    try tauto; lia.
Qed.
End properties.

(** ** Examples *)

Definition reward_self : name := name_lit "flon.reward".
Definition ex_ctx (t : time_point) : ctx := {|
  get_self := reward_self;
  get_first_receiver := name_lit "flon.token";
  has_auth := fun _ => true;
  has_permission := fun _ => true;
  is_account := fun _ => true;
  current_time_point := t;
  get_resource_limits := fun _ => (0, true);
  accepts_producers := fun _ => true;
  indeterminate_i64 := 0;
|}.
Definition ex_asset (n : Z) : asset := Asset n ref_symbol.

(** Voters 20 (30 votes) and 21 (10 votes) vote for producer 7, who distributes 100
    twice; voter 20 also votes for 8 in between, who distributes 7. *)
Definition ex_ops : list (ctx * op) :=
  (ex_ctx 946684801000000,.) <$>
    [op_init ref_symbol; op_regproducer 7; op_regproducer 8;
     op_addvote 20 30; op_addvote 21 10;
     op_voteproducer 20 [7]; op_voteproducer 21 [7];
     op_ontransfer 7 reward_self (ex_asset 100) "";
     op_voteproducer 20 [7; 8];
     op_ontransfer 8 reward_self (ex_asset 7) "";
     op_ontransfer 7 reward_self (ex_asset 100) "";
     op_claimrewards 21].
Definition ex_state : state :=
  match run ex_ops init_state with Ok (st, _) => st | Err _ => init_state end.
Definition ex_effects : list effect :=
  match run ex_ops init_state with Ok (_, es) => es | Err _ => [] end.

Lemma ex_ok : Forall op_ok ex_ops.
Proof. repeat constructor; done. Qed.
Lemma ex_reward_run : run ex_ops init_state = Ok (ex_state, ex_effects).
Proof. vm_compute. reflexivity. Qed.
Lemma ex_reward_reachable : reachable ex_state.
Proof. exists ex_ops, ex_effects. split; [apply ex_ok|apply ex_reward_run]. Qed.

(** 207 received, 50 paid to voter 21, 156 due to voter 20: 1 is lost to rounding (7 over 30 votes) *)
Lemma solvency_witness :
  total_sum (producers ex_state) = 207 /\ paid ex_effects = 50 /\
  msum (fun _ v => due (core_symbol ex_state) (producers ex_state) v) (voters ex_state) = 156 /\
  msum (fun _ v => due (core_symbol ex_state) (producers ex_state) v) (voters ex_state)
    <= amount (gstate ex_state) - paid ex_effects.
Proof.
  destruct (solvency ex_ops ex_state ex_effects ex_ok ex_reward_run) as (H & _ & _ & _ & _ & Hdue).
  split_and!; [rewrite H; vm_compute; reflexivity|vm_compute; reflexivity..|exact Hdue].
Defined.

Lemma votes_conserved_witness :
  votes (row_at (core_symbol ex_state) (producers ex_state) 7) = 40 /\
  votes (row_at (core_symbol ex_state) (producers ex_state) 7) <= int64_max.
Proof.
  destruct (votes_conserved ex_state ex_reward_reachable) as [H _]. destruct (H 7) as [_ [_ Hmax]].
  split; [vm_compute; reflexivity|exact Hmax].
Defined.

Definition ex_voter : voter := voter_at 260 (voters ex_state) 20.

Lemma claim_exact_witness :
  exists es, claimrewards (ex_ctx 946684802000000) ex_state 20 =
      Ok (claim_post (ex_ctx 946684802000000) ex_state 20 ex_voter, es) /\ paid es = 156.
Proof.
  eexists. split.
  - apply (proj1 (claim_exact (ex_ctx 946684802000000) ex_state 20 20 _ _ ex_reward_reachable)).
    split; [vm_compute; reflexivity|]. split; [reflexivity|]. exists ex_voter.
    split; [vm_compute; reflexivity|]. split; [vm_compute; reflexivity|].
    split; reflexivity.
  - vm_compute. reflexivity.
Defined.

Lemma change_vote_exact_witness :
  subvote (ex_ctx 946684802000000) ex_state 20 30 =
    Ok (vote_post (ex_ctx 946684802000000) ex_state 20 (- 30), []) /\
  is_ok (subvote (ex_ctx 946684802000000) ex_state 20 31) = false.
Proof.
  split; [|vm_compute; reflexivity].
  apply (change_vote_exact (ex_ctx 946684802000000) ex_state 20 30 _ [] ex_reward_reachable eq_refl).
  - unfold_ints. lia.
  - split_and!; done.
Defined.

Lemma voteproducer_exact_witness :
  voteproducer (ex_ctx 946684802000000) ex_state 20 [8] =
    Ok (revote_post (ex_ctx 946684802000000) ex_state 20 [8], []) /\
  votes (row_at 260 (producers (revote_post (ex_ctx 946684802000000) ex_state 20 [8])) 7) = 10.
Proof.
  split; [|vm_compute; reflexivity].
  apply (voteproducer_exact (ex_ctx 946684802000000) ex_state 20 [8] _ [] ex_reward_reachable eq_refl).
  split_and!; try done. repeat constructor.
Defined.
