(* ===== verification/System.v ===== *)
(** * flon.system: the whole contract

    The tables together, [onblock], the dispatch of every action, and sequences of actions.
    Each action runs on a fresh contract object: the constructor
    ([system_contract::system_contract], [flon.system.cpp]) loads the global state or takes
    the chain's defaults, the destructor stores it. *)
From S2P Require Import Prelude Table Cdt CdtRef SystemData Finalizer Voting VotingProps.
From S2P Require Token Reward Native.
From S2P Require Import BlockInfo NameBid AuthChange ProducerPay Admin.
From Stdlib Require Import ZArith Lia String.
From stdpp Require Import base tactics numbers list gmap.
Open Scope Z_scope.

Record sys : Type := Sys {
  global : option eosio_global_state;
  voting : Voting.state;
  finality : Finalizer.state;
  names : NameBid.state;
  blocks : BlockInfo.table;
  auth_changes : AuthChange.table;
  creators : gmap name account_creator;
  abi_hashes : gmap name bytes;
  prodconf : option producing_config;
}.
Definition init_sys : sys :=
  Sys None Voting.init_state Finalizer.init_state NameBid.init_state ∅ ∅ ∅ ∅ None.

(** What an action sees outside the contract's own tables *)
Record env : Type := Env {
  env_ctx : ctx;
  chain_parameters : blockchain_parameters;     (* [get_blockchain_parameters] *)
  env_token : Token.state;                      (* the tables of flon.token *)
  env_reward : Reward.state;                    (* the tables of flon.reward *)
  (* where the allocator puts the stored vector and the argument of [voteproducer] *)
  vector_addresses : list name -> list name -> Z * Z;
}.

(** The actions, with their arguments *)
Inductive op : Type :=
| Init (version : Z) (core : symbol)
| Setparams (p : blockchain_parameters_v1)
| Wasmcfg (settings : name)
| Setpriv (account : name) (ispriv : Z)
| Setalimits (account : name) (gas : Z) (is_unlimited : bool)
| Activate (feature_digest : bytes)
| Logsystemfee (protocol : name) (fee : asset) (memo : string)
| Setibintervl (idle_block_interval_ms : Z)
| Newaccount (creator new_account_name : name)
| Setabi (account : name) (abi : bytes) (memo : option string)
| Setcode (account : name) (vmtype vmversion : Z) (code : bytes) (memo : option string)
| Canceldelay
| Onerror
| Updateauth (account permission parent : name) (auth : Native.authority)
    (authorized_by : option name)
| Deleteauth (account permission : name) (authorized_by : option name)
| Linkauth (account code type requirement : name) (authorized_by : option name)
| Unlinkauth (account code type : name) (authorized_by : option name)
| Limitauthchg (account : name) (allow_perms disallow_perms : list name)
| Buygas (payer receiver : name) (quant : asset)
| Buygasself (account : name) (quant : asset)
| Onblock (timestamp : block_timestamp) (producer : name) (previous_block_id : bytes)
| Claimrewards (owner : name)
| Cfgelection (election_activated reward_started : time_point) (initial_rewards : asset)
| Bidname (bidder newname : name) (bid : asset)
| Bidrefund (bidder newname : name)
| Regproducer (producer : name) (key : bytes) (url : string) (location : Z) (ratio : option Z)
| Regproducer2 (producer : name) (authority : block_signing_authority) (url : string)
    (location : Z) (ratio : option Z)
| Unregprod (producer : name)
| Rmvproducer (producer : name)
| Voteproducer (voter : name) (producers : list name)
| Addvote (voter : name) (vote_staked : asset)
| Subvote (voter : name) (vote_staked : asset)
| Voterefund (owner : name)
| Switchtosvnn
| Regfinkey (finalizer : name) (key proof_of_possession : string)
| Actfinkey (finalizer : name) (key : string)
| Delfinkey (finalizer : name) (key : string).

Section machine.
Context {cdt : Cdt} {bls : Bls} {memory : Memory} {serializer : Serializer}.

(** ** Writing back one component *)

Definition with_global (g : eosio_global_state) (s : sys) : sys :=
  Sys (Some g) (voting s) (finality s) (names s) (blocks s) (auth_changes s) (creators s)
    (abi_hashes s) (prodconf s).
Definition with_voting (v : Voting.state) (s : sys) : sys :=
  Sys (global s) v (finality s) (names s) (blocks s) (auth_changes s) (creators s)
    (abi_hashes s) (prodconf s).
Definition with_finality (f : Finalizer.state) (s : sys) : sys :=
  Sys (global s) (voting s) f (names s) (blocks s) (auth_changes s) (creators s)
    (abi_hashes s) (prodconf s).
Definition with_names (n : NameBid.state) (s : sys) : sys :=
  Sys (global s) (voting s) (finality s) n (blocks s) (auth_changes s) (creators s)
    (abi_hashes s) (prodconf s).
Definition with_blocks (b : BlockInfo.table) (s : sys) : sys :=
  Sys (global s) (voting s) (finality s) (names s) b (auth_changes s) (creators s)
    (abi_hashes s) (prodconf s).
Definition with_auth_changes (a : AuthChange.table) (s : sys) : sys :=
  Sys (global s) (voting s) (finality s) (names s) (blocks s) a (creators s) (abi_hashes s)
    (prodconf s).
Definition with_creators (a : gmap name account_creator) (s : sys) : sys :=
  Sys (global s) (voting s) (finality s) (names s) (blocks s) (auth_changes s) a (abi_hashes s)
    (prodconf s).
Definition with_abi_hashes (a : gmap name bytes) (s : sys) : sys :=
  Sys (global s) (voting s) (finality s) (names s) (blocks s) (auth_changes s) (creators s) a
    (prodconf s).
Definition with_prodconf (a : option producing_config) (s : sys) : sys :=
  Sys (global s) (voting s) (finality s) (names s) (blocks s) (auth_changes s) (creators s)
    (abi_hashes s) a.

(** ** [onblock] *)

(** The part under [timestamp.slot - last_producer_schedule_update.slot > 120] *)
Definition update_schedule (c : ctx) (g : eosio_global_state) (s : sys)
    (timestamp : block_timestamp) : result (eosio_global_state * sys * list effect) :=
  if 120 <? u32 (timestamp - last_producer_schedule_update g) then
    let '(g, fin, es) := update_elected_producers c g (voting s) (finality s) timestamp in
    '(g, nm, es') ← close_highest_bid c g (names s) timestamp;
    mret (g, with_names nm (with_finality fin s), es ++ es')
  else mret (g, s, []).

Definition onblock (c : ctx) (g : eosio_global_state) (s : sys) (timestamp : block_timestamp)
    (producer : name) (previous_block_id : bytes)
    : result (eosio_global_state * sys * list effect) :=
  _ ← require_auth c (get_self c);
  blocks' ← add_to_blockinfo_table (blocks s) previous_block_id timestamp;
  let s := with_blocks blocks' s in
  (* [timestamp < election_activated_time] compares slots: the time is converted *)
  if (election_activated_time g =? 0)
     || (timestamp <? slot_of_time_point (election_activated_time g)) then
    mret (g, s, [])
  else
    let now := time_point_of_slot timestamp in
    '(g, v) ← pay_block g (voting s) producer now;
    update_schedule c g (with_voting v s) timestamp.

(** ** Dispatch *)

(** Handlers that touch one component, on the loaded global state *)
Definition only_effects (g : eosio_global_state) (s : sys) (r : result (list effect))
    : result (eosio_global_state * sys * list effect) :=
  es ← r; mret (g, s, es).
Definition only_check (g : eosio_global_state) (s : sys) (r : result unit)
    : result (eosio_global_state * sys * list effect) :=
  _ ← r; mret (g, s, []).
Definition on_voting (g : eosio_global_state) (s : sys) (r : result (Voting.state * list effect))
    : result (eosio_global_state * sys * list effect) :=
  '(v, es) ← r; mret (g, with_voting v s, es).
Definition on_stake (s : sys)
    (r : result (eosio_global_state * Voting.state * list effect))
    : result (eosio_global_state * sys * list effect) :=
  '(g, v, es) ← r; mret (g, with_voting v s, es).
Definition on_finality (g : eosio_global_state) (s : sys)
    (r : result (Finalizer.state * list effect))
    : result (eosio_global_state * sys * list effect) :=
  '(f, es) ← r; mret (g, with_finality f s, es).
Definition on_names (g : eosio_global_state) (s : sys) (r : result (NameBid.state * list effect))
    : result (eosio_global_state * sys * list effect) :=
  '(n, es) ← r; mret (g, with_names n s, es).

Definition handler (e : env) (o : op) (g : eosio_global_state) (s : sys)
    : result (eosio_global_state * sys * list effect) :=
  let c := env_ctx e in
  let v := voting s in
  let registered := Reward.is_producer_registered (env_reward e) in
  match o with
  | Init version core => '(g, es) ← init c g (env_token e) version core; mret (g, s, es)
  | Setparams p => '(g, es) ← setparams c g p; mret (g, s, es)
  | Wasmcfg n => only_effects g s (wasmcfg c n)
  | Setpriv a p => only_effects g s (setpriv c a p)
  | Setalimits a gas u => only_effects g s (setalimits c a gas u)
  | Activate d => only_effects g s (activate c d)
  | Logsystemfee p f m => only_effects g s (logsystemfee c p f m)
  | Setibintervl n => p ← setibintervl c (prodconf s) n; mret (g, with_prodconf p s, [])
  | Newaccount cr n =>
      '(nm, cs, es) ← newaccount c (global s) (names s) (creators s) cr n;
      mret (g, with_creators cs (with_names nm s), es)
  | Setabi a abi _ => t ← setabi (abi_hashes s) a abi; mret (g, with_abi_hashes t s, [])
  | Setcode _ _ _ _ _ | Canceldelay => mret (g, s, [])
  | Onerror => only_check g s onerror
  | Updateauth a p pa au by_ => only_check g s (updateauth c (auth_changes s) a p pa au by_)
  | Deleteauth a p by_ => only_check g s (deleteauth c (auth_changes s) a p by_)
  | Linkauth a co ty r by_ => only_check g s (linkauth c (auth_changes s) a co ty r by_)
  | Unlinkauth a co ty by_ => only_check g s (unlinkauth c (auth_changes s) a co ty by_)
  | Limitauthchg a al di =>
      t ← limitauthchg c (auth_changes s) a al di; mret (g, with_auth_changes t s, [])
  | Buygas p r q => only_effects g s (buygas c g p r q)
  | Buygasself a q => only_effects g s (buygasself c g a q)
  | Onblock t p id => onblock c g s t p id
  | Claimrewards o => only_check g s (claimrewards c o)
  | Cfgelection t1 t2 a => g ← cfgelection c g t1 t2 a; mret (g, s, [])
  | Bidname b n q => on_names g s (bidname c g (names s) b n q)
  | Bidrefund b n => on_names g s (bidrefund (names s) b n)
  | Regproducer p k u l r => on_voting g s (regproducer c g v registered p k u l r)
  | Regproducer2 p a u l r => on_voting g s (regproducer2 c g v registered p a u l r)
  | Unregprod p => on_voting g s (unregprod c v p)
  | Rmvproducer p => on_voting g s (rmvproducer c v p)
  | Voteproducer k ps =>
      let old := default [] (v_producers <$> voters v !! k) in
      let '(a_old, a_new) := vector_addresses e old ps in
      on_voting g s (voteproducer c v a_old a_new k ps)
  | Addvote k q => on_stake s (addvote c g v k q)
  | Subvote k q => on_stake s (subvote c g v k q)
  | Voterefund k => on_voting g s (voterefund c v k)
  | Switchtosvnn =>
      on_finality g s (switchtosvnn c (finality s) (producers v) (last_producer_schedule_size g))
  | Regfinkey n k pop => on_finality g s (regfinkey c (finality s) (producers v) n k pop)
  | Actfinkey n k => on_finality g s (actfinkey c (finality s) n k)
  | Delfinkey n k => on_finality g s (delfinkey c (finality s) n k)
  end.

(** ** Actions in sequence *)

(** The constructor's [_gstate] *)
Definition loaded (e : env) (s : sys) : eosio_global_state :=
  default (get_default_parameters (chain_parameters e)) (global s).

(** An inline transfer aborts the whole transaction on these arguments ([token::transfer]). *)
Definition transfers_allowed (es : list effect) : bool :=
  forallb (fun '(from, to, q) =>
    negb (from =? to) && (0 <? amount q) && (amount q <=? max_amount)) (transfers_of es).

(** The actions of the class [native], which has neither a constructor nor a destructor of its own *)
Definition in_native (o : op) : bool :=
  match o with
  | Newaccount _ _ | Updateauth _ _ _ _ _ | Deleteauth _ _ _ | Linkauth _ _ _ _ _
  | Unlinkauth _ _ _ _ | Canceldelay | Onerror | Setabi _ _ _ | Setcode _ _ _ _ _ => true
  | _ => false
  end.

(** One action: load, handle, store; the next object's cache is empty.  The constructor of
    [system_contract] loads the global state and its destructor stores it; the actions of [native] do neither. *)
Definition exec (e : env) (o : op) (s : sys) : result (sys * list effect) :=
  '(g, s', es) ← handler e o (loaded e s) s;
  ensure transfers_allowed es else "inline transfer failed";
  let s' := if in_native o then s' else with_global g s' in
  mret (with_finality (next_action (finality s')) s', es).

Fixpoint run (l : list (env * op)) (s : sys) : result (sys * list effect) :=
  match l with
  | [] => Ok (s, [])
  | (e, o) :: l' =>
      '(s1, es1) ← exec e o s;
      '(s2, es2) ← run l' s1;
      Ok (s2, es1 ++ es2)
  end.

(** Arguments in their types, and vectors that do not overlap *)
Definition op_ok (eo : env * op) : Prop :=
  (forall l m, let '(a, b) := vector_addresses eo.1 l m in disjoint_at a l b m) /\
  match eo.2 with
  | Subvote _ q | Addvote _ q | Bidname _ _ q | Cfgelection _ _ q => is_i64 (amount q)
  | _ => True
  end.
End machine.
