(* ===== verification/Rows.v ===== *)
(** * The rows of flon.system, as stored

    The chain keeps a table as packed rows by scope and primary key.  Here is how each row
    of flon.system is packed ([flon.system.hpp], [block_info.hpp], [limit_auth_changes.hpp],
    [native.hpp]: members in the order of [EOSLIB_SERIALIZE], or as declared where there is none),
    what it means for all tables to hold values of the members' types ([sys_fits]), and that such tables come
    back from the bytes they are stored as.  [SystemTyped.v] shows that every action keeps
    them so. *)
From S2P Require Import Prelude Table Cdt SystemData Wire Abi.
From S2P Require Native.
From S2P Require Import Finalizer Voting NameBid BlockInfo AuthChange System.
From Stdlib Require Import ZArith Lia String.
From stdpp Require Import base tactics numbers list gmap fin_maps strings.
Open Scope Z_scope.
#[local] Existing Instances Native.abi_hash_lawful.

(** ** The types of what the toolkit returns *)

(** [sha256] and the BLS decoder return arrays of bytes; a name has at most 13 characters, and is
    a [uint64_t], as a symbol's code. *)
Class CdtTypes `{Cdt} `{Bls} : Prop := {
  ty_sha256 b : is_bytes b -> is_bytes (sha256 b);
  ty_names : Forall (is_uint 64) (name_lit <$> source_names);
  ty_name_to_string n : Z.of_nat (String.length (name_to_string n)) <= 13;
  ty_symbol_code s : is_uint 64 s -> is_uint 64 (symbol_code s);
  ty_decode k b :
    is_uint 32 (Z.of_nat (String.length k)) -> decode_bls_public_key_to_g1 k = Ok b -> is_bytes b;
}.

(** ** Integers *)

Lemma is_uint_u64 z : is_uint 64 (u64 z).
Proof. pose proof (u64_range z). unfold is_uint. unfold_ints. lia. Qed.
Lemma is_uint_u32 z : is_uint 32 (u32 z).
Proof. pose proof (u32_range z). unfold is_uint. unfold_ints. lia. Qed.
Lemma is_uint_u16 z : is_uint 16 (u16 z).
Proof. unfold is_uint, u16, wrap_u. apply Z.mod_pos_bound. lia. Qed.
Lemma is_bytes_nil : is_bytes [].
Proof. split; [constructor|]. by apply uint_zero. Qed.
Lemma uint_small w z : 0 <= z < 2 ^ w -> is_uint w z.
Proof. done. Qed.
#[export] Hint Resolve is_uint_u64 is_uint_u32 is_uint_u16 is_bytes_nil i64_range : flon.

(** An asset the toolkit computed, or a transfer moved *)
Definition asset_ok (a : asset) : Prop := asset_fits a /\ in_range (amount a).

(** Arithmetic on assets gives assets. *)
Lemma asset_ok_intro n s : is_uint 64 s -> in_range n -> asset_ok (Asset n s).
Proof. intros Hs Hn. split; [split; [by apply in_range_i64|done]|done]. Qed.
Lemma asset_ctor_typed `{CdtLaws} n s a :
  is_uint 64 s -> asset_ctor n s = Ok a -> asset_ok a.
Proof. intros Hs (Hn & _ & ->)%law_asset_ctor. by apply asset_ok_intro. Qed.
Lemma asset_add_typed `{CdtLaws} a b c :
  asset_ok a -> is_i64 (amount b) -> asset_add a b = Ok c ->
  asset_ok c /\ asset_symbol c = asset_symbol a.
Proof.
  intros [[_ Hs] Ha] Hb (_ & Hc & ->)%law_asset_add; [|done..]. split; [|done]. by apply asset_ok_intro.
Qed.
Lemma asset_sub_typed `{CdtLaws} a b c :
  asset_ok a -> is_i64 (amount b) -> asset_sub a b = Ok c ->
  asset_ok c /\ asset_symbol c = asset_symbol a.
Proof.
  intros [[_ Hs] Ha] Hb (_ & Hc & ->)%law_asset_sub; [|done..]. split; [|done]. by apply asset_ok_intro.
Qed.

(** The amount of a transfer that was sent *)
Lemma sent_amount es from to q :
  transfers_allowed es = true -> (from, to, q) ∈ transfers_of es -> in_range (amount q).
Proof.
  unfold transfers_allowed. intros H Hin. rewrite forallb_forall in H.
  apply list_elem_of_In in Hin. specialize (H _ Hin). simpl in H. to_prop. unfold in_range, max_amount in *. lia.
Qed.

Lemma emplace_Forall `{Countable K} {A} (P : K -> A -> Prop) (m m' : gmap K A) k r :
  emplace m k r = Ok m' -> P k r -> map_Forall P m -> map_Forall P m'.
Proof. intros [_ ->]%emplace_Ok. apply map_Forall_insert_2. Qed.

Lemma default_fits {A} (P : A -> Prop) (o : option A) d :
  P d -> (forall x, o = Some x -> P x) -> P (default d o).
Proof. destruct o; simpl; eauto. Qed.

Section rows.
Context {wire : Wire}.

(** ** Codecs *)

(** [EOSLIB_SERIALIZE_DERIVED]: the base's members first *)
Definition global_state_wire : codec eosio_global_state :=
  struct_codec
    (fun '(p, vs, mr, tr, rs, et, rt, ir, pr, ur, ls, lu, lc, rv) =>
      GlobalState p vs mr tr rs et rt ir pr ur ls lu lc rv)
    (fun g => (params g, total_vote_stake g, max_ram_size g, total_ram_bytes_reserved g,
      total_ram_stake g, election_activated_time g, reward_started_time g,
      initial_rewards_per_block g, total_produced_rewards g, total_unclaimed_rewards g,
      last_producer_schedule_size g, last_producer_schedule_update g, last_name_close g, revision g))
    (wire_parameters ⊗ wire_asset ⊗ wire_uint 64 ⊗ wire_uint 64 ⊗ wire_int64 ⊗ wire_time_point
      ⊗ wire_time_point ⊗ wire_asset ⊗ wire_asset ⊗ wire_asset ⊗ wire_uint 16 ⊗ wire_block_timestamp
      ⊗ wire_block_timestamp ⊗ wire_uint 8).
Definition name_bid_wire : codec name_bid :=
  struct_codec (fun '(n, b, h, t) => NameBid n b h t)
    (fun r => (SystemData.newname r, high_bidder r, high_bid r, last_bid_time r))
    (wire_name ⊗ wire_name ⊗ wire_int64 ⊗ wire_time_point).
Definition bid_refund_wire : codec bid_refund :=
  struct_codec (fun '(b, a) => BidRefund b a) (fun r => (bidder r, refund_amount r))
    (wire_name ⊗ wire_asset).
Definition account_creator_wire : codec account_creator :=
  struct_codec (fun '(o, c) => AccountCreator o c) (fun r => (ac_owner r, creator r))
    (wire_name ⊗ wire_name).
Definition producer_info_wire : codec producer_info :=
  struct_codec
    (fun '(o, v, k, a, u, r, t, l, au, s, rv) => ProducerInfo o v k a u r t l au s rv)
    (fun p => (owner p, total_votes p, SystemData.producer_key p, is_active p, url p, unclaimed_rewards p,
      last_claim_time p, location p, SystemData.producer_authority p, reward_shared_ratio p,
      p_revision p))
    (wire_name ⊗ wire_int64 ⊗ wire_public_key ⊗ wire_bool ⊗ wire_string ⊗ wire_asset
      ⊗ wire_time_point ⊗ wire_uint 16 ⊗ wire_signing_authority ⊗ wire_uint 32 ⊗ wire_uint 8).
Definition finalizer_key_info_wire : codec finalizer_key_info :=
  struct_codec (fun '(i, n, k, b) => FinalizerKeyInfo i n k b)
    (fun r => (id r, k_finalizer_name r, finalizer_key r, finalizer_key_binary r))
    (wire_uint 64 ⊗ wire_name ⊗ wire_string ⊗ wire_blob).
Definition finalizer_info_wire : codec finalizer_info :=
  struct_codec (fun '(n, i, b, c) => FinalizerInfo n i b c)
    (fun r => (finalizer_name r, active_key_id r, active_key_binary r, finalizer_key_count r))
    (wire_name ⊗ wire_uint 64 ⊗ wire_blob ⊗ wire_uint 32).
Definition finalizer_auth_info_wire : codec finalizer_auth_info :=
  struct_codec (fun '(i, a) => FinalizerAuthInfo i a) (fun r => (key_id r, fin_authority r))
    (wire_uint 64 ⊗ wire_finalizer_authority).
Definition last_prop_finalizers_wire : codec (list finalizer_auth_info) :=
  wire_vector finalizer_auth_info_wire.
Definition voter_info_wire : codec voter_info :=
  struct_codec (fun '(o, p, v, t, r) => VoterInfo o p v t r)
    (fun r => (v_owner r, v_producers r, v_votes r, last_unvoted_time r, v_revision r))
    (wire_name ⊗ wire_vector wire_name ⊗ wire_int64 ⊗ wire_block_timestamp ⊗ wire_uint 8).
Definition vote_refund_wire : codec vote_refund :=
  struct_codec (fun '(o, t, s) => VoteRefund o t s) (fun r => (r_owner r, request_time r, vote_staked r))
    (wire_name ⊗ wire_time_point_sec ⊗ wire_asset).
Definition producing_config_wire : codec producing_config :=
  struct_codec ProducingConfig idle_block_interval_ms (wire_uint 64).
Definition limit_auth_change_wire : codec limit_auth_change :=
  struct_codec (fun '(v, a, al, di) => LimitAuthChange v a al di)
    (fun r => (AuthChange.version r, account r, allow_perms r, disallow_perms r))
    (wire_uint 8 ⊗ wire_name ⊗ wire_vector wire_name ⊗ wire_vector wire_name).
Definition block_info_record_wire : codec block_info_record :=
  struct_codec (fun '(v, h, t) => BlockInfoRecord v h t)
    (fun r => (BlockInfo.version r, block_height r, block_time r))
    (wire_uint 8 ⊗ wire_uint 32 ⊗ wire_time_point).

(** ** Tables of typed rows *)

(** A row is stored under its primary key, which is a [uint64_t]. *)
Definition row_fits {A} (c : codec A) (primary_key : A -> Z) (k : Z) (r : A) : Prop :=
  fits c r /\ primary_key r = k /\ is_uint 64 k.
(** With a scope *)
Definition scoped_fits {A} (c : codec A) (primary_key : A -> Z) (k : Z * Z) (r : A) : Prop :=
  is_uint 64 k.1 /\ row_fits c primary_key k.2 r.
Definition opt_fits {A} (c : codec A) (o : option A) : Prop :=
  match o with Some x => fits c x | None => True end.

Record voting_fits (v : Voting.state) : Prop := {
  vf_voters : map_Forall (row_fits voter_info_wire v_owner) (voters v);
  vf_producers : map_Forall (row_fits producer_info_wire owner) (producers v);
  vf_refunds : map_Forall (scoped_fits vote_refund_wire r_owner) (vote_refunds v);
}.
Record finality_fits (f : Finalizer.state) : Prop := {
  ff_keys : map_Forall (row_fits finalizer_key_info_wire id) (finalizer_keys f);
  ff_finalizers : map_Forall (row_fits finalizer_info_wire finalizer_name) (finalizers f);
  ff_last : opt_fits last_prop_finalizers_wire (last_prop_finalizers f);
  ff_cached : opt_fits last_prop_finalizers_wire (last_prop_finalizers_cached f);
  ff_generator : opt_fits (wire_uint 64) (fin_key_id_generator f);
}.
Record names_fits (n : NameBid.state) : Prop := {
  nf_bids : map_Forall (row_fits name_bid_wire SystemData.newname) (bids n);
  nf_refunds : map_Forall (scoped_fits bid_refund_wire bidder) (bid_refunds n);
}.
(** The tables besides the global state *)
Record tables_fit (s : sys) : Prop := {
  tf_voting : voting_fits (voting s);
  tf_finality : finality_fits (finality s);
  tf_names : names_fits (names s);
  tf_blocks : map_Forall (row_fits block_info_record_wire block_height) (blocks s);
  tf_auth : map_Forall (row_fits limit_auth_change_wire account) (auth_changes s);
  tf_creators : map_Forall (row_fits account_creator_wire ac_owner) (creators s);
  tf_abis : map_Forall (fun k h => fits Native.abi_hash_wire (Native.AbiHash k h)) (abi_hashes s);
  tf_conf : opt_fits producing_config_wire (prodconf s);
}.
Definition sys_fits (s : sys) : Prop := opt_fits global_state_wire (global s) /\ tables_fit s.

(** ** The storage *)

(** A table of packed rows, by key (and scope) *)
Record storage : Type := Storage {
  b_global : option bytes;
  b_voters : gmap Z bytes;
  b_producers : gmap Z bytes;
  b_vote_refunds : gmap (Z * Z) bytes;
  b_finalizer_keys : gmap Z bytes;
  b_finalizers : gmap Z bytes;
  b_last_prop : option bytes;
  b_generator : option bytes;
  b_bids : gmap Z bytes;
  b_bid_refunds : gmap (Z * Z) bytes;
  b_blocks : gmap Z bytes;
  b_auth_changes : gmap Z bytes;
  b_creators : gmap Z bytes;
  b_abi_hashes : gmap Z bytes;
  b_prodconf : option bytes;
}.

Definition store (s : sys) : storage := {|
  b_global := pack global_state_wire <$> global s;
  b_voters := pack voter_info_wire <$> voters (voting s);
  b_producers := pack producer_info_wire <$> producers (voting s);
  b_vote_refunds := pack vote_refund_wire <$> vote_refunds (voting s);
  b_finalizer_keys := pack finalizer_key_info_wire <$> finalizer_keys (finality s);
  b_finalizers := pack finalizer_info_wire <$> finalizers (finality s);
  b_last_prop := pack last_prop_finalizers_wire <$> last_prop_finalizers (finality s);
  b_generator := pack (wire_uint 64) <$> fin_key_id_generator (finality s);
  b_bids := pack name_bid_wire <$> bids (names s);
  b_bid_refunds := pack bid_refund_wire <$> bid_refunds (names s);
  b_blocks := pack block_info_record_wire <$> blocks s;
  b_auth_changes := pack limit_auth_change_wire <$> auth_changes s;
  b_creators := pack account_creator_wire <$> creators s;
  b_abi_hashes := map_imap (fun k h => Some (pack Native.abi_hash_wire (Native.AbiHash k h))) (abi_hashes s);
  b_prodconf := pack producing_config_wire <$> prodconf s;
|}.

(** A row read from its bytes; the contract aborts on bytes that are none. *)
Definition load_row {A} (c : codec A) (b : bytes) : option A :=
  match unpack c b with Ok (x, _) => Some x | Err _ => None end.
Definition load (b : storage) : sys := {|
  global := b_global b ≫= load_row global_state_wire;
  voting := Voting.State (omap (load_row voter_info_wire) (b_voters b))
    (omap (load_row producer_info_wire) (b_producers b))
    (omap (load_row vote_refund_wire) (b_vote_refunds b));
  finality := Finalizer.State (omap (load_row finalizer_key_info_wire) (b_finalizer_keys b))
    (omap (load_row finalizer_info_wire) (b_finalizers b))
    (b_last_prop b ≫= load_row last_prop_finalizers_wire) None
    (b_generator b ≫= load_row (wire_uint 64));
  names := NameBid.State (omap (load_row name_bid_wire) (b_bids b))
    (omap (load_row bid_refund_wire) (b_bid_refunds b));
  blocks := omap (load_row block_info_record_wire) (b_blocks b);
  auth_changes := omap (load_row limit_auth_change_wire) (b_auth_changes b);
  creators := omap (load_row account_creator_wire) (b_creators b);
  abi_hashes := omap (fun d => Native.ah_hash <$> load_row Native.abi_hash_wire d) (b_abi_hashes b);
  prodconf := b_prodconf b ≫= load_row producing_config_wire;
|}.

(** ** What is stored is what is loaded. *)

Context {laws : WireLaws}.

#[export] Instance global_state_lawful : Lawful global_state_wire.
Proof. apply struct_lawful; [by intros []|by intros [[[[[[[[[[[[[]]]]]]]]]]]]]|apply _]. Qed.
#[export] Instance name_bid_lawful : Lawful name_bid_wire.
Proof. apply struct_lawful; [by intros []|by intros [[[]]]|apply _]. Qed.
#[export] Instance bid_refund_lawful : Lawful bid_refund_wire.
Proof. apply struct_lawful; [by intros []|by intros []|apply _]. Qed.
#[export] Instance account_creator_lawful : Lawful account_creator_wire.
Proof. apply struct_lawful; [by intros []|by intros []|apply _]. Qed.
#[export] Instance producer_info_lawful : Lawful producer_info_wire.
Proof. apply struct_lawful; [by intros []|by intros [[[[[[[[[[]]]]]]]]]]|apply _]. Qed.
#[export] Instance finalizer_key_info_lawful : Lawful finalizer_key_info_wire.
Proof. apply struct_lawful; [by intros []|by intros [[[]]]|apply _]. Qed.
#[export] Instance finalizer_info_lawful : Lawful finalizer_info_wire.
Proof. apply struct_lawful; [by intros []|by intros [[[]]]|apply _]. Qed.
#[export] Instance finalizer_auth_info_lawful : Lawful finalizer_auth_info_wire.
Proof. apply struct_lawful; [by intros []|by intros []|apply _]. Qed.
#[export] Instance last_prop_finalizers_lawful : Lawful last_prop_finalizers_wire.
Proof. apply _. Qed.
#[export] Instance voter_info_lawful : Lawful voter_info_wire.
Proof. apply struct_lawful; [by intros []|by intros [[[[]]]]|apply _]. Qed.
#[export] Instance vote_refund_lawful : Lawful vote_refund_wire.
Proof. apply struct_lawful; [by intros []|by intros [[]]|apply _]. Qed.
#[export] Instance producing_config_lawful : Lawful producing_config_wire.
Proof. apply struct_lawful; [by intros []|done|apply _]. Qed.
#[export] Instance limit_auth_change_lawful : Lawful limit_auth_change_wire.
Proof. apply struct_lawful; [by intros []|by intros [[[]]]|apply _]. Qed.
#[export] Instance block_info_record_lawful : Lawful block_info_record_wire.
Proof. apply struct_lawful; [by intros []|by intros [[]]|apply _]. Qed.

Lemma load_row_back {A} (c : codec A) x : reads_back c x -> load_row c (pack c x) = Some x.
Proof. unfold reads_back, load_row. by intros ->. Qed.
Lemma load_row_pack {A} (c : codec A) `{!Lawful c} x : fits c x -> load_row c (pack c x) = Some x.
Proof. intros Hx. by apply load_row_back, lawful_reads_back. Qed.
Lemma load_row_fits {A} (c : codec A) `{!Lawful c} b x : load_row c b = Some x -> fits c x.
Proof.
  unfold load_row. destruct (unpack c b) as [[y r]|] eqn:E; [|done]. intros [= <-].
  by eapply unpack_fits.
Qed.

Lemma load_option {A} (c : codec A) `{!Lawful c} o :
  opt_fits c o -> (pack c <$> o) ≫= load_row c = o.
Proof. destruct o as [x|]; [|done]. apply load_row_pack, _. Qed.

Lemma load_table_back `{Countable K} {A} (c : codec A) (m : gmap K A) :
  map_Forall (fun _ => reads_back c) m -> omap (load_row c) (pack c <$> m) = m.
Proof.
  intros Hm. apply map_eq. intros k. rewrite lookup_omap, lookup_fmap.
  destruct (m !! k) as [x|] eqn:E; [|done]. apply load_row_back. by eapply Hm.
Qed.
Lemma load_table `{Countable K} {A} (c : codec A) `{!Lawful c} (m : gmap K A) :
  map_Forall (fun _ => fits c) m -> omap (load_row c) (pack c <$> m) = m.
Proof.
  intros Hm. apply load_table_back. intros k x Hx. apply lawful_reads_back; [done|]. by eapply Hm.
Qed.

Lemma rows_fit {A} (c : codec A) (pk : A -> Z) (m : gmap Z A) :
  map_Forall (row_fits c pk) m -> map_Forall (fun _ => fits c) m.
Proof. intros Hm k x Hx. apply (Hm k x Hx). Qed.
Lemma scoped_rows_fit {A} (c : codec A) (pk : A -> Z) (m : gmap (Z * Z) A) :
  map_Forall (scoped_fits c pk) m -> map_Forall (fun _ => fits c) m.
Proof. intros Hm k x Hx. apply (Hm k x Hx). Qed.

Lemma load_abi_hashes (m : gmap Z bytes) :
  map_Forall (fun k h => fits Native.abi_hash_wire (Native.AbiHash k h)) m ->
  omap (fun d => Native.ah_hash <$> load_row Native.abi_hash_wire d)
    (map_imap (fun k h => Some (pack Native.abi_hash_wire (Native.AbiHash k h))) m) = m.
Proof.
  intros Hm. apply map_eq. intros k. rewrite lookup_omap, map_lookup_imap.
  destruct (m !! k) as [h|] eqn:E; [|done]. cbn -[load_row Native.abi_hash_wire].
  by rewrite load_row_pack by (apply _ || by eapply Hm).
Qed.

(** Storage round trip.  Tables whose rows hold values of their C++ types come back from
    the bytes the chain stores: all but the cache of the contract object. *)
Theorem storage_roundtrip s :
  sys_fits s -> load (store s) = with_finality (next_action (finality s)) s.
Proof.
  intros [Hg [[V1 V2 V3] [F1 F2 F3 F4 F5] [N1 N2] B A C H P]].
  destruct s as [gl [vs ps rs] [ks fs lp ca ge] [bs br] bl au cr ah pc]. simpl in *.
  unfold load, store, with_finality, next_action. cbn -[load_row pack unpack fits].
  rewrite !load_option, !load_table, load_abi_hashes
    by first [assumption | eapply rows_fit; eassumption | eapply scoped_rows_fit; eassumption | apply _].
  done.
Qed.
End rows.
