(* ===== verification/SystemInv.v ===== *)
(** * flon.system: the invariant of the whole contract

    The components' invariants together, kept by every action; and the money held for
    voters (account flon.vote) and bidders (account flon.names) against the transfers that
    were sent. *)
From S2P Require Import Prelude Table Cdt CdtRef SystemData NameBid.
From S2P Require Import Finalizer FinalizerProps Voting VotingProps Election.
From S2P Require Token Reward BlockInfo AuthChange.
From S2P Require Import ProducerPay Admin System.
From Stdlib Require Import ZArith Lia String.
From stdpp Require Import base tactics numbers list gmap.
Open Scope Z_scope.

(** ** What the components need of each other *)

Section frames.
Context {cdt : Cdt} {laws : CdtLaws}.

(** The voting invariant reads the total stake only. *)
Lemma voting_inv_global g g' st :
  total_vote_stake g' = total_vote_stake g -> VotingProps.inv g st -> VotingProps.inv g' st.
Proof.
  intros E []. split; rewrite ?E; try done; [|by unfold core_of in *; rewrite E].
  unfold is_init in *. by rewrite E.
Qed.

Lemma rewards_inv_global g g' tbl :
  total_produced_rewards g' = total_produced_rewards g ->
  total_unclaimed_rewards g' = total_unclaimed_rewards g ->
  initial_rewards_per_block g' = initial_rewards_per_block g ->
  reward_started_time g' = reward_started_time g ->
  election_activated_time g' = election_activated_time g ->
  rewards_inv g tbl -> rewards_inv g' tbl.
Proof. unfold rewards_inv. by intros -> -> -> -> ->. Qed.

Lemma unclaimed_bump l d tbl : unclaimed_sum (bump l d tbl) = unclaimed_sum tbl.
Proof.
  unfold unclaimed_sum. induction tbl as [|p i tbl Hp IH] using map_ind.
  { by rewrite (map_eq (bump l d ∅) ∅) by (intros p; by rewrite bump_lookup). }
  assert (E : bump l d (<[p := i]> tbl) =
    <[p := if bool_decide (p ∈ l) then with_total_votes (total_votes i + d) i else i]> (bump l d tbl)).
  { apply map_eq. intros q. rewrite bump_lookup. destruct (decide (p = q)) as [<-|Hne].
    - by rewrite !lookup_insert_eq.
    - by rewrite !lookup_insert_ne, bump_lookup by done. }
  assert (Hb : bump l d tbl !! p = None) by by rewrite bump_lookup, Hp.
  rewrite E, !msum_insert_None by done.
  rewrite IH. by case_bool_decide.
Qed.

(** Registering and deactivating a producer keep what it may still claim. *)
Lemma register_unclaimed c g st reg p auth url loc ratio st' es :
  register_producer c g st reg p auth url loc ratio = Ok (st', es) ->
  unclaimed_sum (producers st') = unclaimed_sum (producers st).
Proof.
  intros H. unfold register_producer in H.
  apply bind_Ok in H as (_ & _ & H). apply bind_Ok in H as (_ & _ & H).
  apply bind_Ok in H as (core & Hc & H). destruct (producers st !! p) as [i|] eqn:Ei.
  - injection H as <- _. simpl. rewrite (unclaimed_insert _ _ _ _ Ei). simpl. lia.
  - apply bind_Ok in H as (zero & Hz%law_asset_ctor & H). destruct Hz as (_ & _ & ->).
    apply bind_Ok in H as (tbl & Ht%emplace_Ok & [= <- _]). destruct Ht as [_ ->]. simpl.
    unfold unclaimed_sum. by rewrite msum_insert_None.
Qed.

Lemma deactivate_unclaimed tbl p i :
  tbl !! p = Some i -> unclaimed_sum (<[p := deactivate i]> tbl) = unclaimed_sum tbl.
Proof. intros Hi. rewrite (unclaimed_insert _ _ _ _ Hi). simpl. lia. Qed.
End frames.

(** ** Transfers *)

(** What an account received, less what it sent *)
Definition net (a : name) (es : list effect) : Z :=
  foldr (fun '(from, to, q) acc =>
    (if to =? a then amount q else 0) - (if from =? a then amount q else 0) + acc) 0
    (transfers_of es).

Lemma net_app a es1 es2 : net a (es1 ++ es2) = net a es1 + net a es2.
Proof.
  unfold net, transfers_of. rewrite omap_app.
  induction (omap _ es1) as [|[[from to] q] l IH]; [done|]. simpl. rewrite IH. lia.
Qed.

(** Effects without transfers *)
Definition no_transfers (es : list effect) : Prop := transfers_of es = [].
Lemma net_none a es : no_transfers es -> net a es = 0.
Proof. unfold net. by intros ->. Qed.
Lemma no_transfers_Forall es :
  Forall (fun e => match e with Send _ => False | _ => True end) es -> no_transfers es.
Proof. induction 1 as [|e es He _ IH]; [done|]. unfold no_transfers. simpl. by destruct e. Qed.

(** ** The invariant *)

Section invariant.
Context {cdt : Cdt} {bls : Bls} {memory : Memory} {serializer : Serializer}.

(** Staked votes, and refunds on their way *)
Definition refunds_sum (rs : gmap (name * name) vote_refund) : Z :=
  msum (fun _ r => amount (vote_staked r)) rs.
Definition staked (g : eosio_global_state) (s : sys) : Z :=
  amount (total_vote_stake g) + refunds_sum (vote_refunds (voting s)).

(** [n]: how many finalizer keys may have been registered *)
Record sys_ok (n : Z) (g : eosio_global_state) (s : sys) : Prop := {
  ok_voting : VotingProps.inv g (voting s);
  ok_finality : FinalizerProps.inv (finality s);
  ok_ids : next_id (finality s) <= n;
  ok_names : NameBid.inv g (names s);
  ok_auth : AuthChange.inv (auth_changes s);
  ok_blocks : BlockInfo.table_ok (blocks s);
  ok_rewards : rewards_inv g (producers (voting s));
  ok_size : 0 <= last_producer_schedule_size g <= 21;
}.

(** Before the first action of [system_contract] there may be hashes of ABIs. *)
Definition sys_inv (n : Z) (s : sys) : Prop :=
  match global s with Some g => sys_ok n g s | None => with_abi_hashes ∅ s = init_sys end.

Definition registers (o : op) : Z := match o with Regfinkey _ _ _ => 1 | _ => 0 end.
Fixpoint registrations (l : list (env * op)) : Z :=
  match l with [] => 0 | (_, o) :: l' => registers o + registrations l' end.

(** The accounts that hold the money authorise nothing themselves. *)
Definition holders_quiet (e : env) : Prop :=
  has_auth (env_ctx e) vote_account = false /\ has_auth (env_ctx e) names_account = false.

(** What a step guarantees *)
Record step_ok (n : Z) (g : eosio_global_state) (s : sys) (g' : eosio_global_state) (s' : sys)
    (es : list effect) : Prop := {
  so_inv : sys_ok n g' s';
  so_staked : staked g' s' <= staked g s + net vote_account es;
  so_owed : NameBid.owed (names s') <= NameBid.owed (names s) + net names_account es;
  so_core : is_init g = true -> core_of g' = core_of g;
}.

Context {laws : CdtLaws} (Hmem : disengaged = []).

Lemma names_differ i j a b :
  source_names !! i = Some a -> source_names !! j = Some b -> i <> j ->
  name_lit a <> name_lit b.
Proof.
  intros Ha Hb Hij E. pose proof law_names as Hnd. apply NoDup_cons in Hnd as [_ Hnd].
  apply Hij. eapply (NoDup_lookup _ i j (name_lit a)); [exact Hnd| |];
    rewrite list_lookup_fmap, ?Ha, ?Hb; simpl; by rewrite ?E.
Qed.

Lemma vote_names : vote_account <> names_account.
Proof. by apply (names_differ 4 6). Qed.
Lemma names_fees : names_account <> fees_account.
Proof. by apply (names_differ 6 7). Qed.

(** An account that sends nothing does not lose. *)
Lemma net_nonneg a es :
  transfers_allowed es = true ->
  (forall from to q, (from, to, q) ∈ transfers_of es -> from <> a) -> 0 <= net a es.
Proof.
  unfold transfers_allowed, net. induction (transfers_of es) as [|[[from to] q] l IH]; [done|].
  simpl. rewrite !andb_true_iff, Z.ltb_lt. intros [[[_ Hq] _] Hl] Hfrom.
  rewrite (proj2 (Z.eqb_neq from a)) by (apply (Hfrom from to q); by left).
  enough (0 <= foldr (fun '(from, to, q) acc => (if to =? a then amount q else 0) -
    (if from =? a then amount q else 0) + acc) 0 l) by (destruct (to =? a); lia).
  apply IH; [done|]. intros f t q' Hin. apply (Hfrom f t q'). by right.
Qed.

(** ** Steps that leave the money alone *)

Lemma sys_ok_mono n m g s : n <= m -> sys_ok n g s -> sys_ok m g s.
Proof. intros H []. split; try done. lia. Qed.

Lemma same_step n g s es :
  sys_ok n g s -> 0 <= net vote_account es -> 0 <= net names_account es ->
  step_ok n g s g s es.
Proof. intros Hok H1 H2. split; [done|lia|lia|done]. Qed.

Lemma quiet_step n g s es : sys_ok n g s -> no_transfers es -> step_ok n g s g s es.
Proof. intros Hok He. apply same_step; rewrite ?net_none; done. Qed.

(** Tables that the invariant does not read *)
Lemma frame_step n g s s' :
  sys_ok n g s -> voting s' = voting s -> finality s' = finality s -> names s' = names s ->
  auth_changes s' = auth_changes s -> blocks s' = blocks s -> step_ok n g s g s' [].
Proof.
  intros [] E1 E2 E3 E4 E5. unfold staked. split; [split; rewrite ?E1, ?E2, ?E3, ?E4, ?E5; done| | |done].
  - unfold staked. rewrite E1, net_none by done. lia.
  - rewrite E3, net_none by done. lia.
Qed.

Lemma finality_step n g s f es :
  sys_ok n g s -> FinalizerProps.inv f -> next_id f <= n -> no_transfers es ->
  step_ok n g s g (with_finality f s) es.
Proof.
  intros [] Hf Hn He. split; [by split| | |done].
  - unfold staked. simpl. rewrite net_none by done. lia.
  - simpl. rewrite net_none by done. lia.
Qed.

(** Voting actions that keep stakes and refunds *)
Lemma voting_step n g s v es :
  sys_ok n g s -> VotingProps.inv g v -> vote_refunds v = vote_refunds (voting s) ->
  unclaimed_sum (producers v) = unclaimed_sum (producers (voting s)) -> no_transfers es ->
  step_ok n g s g (with_voting v s) es.
Proof.
  intros [] Hv Hr Hu He. split; [split; try done| | |done].
  - simpl. unfold rewards_inv in *. by rewrite Hu.
  - unfold staked. simpl. rewrite Hr, net_none by done. lia.
  - simpl. rewrite net_none by done. lia.
Qed.

(** A new global state with the same stake and rewards *)
Lemma global_step n g g' s es :
  sys_ok n g s -> 0 <= last_producer_schedule_size g' <= 21 -> total_vote_stake g' = total_vote_stake g -> rewards_inv g' (producers (voting s)) ->
  no_transfers es -> step_ok n g s g' s es.
Proof.
  intros [] Hsz E Hr He. split; [split; try done| | |by intros _; unfold core_of; rewrite E].
  - by eapply voting_inv_global.
  - eapply NameBid.inv_global; [|done]. by rewrite E.
  - unfold staked. rewrite E, net_none by done. lia.
  - rewrite net_none by done. lia.
Qed.

Lemma same_rewards g g' tbl :
  rewards_inv g tbl ->
  (total_produced_rewards g', total_unclaimed_rewards g', initial_rewards_per_block g',
   reward_started_time g', election_activated_time g') =
  (total_produced_rewards g, total_unclaimed_rewards g, initial_rewards_per_block g,
   reward_started_time g, election_activated_time g) -> rewards_inv g' tbl.
Proof. intros H [= E1 E2 E3 E4 E5]. by eapply rewards_inv_global. Qed.

(** ** Stakes *)

Lemma refunds_insert rs k r :
  rs !! k = None -> refunds_sum (<[k := r]> rs) = amount (vote_staked r) + refunds_sum rs.
Proof. intros H. unfold refunds_sum. by rewrite msum_insert_None. Qed.

Lemma refunds_delete rs k r :
  rs !! k = Some r -> refunds_sum rs = amount (vote_staked r) + refunds_sum (delete k rs).
Proof. intros H. unfold refunds_sum. by rewrite (msum_delete _ rs k r). Qed.

(** A step of the stake: the invariants of voting, and the money *)
Lemma stake_step n g s g' v es :
  sys_ok n g s -> last_producer_schedule_size g' = last_producer_schedule_size g ->
  VotingProps.inv g' v ->
  asset_symbol (total_vote_stake g') = asset_symbol (total_vote_stake g) ->
  rewards_inv g' (producers v) ->
  amount (total_vote_stake g') + refunds_sum (vote_refunds v) <=
    staked g s + net vote_account es -> 0 <= net names_account es ->
  step_ok n g s g' (with_voting v s) es.
Proof.
  intros [] Hsz Hv E Hr Hst Hn. split; [split; try done; try by rewrite Hsz| | |done].
  - by eapply NameBid.inv_global.
  - done.
  - simpl. lia.
Qed.

Lemma bump_rewards g g' l d tbl :
  rewards_inv g tbl -> (total_produced_rewards g', total_unclaimed_rewards g',
    initial_rewards_per_block g', reward_started_time g', election_activated_time g') =
  (total_produced_rewards g, total_unclaimed_rewards g, initial_rewards_per_block g,
   reward_started_time g, election_activated_time g) -> rewards_inv g' (bump l d tbl).
Proof.
  intros H E. eapply same_rewards; [|exact E]. unfold rewards_inv in *. by rewrite unclaimed_bump.
Qed.

Lemma addvote_step n c g s k q g' v es :
  sys_ok n g s -> has_auth c vote_account = false -> has_auth c names_account = false ->
  addvote c g (voting s) k q = Ok (g', v, es) -> transfers_allowed es = true ->
  step_ok n g s g' (with_voting v s) es.
Proof.
  intros Hok Hv Hn H Hes. pose proof Hok as [].
  assert (Hq : amount q <= max_amount).
  { unfold addvote in H. do 5 apply bind_Ok in H as (? & _ & H).
    apply bind_Ok in H as ([? ?] & _ & [= _ _ <-]). unfold transfers_allowed in Hes.
    simpl in Hes. rewrite !andb_true_iff, Z.leb_le in Hes. tauto. }
  apply (addvote_Ok _ _ _ _ _ _ _ _ ok_voting0 Hq) in H
    as (H1 & H2 & H3 & H4 & H5 & H6 & [= -> ->] & ->).
  assert (k <> vote_account /\ k <> names_account) as [Hkv Hkn] by (split; congruence).
  pose proof (addvote_inv g (voting s) k (amount q) ok_voting0 H2) as Hinv.
  apply stake_step; [done|done|by apply Hinv|done|by eapply bump_rewards| |].
  - unfold staked, net. simpl. rewrite Z.eqb_refl, (proj2 (Z.eqb_neq k vote_account)) by done. lia.
  - apply net_nonneg; [done|]. intros from to a. simpl. set_solver.
Qed.

Lemma subvote_step n c g s k q g' v es :
  sys_ok n g s -> is_i64 (amount q) -> subvote c g (voting s) k q = Ok (g', v, es) ->
  step_ok n g s g' (with_voting v s) es.
Proof.
  intros Hok Hq H. pose proof Hok as [].
  apply (subvote_Ok _ _ _ _ _ _ _ _ ok_voting0 Hq) in H
    as (H1 & H2 & H3 & H4 & H5 & H6 & [= -> ->] & ->).
  pose proof (subvote_inv c g (voting s) k q ok_voting0 H3 H4 H5) as Hinv.
  apply stake_step; [done|done|exact Hinv|done|by eapply bump_rewards| |].
  - unfold staked, net. simpl. rewrite refunds_insert by done. simpl. lia.
  - done.
Qed.

Lemma voterefund_step n c g s k v es :
  sys_ok n g s -> voterefund c (voting s) k = Ok (v, es) -> transfers_allowed es = true ->
  step_ok n g s g (with_voting v s) es.
Proof.
  intros Hok H Hes. pose proof Hok as [].
  apply voterefund_Ok in H as (r & Hr & _ & -> & ->).
  apply stake_step; [done|done|by apply voterefund_inv|done|done| |].
  - unfold staked, net. simpl. rewrite Z.eqb_refl, (refunds_delete _ _ _ Hr).
    unfold transfers_allowed in Hes. simpl in Hes.
    rewrite !andb_true_iff, negb_true_iff, Z.eqb_neq in Hes.
    rewrite (proj2 (Z.eqb_neq (r_owner r) vote_account)) by (intros E; rewrite E in Hes; tauto). lia.
  - apply net_nonneg; [done|]. intros from to a Hin. simpl in Hin.
    apply list_elem_of_singleton in Hin. injection Hin as -> _ _. apply vote_names.
Qed.

(** ** Names *)

Lemma names_step n g s g' nm es :
  sys_ok n g s -> last_producer_schedule_size g' = last_producer_schedule_size g ->
  NameBid.inv g' nm -> total_vote_stake g' = total_vote_stake g ->
  rewards_inv g' (producers (voting s)) ->
  NameBid.owed nm <= NameBid.owed (names s) + net names_account es ->
  0 <= net vote_account es -> step_ok n g s g' (with_names nm s) es.
Proof.
  intros [] Hsz Hn E Hr Ho Hv. split; [split; try done; try by rewrite Hsz| | |by intros _; unfold core_of; rewrite E].
  - by eapply voting_inv_global.
  - unfold staked in *. simpl. rewrite E. lia.
  - done.
Qed.

Lemma bidname_step n c g s b nn q nm es :
  sys_ok n g s -> has_auth c vote_account = false -> has_auth c names_account = false ->
  bidname c g (names s) b nn q = Ok (nm, es) -> transfers_allowed es = true ->
  step_ok n g s g (with_names nm s) es.
Proof.
  intros Hok Hv Hn H Hes. pose proof Hok as [].
  assert (Hq : amount q <= max_amount).
  { unfold bidname in H. do 9 apply bind_Ok in H as (? & _ & H).
    assert (E : transfers_of es = [(b, names_account, q)]).
    { destruct (NameBid.bids (names s) !! nn).
      - do 3 apply bind_Ok in H as (? & _ & H). by apply bind_Ok in H as (? & _ & [= _ <-]).
      - by apply bind_Ok in H as (? & _ & [= _ <-]). }
    unfold transfers_allowed in Hes. rewrite E in Hes. simpl in Hes.
    rewrite !andb_true_iff, Z.leb_le in Hes. tauto. }
  apply (bidname_eq _ _ _ _ _ _ _ _ ok_names0 Hq) in H
    as (H1 & H2 & H3 & H4 & H5 & H6 & -> & ->).
  destruct (bidname_inv c g (names s) b nn (amount q) ok_names0 H3 ltac:(lia) H6) as [Hinv Ho].
  assert (b <> vote_account /\ b <> names_account) as [Hbv Hbn] by (split; congruence).
  apply names_step; [done|done|done|done|done| |].
  - rewrite Ho. unfold net. simpl. rewrite Z.eqb_refl, (proj2 (Z.eqb_neq b names_account)) by done.
    lia.
  - apply net_nonneg; [done|]. intros from to a. simpl. set_solver.
Qed.

Lemma bidrefund_step n g s b nn nm es :
  sys_ok n g s -> bidrefund (names s) b nn = Ok (nm, es) -> transfers_allowed es = true ->
  step_ok n g s g (with_names nm s) es.
Proof.
  intros Hok H Hes. pose proof Hok as [].
  apply bidrefund_Ok in H as (r & Hr & -> & ->).
  destruct (bidrefund_inv g (names s) b nn r ok_names0 Hr) as [Hinv Ho].
  apply names_step; [done|done|done|done|done| |].
  - rewrite Ho. unfold net. simpl. rewrite Z.eqb_refl.
    unfold transfers_allowed in Hes. simpl in Hes.
    rewrite !andb_true_iff, negb_true_iff, Z.eqb_neq in Hes.
    rewrite (proj2 (Z.eqb_neq b names_account)) by (intros E; rewrite E in Hes; tauto). lia.
  - apply net_nonneg; [done|]. intros from to a Hin. simpl in Hin.
    apply list_elem_of_singleton in Hin. injection Hin as -> _ _. intros E. by apply vote_names.
Qed.

(** The bid of a claimed name is closed: nothing is owed for it. *)
Lemma delete_bid_inv g st k b :
  NameBid.inv g st -> NameBid.bids st !! k = Some b -> high_bid b < 0 ->
  let st' := NameBid.State (delete k (NameBid.bids st)) (NameBid.bid_refunds st) in
  NameBid.inv g st' /\ NameBid.owed st' = NameBid.owed st.
Proof.
  intros [] Hk Hb st'. split.
  - split; simpl; [|by apply map_Forall_delete|done].
    intros Hi. destruct (ni_uninit Hi) as [-> ->]. split; [apply delete_empty|done].
  - unfold NameBid.owed, st'. simpl. rewrite (msum_delete _ (NameBid.bids st) _ _ Hk).
    unfold open_amount. lia.
Qed.

Lemma newaccount_step n c g s cr nn nm cs es :
  sys_ok n g s -> newaccount c (global s) (names s) (creators s) cr nn = Ok (nm, cs, es) ->
  step_ok n g s g (with_creators cs (with_names nm s)) es.
Proof.
  intros Hok H. pose proof Hok as [].
  assert (Hnm : NameBid.inv g nm /\ NameBid.owed nm = NameBid.owed (names s) /\ no_transfers es).
  { unfold newaccount in H. destruct (negb _); [by injection H as <- <- <-|].
    apply bind_Ok in H as (nm' & Hn & H). apply bind_Ok in H as (cs' & _ & [= <- _ <-]).
    assert (Hn' : NameBid.inv g nm' /\ NameBid.owed nm' = NameBid.owed (names s)); [|by destruct Hn'].
    destruct (_ && _); [|by injection Hn as <-].
    destruct (_ =? _).
    - apply bind_Ok in Hn as (cur & Hc%get_or_Ok & Hn). apply bind_Ok in Hn as (_ & _ & Hn).
      apply bind_Ok in Hn as (_ & Hb%check_Ok%Z.ltb_lt & [= <-]). by eapply delete_bid_inv.
    - by apply bind_Ok in Hn as (_ & _ & [= <-]). }
  destruct Hnm as (H1 & H2 & H3).
  destruct (names_step n g s g nm es Hok eq_refl H1 eq_refl ok_rewards0) as [Hinv Hs Ho Hc];
    [rewrite net_none by done; lia|by rewrite net_none|].
  destruct Hinv. split; [by split|done..].
Qed.

(** ** Finalizer keys *)

Lemma registered_owner n g s : sys_ok n g s -> producers_ok (producers (voting s)).
Proof. intros [] p i Hi. by apply (vi_producers _ _ ok_voting0). Qed.

(** Reading and proposing a policy leave the key ids alone and transfer nothing. *)
Lemma last_proposed_frame st :
  fin_key_id_generator (get_last_proposed_finalizers st).1 = fin_key_id_generator st.
Proof.
  unfold get_last_proposed_finalizers.
  destruct (last_prop_finalizers_cached st); [done|]. by destruct (last_prop_finalizers st).
Qed.

Lemma set_proposed_frame st l :
  fin_key_id_generator (set_proposed_finalizers st l).1 = fin_key_id_generator st /\
  no_transfers (set_proposed_finalizers st l).2.
Proof.
  unfold set_proposed_finalizers. pose proof (last_proposed_frame st) as E.
  destruct (get_last_proposed_finalizers st). by destruct (auth_infos_eqb _ _).
Qed.

Lemma switch_step n c g s f es :
  sys_ok n g s ->
  switchtosvnn c (finality s) (producers (voting s)) (last_producer_schedule_size g) = Ok (f, es) ->
  step_ok n g s g (with_finality f s) es.
Proof.
  intros Hok H. pose proof Hok as [].
  assert (Hid : next_id f = next_id (finality s)).
  { unfold switchtosvnn in H. apply bind_Ok in H as (_ & _ & H).
    rewrite (is_savanna_ok _ Hmem) in H by apply ok_finality0.
    destruct (get_last_ok _ Hmem (fi_tables _ ok_finality0)) as (_ & _ & _ & _ & _ & E4).
    set (st1 := (get_last_proposed_finalizers (finality s)).1) in *.
    apply bind_Ok in H as (_ & _ & H). apply bind_Ok in H as (_ & _ & H).
    pose proof (set_proposed_frame st1 (collect_finalizers st1 (by_index by_votes (producers (voting s)))
      (last_producer_schedule_size g) [])) as [Hs _].
    destruct (set_proposed_finalizers st1 _) as [st2 es2]. simpl in Hs.
    destruct (is_savanna_consensus st2) as [st3 b] eqn:E3.
    apply bind_Ok in H as (_ & _ & [= <- _]).
    assert (E : fin_key_id_generator st3 = fin_key_id_generator st2).
    { rewrite <- (last_proposed_frame st2). revert E3. unfold is_savanna_consensus.
      destruct (get_last_proposed_finalizers st2) as [st4 l]. by intros [= <- _]. }
    unfold next_id. by rewrite E, Hs, E4. }
  apply (switchtosvnn_Ok Hmem) in H as (_ & _ & _ & Hinv & _ & ->); [|done|by eapply registered_owner].
  apply finality_step; [done|done|lia|]. by apply no_transfers_Forall; repeat constructor.
Qed.

Lemma regfinkey_step n c g s m key pop f es :
  sys_ok n g s -> n < 2 ^ 32 - 1 ->
  regfinkey c (finality s) (producers (voting s)) m key pop = Ok (f, es) ->
  step_ok (n + 1) g s g (with_finality f s) es.
Proof.
  intros Hok Hn H. pose proof Hok as [].
  assert (Hids : ids_left (finality s)) by (unfold ids_left; lia).
  apply regfinkey_Ok in H as (_ & _ & _ & binary & sig & _ & _ & Hnew & _ & -> & ->);
    [|apply ok_finality0|done].
  apply finality_step; [by eapply sys_ok_mono; [|exact Hok]; lia| | |done].
  - by apply FinalizerProps.register_key_inv.
  - change (next_id (register_post (finality s) m key binary)) with (next_id (finality s) + 1). lia.
Qed.

Lemma actfinkey_step n c g s m key f es :
  sys_ok n g s -> actfinkey c (finality s) m key = Ok (f, es) ->
  step_ok n g s g (with_finality f s) es.
Proof.
  intros Hok H. pose proof Hok as []. pose proof (actfinkey_inv Hmem _ _ _ _ _ _ ok_finality0 H) as Hinv.
  apply actfinkey_Ok in H as (fi & k & _ & _ & _ & _ & _ & Hst); [|apply ok_finality0].
  cbn zeta in Hst. set (st1 := activate_post _ _ _ _) in *.
  pose proof (last_proposed_frame st1) as E.
  change (fin_key_id_generator st1) with (fin_key_id_generator (finality s)) in E.
  destruct (get_last_proposed_finalizers st1) as [st2 l]. simpl in E.
  destruct (replace_key _ _ _ _) as [m'|].
  - destruct (set_proposed_frame st2 m') as [E' He]. rewrite <- Hst in E', He. simpl in E', He.
    apply finality_step; [done|done| |done]. unfold next_id in *. by rewrite E', E.
  - injection Hst as -> ->. apply finality_step; [done|done| |done].
    unfold next_id in *. by rewrite E.
Qed.

Lemma delfinkey_step n c g s m key f es :
  sys_ok n g s -> n < 2 ^ 32 - 1 -> delfinkey c (finality s) m key = Ok (f, es) ->
  step_ok n g s g (with_finality f s) es.
Proof.
  intros Hok Hn H. pose proof Hok as [].
  assert (Hids : ids_left (finality s)) by (unfold ids_left; lia).
  apply delfinkey_Ok in H as (_ & fi & k & Hf & _ & Hk & Hm & Hor & -> & ->); [|done|done].
  apply finality_step; [done|by apply delete_inv|done|done].
Qed.

(** ** Blocks *)

Lemma blocks_inv t id ts t' :
  BlockInfo.table_ok t -> BlockInfo.add_to_blockinfo_table t id ts = Ok t' ->
  BlockInfo.table_ok t'.
Proof.
  intros Ht H. unfold BlockInfo.add_to_blockinfo_table in H.
  apply bind_Ok in H as (t1 & Ht1 & [= <-]). change (0 <? BlockInfo.rolling_window_size) with true in Ht1.
  apply emplace_Ok in Ht1 as [_ ->].
  set (h := u32 (BlockInfo.block_height_from_id id + 1)). set (t1 := <[h := _]> t).
  assert (Hok : BlockInfo.table_ok t1).
  { intros k r [[<- <-]|[Hne Hk]]%lookup_insert_Some; [|by apply Ht].
    split_and!; [done|done|apply u32_range]. }
  set (y := u32 (Z.max h BlockInfo.rolling_window_size - BlockInfo.rolling_window_size)).
  change (BlockInfo.table_ok (BlockInfo.prune 2 y t1)).
  pose proof (BlockInfo.prune_spec 2 (y + BlockInfo.rolling_window_size) t1 Hok) as (Hsub & _ & _).
  replace (y + BlockInfo.rolling_window_size - BlockInfo.rolling_window_size) with y in Hsub by lia.
  intros k r Hk. apply Hok. by eapply lookup_weaken.
Qed.

Lemma pay_step n g s p t g' v :
  sys_ok n g s -> pay_block g (voting s) p t = Ok (g', v) -> step_ok n g s g' (with_voting v s) [].
Proof.
  intros Hok H. pose proof Hok as [].
  pose proof (pay_block_inv _ _ _ _ _ _ ok_rewards0 H) as Hr.
  assert (Hst : total_vote_stake g' = total_vote_stake g /\ vote_refunds v = vote_refunds (voting s)
    /\ inv g v /\ last_producer_schedule_size g' = last_producer_schedule_size g).
  { unfold pay_block in H. destruct (producers (voting s) !! p) as [i|] eqn:Hi; [|by injection H as <- <-].
    destruct (_ && _); [|by injection H as <- <-].
    apply bind_Ok in H as (r & _ & [= <- <-]). split_and!; [done|done| |done].
    destruct (vi_producers _ _ ok_voting0 p i Hi). by apply update_row_inv. }
  destruct Hst as (E1 & E2 & Hv & E3).
  apply stake_step; [done|done|by eapply voting_inv_global|by rewrite E1|done| |done].
  unfold staked. rewrite E1, E2. unfold net. simpl. lia.
Qed.

(** Two steps in sequence *)
Lemma step_trans n m g s g1 s1 g2 s2 es1 es2 :
  step_ok n g s g1 s1 es1 -> step_ok m g1 s1 g2 s2 es2 -> step_ok m g s g2 s2 (es1 ++ es2).
Proof.
  intros [H1 H2 H3 H4] [K1 K2 K3 K4]. split; rewrite ?net_app; [done|lia|lia|].
  intros Hi. rewrite <- (H4 Hi). apply K4. unfold is_init, core_of in *. by rewrite (H4 Hi).
Qed.

Lemma elected_step n c g s t g' f es :
  sys_ok n g s -> update_elected_producers c g (voting s) (finality s) t = (g', f, es) ->
  step_ok n g s g' (with_finality f s) es.
Proof.
  intros Hok H. pose proof Hok as [].
  pose proof (update_elected_spec c g (voting s) (finality s) t Hmem ok_voting0 ok_finality0) as Hsp.
  cbn zeta in Hsp. rewrite H in Hsp. destruct Hsp as (Hf & _ & _ & E & Hrest).
  assert (Hid : next_id f <= n) by (unfold next_id in *; by rewrite E).
  assert (Hg : exists k, g' = with_schedule k t g /\ no_transfers es /\ 0 <= k <= 21).
  { destruct (_ || _); [destruct Hrest as (-> & -> & _); by eexists|].
    destruct Hrest as [(es' & -> & Hes) ->]. eexists. split; [done|]. split.
    2:{ case_match; [|done]. destruct (winners_spec (finalizers (finality s))
        (negb (bool_decide (proposed (finality s) = []))) (producers (voting s))) as (_ & _ & Hw & _). lia. }
    apply no_transfers_Forall. constructor; [done|]. eapply Forall_impl; [exact Hes|]. by intros []. }
  destruct Hg as (k & -> & Hes & Hk).
  pose proof (finality_step n g s f es Hok Hf Hid Hes) as H1.
  rewrite <- (app_nil_r es). eapply step_trans; [exact H1|].
  apply global_step; [apply H1|done|done| |done]. by eapply same_rewards.
Qed.

Lemma close_step n c g s t g' nm es :
  sys_ok n g s -> close_highest_bid c g (names s) t = Ok (g', nm, es) ->
  transfers_allowed es = true -> step_ok n g s g' (with_names nm s) es.
Proof.
  intros Hok H Hes. pose proof Hok as [].
  assert (Hsame : step_ok n g s g (with_names (names s) s) []).
  { apply names_step; [done..| |done]. unfold net. simpl. lia. }
  destruct (is_init g) eqn:Hini.
  2:{ unfold close_highest_bid in H. destruct (NameBid.ni_uninit _ _ ok_names0 Hini) as [E _].
      rewrite E in H. change (lower_bound _ _ _) with (@None (Z * name_bid)) in H.
      destruct (_ <? _); by injection H as <- <- <-. }
  rewrite close_highest_bid_eq in H by done. pose proof (highest_bid _ (ni_bids _ _ ok_names0)) as Hh.
  destruct (lower_bound _ _ _) as [[k b]|]; [|by injection H as <- <- <-].
  destruct Hh as (Hk & Ho & _). case_bool_decide; [|by injection H as <- <- <-].
  injection H as <- <- <-. destruct (close_inv _ _ _ _ ok_names0 Hk Ho) as [Hinv Hw].
  assert (Hf : names_account <> fees_account) by apply names_fees.
  apply names_step; [done|done| |done|by eapply same_rewards| |].
  - by apply (NameBid.inv_global g).
  - rewrite Hw. unfold net. simpl. rewrite Z.eqb_refl, (proj2 (Z.eqb_neq fees_account names_account)) by done.
    lia.
  - apply net_nonneg; [done|]. intros from to a Hin. simpl in Hin.
    apply list_elem_of_singleton in Hin. injection Hin as -> _ _. intros E. by apply vote_names.
Qed.

Lemma transfers_allowed_app es1 es2 :
  transfers_allowed (es1 ++ es2) = transfers_allowed es1 && transfers_allowed es2.
Proof. unfold transfers_allowed, transfers_of. by rewrite omap_app, forallb_app. Qed.

Lemma schedule_step n c g s t g' s' es :
  sys_ok n g s -> update_schedule c g s t = Ok (g', s', es) -> transfers_allowed es = true ->
  step_ok n g s g' s' es.
Proof.
  intros Hok H Hes. unfold update_schedule in H.
  destruct (_ <? _); [|injection H as <- <- <-; by apply quiet_step].
  destruct (update_elected_producers _ _ _ _ _) as [[g1 f] es1] eqn:Eu.
  apply bind_Ok in H as ([[g2 nm] es2] & Hc & [= <- <- <-]).
  rewrite transfers_allowed_app, andb_true_iff in Hes. destruct Hes as [_ Hes2].
  pose proof (elected_step _ _ _ _ _ _ _ _ Hok Eu) as H1.
  eapply step_trans; [exact H1|]. apply (close_step n c g1 (with_finality f s) t); [apply H1|done|done].
Qed.

Lemma onblock_step n c g s t p id g' s' es :
  sys_ok n g s -> onblock c g s t p id = Ok (g', s', es) -> transfers_allowed es = true ->
  step_ok n g s g' s' es.
Proof.
  intros Hok H Hes. unfold onblock in H. apply bind_Ok in H as (_ & _ & H).
  apply bind_Ok in H as (b & Hb & H).
  assert (H1 : step_ok n g s g (with_blocks b s) []).
  { destruct Hok. split; [split; try done; by eapply blocks_inv| | |done];
      unfold staked, net; simpl; lia. }
  destruct (_ || _); [by injection H as <- <- <-|].
  apply bind_Ok in H as ([g1 v] & Hp & H).
  change es with ([] ++ es). eapply step_trans; [exact H1|].
  pose proof (pay_step n g (with_blocks b s) p (time_point_of_slot t) g1 v (so_inv _ _ _ _ _ _ H1) Hp) as H2.
  change es with ([] ++ es). eapply step_trans; [exact H2|].
  eapply schedule_step; [apply H2|exact H|done].
Qed.

(** ** Every action *)

Lemma init_step n c g s tok ver core g' es :
  sys_ok n g s -> init c g tok ver core = Ok (g', es) -> step_ok n g s g' s es.
Proof.
  intros Hok H. pose proof Hok as []. unfold init in H.
  apply bind_Ok in H as (_ & _ & H). apply bind_Ok in H as (_ & _ & H).
  apply bind_Ok in H as (_ & Hu%check_Ok & H). apply negb_true_iff in Hu.
  apply bind_Ok in H as (sup & _ & H). do 3 apply bind_Ok in H as (_ & _ & H).
  injection H as <- <-. change (is_init g = false) in Hu.
  destruct (vi_uninit _ _ ok_voting0 Hu) as [E1 E2].
  destruct (NameBid.ni_uninit _ _ ok_names0 Hu) as [E3 E4]. destruct ok_voting0.
  assert (Hw : total_vote_stake (with_core core g) = Asset (amount (total_vote_stake g)) core) by done.
  split; [split; try done| | |congruence].
  - split; rewrite ?Hw; simpl; try done. by rewrite E2.
  - split; rewrite ?E3, ?E4; done.
  - unfold staked, net. simpl. lia.
  - unfold net. simpl. lia.
Qed.

Lemma cfgelection_step n c g s t1 t2 a g' :
  sys_ok n g s -> is_i64 (amount a) -> cfgelection c g t1 t2 a = Ok g' -> step_ok n g s g' s [].
Proof.
  intros Hok Ha H. pose proof Hok as []. unfold cfgelection in H.
  apply bind_Ok in H as (_ & _ & H). apply bind_Ok in H as (core & _ & H).
  apply bind_Ok in H as (_ & _ & H). apply bind_Ok in H as (_ & Hpos%check_Ok%Z.leb_le & H).
  apply bind_Ok in H as (t1' & _ & H). apply bind_Ok in H as (_ & Hle%check_Ok%Z.leb_le & H).
  apply bind_Ok in H as (t2' & Ht2 & [= <-]).
  assert (Ht : t2' = t2).
  { destruct (_ || _); apply bind_Ok in Ht2 as (u & Hc & [= <-]); [done|].
    by apply check_Ok, Z.eqb_eq in Hc. }
  subst t2'. apply global_step; [done|done|done| |done].
  destruct ok_rewards0 as (R1 & R2 & R3 & R4).
  split; [done|]. split; [done|]. split; [|intros _; exact Hle]. simpl. unfold_ints. lia.
Qed.

Lemma auth_step n c g s k al di t :
  sys_ok n g s -> AuthChange.limitauthchg c (auth_changes s) k al di = Ok t ->
  step_ok n g s g (with_auth_changes t s) [].
Proof.
  intros [] H. apply AuthChange.limitauthchg_Ok in H as (_ & Hl & ->); [|done].
  split; [split; try done; by apply AuthChange.limit_post_inv| | |done]; unfold staked, net; simpl; lia.
Qed.

Lemma buygas_step n c g s p r q es :
  sys_ok n g s -> has_auth c vote_account = false -> has_auth c names_account = false ->
  buygas c g p r q = Ok es -> transfers_allowed es = true -> step_ok n g s g s es.
Proof.
  intros Hok Hv Hn H Hes. unfold buygas in H. apply bind_Ok in H as (_ & Hp%check_Ok & H).
  do 5 apply bind_Ok in H as (? & _ & H). destruct (get_resource_limits c r) as [gas u].
  apply bind_Ok in H as (_ & _ & [= <-]).
  apply same_step; [done|apply net_nonneg; [done|]..]; intros from to a Hin; simpl in Hin;
    apply list_elem_of_singleton in Hin; injection Hin as -> _ _; congruence.
Qed.

(** The actions that only ask something of the host, or only check *)
Lemma admin_quiet c es :
  (exists n, wasmcfg c n = Ok es) \/ (exists a p, setpriv c a p = Ok es) \/
  (exists a k u, setalimits c a k u = Ok es) \/ (exists d, activate c d = Ok es) \/
  (exists p f m, logsystemfee c p f m = Ok es) -> no_transfers es.
Proof.
  unfold wasmcfg, setpriv, setalimits, activate, logsystemfee.
  intros [(n & H)|[(a & p & H)|[(a & k & u & H)|[(d & H)|(p & f & m & H)]]]];
    repeat (apply bind_Ok in H as (? & _ & H)); repeat case_match;
    repeat (apply bind_Ok in H as (? & _ & H)); unfold mret, result_ret in H; by simplify_eq.
Qed.

Lemma register_step n c g s reg p au u l r v es :
  sys_ok n g s -> register_producer c g (voting s) reg p au u l r = Ok (v, es) ->
  step_ok n g s g (with_voting v s) es.
Proof.
  intros Hok H. apply voting_step; [done|eapply register_inv; [apply Hok|exact H]| | |].
  - unfold register_producer in H. do 2 apply bind_Ok in H as (? & _ & H).
    apply bind_Ok in H as (core & _ & H). destruct (producers (voting s) !! p).
    + by injection H as <- _.
    + apply bind_Ok in H as (? & _ & H). by apply bind_Ok in H as (? & _ & [= <- _]).
  - by eapply register_unclaimed.
  - unfold register_producer in H. do 2 apply bind_Ok in H as (? & _ & H).
    apply bind_Ok in H as (core & _ & H). destruct (producers (voting s) !! p).
    + injection H as _ <-. by destruct (reg p).
    + apply bind_Ok in H as (? & _ & H). apply bind_Ok in H as (? & _ & [= _ <-]).
      by destruct (reg p).
Qed.

Lemma deactivate_step n g s p i :
  sys_ok n g s -> producers (voting s) !! p = Some i ->
  step_ok n g s g (with_voting (Voting.State (voters (voting s))
    (<[p := deactivate i]> (producers (voting s))) (vote_refunds (voting s))) s) [].
Proof.
  intros Hok Hi. apply voting_step; [done|by apply deactivate_inv; [apply Hok|]|done| |done].
  by apply deactivate_unclaimed.
Qed.

Lemma voteproducer_step n c g s a_old a_new k ps v es :
  sys_ok n g s ->
  (forall w, voters (voting s) !! k = Some w -> disjoint_at a_old (v_producers w) a_new ps) ->
  voteproducer c (voting s) a_old a_new k ps = Ok (v, es) -> step_ok n g s g (with_voting v s) es.
Proof.
  intros Hok Hd H. pose proof Hok as [].
  apply (voteproducer_Ok _ g) in H as (H1 & H2 & H3 & w & Hw & H4 & H5 & -> & ->); [|done|done].
  apply voting_step; [done|by apply voteproducer_inv|done| |done].
  simpl. by rewrite !unclaimed_bump.
Qed.

Lemma handler_step n e o g s g' s' es :
  sys_ok n g s -> op_ok (e, o) -> holders_quiet e -> n + registers o < 2 ^ 32 - 1 ->
  handler e o g s = Ok (g', s', es) -> transfers_allowed es = true ->
  step_ok (n + registers o) g s g' s' es.
Proof.
  intros Hok [Hva Hop] [Hqv Hqn] Hn H Hes. simpl in Hva, Hop.
  destruct o; simpl in H, Hn, Hop; cbn [registers] in *; try (rewrite Z.add_0_r in Hn);
    try (rewrite Z.add_0_r);
    try (apply bind_Ok in H as (es0 & He & [= <- <- <-]); apply quiet_step;
         [done|eapply (admin_quiet (env_ctx e)); naive_solver]; fail);
    try (apply bind_Ok in H as (? & _ & [= <- <- <-]); by apply quiet_step);
    try (injection H as <- <- <-; by apply quiet_step); try discriminate H.
  - apply bind_Ok in H as ([g1 es1] & H & [= <- <- <-]). by eapply init_step.
  - apply bind_Ok in H as ([g1 es1] & H & [= <- <- <-]). unfold setparams in H.
    apply bind_Ok in H as (_ & _ & H). apply bind_Ok in H as (_ & _ & [= <- <-]).
    apply global_step; [done|apply Hok|done| |done]. eapply same_rewards; [apply Hok|done].
  - apply bind_Ok in H as (p & _ & [= <- <- <-]). by apply frame_step.
  - apply bind_Ok in H as ([[nm cs] es1] & H & [= <- <- <-]). by eapply newaccount_step.
  - apply bind_Ok in H as (t & _ & [= <- <- <-]). by apply frame_step.
  - apply bind_Ok in H as (t & H & [= <- <- <-]). by eapply auth_step.
  - apply bind_Ok in H as (es1 & H & [= <- <- <-]). by eapply buygas_step.
  - apply bind_Ok in H as (es1 & H & [= <- <- <-]). by eapply buygas_step.
  - by eapply onblock_step.
  - apply bind_Ok in H as (g1 & H & [= <- <- <-]). by eapply cfgelection_step.
  - apply bind_Ok in H as ([nm es1] & H & [= <- <- <-]). by eapply bidname_step.
  - apply bind_Ok in H as ([nm es1] & H & [= <- <- <-]). by eapply bidrefund_step.
  - apply bind_Ok in H as ([v es1] & H & [= <- <- <-]). unfold regproducer in H.
    do 2 apply bind_Ok in H as (? & _ & H). by eapply register_step.
  - apply bind_Ok in H as ([v es1] & H & [= <- <- <-]). unfold regproducer2 in H.
    do 3 apply bind_Ok in H as (? & _ & H). by eapply register_step.
  - apply bind_Ok in H as ([v es1] & H & [= <- <- <-]). unfold unregprod in H.
    apply bind_Ok in H as (? & _ & H). apply bind_Ok in H as (i & Hi%get_or_Ok & [= <- <-]).
    by apply deactivate_step.
  - apply bind_Ok in H as ([v es1] & H & [= <- <- <-]). unfold rmvproducer in H.
    apply bind_Ok in H as (? & _ & H). apply bind_Ok in H as (i & Hi%get_or_Ok & [= <- <-]).
    by apply deactivate_step.
  - specialize (Hva (default [] (v_producers <$> voters (voting s) !! voter)) producers).
    destruct (vector_addresses e _ producers) as [a_old a_new].
    apply bind_Ok in H as ([v es1] & H & [= <- <- <-]). eapply voteproducer_step; [done| |exact H].
    intros w Hw. by rewrite Hw in Hva.
  - apply bind_Ok in H as ([[g1 v] es1] & H & [= <- <- <-]). by eapply addvote_step.
  - apply bind_Ok in H as ([[g1 v] es1] & H & [= <- <- <-]). by eapply subvote_step.
  - apply bind_Ok in H as ([v es1] & H & [= <- <- <-]). by eapply voterefund_step.
  - apply bind_Ok in H as ([f es1] & H & [= <- <- <-]). by eapply switch_step.
  - apply bind_Ok in H as ([f es1] & H & [= <- <- <-]). eapply regfinkey_step; [done|lia|exact H].
  - apply bind_Ok in H as ([f es1] & H & [= <- <- <-]). by eapply actfinkey_step.
  - apply bind_Ok in H as ([f es1] & H & [= <- <- <-]). by eapply delfinkey_step.
Qed.

(** ** Sequences of actions *)

Definition admissible (l : list (env * op)) : Prop :=
  Forall (fun eo => op_ok eo /\ holders_quiet eo.1) l /\ registrations l < 2 ^ 32 - 1.
Definition reachable (s : sys) : Prop :=
  exists l es, admissible l /\ run l init_sys = Ok (s, es).

(** The global state as the next action will load it, but for the chain's parameters *)
Definition stored (s : sys) : eosio_global_state :=
  default (get_default_parameters (BlockchainParameters 0 0 0 0 0 0 0 0 0 0 0 0 0 0 0 0 0 0 0 0 0))
    (global s).
Definition held (s : sys) : Z := staked (stored s) s.

Lemma sys_ok_ext n g s s' :
  voting s' = voting s -> names s' = names s -> auth_changes s' = auth_changes s ->
  blocks s' = blocks s -> FinalizerProps.inv (finality s') ->
  next_id (finality s') = next_id (finality s) -> sys_ok n g s -> sys_ok n g s'.
Proof. intros E1 E2 E3 E4 Hf E5 []. split; rewrite ?E1, ?E2, ?E3, ?E4, ?E5; done. Qed.

Lemma init_sys_ok n p : 0 <= n -> sys_ok n (get_default_parameters p) init_sys.
Proof.
  intros Hn. assert (Hi : is_init (get_default_parameters p) = false)
    by apply law_symbol_default.
  split; simpl; try done. apply FinalizerProps.finality_inv_init.
Qed.

Lemma fresh_sys_ok n s p :
  0 <= n -> with_abi_hashes ∅ s = init_sys -> sys_ok n (get_default_parameters p) s.
Proof.
  intros Hn E. assert (H := init_sys_ok n p Hn). rewrite <- E in H. by eapply sys_ok_ext; [..|exact H]; try apply H.
Qed.

Lemma loaded_ok n e s : 0 <= n -> sys_inv n s -> sys_ok n (loaded e s) s.
Proof.
  unfold sys_inv, loaded. destruct (global s) as [g|] eqn:Eg; simpl; [done|].
  intros Hn E. by apply fresh_sys_ok.
Qed.

Lemma stored_ok n s : 0 <= n -> sys_inv n s -> sys_ok n (stored s) s.
Proof.
  unfold sys_inv, stored. destruct (global s) as [g|] eqn:Eg; simpl; [done|].
  intros Hn E. by apply fresh_sys_ok.
Qed.

Lemma stored_loaded e s : total_vote_stake (loaded e s) = total_vote_stake (stored s).
Proof. unfold loaded, stored. by destruct (global s). Qed.

(** The actions of [native] leave the global state alone, and before it exists they store only
    hashes of ABIs. *)
Lemma native_handler e o g s g' s' es :
  in_native o = true -> handler e o g s = Ok (g', s', es) ->
  g' = g /\ global s' = global s /\
  (global s = None -> with_abi_hashes ∅ s' = with_abi_hashes ∅ s).
Proof.
  intros Ho H. destruct o; try discriminate Ho; cbn [handler] in H; unfold only_check in H;
    try (by injection H as <- <- <-); try (by apply bind_Ok in H as (? & _ & [= <- <- <-])).
  apply bind_Ok in H as ([[nm cs] es1] & H & [= <- <- <-]). split_and!; [done..|].
  intros E. unfold newaccount in H. rewrite E in H. injection H as <- <- <-. by destruct s.
Qed.

(** An action is its handler, and what is stored of it. *)
Lemma sys_exec_Ok e o s s' es :
  exec e o s = Ok (s', es) -> exists g s1,
    handler e o (loaded e s) s = Ok (g, s1, es) /\ transfers_allowed es = true /\
    s' = with_finality (next_action (finality s1)) (if in_native o then s1 else with_global g s1) /\
    total_vote_stake (stored s') = total_vote_stake g /\
    (global s' = Some g \/ in_native o = true /\ g = loaded e s /\ global s' = global s /\
       (global s = None -> with_abi_hashes ∅ s1 = with_abi_hashes ∅ s)).
Proof.
  intros H. unfold exec in H. apply bind_Ok in H as ([[g s1] es1] & H & Ht).
  apply bind_Ok in Ht as (_ & Ht%check_Ok & E). cbv zeta in E. injection E as <- <-. exists g, s1.
  destruct (in_native o) eqn:Hn; [|split_and!; try done; by left].
  pose proof (native_handler _ _ _ _ _ _ _ Hn H) as (Eg & Es & Ea).
  split_and!; try done; [|by right]. rewrite Eg, stored_loaded. unfold stored. simpl. by rewrite Es.
Qed.

Lemma exec_step n e o s s' es :
  0 <= n -> sys_inv n s -> op_ok (e, o) -> holders_quiet e -> n + registers o < 2 ^ 32 - 1 ->
  exec e o s = Ok (s', es) ->
  sys_inv (n + registers o) s' /\ held s' <= held s + net vote_account es /\
  owed (names s') <= owed (names s) + net names_account es /\
  (forall g, global s = Some g -> is_init g = true -> core_of (stored s') = core_of g).
Proof.
  intros Hn Hinv Hop Hq Hids H.
  apply sys_exec_Ok in H as (g & s1 & H & Ht & Es & Est & Hg).
  destruct (handler_step n e o (loaded e s) s g s1 es) as [H1 H2 H3 H4]; try done.
  { by apply loaded_ok. }
  assert (Hok : sys_ok (n + registers o) g s').
  { subst s'. eapply sys_ok_ext; [..|exact H1]; try (by destruct (in_native o)).
    destruct (in_native o); apply inv_next_action, H1. }
  assert (En : names s' = names s1) by (subst s'; by destruct (in_native o)).
  assert (Ev : staked (stored s') s' = staked g s1).
  { unfold staked. rewrite Est. subst s'. by destruct (in_native o). }
  rewrite En. split_and!; [| |exact H3|].
  - unfold sys_inv. destruct Hg as [->|(Hna & -> & Eg & Ea)]; [done|].
    rewrite Eg. unfold sys_inv in Hinv. unfold loaded in Hok.
    destruct (global s) as [g0|] eqn:E0; [exact Hok|]. subst s'. rewrite Hna.
    pose proof (Ea eq_refl) as Ea'. rewrite Hinv in Ea'.
    assert (Ef : finality s1 = finality init_sys) by (by rewrite <- Ea').
    assert (Ec : next_action (finality s1) = finality s1) by (by rewrite Ef).
    rewrite Ec, <- Ea'. by destruct s1.
  - unfold held. rewrite Ev. replace (staked (stored s) s) with (staked (loaded e s) s); [done|].
    unfold staked. by rewrite stored_loaded.
  - intros g0 Hg0 Hi. unfold core_of. rewrite Est. unfold loaded in H4. rewrite Hg0 in H4. by apply H4.
Qed.

Lemma run_ok l : forall n s s' es,
  0 <= n -> sys_inv n s -> Forall (fun eo => op_ok eo /\ holders_quiet eo.1) l ->
  n + registrations l < 2 ^ 32 - 1 -> run l s = Ok (s', es) ->
  sys_inv (n + registrations l) s' /\ held s' <= held s + net vote_account es /\
  owed (names s') <= owed (names s) + net names_account es.
Proof.
  induction l as [|[e o] l IH]; intros n s s' es Hn Hinv Hl Hids H; simpl in *.
  { injection H as <- <-. rewrite Z.add_0_r. split; [done|]. unfold net. simpl. lia. }
  apply Forall_cons in Hl as [[Hop Hq] Hl]. simpl in Hq.
  apply bind_Ok in H as ([s1 es1] & H1 & H). apply bind_Ok in H as ([s2 es2] & H2 & [= <- <-]).
  assert (Hr : 0 <= registers o) by (unfold registers; destruct o; lia).
  assert (Hrl : 0 <= registrations l).
  { clear. induction l as [|[e o] l IH]; simpl; [lia|]. unfold registers. destruct o; lia. }
  destruct (exec_step n e o s s1 es1) as (A1 & A2 & A3 & _); [done..|lia|done|].
  destruct (IH (n + registers o) s1 s2 es2) as (B1 & B2 & B3); [lia|done|done|lia|done|].
  rewrite Z.add_assoc. split; [done|]. rewrite !net_app. lia.
Qed.

Lemma reachable_ok s : reachable s -> exists n, 0 <= n < 2 ^ 32 - 1 /\ sys_inv n s.
Proof.
  intros (l & es & [Hl Hr] & H).
  assert (Hrl : 0 <= registrations l).
  { clear. induction l as [|[e o] l IH]; simpl; [lia|]. unfold registers. destruct o; lia. }
  destruct (run_ok l 0 init_sys s es) as (H1 & _ & _); try done.
  by exists (0 + registrations l).
Qed.

Lemma reach_ok s :
  reachable s -> exists n, 0 <= n < 2 ^ 32 - 1 /\ sys_ok n (stored s) s.
Proof.
  intros (n & Hn & Hinv)%reachable_ok. exists n. split; [done|]. apply stored_ok; [lia|done].
Qed.

Lemma reach_loaded e s :
  reachable s -> exists n, 0 <= n < 2 ^ 32 - 1 /\ sys_ok n (loaded e s) s.
Proof.
  intros (n & Hn & Hinv)%reachable_ok. exists n. split; [done|]. apply loaded_ok; [lia|done].
Qed.
End invariant.
