(* ===== verification/SystemEx.v ===== *)
(** * flon.system: an example run

    Reference instances of the interfaces and one run of the system contract through every
    component, on which the theorems are applied. *)
From S2P Require Import Prelude Table Cdt CdtRef SystemData NameBid.
From S2P Require Import Finalizer FinalizerProps Voting VotingProps.
From S2P Require Token Reward BlockInfo AuthChange.
From S2P Require Import ProducerPay Admin System SystemInv.
From Stdlib Require Import ZArith Lia String Ascii.
From stdpp Require Import base tactics numbers list gmap strings.
Open Scope Z_scope.

#[export] Instance ref_memory : Memory := {| disengaged := [] |}.
#[export] Instance ref_serializer : Serializer := {| pack_parameter := fun _ v => [v] |}.
Definition ref_unpack (i : Z) (b : bytes) : option (Z * bytes) :=
  match b with v :: rest => Some (v, rest) | [] => None end.

Lemma ref_disengaged : @disengaged ref_memory = [].
Proof. done. Qed.

(** ** Accounts, contexts, environments *)

Definition flon : name := name_lit "flon".
Definition alice : name := name_lit "alice".
Definition bob : name := name_lit "bob".
Definition carol : name := name_lit "carol".
Definition prod1 : name := name_lit "prod1".
Definition prod2 : name := name_lit "prod2".
Definition prod3 : name := name_lit "prod3".
Definition premium : name := name_lit "premium".

Definition sys_ctx (now : time_point) : ctx := {|
  get_self := flon;
  get_first_receiver := flon;
  has_auth := fun n => negb (n =? vote_account) && negb (n =? names_account);
  has_permission := fun _ => true;
  is_account := fun n => negb (n =? premium);
  current_time_point := now;
  get_resource_limits := fun _ => (5, false);
  accepts_producers := fun _ => true;
  indeterminate_i64 := 0;
|}.

Definition tokens (n : Z) : asset := Asset n ref_symbol.
Definition ex_token : Token.state :=
  Token.State ∅ {[ (1, 1) := Token.CurrencyStats (tokens 100000) (tokens 1000000) flon ]}.
Definition ex_parameters : blockchain_parameters :=
  BlockchainParameters 1 2 3 4 5 6 7 8 9 10 11 12 13 14 15 16 17 18 19 20 21.

Definition ex_env (now : time_point) : env := {|
  env_ctx := sys_ctx now;
  chain_parameters := ex_parameters;
  env_token := ex_token;
  env_reward := Reward.init_state;
  vector_addresses := fun l _ => (0, name_size * Z.of_nat (length l));
|}.

Definition typed (o : op) : Prop :=
  match o with
  | Subvote _ q | Addvote _ q | Bidname _ _ q | Cfgelection _ _ q => is_i64 (amount q)
  | _ => True
  end.

Lemma ex_env_ok now o : typed o -> op_ok (ex_env now, o) /\ holders_quiet (ex_env now).
Proof.
  intros Ho. split; [|done]. split; [|done]. intros l m. simpl. unfold disjoint_at. left. lia.
Qed.

(** ** The run *)

Definition t0 : time_point := 946684800000000 + 500000000000000.
Definition sec (n : Z) : time_point := t0 + n * 1000000.
Definition slot (n : Z) : block_timestamp := slot_of_time_point (sec n).
Definition day : Z := 24 * 3600.

Definition ops1 : list (env * op) :=
  (fun p => (ex_env (sec p.1), p.2)) <$>
  [(0, Init 0 ref_symbol);
   (1, Cfgelection (sec 10) (sec 10) (tokens 100));
   (2, Regproducer prod1 [1] "p1" 1 None);
   (3, Regproducer prod2 [2] "p2" 2 (Some 5000));
   (4, Regproducer prod3 [3] "p3" 3 None);
   (5, Addvote alice (tokens 100));
   (6, Voteproducer alice [prod1; prod2]);
   (7, Addvote alice (tokens 20));
   (8, Bidname bob premium (tokens 50));
   (9, Bidname carol premium (tokens 60));
   (20, Regfinkey prod1 "PUB_BLS_1" "SIG_BLS_1");
   (21, Regfinkey prod2 "PUB_BLS_2" "SIG_BLS_2");
   (22, Regfinkey prod1 "PUB_BLS_3" "SIG_BLS_3");
   (23, Limitauthchg alice [name_lit "owner"] []);
   (24, Onblock (slot 24) prod1 [0; 0; 0; 20]);
   (25, Switchtosvnn)].

(** After [ops1]; then the second key is activated and some stake withdrawn. *)
Definition ops2 : list (env * op) :=
  (fun p => (ex_env (sec p.1), p.2)) <$>
  [(26, Actfinkey prod1 "PUB_BLS_3"); (27, Subvote alice (tokens 40))].

Definition final (l : list (env * op)) : sys * list effect :=
  match run l init_sys with Ok r => r | Err _ => (init_sys, []) end.
Definition state1 : sys := (final ops1).1.
Definition state2 : sys := (final (ops1 ++ ops2)).1.

Lemma ex_ops_ok : admissible (ops1 ++ ops2).
Proof.
  split; [|vm_compute; reflexivity].
  repeat (apply Forall_cons; split; [apply ex_env_ok; simpl; unfold_ints; lia || done|]).
  apply Forall_nil. done.
Qed.

Lemma admissible_app_l l m : admissible (l ++ m) -> admissible l.
Proof.
  intros [Hl Hr]. apply Forall_app in Hl as [Hl _]. split; [done|].
  assert (H : forall l m, registrations (l ++ m) = registrations l + registrations m).
  { clear. intros l m. induction l as [|[e o] l IH]; [done|]. simpl. lia. }
  assert (H0 : 0 <= registrations m).
  { clear. induction m as [|[e o] m IH]; simpl; [lia|]. destruct o; simpl; lia. }
  rewrite H in Hr. lia.
Qed.

Lemma run1 : run ops1 init_sys = Ok (final ops1).
Proof. vm_compute. reflexivity. Qed.
Lemma run2 : run (ops1 ++ ops2) init_sys = Ok (final (ops1 ++ ops2)).
Proof. vm_compute. reflexivity. Qed.

Lemma reach1 : reachable state1.
Proof.
  exists ops1, (final ops1).2. split; [by eapply admissible_app_l, ex_ops_ok|].
  rewrite run1. unfold state1. by destruct (final ops1).
Qed.
Lemma reach2 : reachable state2.
Proof.
  exists (ops1 ++ ops2), (final (ops1 ++ ops2)).2. split; [apply ex_ops_ok|].
  rewrite run2. unfold state2. by destruct (final (ops1 ++ ops2)).
Qed.

(** Before the switch to instant finality *)
Definition state0 : sys := (final (take 15 ops1)).1.
Lemma reach0 : reachable state0.
Proof.
  exists (take 15 ops1), (final (take 15 ops1)).2. split.
  - eapply (admissible_app_l _ (drop 15 ops1)). rewrite take_drop.
    by eapply admissible_app_l, ex_ops_ok.
  - assert (E : run (take 15 ops1) init_sys = Ok (final (take 15 ops1))) by (vm_compute; reflexivity).
    rewrite E. unfold state0. by destruct (final (take 15 ops1)).
Qed.
