(* ===== verification/SystemProps.v ===== *)
(** * flon.system: what holds in every state the contract can reach

    Votes, stakes, bids, finalizer keys, rewards and permission limits, after any sequence
    of successful actions ([SystemInv.reachable]). *)
From S2P Require Import Prelude Table Cdt CdtRef SystemData NameBid.
From S2P Require Import Finalizer FinalizerProps Voting VotingProps Election.
From S2P Require Token Reward BlockInfo AuthChange.
From S2P Require Import ProducerPay Admin System SystemInv SystemEx.
From Stdlib Require Import ZArith Lia String.
From stdpp Require Import base tactics numbers list gmap sorting.
Open Scope Z_scope.

Section properties.
Context {cdt : Cdt} {bls : Bls} {memory : Memory} {serializer : Serializer}.
Context {laws : CdtLaws} (Hmem : disengaged = []).

(** C15 (votes are conserved).  In every reachable state the voters' votes sum to the total
    stake; the votes of a producer are the votes of the voters who list it; a voter lists
    at most 30 producers, strictly sorted, all registered; and nothing exceeds 2^62 - 1. *)
Theorem stake_votes_conserved s :
  reachable s ->
  let vs := voters (voting s) in
  let total := amount (total_vote_stake (stored s)) in
  msum (fun _ v => v_votes v) vs = total /\ total <= max_amount /\
  (forall p i, producers (voting s) !! p = Some i ->
    owner i = p /\ 0 <= total_votes i <= total /\
    total_votes i = msum (fun _ v => if bool_decide (p ∈ v_producers v) then v_votes v else 0) vs) /\
  (forall k v, vs !! k = Some v ->
    v_owner v = k /\ 0 <= v_votes v <= total /\ StronglySorted Z.lt (v_producers v) /\
    (length (v_producers v) <= 30)%nat /\
    forall p, p ∈ v_producers v -> is_Some (producers (voting s) !! p)).
Proof.
  intros Hr vs total. destruct (reach_ok Hmem s Hr) as (n & Hn & []). pose proof ok_voting as [].
  split_and!; [by symmetry|done| |].
  - intros p i Hi. destruct (vi_producers p i Hi) as [Ho Et]. rewrite Et.
    split_and!; [done|by eapply votes_for_bounds..|done].
  - intros k v Hv. destruct (vi_voters k v Hv).
    split_and!; [done|by eapply voter_votes_le..|done| |done].
    unfold max_vote_producer_count in vo_count. lia.
Qed.

(** Stakes and refunds are backed.  After any run the staked votes and the refunds
    that wait add up to no more than what flon.vote received less what it paid. *)
Theorem stakes_backed l s es :
  admissible l -> run l init_sys = Ok (s, es) ->
  0 <= amount (total_vote_stake (stored s)) /\
  (forall k r, vote_refunds (voting s) !! k = Some r -> 0 < amount (vote_staked r)) /\
  amount (total_vote_stake (stored s)) +
    msum (fun _ r => amount (vote_staked r)) (vote_refunds (voting s)) <= net vote_account es.
Proof.
  intros [Hl Hr] H. destruct (run_ok Hmem l 0 init_sys s es) as (Hinv & Hheld & _); try done.
  destruct (reach_ok Hmem s) as (n & Hn & []); [by exists l, es|]. split_and!.
  - pose proof (votes_for_bounds (stored s) (voting s) 0 ok_voting). lia.
  - intros k r Hk. by apply (vi_refunds _ _ ok_voting k r).
  - exact Hheld.
Qed.

(** Bids are backed.  After any run the open highest bids and the refunds of outbid
    bidders add up to no more than what flon.names received less what it paid out, and none
    is negative. *)
Theorem bids_backed l s es :
  admissible l -> run l init_sys = Ok (s, es) ->
  (forall k r, bid_refunds (names s) !! k = Some r -> 0 < amount (refund_amount r)) /\
  msum (fun _ b => Z.max 0 (high_bid b)) (bids (names s)) +
    msum (fun _ r => amount (refund_amount r)) (bid_refunds (names s)) <= net names_account es.
Proof.
  intros [Hl Hr] H. destruct (run_ok Hmem l 0 init_sys s es) as (Hinv & _ & Howed); try done.
  destruct (reach_ok Hmem s) as (n & Hn & []); [by exists l, es|]. split; [|exact Howed].
  intros k r Hk. by apply (ni_refunds _ _ ok_names k r).
Qed.

(** C19 (finalizer keys).  In every reachable state each registered key has its own id and
    its own hash and belongs to a finalizer; a finalizer's row counts its keys, at least
    one, and its active key is one of them; the entries of the last proposed policy are
    strictly sorted by key id, and an entry whose key is still registered is the active key
    of its finalizer. *)
Theorem finalizer_keys_consistent s :
  reachable s ->
  let f := finality s in
  (forall i k, finalizer_keys f !! i = Some k -> id k = i /\
    is_Some (finalizers f !! k_finalizer_name k) /\
    forall j l, finalizer_keys f !! j = Some l ->
      sha256 (finalizer_key_binary k) = sha256 (finalizer_key_binary l) -> i = j) /\
  (forall n r, finalizers f !! n = Some r ->
    finalizer_name r = n /\ 1 <= finalizer_key_count r <= uint32_max /\
    finalizer_key_count r =
      msum (fun _ k => if k_finalizer_name k =? n then 1 else 0) (finalizer_keys f) /\
    exists k, finalizer_keys f !! active_key_id r = Some k /\ k_finalizer_name k = n /\
      finalizer_key_binary k = active_key_binary r) /\
  forall p, last_prop_finalizers f = Some p ->
    StronglySorted Z.lt (key_id <$> p) /\
    forall a k, a ∈ p -> finalizer_keys f !! key_id a = Some k ->
      exists r, finalizers f !! k_finalizer_name k = Some r /\ active_key_id r = key_id a.
Proof.
  intros Hr f. destruct (reach_ok Hmem s Hr) as (n & Hn & []). fold f in ok_finality, ok_ids.
  destruct ok_finality as [[] He]. split_and!.
  - intros i k Hk. destruct (fi_keys i k Hk) as (? & ? & ?). split_and!; [done..|].
    intros j l Hl E. by eapply fi_unique.
  - intros m r Hm. destruct (fi_finalizers m r Hm) as [H1 H2 H3].
    split_and!; [done| | |done|done].
    + rewrite H2. destruct H3 as (k & Hk & <- & _). by eapply key_count_pos.
    + rewrite H2. pose proof (key_count_bounds (finalizer_keys f) m). unfold_ints. lia.
  - intros p Hp. unfold proposed in *. rewrite Hp in fi_sorted, He. simpl in *. split.
    + clear -fi_sorted. induction fi_sorted as [|a l Hs IH Ha]; [constructor|].
      rewrite fmap_cons. constructor; [done|]. by apply Forall_fmap.
    + intros a k Ha. rewrite Forall_forall in He. destruct (He a Ha) as [_ H]. apply H.
Qed.

(** C21 (the owner is never locked out).  Whatever limits an account has set on who may
    change its permissions, [updateauth], [deleteauth], [linkauth] and [unlinkauth]
    authorised by its owner permission pass the check. *)
Theorem owner_never_locked_out s c account p pa au co ty rq :
  reachable s -> has_permission c (PermissionLevel account AuthChange.owner_name) = true ->
  let by_ := Some AuthChange.owner_name in
  let t := auth_changes s in
  AuthChange.updateauth c t account p pa au by_ = Ok tt /\
  AuthChange.deleteauth c t account p by_ = Ok tt /\
  AuthChange.linkauth c t account co ty rq by_ = Ok tt /\
  AuthChange.unlinkauth c t account co ty by_ = Ok tt.
Proof.
  intros Hr Hp by_ t. destruct (reach_ok Hmem s Hr) as (n & Hn & []).
  assert (H : AuthChange.check_auth_change c t account by_ = Ok tt); [|done].
  apply AuthChange.check_auth_change_Ok; [done|]. split; [done|]. intros _. split.
  - simpl. pose proof law_names as Hnd. apply NoDup_cons in Hnd as [Hz _].
    intros E. change (name_lit "owner" = 0) in E. apply Hz. rewrite <- E. apply list_elem_of_fmap_2.
    apply (list_elem_of_lookup_2 _ 12). done.
  - by apply AuthChange.owner_permitted.
Qed.

(** Permission limits.  In every reachable state the check passes exactly when the
    named permission signed, and, under a limit, a permission is named that the allow list
    contains or, without an allow list, the disallow list does not. *)
Theorem auth_change_checked s c account authorized_by :
  reachable s ->
  let by_ := default 0 authorized_by in
  AuthChange.check_auth_change c (auth_changes s) account authorized_by = Ok tt <->
  (by_ <> 0 -> has_permission c (PermissionLevel account by_) = true) /\
  forall r, auth_changes s !! account = Some r -> by_ <> 0 /\
    (by_ ∈ AuthChange.allow_perms r \/
     AuthChange.allow_perms r = [] /\ by_ ∉ AuthChange.disallow_perms r).
Proof.
  intros Hr by_. destruct (reach_ok Hmem s Hr) as (n & Hn & []).
  rewrite AuthChange.check_auth_change_Ok by done. fold by_. apply and_iff_compat_l.
  unfold AuthChange.permitted. split.
  - intros H r Hk. destruct (H ltac:(by eexists)) as [Hne H']. auto.
  - intros H [r Hk]. destruct (H r Hk) as [Hne _]. split; [done|]. intros r' Hk'. by apply H.
Qed.

(** Rewards are accounted for.  In every reachable state everything produced is
    unclaimed, as claiming is not supported, and the producers' unclaimed rewards sum to
    the total, as 64-bit integers; so the sums are equal while they fit. *)
Theorem rewards_accounted s :
  reachable s ->
  let g := stored s in
  let sum := msum (fun _ p => amount (unclaimed_rewards p)) (producers (voting s)) in
  amount (total_produced_rewards g) = amount (total_unclaimed_rewards g) /\
  sum mod 2 ^ 64 = amount (total_unclaimed_rewards g) mod 2 ^ 64 /\
  (is_i64 sum -> is_i64 (amount (total_unclaimed_rewards g)) ->
    sum = amount (total_unclaimed_rewards g)).
Proof.
  intros Hr g sum. destruct (reach_ok Hmem s Hr) as (n & Hn & []).
  destruct ok_rewards as (H1 & H2 & _). split_and!; [done|exact H2|]. intros. by apply same64_eq.
Qed.
End properties.

(** ** Examples *)

Definition ex_key (k : name) : finalizer_key_info :=
  default (FinalizerKeyInfo 0 0 "" []) (finalizer_keys (finality state2) !! k).

Lemma stake_votes_conserved_witness :
  msum (fun _ v => v_votes v) (voters (voting state1)) = 120 /\
  reachable state1.
Proof.
  destruct (stake_votes_conserved ref_disengaged state1 reach1) as [E _].
  split; [rewrite E; vm_compute; reflexivity|exact reach1].
Defined.

Lemma stakes_backed_witness :
  80 + 40 <= net vote_account (final (ops1 ++ ops2)).2 /\
  0 <= amount (total_vote_stake (stored (final (ops1 ++ ops2)).1)).
Proof.
  destruct (stakes_backed ref_disengaged (ops1 ++ ops2) (final (ops1 ++ ops2)).1
    (final (ops1 ++ ops2)).2 ex_ops_ok) as (H1 & _ & H2).
  - rewrite run2. destruct (final (ops1 ++ ops2)). reflexivity.
  - split; [|exact H1]. etrans; [|exact H2]. vm_compute. discriminate.
Defined.

Lemma bids_backed_witness :
  60 + 50 <= net names_account (final (ops1 ++ ops2)).2.
Proof.
  destruct (bids_backed ref_disengaged (ops1 ++ ops2) (final (ops1 ++ ops2)).1
    (final (ops1 ++ ops2)).2 ex_ops_ok) as (_ & H2).
  - rewrite run2. destruct (final (ops1 ++ ops2)). reflexivity.
  - etrans; [|exact H2]. vm_compute. discriminate.
Defined.

Lemma finalizer_keys_consistent_witness :
  exists r, finalizers (finality state2) !! prod1 = Some r /\
    finalizer_key_count r = 2 /\ active_key_id r = 2 /\
    exists k, finalizer_keys (finality state2) !! 2 = Some k /\ k_finalizer_name k = prod1.
Proof.
  destruct (finalizer_keys_consistent ref_disengaged state2 reach2) as (_ & H & _).
  assert (E : exists r, finalizers (finality state2) !! prod1 = Some r /\
    finalizer_key_count r = 2 /\ active_key_id r = 2)
    by (eexists; split; [vm_compute; reflexivity|split; reflexivity]).
  destruct E as (r & Hr & Hc & Ha). exists r. split; [exact Hr|]. split; [exact Hc|].
  split; [exact Ha|]. destruct (H prod1 r Hr) as (_ & _ & _ & k & Hk & Hn & _).
  exists k. rewrite <- Ha. split; [exact Hk|exact Hn].
Defined.

Lemma owner_never_locked_out_witness :
  auth_changes state1 !! alice <> None /\
  AuthChange.updateauth (sys_ctx t0) (auth_changes state1) alice 1 2 (Native.Authority 0 [] [] []) (Some AuthChange.owner_name)
    = Ok tt.
Proof.
  split; [vm_compute; discriminate|].
  apply (owner_never_locked_out ref_disengaged state1 (sys_ctx t0) alice 1 2 (Native.Authority 0 [] [] []) 0 0 0 reach1).
  reflexivity.
Defined.

Lemma auth_change_checked_witness :
  is_ok (AuthChange.check_auth_change (sys_ctx t0) (auth_changes state1) alice
    (Some active_permission)) = false.
Proof.
  destruct (AuthChange.check_auth_change _ _ _ _) as [[]|] eqn:E; [|reflexivity].
  apply (auth_change_checked ref_disengaged state1 (sys_ctx t0) alice (Some active_permission) reach1)
    in E as [_ H].
  assert (Hr : exists r, auth_changes state1 !! alice = Some r /\
    bool_decide (active_permission ∈ AuthChange.allow_perms r) = false /\
    AuthChange.allow_perms r <> [])
    by (eexists; split; [vm_compute; reflexivity|split; [vm_compute; reflexivity|discriminate]]).
  destruct Hr as (r & Hr & Hn & He). destruct (H r Hr) as (_ & [Hin|[E _]]).
  - exfalso. apply bool_decide_eq_false in Hn. exact (Hn Hin).
  - exfalso. exact (He E).
Defined.

Lemma rewards_accounted_witness :
  msum (fun _ p => amount (unclaimed_rewards p)) (producers (voting state1)) mod 2 ^ 64 = 100.
Proof.
  destruct (rewards_accounted ref_disengaged state1 reach1) as (_ & E & _).
  rewrite E. vm_compute. reflexivity.
Defined.
