(* ===== verification/SystemActs.v ===== *)
(** * flon.system: what the voting and scheduling actions do

    The effect of each action of voters, producers and finalizers on a reachable state,
    with the exact conditions under which it succeeds. *)
From S2P Require Import Prelude Table Cdt CdtRef SystemData NameBid.
From S2P Require Import Finalizer FinalizerProps Voting VotingProps Election.
From S2P Require Token Reward BlockInfo AuthChange.
From S2P Require Import ProducerPay Admin System SystemInv SystemEx.
From Stdlib Require Import ZArith Lia String.
From stdpp Require Import base tactics numbers list gmap sorting.
Open Scope Z_scope.

Section actions.
Context {cdt : Cdt} {bls : Bls} {memory : Memory} {serializer : Serializer}.
Context {laws : CdtLaws} (Hmem : disengaged = []).

(** ** Votes *)

Lemma may_update_active d tbl l :
  0 < d -> Forall (may_update d tbl) l <->
  forall p, p ∈ l -> exists i, tbl !! p = Some i /\ is_active i = true.
Proof.
  intros Hd. rewrite Forall_forall. apply forall_proper. intros p. unfold may_update.
  split; intros H Hp; destruct (H Hp) as (i & Hi & Ha); exists i; auto.
Qed.

(** C38 (adding votes).  On a reachable state [addvote] succeeds exactly when the voter
    signed, the contract is initialised, the quantity is a positive amount of the core
    token that fits, and every producer he votes for is active; it then adds the amount to
    the voter, to each of these producers and to the total, transfers it to flon.vote, and
    tells flon.reward.  No addition overflows. *)
Theorem addvote_exact e s k q g' v' es :
  reachable s -> amount q <= max_amount ->
  let g := loaded e s in
  let n := amount q in
  let total := amount (total_vote_stake g) in
  let w := default (VoterInfo k [] 0 0 0) (voters (voting s) !! k) in
  addvote (env_ctx e) g (voting s) k q = Ok (g', v', es) <->
  has_auth (env_ctx e) k = true /\ is_init g = true /\
  asset_symbol q = asset_symbol (total_vote_stake g) /\ 0 < n /\ total + n <= max_amount /\
  (forall p, p ∈ v_producers w ->
    exists i, producers (voting s) !! p = Some i /\ is_active i = true) /\
  g' = with_total_vote_stake (Asset (total + n) (asset_symbol (total_vote_stake g))) g /\
  v' = Voting.State
    (<[k := VoterInfo (v_owner w) (v_producers w) (v_votes w + n) (last_unvoted_time w)
              (v_revision w)]> (voters (voting s)))
    (bump (v_producers w) n (producers (voting s))) (vote_refunds (voting s)) /\
  es = [send token_account [active_of k] (token_transfer k vote_account q "addvote");
        send reward_account [active_of (get_self (env_ctx e)); active_of k] (reward_addvote k n)].
Proof.
  intros Hr Hq g n total w. destruct (reach_loaded Hmem e s Hr) as (m & Hm & []). fold g in ok_voting.
  pose proof (addvote_Ok (env_ctx e) g (voting s) k q g' v' es ok_voting Hq) as H.
  cbn zeta in H. fold n in H. rewrite H. unfold addvote_post, voter_at. fold w.
  unfold core_of, with_votes. split.
  - intros (H1 & H2 & H3 & H4 & H5 & H6 & [= -> ->] & ->).
    rewrite may_update_active in H6 by done. by split_and!.
  - intros (H1 & H2 & H3 & H4 & H5 & H6 & -> & -> & ->). split_and!; try done.
    by apply may_update_active.
Qed.

(** C29 (withdrawing votes, and the refund).  On a reachable state [subvote] succeeds
    exactly when the voter signed, the election is active, the quantity is a positive amount of the
    core token that his votes cover and he has no refund waiting; it takes the votes from
    him, his producers and the total and records the refund.  From then on [voterefund]
    succeeds exactly when three days have passed since the second of the request; it pays
    the quantity back and leaves the refund table as it was. *)
Theorem subvote_refund_roundtrip e s k q g' v' es :
  reachable s -> is_i64 (amount q) ->
  let g := loaded e s in
  let c := env_ctx e in
  let n := amount q in
  let w := default (VoterInfo k [] 0 0 0) (voters (voting s) !! k) in
  (subvote c g (voting s) k q = Ok (g', v', es) <->
   has_auth c k = true /\
   (election_activated_time g <> 0 /\ election_activated_time g <= current_time_point c) /\
   is_init g = true /\ asset_symbol q = asset_symbol (total_vote_stake g) /\
   0 < n <= v_votes w /\ vote_refunds (voting s) !! (k, k) = None /\
   g' = with_total_vote_stake
          (Asset (amount (total_vote_stake g) - n) (asset_symbol (total_vote_stake g))) g /\
   v' = Voting.State
     (<[k := VoterInfo (v_owner w) (v_producers w) (v_votes w - n)
               (slot_of_time_point (current_time_point c)) (v_revision w)]> (voters (voting s)))
     (bump (v_producers w) (- n) (producers (voting s)))
     (<[(k, k) := VoteRefund k (sec_of_time_point (current_time_point c)) q]>
        (vote_refunds (voting s))) /\
   es = [send reward_account [active_of (get_self c); active_of k] (reward_subvote k n);
         SendDeferred (refund_sender_id k) k refund_delay_sec
           (Action (get_self c) [active_of k] (system_voterefund k))]) /\
  (subvote c g (voting s) k q = Ok (g', v', es) ->
   forall c2 v2 es2, voterefund c2 v' k = Ok (v2, es2) <->
     (sec_of_time_point (current_time_point c) + 3 * 24 * 3600) * 1000000
       <= current_time_point c2 /\
     v2 = Voting.State (voters v') (producers v') (vote_refunds (voting s)) /\
     es2 = [send token_account [active_of vote_account]
              (token_transfer vote_account k q "voterefund")]).
Proof.
  intros Hr Hq g c n w. destruct (reach_loaded Hmem e s Hr) as (m & Hm & []). fold g in ok_voting.
  assert (H : subvote c g (voting s) k q = Ok (g', v', es) <-> _)
    by (apply subvote_Ok; done).
  unfold subvote_post, voter_at, election_active, refund_of, core_of, with_votes in H.
  fold w n in H.
  assert (Hsub := H). split.
  - rewrite H. split.
    + intros (H1 & H2 & H3 & H4 & H5 & H6 & [= -> ->] & ->).
      repeat (split; [done|]). done.
    + intros (H1 & H2 & H3 & H4 & H5 & H6 & -> & -> & ->). repeat (split; [done|]). done.
  - intros Hs c2 v2 es2. apply H in Hs as (_ & _ & _ & _ & _ & Hnone & [= -> ->] & _).
    rewrite voterefund_Ok. simpl. unfold refund_delay_sec, seconds_per_day. split.
    + intros (r & Hk & Ht & -> & ->). rewrite lookup_insert_eq in Hk. injection Hk as <-.
      split_and!; [done| |done]. by rewrite delete_insert_id.
    + intros (Ht & -> & ->). eexists. rewrite lookup_insert_eq. split_and!; [done|done| |done].
      by rewrite delete_insert_id.
Qed.

(** C28 (voting for producers).  On a reachable state [voteproducer] succeeds exactly when
    the voter signed, gives at most 30 producers strictly sorted that are not the list he
    has, is known, and every producer he gives is registered, and active if he has votes; his votes
    then leave all old producers and go to all new ones.  This holds wherever the allocator
    put the two vectors, whose iterators the code compares.  The documentation of [voteproducer] asks for
    active producers of every voter; the code lets one without votes list inactive ones. *)
Theorem system_voteproducer_exact e s a_old a_new k prods v' es :
  reachable s ->
  (forall v, voters (voting s) !! k = Some v -> disjoint_at a_old (v_producers v) a_new prods) ->
  let c := env_ctx e in
  voteproducer c (voting s) a_old a_new k prods = Ok (v', es) <->
  has_auth c k = true /\ Z.of_nat (length prods) <= 30 /\ StronglySorted Z.lt prods /\
  exists v, voters (voting s) !! k = Some v /\ v_producers v <> prods /\
    (forall p, p ∈ prods -> exists i, producers (voting s) !! p = Some i /\
      (0 < v_votes v -> is_active i = true)) /\
    v' = Voting.State
      (<[k := VoterInfo (v_owner v) prods (v_votes v)
                (slot_of_time_point (current_time_point c)) (v_revision v)]> (voters (voting s)))
      (bump prods (v_votes v) (bump (v_producers v) (- v_votes v) (producers (voting s))))
      (vote_refunds (voting s)) /\
    es = [send reward_account [active_of (get_self c); active_of k] (reward_voteproducer k prods)].
Proof.
  intros Hr Hd c. destruct (reach_loaded Hmem e s Hr) as (m & Hm & []).
  rewrite (voteproducer_Ok c (loaded e s)) by done. unfold voteproducer_post.
  setoid_rewrite Forall_forall. unfold may_update, max_vote_producer_count. done.
Qed.

(** C39 (a producer that went inactive cannot be kept).  The code compares iterators of two
    vectors, not the names, so no producer is ever in [modified_prods]: a voter with votes
    whose list keeps a producer that has been deactivated cannot change his list, though
    [update_producer_votes] would accept the unchanged producer. *)
Theorem kept_inactive_producer_fails e s a_old a_new k v prods p i :
  reachable s -> voters (voting s) !! k = Some v -> 0 < v_votes v ->
  disjoint_at a_old (v_producers v) a_new prods ->
  p ∈ v_producers v -> p ∈ prods -> producers (voting s) !! p = Some i -> is_active i = false ->
  is_ok (voteproducer (env_ctx e) (voting s) a_old a_new k prods) = false /\
  update_producer_votes (producers (voting s)) [p] 0 = Ok (producers (voting s)).
Proof.
  intros Hr Hk Hv Hd Hold Hnew Hp Hi. destruct (reach_loaded Hmem e s Hr) as (m & Hm & []). split.
  - destruct (voteproducer _ _ _ _ _ _) as [[v' es]|] eqn:E; [|done]. exfalso.
    apply (voteproducer_Ok _ (loaded e s)) in E as (_ & _ & _ & w & Hw & _ & Hf & _);
      [|done|by intros w; rewrite Hk; intros [= <-]].
    rewrite Hk in Hw. injection Hw as <-. rewrite Forall_forall in Hf.
    destruct (Hf p Hnew) as (j & Hj & Ha). rewrite Hp in Hj. injection Hj as <-.
    rewrite Ha in Hi by done. done.
  - apply update_Ok; [repeat constructor; set_solver|unfold_ints; lia| |].
    + intros q j Hq Hj. destruct (vi_producers _ _ ok_voting q j Hj) as [_ ->].
      pose proof (votes_for_bounds (loaded e s) (voting s) q ok_voting).
      pose proof (vi_max _ _ ok_voting). unfold max_amount in *. unfold_ints. lia.
    + split; [repeat constructor; exists i; split; [done|lia]|].
      apply map_eq. intros q. rewrite bump_lookup.
      destruct (producers (voting s) !! q) as [[]|]; simpl; [|done].
      case_bool_decide; [|done]. unfold with_total_votes. simpl. by rewrite Z.add_0_r.
Qed.
End actions.

(** ** Examples *)

Lemma addvote_exact_witness :
  is_ok (addvote (sys_ctx (sec 30)) (loaded (ex_env (sec 30)) state1) (voting state1) alice (tokens 5))
    = true /\
  exists i, producers (voting state1) !! prod1 = Some i /\ is_active i = true.
Proof.
  destruct (addvote (sys_ctx (sec 30)) (loaded (ex_env (sec 30)) state1) (voting state1) alice
    (tokens 5)) as [[[g' v'] es]|] eqn:E; [|vm_compute in E; discriminate].
  split; [reflexivity|].
  apply (addvote_exact ref_disengaged (ex_env (sec 30)) state1 alice (tokens 5) g' v' es reach1) in E
    as (_ & _ & _ & _ & _ & H & _); [|vm_compute; discriminate].
  apply H. apply (bool_decide_unpack _). vm_compute. exact I.
Defined.

Lemma subvote_refund_roundtrip_witness :
  exists g' v' es v2 es2,
    subvote (sys_ctx (sec 30)) (loaded (ex_env (sec 30)) state1) (voting state1) alice (tokens 30)
      = Ok (g', v', es) /\
    voterefund (sys_ctx (sec (30 + 3 * day))) v' alice = Ok (v2, es2) /\
    vote_refunds v2 = vote_refunds (voting state1).
Proof.
  destruct (subvote (sys_ctx (sec 30)) (loaded (ex_env (sec 30)) state1) (voting state1) alice
    (tokens 30)) as [[[g' v'] es]|] eqn:E; [|vm_compute in E; discriminate].
  exists g', v', es. eexists _, _. split; [reflexivity|].
  destruct (subvote_refund_roundtrip ref_disengaged (ex_env (sec 30)) state1 alice (tokens 30) g' v' es
    reach1) as [_ H]; [split; vm_compute; discriminate|].
  split; [apply (H E); split; [vm_compute; discriminate|split; reflexivity]|reflexivity].
Defined.

Lemma system_voteproducer_exact_witness :
  exists v' es, voteproducer (sys_ctx (sec 30)) (voting state1) 0 16 alice [prod2; prod3] = Ok (v', es)
    /\ reachable state1.
Proof.
  eexists _, _. split; [|exact reach1].
  apply (system_voteproducer_exact ref_disengaged (ex_env (sec 30)) state1 0 16 alice [prod2; prod3] _ _ reach1).
  - intros v Hv. vm_compute in Hv. injection Hv as <-. left. vm_compute. discriminate.
  - split; [reflexivity|]. split; [vm_compute; discriminate|].
    split; [apply strictly_sorted_spec; reflexivity|].
    eexists. split; [vm_compute; reflexivity|]. split; [discriminate|].
    split; [|split; reflexivity].
    intros p [->|[->|[]%not_elem_of_nil]%elem_of_cons]%elem_of_cons;
      (eexists; split; [vm_compute; reflexivity|reflexivity]).
Defined.

(** prod1 unregisters after alice voted for it. *)
Definition state3 : sys :=
  (final (ops1 ++ [(ex_env (sec 40), Unregprod prod1)])).1.
Lemma reach3 : reachable state3.
Proof.
  set (l := ops1 ++ [(ex_env (sec 40), Unregprod prod1)]).
  exists l, (final l).2. split.
  - destruct (admissible_app_l _ _ ex_ops_ok) as [H _]. split; [|vm_compute; reflexivity].
    apply Forall_app. split; [exact H|]. apply Forall_cons. split; [by apply ex_env_ok|constructor].
  - unfold state3. fold l. assert (E : run l init_sys = Ok (final l)) by (vm_compute; reflexivity).
    rewrite E. by destruct (final l).
Qed.

Definition alice3 : voter_info := default (VoterInfo 0 [] 0 0 0) (voters (voting state3) !! alice).
Definition prod1_3 : producer_info :=
  default producer_info_default (producers (voting state3) !! prod1).

Lemma kept_inactive_producer_fails_witness :
  v_producers alice3 = [prod1; prod2] /\
  is_ok (voteproducer (sys_ctx (sec 50)) (voting state3) 0 16 alice [prod1; prod3]) = false.
Proof.
  split; [vm_compute; reflexivity|].
  apply (kept_inactive_producer_fails ref_disengaged (ex_env (sec 50)) state3 0 16 alice alice3
    [prod1; prod3] prod1 prod1_3 reach3); try (vm_compute; reflexivity).
  - left. vm_compute. discriminate.
  - apply (bool_decide_unpack _). vm_compute. exact I.
  - apply (bool_decide_unpack _). vm_compute. exact I.
Defined.
