(* ===== verification/Schedule.v ===== *)
(** * flon.system: the elected schedule and the finalizer policy

    What [update_elected_producers] proposes from a reachable state, what the finalizer
    actions do, and that key ids are never used twice. *)
From S2P Require Import Prelude Table Cdt CdtRef SystemData NameBid.
From S2P Require Import Finalizer FinalizerProps Voting VotingProps Election.
From S2P Require Token Reward BlockInfo AuthChange.
From S2P Require Import ProducerPay Admin System SystemInv SystemEx.
From Stdlib Require Import ZArith Lia String.
From stdpp Require Import base tactics numbers list gmap sorting.
Open Scope Z_scope.

Section schedule.
Context {cdt : Cdt} {bls : Bls} {memory : Memory} {serializer : Serializer}.
Context {laws : CdtLaws} (Hmem : disengaged = []).

(** May be elected: active, with votes, and with a finalizer key once finality is on *)
Definition electable (f : Finalizer.state) (p : producer_info) : Prop :=
  is_active p = true /\ 0 < total_votes p /\
  (default [] (last_prop_finalizers f) <> [] ->
   exists r, finalizers f !! owner p = Some r /\ active_key_binary r <> []).

Lemma electable_spec f p :
  electable f p <-> eligible (finalizers f) (negb (bool_decide (proposed f = []))) p = true.
Proof.
  unfold electable, eligible, standing, active, has_key, proposed. rewrite !andb_true_iff, Z.ltb_lt.
  rewrite orb_true_iff, negb_true_iff, negb_false_iff, bool_decide_eq_true.
  split.
  - intros (H1 & H2 & H3). split; [done|]. destruct (decide (default [] (last_prop_finalizers f) = [])) as [E|E];
      [by left|right]. destruct (H3 E) as (r & -> & Hr). by rewrite bool_decide_false.
  - intros ([H1 H2] & H3). split_and!; [done|done|]. intros E. destruct H3 as [H3|H3]; [done|].
    destruct (finalizers f !! owner p) as [r|]; [|done]. exists r. split; [done|].
    intros Er. by rewrite bool_decide_true in H3.
Qed.

(** C16 (the top of the list is elected).  From a reachable state the election either
    proposes nothing, as there are no electable producers or fewer than were last
    scheduled, or it proposes between 1 and 21 registered producers with their authorities,
    strictly sorted by name, all electable; an electable producer is left out only when all
    21 places are taken by producers with at least as many votes.  The schedule size is
    updated when the host takes the proposal. *)
Theorem elected_top21 e s t g' f' es :
  reachable s ->
  let c := env_ctx e in
  let g := loaded e s in
  let f := finality s in
  update_elected_producers c g (voting s) f t = (g', f', es) ->
  finalizer_keys f' = finalizer_keys f /\ finalizers f' = finalizers f /\
  ((exists l, NoDup l /\ (forall p i, producers (voting s) !! p = Some i -> electable f i -> p ∈ l) /\
      (l = [] \/ Z.of_nat (length l) < last_producer_schedule_size g) /\
      es = [] /\ g' = with_schedule (last_producer_schedule_size g) t g) \/
   exists prods es',
     es = SetProposedProducers prods :: es' /\ transfers_of es' = [] /\
     (1 <= length prods <= 21)%nat /\
     last_producer_schedule_size g <= Z.of_nat (length prods) /\
     StronglySorted Z.lt (producer_name <$> prods) /\
     (forall a, a ∈ prods -> exists p, producers (voting s) !! producer_name a = Some p /\
        electable f p /\ pa_authority a = SystemData.producer_authority p) /\
     (forall n p, producers (voting s) !! n = Some p -> electable f p ->
        n ∉ (producer_name <$> prods) ->
        length prods = 21%nat /\
        forall a q, a ∈ prods -> producers (voting s) !! producer_name a = Some q ->
          total_votes p <= total_votes q) /\
     g' = with_schedule (if accepts_producers c prods then Z.of_nat (length prods)
                         else last_producer_schedule_size g) t g).
Proof.
  intros Hr c g f H. destruct (reach_loaded Hmem e s Hr) as (m & Hm & []). fold g in ok_voting, ok_size.
  pose proof (update_elected_spec c g (voting s) f t Hmem ok_voting ok_finality) as Hsp.
  cbn zeta in Hsp. rewrite H in Hsp. destruct Hsp as (_ & E1 & E2 & _ & Hrest).
  split; [done|]. split; [done|].
  set (savanna := negb (bool_decide (proposed f = []))) in *.
  destruct (winners_spec (finalizers f) savanna (producers (voting s))) as (W1 & W2 & W3 & W4).
  set (w := winners (finalizers f) savanna (producers (voting s))) in *.
  assert (Hvotes : forall n p, producers (voting s) !! n = Some p -> owner p = n /\ 0 <= total_votes p <= int64_max).
  { intros n p Hp. destruct (vi_producers _ _ ok_voting n p Hp) as [Ho ->]. split; [done|].
    pose proof (votes_for_bounds g (voting s) n ok_voting). pose proof (vi_max _ _ ok_voting).
    unfold max_amount in *. unfold_ints. lia. }
  assert (Etops : producer_name <$> (top_of <$> w).*1 = w.*1).
  { rewrite <- !list_fmap_compose. apply list_fmap_ext. intros j [k p] Hin%list_elem_of_lookup_2.
    simpl. by apply Hvotes, W1. }
  assert (Htops : forall n, n ∈ (producer_name <$> (top_of <$> w).*1) <-> n ∈ w.*1).
  { intros n. by rewrite Etops. }
  destruct ((Z.of_nat (length w) =? 0) || (Z.of_nat (length w) <? last_producer_schedule_size g)) eqn:Eskip.
  - left. destruct Hrest as (-> & -> & _). exists w.*1.
    apply orb_true_iff in Eskip. rewrite Z.eqb_eq, Z.ltb_lt in Eskip.
    assert (Hlen : length w <> 21%nat) by lia.
    assert (Htop_in : forall p i, producers (voting s) !! p = Some i ->
      eligible (finalizers f) savanna i = true -> p ∈ w.*1).
    { intros p i Hp He. destruct (decide (p ∈ w.*1)) as [|Hout]; [done|]. exfalso. apply Hlen.
      apply (W4 p i Hp He). intros Hin. apply Hout. by apply (list_elem_of_fmap_2 fst _ (p, i)). } split_and!; [done| | |done|done].
    + intros p i Hp He%electable_spec. by eapply Htop_in.
    + destruct Eskip as [E|E]; [left; destruct w; [done|simpl in E; lia]|right].
      by rewrite length_fmap.
  - right. destruct Hrest as [(es' & -> & Hes) ->].
    set (prods := fst <$> merge_sort name_le (top_of <$> w)) in *.
    apply orb_false_iff in Eskip. rewrite Z.eqb_neq, Z.ltb_ge in Eskip.
    assert (Elen : length prods = length w)
      by (unfold prods; by rewrite length_fmap, merge_sort_Permutation, length_fmap).
    exists prods, es'. rewrite Elen. split_and!; [done| |lia|lia|lia| | | |done].
    + apply no_transfers_Forall. eapply Forall_impl; [exact Hes|]. by intros [].
    + apply name_sort_sorted. by rewrite Etops.
    + intros a (b & -> & Hb)%list_elem_of_fmap. rewrite merge_sort_Permutation in Hb.
      apply list_elem_of_fmap in Hb as ([k p] & -> & Hin). destruct (W1 k p Hin) as [Hp He].
      destruct (Hvotes k p Hp) as [Ho _]. exists p. simpl. rewrite Ho. split_and!; [done| |done].
      by apply electable_spec.
    + intros n p Hp He%electable_spec Hout.
      assert (Hnot : (n, p) ∉ w).
      { intros Hin. apply Hout. unfold prods. rewrite merge_sort_Permutation. apply Htops.
        by apply (list_elem_of_fmap_2 fst _ (n, p)). }
      destruct (W4 n p Hp He Hnot) as [Hl Hle]. split; [done|].
      intros a q (b & -> & Hb)%list_elem_of_fmap Hq. rewrite merge_sort_Permutation in Hb.
      apply list_elem_of_fmap in Hb as ([k p'] & -> & Hin). destruct (W1 k p' Hin) as [Hp' He'].
      simpl in Hq. destruct (Hvotes k p' Hp') as [Ho Hb']. rewrite Ho, Hp' in Hq. injection Hq as <-.
      specialize (Hle k p' Hin). destruct (Hvotes n p Hp) as [_ Hbp].
      apply electable_spec in He as [Ha _]. apply electable_spec in He' as [Ha' _].
      pose proof (by_votes_order p p' Hbp Hb') as Hord. rewrite Ha, Ha' in Hord.
      apply Z.nlt_ge. intros Hlt. assert (by_votes p < by_votes p'); [|lia].
      apply Hord. right. done.
Qed.

(** ** Finalizer keys *)

(** Registering a key.  On a reachable state [regfinkey] succeeds exactly when the
    finalizer signed and is a registered producer, the key and the proof of possession
    decode, no registered key has the same hash, and the proof verifies; the key gets the
    next id, and becomes the active one of a finalizer that had none.  The counters do not
    overflow. *)
Theorem regfinkey_exact e s n key pop f' es :
  reachable s ->
  let c := env_ctx e in
  let f := finality s in
  let i := next_id f in
  regfinkey c f (producers (voting s)) n key pop = Ok (f', es) <->
  has_auth c n = true /\ is_Some (producers (voting s) !! n) /\
  starts_with "SIG_BLS" pop = true /\
  exists binary sig, to_binary key = Ok binary /\ decode_bls_signature_to_g2 pop = Ok sig /\
    (forall j k, finalizer_keys f !! j = Some k ->
       sha256 (finalizer_key_binary k) <> sha256 binary) /\
    bls_pop_verify binary sig = true /\ finalizer_keys f !! i = None /\
    f' = Finalizer.State
      (<[i := FinalizerKeyInfo i n key binary]> (finalizer_keys f))
      (<[n := match finalizers f !! n with
              | None => FinalizerInfo n i binary 1
              | Some r => FinalizerInfo n (active_key_id r) (active_key_binary r)
                            (finalizer_key_count r + 1)
              end]> (finalizers f))
      (last_prop_finalizers f) (last_prop_finalizers_cached f) (Some i) /\
    es = [].
Proof.
  intros Hr c f i. destruct (reach_loaded Hmem e s Hr) as (m & Hm & []). fold f in ok_finality, ok_ids.
  pose proof (fi_tables _ ok_finality) as Ht.
  assert (Hids : ids_left f) by (unfold ids_left; lia).
  pose proof (key_fresh f Ht) as Hfresh. fold i in Hfresh.
  rewrite regfinkey_Ok by done. unfold register_post, by_fin_key. fold i.
  apply and_iff_compat_l, and_iff_compat_l, and_iff_compat_l.
  split; intros (binary & sig & H1 & H2 & H3 & H4 & H5); exists binary, sig.
  - destruct H5 as [-> ->]. by split_and!.
  - by destruct H5 as (_ & -> & ->).
Qed.

(** C37 (activating a key).  When [actfinkey] succeeds on a reachable state, the key was
    registered by the finalizer and not active, and becomes its active key; if the old key is in the last
    proposed policy, the policy with the old key's id and value replaced is proposed at
    once, sorted by id, with a threshold of more than two thirds and at most all of its
    members; otherwise nothing is proposed. *)
Theorem actfinkey_effect e s n key f' es :
  reachable s ->
  let f := finality s in
  actfinkey (env_ctx e) f n key = Ok (f', es) ->
  exists r k, finalizers f !! n = Some r /\ finalizer_keys f !! id k = Some k /\
    k_finalizer_name k = n /\ id k <> active_key_id r /\
    finalizer_keys f' = finalizer_keys f /\
    finalizers f' = <[n := FinalizerInfo n (id k) (finalizer_key_binary k)
                             (finalizer_key_count r)]> (finalizers f) /\
    let old := default [] (last_prop_finalizers f) in
    ((active_key_id r ∉ (key_id <$> old)) /\ es = [] /\
       last_prop_finalizers f' = last_prop_finalizers f \/
     (active_key_id r ∈ (key_id <$> old)) /\ exists p threshold,
       last_prop_finalizers f' = Some p /\ es = [SetFinalizers threshold (fin_authority <$> p)] /\
       (key_id <$> p) ≡ₚ ((fun i => if i =? active_key_id r then id k else i) <$> (key_id <$> old)) /\
       (forall a, a ∈ p -> a ∈ old \/
          key_id a = id k /\ fa_public_key (fin_authority a) = finalizer_key_binary k) /\
       (Z.of_nat (length p) < 2 ^ 63 ->
          2 * Z.of_nat (length p) < 3 * threshold /\ threshold <= Z.of_nat (length p))).
Proof.
  intros Hr f H. destruct (reach_loaded Hmem e s Hr) as (m & Hm & []). fold f in ok_finality, ok_ids.
  destruct (actfinkey_policy Hmem _ _ _ _ _ _ ok_finality H)
    as (r & k & Hf & Hk & Hn & Hne & _ & _ & E1 & E2 & _ & Hor).
  exists r, k. cbn zeta in Hor. fold (proposed f). split_and!; try done.
  { rewrite E2. simpl. by rewrite (fo_name _ _ _ (fi_finalizers _ (fi_tables _ ok_finality) _ _ Hf)). }
  destruct Hor as [Hor|(Hin & l & Eids & Hl & El & ->)]; [by left|right]. split; [done|].
  exists (merge_sort key_id_le l), (u64 (Z.of_nat (length l) * 2 / 3 + 1)).
  assert (Elen : length (merge_sort key_id_le l) = length l) by by rewrite merge_sort_Permutation.
  split_and!; [done|done|by rewrite merge_sort_Permutation, Eids| |].
  - intros a. rewrite merge_sort_Permutation. apply Hl.
  - rewrite Elen. intros Hb.
    destruct (threshold_quorum (Z.of_nat (length l))) as (-> & H1 & H2); [|done].
    split; [|done]. destruct l; [|simpl; lia]. simpl in Eids. symmetry in Eids.
    apply fmap_nil_inv in Eids. rewrite Eids in Hin. by apply not_elem_of_nil in Hin.
Qed.

(** Deleting a key.  On a reachable state [delfinkey] succeeds exactly when the
    finalizer signed and registered the key, and it is not active or is his only one; the
    key is removed, and with the only one the finalizer himself. *)
Theorem delfinkey_exact e s n key f' es :
  reachable s ->
  let c := env_ctx e in
  let f := finality s in
  delfinkey c f n key = Ok (f', es) <->
  has_auth c n = true /\
  exists r k, finalizers f !! n = Some r /\
    get_finalizer_key_hash_text key = Ok (sha256 (finalizer_key_binary k)) /\
    finalizer_keys f !! id k = Some k /\ k_finalizer_name k = n /\
    (id k <> active_key_id r \/ finalizer_key_count r = 1) /\
    f' = Finalizer.State (delete (id k) (finalizer_keys f))
      (if finalizer_key_count r =? 1 then delete n (finalizers f)
       else <[n := FinalizerInfo n (active_key_id r) (active_key_binary r)
                     (finalizer_key_count r - 1)]> (finalizers f))
      (last_prop_finalizers f) (last_prop_finalizers_cached f) (fin_key_id_generator f) /\
    es = [].
Proof.
  intros Hr c f. destruct (reach_loaded Hmem e s Hr) as (m & Hm & []). fold f in ok_finality, ok_ids.
  assert (Hids : ids_left f) by (unfold ids_left; lia).
  rewrite delfinkey_Ok by done. apply and_iff_compat_l. unfold delete_post, by_fin_key.
  split; intros (r & k & Hf & H1 & H2 & H3 & H4 & -> & ->); exists r, k;
    pose proof (fo_name _ _ _ (fi_finalizers _ (fi_tables _ ok_finality) _ _ Hf)) as En;
    by rewrite En.
Qed.

(** C36 (the switch to instant finality).  When [switchtosvnn] succeeds on a reachable state, no policy was ever
    proposed; one is now, with as many finalizers as producers were last
    scheduled, all with different key ids and each the active key of its finalizer, sorted by id, and with a
    threshold of more than two thirds.  A second switch fails. *)
Theorem switchtosvnn_effect e s f' es :
  reachable s ->
  let f := finality s in
  let n := last_producer_schedule_size (loaded e s) in
  switchtosvnn (env_ctx e) f (producers (voting s)) n = Ok (f', es) ->
  default [] (last_prop_finalizers f) = [] /\ 0 < n <= 21 /\
  exists p, last_prop_finalizers f' = Some p /\ Z.of_nat (length p) = n /\
    es = [SetFinalizers (n * 2 / 3 + 1) (fin_authority <$> p)] /\ 2 * n < 3 * (n * 2 / 3 + 1) /\
    StronglySorted Z.lt (key_id <$> p) /\
    (forall e2 k, is_ok (switchtosvnn (env_ctx e2) (next_action f') (producers (voting s)) k) = false).
Proof.
  intros Hr f n H. destruct (reach_loaded Hmem e s Hr) as (m & Hm & []). fold f in ok_finality, ok_ids.
  assert (Hown : producers_ok (producers (voting s)))
    by (intros p i Hi; by apply (vi_producers _ _ ok_voting)).
  destruct (switchtosvnn_Ok Hmem _ _ _ _ _ _ ok_finality Hown H) as (H1 & H2 & H3 & H4 & H5 & ->).
  fold n in ok_size. set (l := collect_finalizers _ _ _ _) in *.
  assert (Elen : length (merge_sort key_id_le l) = length l) by by rewrite merge_sort_Permutation.
  destruct (threshold_quorum n) as (-> & Hq & _); [lia|].
  split; [done|]. split; [lia|]. exists (merge_sort key_id_le l).
  split_and!; [done|by rewrite Elen|done|done| |].
  - pose proof (fi_sorted _ (fi_tables _ H4)) as Hs. unfold proposed in Hs. rewrite H5 in Hs.
    simpl in Hs. clear -Hs. induction Hs as [|a q Hs IH Ha]; [constructor|].
    rewrite fmap_cons. constructor; [done|]. by apply Forall_fmap.
  - intros e2 k. pose proof (inv_next_action _ H4) as Hnext. unfold switchtosvnn.
    destruct (require_auth _ _); [|done]. cbn [mbind result_bind].
    rewrite (is_savanna_ok _ Hmem (fi_tables _ Hnext)). unfold proposed. simpl. rewrite H5. simpl.
    assert (merge_sort key_id_le l <> []) by (intros E; rewrite E in Elen; simpl in Elen; lia).
    by rewrite bool_decide_false.
Qed.

(** Key ids grow, and given ids keep their keys. *)
Definition ids_grow (f f' : Finalizer.state) : Prop :=
  next_id f <= next_id f' /\
  forall i k, finalizer_keys f' !! i = Some k -> i < next_id f -> finalizer_keys f !! i = Some k.

Lemma ids_grow_same f f' :
  finalizer_keys f' = finalizer_keys f -> fin_key_id_generator f' = fin_key_id_generator f ->
  ids_grow f f'.
Proof. intros E1 E2. unfold ids_grow, next_id. rewrite E1, E2. split; [lia|done]. Qed.

(** Every handler but those of finalizers and of blocks leaves their tables alone. *)
Lemma handler_finality e o g s g' s' es :
  match o with
  | Onblock _ _ _ | Switchtosvnn | Regfinkey _ _ _ | Actfinkey _ _ | Delfinkey _ _ => False
  | _ => True
  end -> handler e o g s = Ok (g', s', es) -> finality s' = finality s.
Proof.
  intros Ho H. destruct o; try done; simpl in H;
    unfold only_effects, only_check, on_voting, on_stake, on_names in H;
    repeat case_match; repeat (apply bind_Ok in H as (? & _ & H)); repeat case_match;
    unfold mret, result_ret in H; by simplify_eq.
Qed.

Lemma set_proposed_tables st l :
  finalizer_keys (set_proposed_finalizers st l).1 = finalizer_keys st /\
  fin_key_id_generator (set_proposed_finalizers st l).1 = fin_key_id_generator st.
Proof.
  unfold set_proposed_finalizers, get_last_proposed_finalizers.
  destruct (last_prop_finalizers_cached st); [by destruct (auth_infos_eqb _ _)|].
  destruct (last_prop_finalizers st); by destruct (auth_infos_eqb _ _).
Qed.

Lemma is_savanna_tables st :
  finalizer_keys (is_savanna_consensus st).1 = finalizer_keys st /\
  fin_key_id_generator (is_savanna_consensus st).1 = fin_key_id_generator st.
Proof.
  unfold is_savanna_consensus, get_last_proposed_finalizers.
  destruct (last_prop_finalizers_cached st); [done|]. by destruct (last_prop_finalizers st).
Qed.

Lemma switch_tables c f prods n f' es :
  switchtosvnn c f prods n = Ok (f', es) -> ids_grow f f'.
Proof.
  unfold switchtosvnn. intros H. apply bind_Ok in H as (_ & _ & H).
  pose proof (is_savanna_tables f) as [E1 E2]. destruct (is_savanna_consensus f) as [f1 b1].
  do 2 apply bind_Ok in H as (_ & _ & H).
  pose proof (set_proposed_tables f1 (collect_finalizers f1 (by_index by_votes prods) n [])) as [E3 E4].
  destruct (set_proposed_finalizers f1 _) as [f2 es2].
  pose proof (is_savanna_tables f2) as [E5 E6]. destruct (is_savanna_consensus f2) as [f3 b3].
  apply bind_Ok in H as (_ & _ & [= <- _]). simpl in *. apply ids_grow_same; congruence.
Qed.

Lemma onblock_tables c g s t p id g' s' es :
  onblock c g s t p id = Ok (g', s', es) -> ids_grow (finality s) (finality s').
Proof.
  unfold onblock, update_schedule. intros H. do 2 apply bind_Ok in H as (? & _ & H).
  destruct (_ || _); [injection H as _ <- _; by apply ids_grow_same|].
  apply bind_Ok in H as ([g1 v] & _ & H). destruct (_ <? _); [|injection H as _ <- _; by apply ids_grow_same].
  destruct (update_elected_producers _ _ _ _ _) as [[g2 f2] es2] eqn:Eu.
  apply bind_Ok in H as ([[g3 nm] es3] & _ & [= _ <- _]). simpl. revert Eu. simpl.
  unfold update_elected_producers. pose proof (is_savanna_tables (finality s)) as [E1 E2].
  destruct (is_savanna_consensus (finality s)) as [f1 b1]. simpl in E1, E2.
  destruct (elect _ _ _ _ _) as [tops fins]. destruct (_ || _).
  - intros [= _ <- _]. by apply ids_grow_same.
  - destruct b1; [|intros [= _ <- _]; by apply ids_grow_same].
    pose proof (set_proposed_tables f1 fins) as [E3 E4].
    destruct (set_proposed_finalizers f1 fins) as [f3 es4]. intros [= _ <- _]. simpl in *.
    apply ids_grow_same; congruence.
Qed.

(** C34 (key ids are never used again).  Over any successful action on a reachable state the next id never
    decreases, and a key found afterwards under an id that was already given is the same
    key, of the same finalizer. *)
Theorem key_ids_never_reused e o s s' es :
  reachable s -> op_ok (e, o) -> holders_quiet e -> exec e o s = Ok (s', es) ->
  next_id (finality s) <= next_id (finality s') /\
  forall i k, finalizer_keys (finality s') !! i = Some k -> i < next_id (finality s) ->
    finalizer_keys (finality s) !! i = Some k.
Proof.
  intros Hr Hop Hq H. change (ids_grow (finality s) (finality s')).
  destruct (reach_loaded Hmem e s Hr) as (m & Hm & []).
  apply sys_exec_Ok in H as (g & s1 & H & _ & -> & _).
  enough (ids_grow (finality s) (finality s1)) by (by destruct (in_native o)).
  pose proof (fun Ho => handler_finality e o _ _ _ _ _ Ho H) as Hf.
  destruct o; try (rewrite (Hf I); by apply ids_grow_same); simpl in H; clear Hf.
  - eapply onblock_tables, H.
  - apply bind_Ok in H as ([f es2] & H & [= _ <- _]). eapply switch_tables, H.
  - apply bind_Ok in H as ([f es2] & H & [= _ <- _]).
    apply regfinkey_Ok in H as (_ & _ & _ & binary & sig & _ & _ & _ & _ & -> & _);
      [|apply ok_finality|unfold ids_left; lia].
    unfold ids_grow, register_post, next_id at 2. simpl. split; [lia|].
    intros i k [[<- _]|[_ Hk]]%lookup_insert_Some ?; [lia|done].
  - apply bind_Ok in H as ([f es2] & H & [= _ <- _]).
    destruct (actfinkey_policy Hmem _ _ _ _ _ _ ok_finality H) as (r & k & _ & _ & _ & _ & _ & _ & E1 & _ & E3 & _).
    by apply ids_grow_same.
  - apply bind_Ok in H as ([f es2] & H & [= _ <- _]).
    apply delfinkey_Ok in H as (_ & r & k & _ & _ & _ & _ & _ & -> & _); [|done|unfold ids_left; lia].
    unfold ids_grow, delete_post, next_id. simpl. split; [lia|].
    intros i k' [_ Hk]%lookup_delete_Some _. done.
Qed.
End schedule.

(** ** Examples *)

Lemma elected_top21_witness :
  exists g' f' prods es',
    update_elected_producers (sys_ctx (sec 30)) (loaded (ex_env (sec 30)) state1) (voting state1)
      (finality state1) (slot 30) = (g', f', SetProposedProducers prods :: es') /\
    (length prods <= 21)%nat /\ StronglySorted Z.lt (producer_name <$> prods).
Proof.
  destruct (update_elected_producers (sys_ctx (sec 30)) (loaded (ex_env (sec 30)) state1)
    (voting state1) (finality state1) (slot 30)) as [[g' f'] es] eqn:E.
  destruct (elected_top21 ref_disengaged (ex_env (sec 30)) state1 (slot 30) g' f' es reach1 E)
    as (_ & _ & [(l & _ & _ & _ & He & _)|(prods & es' & He & _ & Hl & _ & Hs & _)]).
  - exfalso. assert (Hn : es <> []); [|exact (Hn He)]. clear He.
    assert (Hl : length es = 1%nat); [|by destruct es].
    change es with (g', f', es).2. rewrite <- E. vm_compute. reflexivity.
  - exists g', f', prods, es'. subst es. split; [reflexivity|]. split; [apply Hl|exact Hs].
Defined.

Lemma regfinkey_exact_witness :
  exists f' es, regfinkey (sys_ctx (sec 30)) (finality state1) (producers (voting state1)) prod3
    "PUB_BLS_4" "SIG_BLS_4" = Ok (f', es) /\ next_id (finality state1) = 3 /\
    finalizer_keys (finality state1) !! 3 = None.
Proof.
  destruct (regfinkey (sys_ctx (sec 30)) (finality state1) (producers (voting state1)) prod3
    "PUB_BLS_4" "SIG_BLS_4") as [[f' es]|] eqn:E; [|vm_compute in E; discriminate].
  exists f', es. split; [reflexivity|]. split; [vm_compute; reflexivity|].
  apply (regfinkey_exact ref_disengaged (ex_env (sec 30)) state1 prod3 "PUB_BLS_4" "SIG_BLS_4" f' es
    reach1) in E as (_ & _ & _ & binary & sig & _ & _ & _ & _ & Hn & _).
  exact Hn.
Defined.

Lemma actfinkey_effect_witness :
  exists f' es r, actfinkey (sys_ctx (sec 30)) (finality state1) prod1 "PUB_BLS_3" = Ok (f', es) /\
    finalizers (finality state1) !! prod1 = Some r /\ active_key_id r = 0 /\
    finalizer_keys f' = finalizer_keys (finality state1).
Proof.
  destruct (actfinkey (sys_ctx (sec 30)) (finality state1) prod1 "PUB_BLS_3") as [[f' es]|] eqn:E;
    [|vm_compute in E; discriminate].
  destruct (actfinkey_effect ref_disengaged (ex_env (sec 30)) state1 prod1 "PUB_BLS_3" f' es reach1 E)
    as (r & k & Hr & _ & _ & _ & Ek & _).
  exists f', es, r. split; [reflexivity|]. split; [exact Hr|]. split; [|exact Ek].
  vm_compute in Hr. injection Hr as <-. reflexivity.
Defined.

Lemma delfinkey_exact_witness :
  exists f' es r, delfinkey (sys_ctx (sec 30)) (finality state1) prod1 "PUB_BLS_3" = Ok (f', es) /\
    finalizers (finality state1) !! prod1 = Some r /\
    last_prop_finalizers f' = last_prop_finalizers (finality state1).
Proof.
  destruct (delfinkey (sys_ctx (sec 30)) (finality state1) prod1 "PUB_BLS_3") as [[f' es]|] eqn:E;
    [|vm_compute in E; discriminate].
  exists f', es.
  apply (delfinkey_exact ref_disengaged (ex_env (sec 30)) state1 prod1 "PUB_BLS_3" f' es reach1) in E
    as (_ & r & k & Hr & _ & _ & _ & _ & Ef & _).
  exists r. split; [reflexivity|]. split; [exact Hr|]. rewrite Ef. reflexivity.
Defined.

Lemma switchtosvnn_effect_witness :
  exists f' es, switchtosvnn (sys_ctx (sec 25)) (finality state0) (producers (voting state0)) 2
    = Ok (f', es) /\ exists p, last_prop_finalizers f' = Some p /\ Z.of_nat (length p) = 2.
Proof.
  assert (En : last_producer_schedule_size (loaded (ex_env (sec 25)) state0) = 2)
    by (vm_compute; reflexivity).
  destruct (switchtosvnn (sys_ctx (sec 25)) (finality state0) (producers (voting state0)) 2)
    as [[f' es]|] eqn:E; [|vm_compute in E; discriminate].
  exists f', es. split; [reflexivity|]. rewrite <- En in E.
  destruct (switchtosvnn_effect ref_disengaged (ex_env (sec 25)) state0 f' es reach0 E)
    as (_ & _ & p & Hp & Hl & _).
  exists p. split; [exact Hp|]. rewrite Hl. exact En.
Defined.

Lemma key_ids_never_reused_witness :
  exists s' es, exec (ex_env (sec 30)) (Delfinkey prod1 "PUB_BLS_3") state1 = Ok (s', es) /\
    3 <= next_id (finality s').
Proof.
  destruct (exec (ex_env (sec 30)) (Delfinkey prod1 "PUB_BLS_3") state1) as [[s' es]|] eqn:E;
    [|vm_compute in E; discriminate].
  exists s', es. split; [reflexivity|].
  destruct (ex_env_ok (sec 30) (Delfinkey prod1 "PUB_BLS_3") I) as [H1 H2].
  destruct (key_ids_never_reused ref_disengaged (ex_env (sec 30)) (Delfinkey prod1 "PUB_BLS_3")
    state1 s' es reach1 H1 H2 E) as [H _].
  etrans; [|exact H]. vm_compute. discriminate.
Defined.
