(* ===== verification/SystemEcon.v ===== *)
(** * flon.system: names, accounts, rewards, gas and parameters

    What these actions do from a reachable state, with the exact conditions under which
    they succeed. *)
From S2P Require Import Prelude Table Cdt CdtRef SystemData NameBid.
From S2P Require Import Finalizer FinalizerProps Voting VotingProps Election.
From S2P Require Token Reward BlockInfo AuthChange.
From S2P Require Import ProducerPay Admin System SystemInv SystemEx.
From Stdlib Require Import ZArith Lia String.
From stdpp Require Import base tactics numbers list gmap sorting strings.
Open Scope Z_scope.

(** ** Decoding what is handed to the host *)

(** [n] entries of an id and a value, with a decoder for the values *)
Fixpoint parse_entries (unpack : Z -> bytes -> option (Z * bytes)) (n : nat) (b : bytes)
    : option (list (Z * Z)) :=
  match n, b with
  | O, [] => Some []
  | S n', id :: b' =>
      '(v, rest) ← unpack id b'; l ← parse_entries unpack n' rest; Some ((id, v) :: l)
  | _, _ => None
  end.
Definition parse_parameters (unpack : Z -> bytes -> option (Z * bytes)) (b : bytes)
    : option (list (Z * Z)) :=
  match b with count :: b' => parse_entries unpack (Z.to_nat count) b' | [] => None end.

Definition of_le32 (b : bytes) : option (Z * bytes) :=
  match b with
  | a :: b :: c :: d :: rest => Some (a + 256 * (b + 256 * (c + 256 * d)), rest)
  | _ => None
  end.
Fixpoint parse_words (n : nat) (b : bytes) : option (list Z) :=
  match n with
  | O => match b with [] => Some [] | _ => None end
  | S n' => '(w, rest) ← of_le32 b; l ← parse_words n' rest; Some (w :: l)
  end.

Lemma of_le32_le32 v rest : is_u32 v -> of_le32 (le32 v ++ rest) = Some (v, rest).
Proof.
  intros Hv. unfold le32, of_le32. cbn [app]. f_equal. f_equal.
  change 65536 with (256 * 256). change 16777216 with (256 * 256 * 256).
  rewrite <- !Z.div_div by lia.
  pose proof (Z.div_mod v 256 ltac:(lia)). pose proof (Z.div_mod (v / 256) 256 ltac:(lia)).
  pose proof (Z.div_mod (v / 256 / 256) 256 ltac:(lia)).
  rewrite (Z.mod_small (v / 256 / 256 / 256)); [lia|]. unfold_ints.
  rewrite !Z.div_div by lia. split; [apply Z.div_pos; lia|]. apply Z.div_lt_upper_bound; lia.
Qed.

Lemma parse_words_concat l :
  Forall is_u32 l -> parse_words (length l) (concat (le32 <$> l)) = Some l.
Proof.
  induction 1 as [|v l Hv Hl IH]; [done|]. cbn [length fmap list_fmap concat parse_words].
  rewrite of_le32_le32 by done. cbn [mbind option_bind]. by rewrite IH.
Qed.

Section econ.
Context {cdt : Cdt} {bls : Bls} {memory : Memory} {serializer : Serializer}.

Lemma parse_entries_imap unpack (l : list Z) : forall (k : nat) tl m,
  (forall i v rest, unpack i (pack_parameter i v ++ rest) = Some (v, rest)) ->
  parse_entries unpack (length m) tl = Some m ->
  parse_entries unpack (length l + length m)
    (concat (imap (fun i v => Z.of_nat (k + i) :: pack_parameter (Z.of_nat (k + i)) v) l) ++ tl)
  = Some (imap (fun i v => (Z.of_nat (k + i), v)) l ++ m).
Proof.
  induction l as [|v l IH]; intros k tl m Hu Hm; [done|].
  cbn [length imap concat app parse_entries Nat.add]. rewrite <- !app_assoc, Hu.
  cbn [mbind option_bind]. rewrite Nat.add_0_r.
  assert (E : forall A (f : nat -> Z -> A), imap ((fun i v => f (k + i)%nat v) ∘ S) l =
    imap (fun i v => f (S k + i)%nat v) l).
  { intros A f. apply imap_ext. intros i w _. unfold compose. by rewrite Nat.add_succ_r. }
  rewrite (E _ (fun i v => Z.of_nat i :: pack_parameter (Z.of_nat i) v)), (IH (S k)) by done.
  cbn [mbind option_bind]. by rewrite (E _ (fun i v => (Z.of_nat i, v))).
Qed.

(** The packed chain parameters.  For a serialiser whose values can be decoded again,
    [setparams] hands the host bytes that decode to every member of the parameters under
    its id, 0 to 20 in order, and 21 for the optional one when it is there; it stores the
    parameters and requires an authority depth of at least 3. *)
Theorem setparams_decodes unpack c g p g' es :
  (forall i v rest, unpack i (pack_parameter i v ++ rest) = Some (v, rest)) ->
  setparams c g p = Ok (g', es) ->
  has_auth c (get_self c) = true /\ 3 <= max_authority_depth (base_parameters p) /\
  g' = with_params (base_parameters p) g /\
  exists b, es = [SetParametersPacked b] /\
    parse_parameters unpack b =
      Some (imap (fun i v => (Z.of_nat i, v)) (parameter_values (base_parameters p)) ++
            match max_action_return_value_size p with Some v => [(21, v)] | None => [] end).
Proof.
  intros Hu H. unfold setparams in H. apply bind_Ok in H as (_ & H1%check_Ok & H).
  apply bind_Ok in H as (_ & H2%check_Ok%Z.leb_le & [= <- <-]).
  split; [done|]. split; [done|]. split; [done|]. eexists. split; [done|].
  unfold packed_parameters. destruct (max_action_return_value_size p) as [v|].
  - cbn [parse_parameters].
    change (Z.to_nat (CHAIN_CONFIG_PARAMS_V0_COUNT + 1)) with
      (length (parameter_values (base_parameters p)) + length [(21, v)])%nat.
    apply (parse_entries_imap unpack _ 0 _ [(21, v)] Hu). cbn [length parse_entries].
    rewrite <- (app_nil_r (pack_parameter _ v)). rewrite Hu. done.
  - cbn [parse_parameters]. change (Z.to_nat CHAIN_CONFIG_PARAMS_V0_COUNT) with
      (length (parameter_values (base_parameters p)) + length (@nil (Z * Z)))%nat.
    rewrite <- (app_nil_r (concat _)). by apply (parse_entries_imap unpack _ 0 [] [] Hu).
Qed.

Context {laws : CdtLaws}.

(** WebAssembly limits.  [wasmcfg] accepts exactly the settings default, low and high,
    from the contract itself, and hands the host twelve 32-bit words: a zero and the eleven
    limits of the setting. *)
Theorem wasmcfg_decodes c settings es :
  wasmcfg c settings = Ok es <->
  has_auth c (get_self c) = true /\ exists limits,
    ((settings = name_lit "default" \/ settings = name_lit "low") /\ limits = default_limits \/
     settings = name_lit "high" /\ limits = high_limits) /\
    exists b, es = [SetWasmParametersPacked b] /\
      b = concat (le32 <$> 0 :: wasm_words limits) /\
      parse_words 12 b = Some (0 :: wasm_words limits).
Proof.
  assert (Hparse : forall limits, limits = default_limits \/ limits = high_limits ->
    parse_words 12 (concat (le32 <$> 0 :: wasm_words limits)) = Some (0 :: wasm_words limits)).
  { intros limits Hl. change 12%nat with (length (0 :: wasm_words limits)).
    apply parse_words_concat. destruct Hl as [-> | ->]; repeat constructor; done. }
  assert (Hdh : name_lit "default" <> name_lit "high" /\ name_lit "low" <> name_lit "high").
  { split; [by apply (names_differ 13 15)|by apply (names_differ 14 15)]. }
  unfold wasmcfg, require_auth. split.
  - intros H. apply bind_Ok in H as (_ & H1%check_Ok & H). split; [done|].
    destruct (Z.eqb_spec settings (name_lit "default")) as [E|E]; cbn [orb] in H;
      [|destruct (Z.eqb_spec settings (name_lit "low")) as [E'|E'];
        [|destruct (Z.eqb_spec settings (name_lit "high")) as [E''|E'']; [|done]]];
      injection H as <-.
    + exists default_limits. split; [auto|]. eexists. split_and!; [done|done|]. apply Hparse. auto.
    + exists default_limits. split; [auto|]. eexists. split_and!; [done|done|]. apply Hparse. auto.
    + exists high_limits. split; [auto|]. eexists. split_and!; [done|done|]. apply Hparse. auto.
  - intros (H1 & limits & Hs & b & -> & -> & _). rewrite H1. cbn [check mbind result_bind].
    destruct Hs as [[[-> | ->] ->]|[-> ->]].
    + by rewrite Z.eqb_refl.
    + by rewrite Z.eqb_refl, orb_true_r.
    + rewrite !(proj2 (Z.eqb_neq (name_lit "high") _)) by (intros E; symmetry in E; tauto).
      by rewrite Z.eqb_refl.
Qed.

Context (Hmem : disengaged = []).

(** ** Auctions *)

(** Bidding.  On a reachable state [bidname] succeeds exactly when the bidder signed,
    the name is a short one without dots that no account has, the bid is a positive amount of the core
    token, and there is no auction yet or an open one whose highest bid,
    of another bidder, is exceeded by more than a tenth (and the refund fits). The bid then is the
    highest one; the old bidder's refund, whether or not he already had one for this name,
    grows by his bid; and the bid is transferred to flon.names. *)
Theorem bidname_exact e s bidder newname q nm es :
  reachable s -> amount q <= max_amount ->
  let c := env_ctx e in
  let g := loaded e s in
  let core := asset_symbol (total_vote_stake g) in
  let st := names s in
  let due k := default 0 ((fun r => amount (refund_amount r)) <$> bid_refunds st !! k) in
  bidname c g st bidder newname q = Ok (nm, es) <->
  has_auth c bidder = true /\
  (name_suffix newname = newname /\ newname <> 0 /\ Z.land newname 15 = 0 /\
   Z.land newname 496 = 0 /\ is_account c newname = false) /\
  is_init g = true /\ asset_symbol q = core /\ 0 < amount q /\
  (forall b, bids st !! newname = Some b ->
    0 < high_bid b /\ high_bid b + Z.quot (high_bid b) 10 < amount q /\
    high_bidder b <> bidder /\ due (newname, high_bidder b) + high_bid b <= max_amount) /\
  nm = NameBid.State
    (<[newname := NameBid newname bidder (amount q) (current_time_point c)]> (bids st))
    (match bids st !! newname with
     | None => bid_refunds st
     | Some b => <[(newname, high_bidder b) := BidRefund (high_bidder b)
                      (Asset (due (newname, high_bidder b) + high_bid b) core)]> (bid_refunds st)
     end) /\
  es = [send token_account [active_of bidder]
          (token_transfer bidder names_account q ("bid name " +:+ name_to_string newname))].
Proof.
  intros Hr Hq c g core st due. destruct (reach_loaded Hmem e s Hr) as (m & Hm & []).
  by apply bidname_eq.
Qed.



(** ** Accounts *)

(** One of the first twelve characters of the name is a dot *)
Definition short_or_dotted (n : name) : Prop :=
  exists i, 0 <= i < 12 /\ Z.land (Z.shiftr n (4 + 5 * i)) 31 = 0.

Lemma has_dot_loop_spec k : forall n acc,
  has_dot_loop k n acc = true <->
  acc = true \/ exists i, 0 <= i < Z.of_nat k /\ Z.land (Z.shiftr n (5 * i)) 31 = 0.
Proof.
  induction k as [|k IH]; intros n acc.
  { simpl. split; [by left|]. intros [?|(i & ? & _)]; [done|lia]. }
  cbn [has_dot_loop]. rewrite IH, orb_true_iff, Z.eqb_eq.
  split.
  - intros [[H|H]|(i & Hi & H)]; [by left|right; exists 0; split; [lia|by rewrite Z.shiftr_0_r]|].
    right. exists (i + 1). split; [lia|]. rewrite Z.shiftr_shiftr in H by lia.
    by replace (5 * (i + 1)) with (5 + 5 * i) by lia.
  - intros [H|(i & Hi & H)]; [by left; left|]. destruct (decide (i = 0)) as [->|Hne].
    + left. right. by rewrite Z.shiftr_0_r in H.
    + right. exists (i - 1). split; [lia|]. rewrite Z.shiftr_shiftr by lia.
      by replace (5 + 5 * (i - 1)) with (5 * i) by lia.
Qed.

Lemma has_dot_spec n : has_dot n = true <-> short_or_dotted n.
Proof.
  unfold has_dot, short_or_dotted. rewrite has_dot_loop_spec. change (Z.of_nat 12) with 12.
  split; [intros [?|(i & Hi & H)]; [done|]; exists i; split; [done|]|
          intros (i & Hi & H); right; exists i; split; [done|]];
    rewrite Z.shiftr_shiftr in * by lia; done.
Qed.

(** C27 (who may create which account).  Once the contract is initialised, the account [n] is
    set up exactly once, for a creator that is the contract itself, or when the name is a
    full one without dots, or when the creator owns the suffix of a dotted name, or when the
    creator's closed highest bid is for this very name, and the bid is then used up. The
    creator is recorded, the account starts without gas.  Before that nothing happens. *)
Theorem newaccount_exact c stored_global st tbl cr n nm tbl' es :
  newaccount c stored_global st tbl cr n = Ok (nm, tbl', es) <->
  match stored_global with Some g => is_init g = false | None => True end /\
    nm = st /\ tbl' = tbl /\ es = [] \/
  (exists g, stored_global = Some g /\ is_init g = true) /\
  tbl !! n = None /\ tbl' = <[n := AccountCreator n cr]> tbl /\
  es = [SetResourceLimits n 0 false] /\
  ((cr = get_self c \/ ~ short_or_dotted n) /\ nm = st \/
   cr <> get_self c /\ short_or_dotted n /\
     (name_suffix n <> n /\ cr = name_suffix n /\ nm = st \/
      name_suffix n = n /\ exists b, bids st !! n = Some b /\ high_bidder b = cr /\
        high_bid b < 0 /\ nm = NameBid.State (delete n (bids st)) (bid_refunds st))).
Proof.
  unfold newaccount. pose proof (has_dot_spec n) as Hdot.
  assert (Hinit : (match stored_global with Some g => is_init g | None => false end = true <->
      exists g, stored_global = Some g /\ is_init g = true) /\
    (match stored_global with Some g => is_init g | None => false end = false <->
      match stored_global with Some g => is_init g = false | None => True end)).
  { destruct stored_global as [g|]; split; try done; [|split; [done|by intros (? & ? & _)]].
    split; [by exists g|by intros (? & [= <-] & ?)]. }
  destruct Hinit as [Hi1 Hi2].
  destruct (match stored_global with Some g => is_init g | None => false end) eqn:Ei; cbn [negb].
  2:{ unfold mret, result_ret. split.
      - intros [= <- <- <-]. left. split; [by apply Hi2|done].
      - intros [(_ & -> & -> & ->)|(Hg & _)]; [done|]. by apply Hi1 in Hg. }
  assert (Hno : ~ match stored_global with Some g => is_init g = false | None => True end)
    by (intros E; by apply Hi2 in E).
  assert (Htbl : forall r, (creators' ← emplace tbl n (AccountCreator n cr);
      Ok (r, creators', [SetResourceLimits n 0 false])) = Ok (nm, tbl', es) <->
    nm = r /\ tbl !! n = None /\ tbl' = <[n := AccountCreator n cr]> tbl /\
    es = [SetResourceLimits n 0 false]).
  { intros r. rewrite bind_Ok. split.
    - intros (t & Ht%emplace_Ok & [= <- <- <-]). destruct Ht as [? ->]. done.
    - intros (-> & Hn & -> & ->). eexists. rewrite emplace_Ok. done. }
  destruct (Z.eqb_spec cr (get_self c)) as [Ec|Ec]; cbn [negb andb].
  { cbn [mbind result_bind]. unfold mret, result_ret. cbn [mbind result_bind]. rewrite Htbl. split.
    - intros (-> & H1 & H2 & H3). right. split; [by apply Hi1|]. split_and!; [done..|].
      left. split; [by left|done].
    - by intros [[H _]|(_ & H1 & H2 & H3 & [[_ ->]|[H _]])]. }
  destruct (has_dot n) eqn:Ed; cbn [negb andb].
  2:{ assert (~ short_or_dotted n) by (intros E; apply Hdot in E; done).
      unfold mret, result_ret. cbn [mbind result_bind]. rewrite Htbl. split.
      - intros (-> & H1 & H2 & H3). right. split; [by apply Hi1|]. split_and!; [done..|].
        left. split; [by right|done].
      - by intros [[H' _]|(_ & H1 & H2 & H3 & [[_ ->]|(_ & H' & _)])]. }
  pose proof (proj1 Hdot eq_refl) as Hs.
  destruct (Z.eqb_spec (name_suffix n) n) as [En|En].
  - rewrite bind_Ok. split.
    + intros (nm' & Hn & H). apply Htbl in H as (-> & H1 & H2 & H3).
      apply bind_Ok in Hn as (b & Hb%get_or_Ok & Hn).
      apply bind_Ok in Hn as (_ & Hc%check_Ok%Z.eqb_eq & Hn).
      apply bind_Ok in Hn as (_ & Hz%check_Ok%Z.ltb_lt & [= <-]).
      right. split; [by apply Hi1|]. split_and!; [done..|]. right. split_and!; [done..|].
      right. split; [done|]. by exists b.
    + intros [[H _]|(_ & H1 & H2 & H3 & [[[H|H] _]|(_ & _ & [[H _]|(_ & b & Hb & Hc & Hz & ->)])])];
        try done. eexists. split; [|by apply Htbl]. rewrite Hb. cbn [get_or mbind result_bind].
      rewrite (proj2 (Z.eqb_eq _ _) Hc), (proj2 (Z.ltb_lt _ _) Hz). done.
  - rewrite bind_Ok. split.
    + intros (nm' & Hn & H). apply Htbl in H as (-> & H1 & H2 & H3).
      apply bind_Ok in Hn as (_ & Hc%check_Ok%Z.eqb_eq & [= <-]).
      right. split; [by apply Hi1|]. split_and!; [done..|]. right. split_and!; [done..|].
      left. done.
    + intros [[H _]|(_ & H1 & H2 & H3 & [[[H|H] _]|(_ & _ & [(_ & Hc & ->)|[H _]])])]; try done.
      eexists. split; [|by apply Htbl]. rewrite (proj2 (Z.eqb_eq _ _) Hc). done.
Qed.

(** ** Rewards *)

(** C26 (block rewards halve).  On a reachable state with rewards started, a block of a
    registered producer in the [k]-th five-year period earns the initial reward divided by
    2^k, rounded down, for [k] up to 62, and nothing in period 63; in later periods the division by zero
    makes [onblock] fail.  The reward goes to the producer's unclaimed rewards and
    both totals. *)
Theorem block_reward_halves e s p i now :
  reachable s ->
  let g := loaded e s in
  producers (voting s) !! p = Some i ->
  reward_started_time g <> 0 -> reward_started_time g <= now ->
  let k := (now - reward_started_time g) / (5 * 365 * 24 * 3600 * 1000000) in
  let add r a := Asset (i64 (amount a + r)) (asset_symbol a) in
  let pay r := (with_rewards (initial_rewards_per_block g) (add r (total_produced_rewards g))
                  (add r (total_unclaimed_rewards g)) g,
                Voting.State (voters (voting s))
                  (<[p := with_unclaimed_rewards (add r (unclaimed_rewards i)) i]>
                     (producers (voting s))) (vote_refunds (voting s))) in
  (k <= 62 -> pay_block g (voting s) p now = Ok (pay (amount (initial_rewards_per_block g) / 2 ^ k))) /\
  (k = 63 -> pay_block g (voting s) p now = Ok (pay 0)) /\
  (64 <= k -> is_ok (pay_block g (voting s) p now) = false).
Proof.
  intros Hr g Hp Hs0 Hs1 k add pay. destruct (reach_loaded Hmem e s Hr) as (m & Hm & []). fold g in ok_rewards.
  destruct ok_rewards as (_ & _ & Hini & _).
  pose proof (block_reward_spec g now Hini Hs1) as Hb. unfold block_reward, period_of in Hb.
  change (1000000 * reward_halving_period_seconds) with (5 * 365 * 24 * 3600 * 1000000) in Hb.
  fold k in Hb. unfold pay_block. rewrite Hp.
  rewrite (proj2 (Z.eqb_neq _ 0) Hs0), (proj2 (Z.leb_le _ _) Hs1). cbn [negb andb].
  split_and!; intros Hk.
  - rewrite (proj2 (Z.leb_le k 62) Hk) in Hb. destruct Hb as [-> _]. done.
  - rewrite (proj2 (Z.leb_gt k 62)), (proj2 (Z.eqb_eq k 63)) in Hb by lia. destruct Hb as [-> _]. done.
  - rewrite (proj2 (Z.leb_gt k 62)), (proj2 (Z.eqb_neq k 63)) in Hb by lia.
    by destruct (div64 _ _).
Qed.

(** The election's calendar.  [cfgelection] succeeds exactly when the contract signed,
    is initialised, the reward is a nonnegative amount of the core token, each of the two times that has come is
    given unchanged and each that has not is moved to the future, and rewards
    do not start before the election. *)
Theorem cfgelection_exact c g t1 t2 a g' :
  let past t := t <> 0 /\ t <= current_time_point c in
  let kept_or_future old new :=
    (past old -> new = old) /\ (~ past old -> current_time_point c < new) in
  cfgelection c g t1 t2 a = Ok g' <->
  has_auth c (get_self c) = true /\ is_init g = true /\
  asset_symbol a = asset_symbol (total_vote_stake g) /\ 0 <= amount a /\
  kept_or_future (election_activated_time g) t1 /\ t1 <= t2 /\
  kept_or_future (reward_started_time g) t2 /\
  g' = with_rewards a (total_produced_rewards g) (total_unclaimed_rewards g) (with_times t1 t2 g).
Proof.
  intros past kept.
  assert (Hset : forall old new, may_set c old new <-> kept old new).
  { intros old new. unfold may_set, kept, past. case_bool_decide as E; unfold has_come in E; naive_solver. }
  unfold cfgelection, require_auth. split.
  - intros H. apply bind_Ok in H as (_ & H1%check_Ok & H).
    apply bind_Ok in H as (core & Hc%core_symbol_Ok & H). destruct Hc as [H2 ->].
    apply bind_Ok in H as (_ & H3%check_Ok%Z.eqb_eq & H).
    apply bind_Ok in H as (_ & H4%check_Ok%Z.leb_le & H).
    apply bind_Ok in H as (u1 & Hu1 & H). apply bind_Ok in H as (_ & H5%check_Ok%Z.leb_le & H).
    apply bind_Ok in H as (u2 & Hu2 & [= <-]).
    assert (Hval : forall old new u e1 e2,
      (if (old =? 0) || (current_time_point c <? old) then
         ensure current_time_point c <? new else e1; mret new
       else ensure new =? old else e2; mret old) = Ok u -> u = new).
    { intros old new u e1 e2 Hx. destruct ((old =? 0) || (current_time_point c <? old)); apply bind_Ok in Hx as (x & Hx & [= <-]); [done|].
      by apply check_Ok, Z.eqb_eq in Hx. }
    pose proof (Hval _ _ _ _ _ Hu1). pose proof (Hval _ _ _ _ _ Hu2). subst u1 u2.
    apply may_set_spec, Hset in Hu1. apply may_set_spec, Hset in Hu2. done.
  - intros (H1 & H2 & H3 & H4 & Hu1%Hset & H5 & Hu2%Hset & ->). rewrite H1.
    cbn [check mbind result_bind].
    rewrite (proj2 (core_symbol_Ok g _) (conj H2 eq_refl)). cbn [mbind result_bind].
    rewrite (proj2 (Z.eqb_eq _ _) H3), (proj2 (Z.leb_le _ _) H4). cbn [check mbind result_bind].
    rewrite (proj2 (may_set_spec c (election_activated_time g) t1 _ _) Hu1). cbn [mbind result_bind].
    rewrite (proj2 (Z.leb_le _ _) H5). cbn [check mbind result_bind].
    rewrite (proj2 (may_set_spec c (reward_started_time g) t2 _ _) Hu2). done.
Qed.

(** ** Gas *)

(** Buying gas.  [buygas] succeeds exactly when the payer signed, the quantity is a positive amount of the core token, the
    receiver exists, the gas account is on neither side, and the receiver's gas stays
    within 64 bits; the quantity is transferred to flon.gas and the receiver's gas limit
    grows by exactly its amount. *)
Theorem buygas_exact c g payer receiver q es :
  is_i64 (amount q) ->
  let old := (get_resource_limits c receiver).1 in
  let unlimited := (get_resource_limits c receiver).2 in
  is_u64 old ->
  buygas c g payer receiver q = Ok es <->
  has_auth c payer = true /\ is_init g = true /\ asset_symbol q = asset_symbol (total_vote_stake g) /\
  0 < amount q /\ is_account c receiver = true /\ payer <> gas_account /\ receiver <> gas_account /\
  old + amount q <= uint64_max /\
  es = [send token_account [active_of payer; active_of gas_account]
          (token_transfer payer gas_account q "buy gas");
        SetResourceLimits receiver (old + amount q) unlimited].
Proof.
  intros Hq old unlimited Hold. unfold buygas, require_auth.
  assert (Hlim : get_resource_limits c receiver = (old, unlimited)) by apply surjective_pairing.
  rewrite Hlim. unfold_ints. split.
  - intros H. apply bind_Ok in H as (_ & H1%check_Ok & H).
    apply bind_Ok in H as (core & Hc%core_symbol_Ok & H). destruct Hc as [H2 ->].
    apply bind_Ok in H as (_ & H3%check_Ok%Z.eqb_eq & H).
    apply bind_Ok in H as (_ & H4%check_Ok%Z.ltb_lt & H).
    apply bind_Ok in H as (_ & H5%check_Ok & H).
    apply bind_Ok in H as (_ & H6%check_Ok & H). apply andb_true_iff in H6 as [H6 H7].
    apply negb_true_iff, Z.eqb_neq in H6, H7.
    apply bind_Ok in H as (_ & H8%check_Ok%Z.leb_le & [= <-]).
    rewrite !u64_id in * by (rewrite ?u64_id; unfold_ints; lia). split_and!; try done. lia.
  - intros (H1 & H2 & H3 & H4 & H5 & H6 & H7 & H8 & ->). rewrite H1, H5.
    rewrite (proj2 (core_symbol_Ok g _) (conj H2 eq_refl)). cbn [check mbind result_bind].
    rewrite (proj2 (Z.eqb_eq _ _) H3), (proj2 (Z.ltb_lt _ _) H4).
    rewrite !(proj2 (Z.eqb_neq _ gas_account)) by done. cbn [check mbind result_bind negb andb].
    rewrite !u64_id by (rewrite ?u64_id; unfold_ints; lia).
    rewrite (proj2 (Z.leb_le _ _)) by lia. done.
Qed.

(** ** Initialisation *)

(** Initialised once.  Once initialised, the contract keeps its core symbol through
    every successful action, and [init] fails. *)
Theorem core_symbol_fixed e o s s' es g :
  reachable s -> global s = Some g -> is_init g = true -> op_ok (e, o) -> holders_quiet e ->
  exec e o s = Ok (s', es) ->
  (exists g', global s' = Some g' /\
     asset_symbol (total_vote_stake g') = asset_symbol (total_vote_stake g)) /\
  forall v core, o <> Init v core.
Proof.
  intros Hr Hg Hini Hop Hq H. destruct (reachable_ok Hmem s Hr) as (n & Hn & Hinv).
  assert (Hglob : exists g', global s' = Some g').
  { apply sys_exec_Ok in H as (g1 & s1 & _ & _ & _ & _ & [E|(_ & _ & E & _)]); rewrite E; by eexists. }
  destruct Hglob as [g' Hg']. split.
  - exists g'. split; [done|]. destruct (Z.eqb_spec (registers o) 0) as [E|E].
    + destruct (exec_step Hmem n e o s s' es) as (_ & _ & _ & Hc); try done; [lia|lia|].
      specialize (Hc g Hg Hini). unfold stored, core_of in Hc. by rewrite Hg' in Hc.
    + destruct o; try done. unfold exec, loaded in H. rewrite Hg in H. simpl in H.
      apply bind_Ok in H as ([[g1 s1] es1] & H & Ht). apply bind_Ok in H as ([f es2] & _ & [= <- <- <-]).
      apply bind_Ok in Ht as (_ & _ & [= <- _]). simpl in Hg'. by injection Hg' as <-.
  - intros v core ->. unfold exec, loaded in H. rewrite Hg in H. simpl in H.
    apply bind_Ok in H as ([[g1 s1] es1] & H & _). apply bind_Ok in H as ([g2 es2] & H & _).
    unfold init in H. do 2 apply bind_Ok in H as (_ & _ & H).
    apply bind_Ok in H as (_ & Hu%check_Ok & _). apply negb_true_iff in Hu.
    unfold is_init in Hini. congruence.
Qed.
End econ.

(** ** Examples *)

Lemma setparams_decodes_witness :
  exists g' b, setparams (sys_ctx t0) (stored state1) (BlockchainParametersV1 ex_parameters (Some 7))
      = Ok (g', [SetParametersPacked b]) /\
    exists l, parse_parameters ref_unpack b = Some l /\ length l = 22%nat.
Proof.
  destruct (setparams (sys_ctx t0) (stored state1) (BlockchainParametersV1 ex_parameters (Some 7)))
    as [[g' es]|] eqn:E; [|vm_compute in E; discriminate].
  assert (Hu : forall i v rest, ref_unpack i (@pack_parameter ref_serializer i v ++ rest) =
    Some (v, rest)) by reflexivity.
  destruct (setparams_decodes ref_unpack (sys_ctx t0) (stored state1)
    (BlockchainParametersV1 ex_parameters (Some 7)) g' es Hu E)
    as (_ & _ & _ & b & He & Hp).
  exists g', b. subst es. split; [reflexivity|]. eexists. split; [exact Hp|]. reflexivity.
Defined.

Lemma wasmcfg_decodes_witness :
  exists b, wasmcfg (sys_ctx t0) (name_lit "high") = Ok [SetWasmParametersPacked b] /\
    parse_words 12 b = Some (0 :: wasm_words high_limits).
Proof.
  destruct (wasmcfg (sys_ctx t0) (name_lit "high")) as [es|] eqn:E;
    [|vm_compute in E; discriminate].
  destruct (proj1 (wasmcfg_decodes _ _ _) E) as (_ & limits & [[[H|H] _]|[_ ->]] & b & -> & _ & Hb);
    [vm_compute in H; discriminate..|].
  exists b. by split.
Defined.

Lemma bidname_exact_witness :
  exists nm es, bidname (sys_ctx (sec 30)) (loaded (ex_env (sec 30)) state0) (names state0) bob
      premium (tokens 70) = Ok (nm, es) /\
    exists b, bids (names state0) !! premium = Some b /\ high_bid b + Z.quot (high_bid b) 10 < 70.
Proof.
  destruct (bidname (sys_ctx (sec 30)) (loaded (ex_env (sec 30)) state0) (names state0) bob
    premium (tokens 70)) as [[nm es]|] eqn:E; [|vm_compute in E; discriminate].
  exists nm, es. split; [reflexivity|].
  apply (bidname_exact ref_disengaged (ex_env (sec 30)) state0 bob premium (tokens 70) nm es reach0)
    in E as (_ & _ & _ & _ & _ & H & _); [|vm_compute; discriminate].
  eexists. split; [vm_compute; reflexivity|]. apply H. vm_compute. reflexivity.
Defined.


Lemma block_reward_halves_witness :
  is_ok (pay_block (loaded (ex_env (sec 30)) state1) (voting state1) prod1
    (sec (5 * 365 * day + 30))) = true /\
  is_ok (pay_block (loaded (ex_env (sec 30)) state1) (voting state1) prod1
    (sec (64 * 5 * 365 * day + 30))) = false.
Proof.
  set (i := default producer_info_default (producers (voting state1) !! prod1)).
  assert (Hi : producers (voting state1) !! prod1 = Some i) by (vm_compute; reflexivity).
  assert (Hs : reward_started_time (loaded (ex_env (sec 30)) state1) = sec 10) by (vm_compute; reflexivity).
  assert (H0 : reward_started_time (loaded (ex_env (sec 30)) state1) <> 0)
    by (rewrite Hs; vm_compute; discriminate).
  assert (H1 : reward_started_time (loaded (ex_env (sec 30)) state1) <= sec (5 * 365 * day + 30))
    by (rewrite Hs; vm_compute; discriminate).
  assert (H2 : reward_started_time (loaded (ex_env (sec 30)) state1) <= sec (64 * 5 * 365 * day + 30))
    by (rewrite Hs; vm_compute; discriminate).
  split.
  - destruct (block_reward_halves ref_disengaged (ex_env (sec 30)) state1 prod1 i
      (sec (5 * 365 * day + 30)) reach1 Hi H0 H1) as (H & _ & _).
    rewrite H; [reflexivity|]. rewrite Hs. vm_compute. discriminate.
  - destruct (block_reward_halves ref_disengaged (ex_env (sec 30)) state1 prod1 i
      (sec (64 * 5 * 365 * day + 30)) reach1 Hi H0 H2) as (_ & _ & H).
    apply H. rewrite Hs. vm_compute. discriminate.
Defined.

Lemma buygas_exact_witness :
  exists es, buygas (sys_ctx (sec 30)) (loaded (ex_env (sec 30)) state1) alice bob (tokens 7) = Ok es /\
    transfers_of es = [(alice, gas_account, tokens 7)].
Proof.
  destruct (buygas (sys_ctx (sec 30)) (loaded (ex_env (sec 30)) state1) alice bob (tokens 7))
    as [es|] eqn:E; [|vm_compute in E; discriminate].
  exists es. split; [reflexivity|].
  apply buygas_exact in E as (_ & _ & _ & _ & _ & _ & _ & _ & ->);
    [reflexivity|split; vm_compute; discriminate|split; vm_compute; discriminate].
Defined.

Lemma core_symbol_fixed_witness :
  exists s' es, exec (ex_env (sec 30)) (Addvote bob (tokens 5)) state1 = Ok (s', es) /\
    exists g', System.global s' = Some g' /\ asset_symbol (total_vote_stake g') = ref_symbol.
Proof.
  destruct (exec (ex_env (sec 30)) (Addvote bob (tokens 5)) state1) as [[s' es]|] eqn:E;
    [|vm_compute in E; discriminate].
  exists s', es. split; [reflexivity|].
  destruct (ex_env_ok (sec 30) (Addvote bob (tokens 5))) as [H1 H2];
    [split; vm_compute; discriminate|].
  assert (Hg : System.global state1 = Some (stored state1)) by (vm_compute; reflexivity).
  destruct (core_symbol_fixed ref_disengaged (ex_env (sec 30)) (Addvote bob (tokens 5)) state1 s' es
    (stored state1) reach1 Hg ltac:(vm_compute; reflexivity) H1 H2 E) as [(g' & Hg' & Hc) _].
  exists g'. split; [exact Hg'|]. rewrite Hc. vm_compute. reflexivity.
Defined.
