(* ===== verification/VoteBook.v ===== *)
(** * The vote book

    flon.system ([voters] in [flon.system.hpp]) and flon.reward ([voters] in
    [flon.reward.db.hpp]) each keep who votes for whom with how much.  Here is the book both
    implement, and what every action of either contract means on it. *)
From S2P Require Import Prelude Cdt CdtRef SystemData.
From S2P Require Voting VotingProps Reward RewardInv RewardProps.
From Stdlib Require Import ZArith Lia String.
From stdpp Require Import base tactics numbers list gmap.
Open Scope Z_scope.

(** ** The book *)

(** Votes and voted producers, per voter *)
Abbreviation book := (gmap name (Z * list name)).
Definition entry (b : book) (k : name) : Z * list name := default (0, []) (b !! k).
Definition add_votes (k : name) (d : Z) (b : book) : book :=
  <[k := ((entry b k).1 + d, (entry b k).2)]> b.
Definition revote (k : name) (ps : list name) (b : book) : book :=
  <[k := ((entry b k).1, ps)]> b.

(** The votes a producer has in the book *)
Definition backing (p : name) (e : Z * list name) : Z :=
  if bool_decide (p ∈ e.2) then e.1 else 0.
Definition votes_in (b : book) (p : name) : Z := msum (fun _ e => backing p e) b.

(** What the two contracts store *)
Definition system_entry (v : voter_info) : Z * list name := (v_votes v, v_producers v).
Definition system_book (st : Voting.state) : book := system_entry <$> Voting.voters st.
Definition reward_entry (v : Reward.voter) : Z * list name :=
  (Reward.v_votes v, (Reward.v_producers v).*1).
Definition reward_book (st : Reward.state) : book := reward_entry <$> Reward.voters st.

Lemma msum_fmap {V W} (f : name -> W -> Z) (g : V -> W) (m : gmap name V) :
  msum f (g <$> m) = msum (fun k v => f k (g v)) m.
Proof.
  induction m as [|k v m Hk IH] using map_ind; [done|].
  rewrite fmap_insert, !msum_insert_None by (rewrite ?lookup_fmap, Hk; done). by rewrite IH.
Qed.

(** ** flon.system *)

Section system.
Context {cdt : Cdt}.

Lemma entry_system st k : entry (system_book st) k = system_entry (VotingProps.voter_at (Voting.voters st) k).
Proof.
  unfold entry, system_book, VotingProps.voter_at. rewrite lookup_fmap.
  by destruct (Voting.voters st !! k).
Qed.

Lemma addvote_book g st k n :
  system_book (VotingProps.addvote_post g st k n).2 = add_votes k n (system_book st).
Proof.
  unfold add_votes. rewrite entry_system. unfold system_book. simpl. by rewrite fmap_insert.
Qed.

Lemma subvote_book c g st k q :
  system_book (VotingProps.subvote_post c g st k q).2 = add_votes k (- amount q) (system_book st).
Proof.
  unfold add_votes. rewrite entry_system. unfold system_book. simpl. by rewrite fmap_insert.
Qed.

Lemma voteproducer_book c st k v ps :
  Voting.voters st !! k = Some v ->
  system_book (VotingProps.voteproducer_post c st k v ps) = revote k ps (system_book st).
Proof.
  intros Hk. unfold revote. rewrite entry_system. unfold VotingProps.voter_at, system_book.
  rewrite Hk. simpl. by rewrite fmap_insert.
Qed.

(** A producer's votes are those in the book. *)
Lemma system_votes_in g st p :
  VotingProps.inv g st ->
  default 0 (total_votes <$> Voting.producers st !! p) = votes_in (system_book st) p.
Proof.
  intros []. unfold votes_in, system_book. rewrite msum_fmap.
  change (default 0 (total_votes <$> Voting.producers st !! p) =
    VotingProps.votes_for (Voting.voters st) p).
  destruct (Voting.producers st !! p) as [i|] eqn:E; simpl; [by apply vi_producers|].
  symmetry. unfold VotingProps.votes_for. rewrite <- (msum_zero (Voting.voters st)).
  apply msum_ext. intros k v Hk. unfold VotingProps.stake_for. case_bool_decide as Hp; [|done].
  apply (VotingProps.vo_registered _ _ _ (vi_voters k v Hk)) in Hp. rewrite E in Hp.
  by destruct Hp.
Qed.
End system.

(** ** flon.reward *)

Section reward.
Context {cdt : Cdt} {laws : CdtLaws}.

Lemma entry_reward st k :
  entry (reward_book st) k =
  reward_entry (RewardInv.voter_at (Reward.core_symbol st) (Reward.voters st) k).
Proof.
  unfold entry, reward_book, RewardInv.voter_at. rewrite lookup_fmap.
  by destruct (Reward.voters st !! k).
Qed.

Lemma change_vote_book c st k n (adding : bool) st' :
  RewardInv.inv st -> RewardProps.initialised st -> indeterminate_i64 c = 0 -> is_i64 n ->
  Reward.change_vote c st k n adding = Ok st' ->
  reward_book st' = add_votes k (if adding then n else - n) (reward_book st).
Proof.
  intros Hinv Hini Hind Hn H. rewrite RewardProps.change_vote_eq in H by done.
  repeat (apply bind_Ok in H as (? & _ & H)). injection H as <-.
  unfold add_votes. rewrite entry_reward. unfold reward_book. simpl. rewrite fmap_insert.
  unfold reward_entry at 1. simpl. by rewrite RewardInv.settled_keys.
Qed.

Lemma claim_book c st k st' es :
  RewardInv.inv st -> RewardProps.initialised st ->
  Reward.claim_rewards c st k = Ok (st', es) -> reward_book st' = reward_book st.
Proof.
  intros Hinv Hini H. rewrite RewardProps.claim_rewards_eq in H by done.
  destruct (Reward.voters st !! k) as [v|] eqn:Hk; [|done].
  apply bind_Ok in H as (_ & _ & [= <- _]). unfold RewardProps.claim_post, reward_book.
  set (q := if 0 <? Reward.v_votes v then _ else _).
  assert (Hq : (Reward.v_producers q.1).*1 = (Reward.v_producers v).*1).
  { unfold q. destruct (0 <? _); [|done]. simpl. apply RewardInv.settled_keys. }
  destruct q as [v1 tbl1]. simpl in *. rewrite fmap_insert. unfold reward_entry at 1. simpl.
  rewrite Hq. apply insert_id. by rewrite lookup_fmap, Hk.
Qed.

(** What an action of flon.reward means *)
Definition reward_meaning (o : RewardProps.op) (b : book) : book :=
  match o with
  | RewardProps.op_addvote k n => add_votes k n b
  | RewardProps.op_subvote k n => add_votes k (- n) b
  | RewardProps.op_voteproducer k ps => revote k ps b
  | _ => b
  end.

Lemma reward_exec_book c o st st' es :
  RewardInv.inv st -> RewardProps.op_ok (c, o) -> RewardProps.exec c o st = Ok (st', es) ->
  reward_book st' = reward_meaning o (reward_book st).
Proof.
  intros Hinv [Hind Hty] H.
  destruct o as [core|p|k n|k n|k ps|k|cl k|from to q memo]; simpl in *.
  - unfold Reward.init in H. do 3 apply bind_Ok in H as (? & _ & H). by injection H as <- _.
  - unfold Reward.regproducer in H. do 3 apply bind_Ok in H as (? & _ & H).
    apply bind_Ok in H as ([tbl ?] & _ & H). by injection H as <- _.
  - apply bind_Ok in H as (u & Hini%RewardProps.check_init_Ok & H).
    apply bind_Ok in H as (s1 & H & [= <- _]). by eapply (change_vote_book c st k n true).
  - apply bind_Ok in H as (u & Hini%RewardProps.check_init_Ok & H).
    apply bind_Ok in H as (s1 & H & [= <- _]). by eapply (change_vote_book c st k n false).
  - assert (Hini : RewardProps.initialised st).
    { unfold Reward.voteproducer in H. apply bind_Ok in H as (u & H & _).
      by eapply RewardProps.check_init_Ok. }
    rewrite RewardProps.voteproducer_eq in H by done.
    do 4 apply bind_Ok in H as (? & _ & H). injection H as <- _.
    unfold revote. rewrite entry_reward. unfold reward_book. simpl. rewrite fmap_insert.
    unfold reward_entry at 1. simpl. by rewrite RewardProps.revoted_keys.
  - apply bind_Ok in H as (u & Hini%RewardProps.check_init_Ok & H).
    apply bind_Ok in H as (_ & _ & H). by eapply claim_book.
  - apply bind_Ok in H as (u & Hini%RewardProps.check_init_Ok & H).
    apply bind_Ok in H as (_ & _ & H). by eapply claim_book.
  - unfold Reward.ontransfer in H. destruct (_ && _ && _ && _); [|by injection H as <- _].
    do 6 apply bind_Ok in H as (? & _ & H). by injection H as <- _.
Qed.

Lemma reward_votes_in st p :
  RewardInv.inv st ->
  default 0 (Reward.votes <$> Reward.producers st !! p) = votes_in (reward_book st) p.
Proof.
  intros Hinv. pose proof (RewardInv.inv_rows _ _ _ _ (RewardInv.inv_core _ Hinv) p) as Hrow.
  apply Reward.ro_votes in Hrow. simpl in Hrow. rewrite Z.add_0_r in Hrow.
  unfold votes_in, reward_book. rewrite msum_fmap.
  transitivity (RewardInv.votes_for (Reward.voters st) p).
  - rewrite <- Hrow. unfold Reward.row_at. by destruct (Reward.producers st !! p).
  - unfold RewardInv.votes_for. apply msum_ext. intros k v _. unfold RewardInv.stake_of, backing.
    destruct (smap_get p (Reward.v_producers v)) as [i|] eqn:E; simpl.
    + rewrite bool_decide_true; [done|]. apply smap_get_elem in E.
      by apply (list_elem_of_fmap_2 fst) in E.
    + by rewrite bool_decide_false by by apply smap_get_None.
Qed.
End reward.
