(* ===== verification/Chain.v ===== *)
(** * The contracts together

    flon.system, flon.token and flon.reward as one state, and a transaction's action
    with everything it sets off: the notification of flon.reward by a transfer, and the
    inline actions, each run on its contract with the authorisations it carries, depth first in the order they
    were sent.  A transfer also notifies the two accounts it is between; a contract there that is none of
    the three may refuse it, as [reject_all] does.  Any failure undoes the whole transaction.  A deferred transaction
    ([voterefund]) comes later, as an action of its own. *)
From S2P Require Import Prelude Cdt CdtRef SystemData.
From S2P Require Token Reward RewardProps Finalizer VotingProps System.
From S2P Require Import Admin.
From Stdlib Require Import ZArith Lia String.
From stdpp Require Import base tactics numbers list gmap.
Open Scope Z_scope.

Record chain : Type := Chain {
  sys : System.sys;
  token : Token.state;
  reward : Reward.state;
}.
Definition init_chain : chain := Chain System.init_sys Token.init_state Reward.init_state.

(** An action on one of the contracts.  [RewardProps.op_ontransfer] is not an action:
    flon.reward is notified of transfers. *)
Inductive msg : Type :=
| ToSystem (o : System.op)
| ToToken (o : Token.op)
| ToReward (o : RewardProps.op).

(** What the host knows besides the clock, the accounts and the authorisations *)
Record host : Type := Host {
  parameters : blockchain_parameters;
  addresses : list name -> list name -> Z * Z;
  (* the contract on an account, if there is one, does not abort when it is notified of
     [transfer(from, to, quantity, memo)] *)
  accepts : name -> name -> name -> asset -> string -> bool;
}.

Section chain.
Context {cdt : Cdt} {bls : Finalizer.Bls} {memory : Finalizer.Memory} {serializer : Serializer}.

(** The account the system contract runs on is the one flon.reward calls
    [SYSTEM_CONTRACT]. *)
Definition system_account : name := Reward.SYSTEM_CONTRACT.
Definition account_of (m : msg) : name :=
  match m with
  | ToSystem _ => system_account | ToToken _ => token_account | ToReward _ => reward_account
  end.

(** The context of an action that carries the authorisations [auth], in the transaction of [c] *)
Definition with_auth (self first : name) (auth : name -> bool)
    (perm : permission_level -> bool) (c : ctx) : ctx := {|
  get_self := self;
  get_first_receiver := first;
  has_auth := auth;
  has_permission := perm;
  is_account := is_account c;
  current_time_point := current_time_point c;
  get_resource_limits := get_resource_limits c;
  accepts_producers := accepts_producers c;
  indeterminate_i64 := indeterminate_i64 c;
|}.
Definition inline_ctx (account : name) (auth : list permission_level) (c : ctx) : ctx :=
  with_auth account account (fun n => bool_decide (n ∈ actor <$> auth))
    (fun pl => bool_decide (pl ∈ auth)) c.
(** A notification runs with the authorisations of the action. *)
Definition notified_ctx (receiver : name) (c : ctx) : ctx :=
  with_auth receiver (get_first_receiver c) (has_auth c) (has_permission c) c.

(** The action of one of the three contracts that an inline action is, if any *)
Definition decode_action (a : action) : option msg :=
  let '(Action account auth cl) := a in
  let to (n : name) (m : msg) := if account =? n then Some m else None in
  match cl with
  | token_transfer from dest q memo => to token_account (ToToken (Token.op_transfer from dest q memo))
  | token_open owner s payer => to token_account (ToToken (Token.op_open owner s payer))
  | reward_init core => to reward_account (ToReward (RewardProps.op_init core))
  | reward_regproducer p => to reward_account (ToReward (RewardProps.op_regproducer p))
  | reward_addvote k n => to reward_account (ToReward (RewardProps.op_addvote k n))
  | reward_subvote k n => to reward_account (ToReward (RewardProps.op_subvote k n))
  | reward_voteproducer k ps => to reward_account (ToReward (RewardProps.op_voteproducer k ps))
  | system_logsystemfee p q memo => to system_account (ToSystem (System.Logsystemfee p q memo))
  | system_voterefund k => to system_account (ToSystem (System.Voterefund k))
  | system_newaccount _ _ _ _ | raw_call _ _ => None
  end.

(** The action itself *)
Definition apply_msg (h : host) (c : ctx) (m : msg) (ch : chain) : result (chain * list effect) :=
  match m with
  | ToSystem o =>
      '(s, es) ← System.exec (System.Env c (parameters h) (token ch) (reward ch) (addresses h)) o (sys ch);
      mret (Chain s (token ch) (reward ch), es)
  | ToToken o =>
      '(t, es) ← Token.exec c o (token ch);
      mret (Chain (sys ch) t (reward ch), es)
  | ToReward o =>
      ensure match o with RewardProps.op_ontransfer _ _ _ _ => false | _ => true end
        else "unknown action";
      '(r, es) ← RewardProps.exec c o (reward ch);
      mret (Chain (sys ch) (token ch) r, es)
  end.

(** Accounts of the system that do not react to transfers: [system_contract] and [token] have no
    handler for notifications, and the others only hold tokens, without a contract. *)
Definition without_handler : list name :=
  [system_account; token_account; vote_account; names_account; fees_account; gas_account].
Definition accepts_transfer (h : host) (n from dest : name) (q : asset) (memo : string) : bool :=
  bool_decide (n ∈ without_handler) || accepts h n from dest q memo.

(** [require_recipient] in a transfer: flon.reward has a handler for it, and so may any account
    that is not the system's; its contract is notified and can abort the transaction. *)
Definition notify (h : host) (c : ctx) (m : msg) (ch : chain) (e : effect) : result chain :=
  match m, e with
  | ToToken (Token.op_transfer from dest q memo), RequireRecipient n =>
      if n =? reward_account then
        '(r, _) ← RewardProps.exec (notified_ctx n c)
          (RewardProps.op_ontransfer from dest q memo) (reward ch);
        mret (Chain (sys ch) (token ch) r)
      else
        ensure accepts_transfer h n from dest q memo else "aborted by the notified contract";
        mret ch
  | _, _ => mret ch
  end.

(** An inline action of one of the contracts, run by [go] *)
Definition send_inline (go : ctx -> msg -> chain -> result chain) (c : ctx) (ch : chain)
    (e : effect) : result chain :=
  match e with
  | Send a =>
      match decode_action a with
      | Some m => go (inline_ctx (act_account a) (act_authorization a) c) m ch
      | None => Ok ch
      end
  | _ => Ok ch
  end.

(** An action, its notifications, and its inline actions, at most [depth] deep
    ([max_inline_action_depth] of the host) *)
Fixpoint process (depth : nat) (h : host) (c : ctx) (m : msg) (ch : chain) : result chain :=
  match depth with
  | O => Err "max inline action depth per transaction reached"
  | S depth' =>
      '(ch1, es) ← apply_msg h c m ch;
      ch2 ← fold_res (notify h c m) ch1 es;
      fold_res (send_inline (process depth' h) c) ch2 es
  end.

(** ** Transactions *)

Record tx : Type := Tx { tx_host : host; tx_ctx : ctx; tx_depth : nat; tx_msg : msg }.

Definition run_tx (ch : chain) (t : tx) : result chain :=
  process (tx_depth t) (tx_host t) (tx_ctx t) (tx_msg t) ch.
Definition run (l : list tx) (ch : chain) : result chain := fold_res run_tx ch l.

Definition msg_registers (m : msg) : Z :=
  match m with ToSystem o => match o with System.Regfinkey _ _ _ => 1 | _ => 0 end | _ => 0 end.

(** The accounts that hold what voters, bidders and reward claimants are owed *)
Definition holders : list name := [vote_account; names_account; reward_account].

(** The quantities and votes are [int64_t]s ([Abi.v] shows that all data the contracts read is typed). *)
Definition msg_typed (m : msg) : Prop :=
  match m with
  | ToSystem (System.Subvote _ q | System.Addvote _ q | System.Bidname _ _ q
      | System.Cfgelection _ _ q) => is_i64 (amount q)
  | ToSystem _ => True
  | ToToken o => Token.op_typed o
  | ToReward (RewardProps.op_addvote _ n | RewardProps.op_subvote _ n) => is_i64 n
  | ToReward _ => True
  end.

(** What a transaction comes with: arguments in their types, the contract's own account as
    receiver, and no signature of the accounts that only the contracts move ([holders]),
    and the system account when it calls flon.reward. *)
Record tx_ok (t : tx) : Prop := {
  tx_self : get_self (tx_ctx t) = account_of (tx_msg t);
  tx_first : get_first_receiver (tx_ctx t) = account_of (tx_msg t);
  tx_quiet : forall a, a ∈ holders -> has_auth (tx_ctx t) a = false;
  tx_memory : indeterminate_i64 (tx_ctx t) = 0;
  tx_vectors : forall l m, let '(a, b) := addresses (tx_host t) l m in
    VotingProps.disjoint_at a l b m;
  tx_typed : msg_typed (tx_msg t);
  tx_foreign :
    match tx_msg t with ToReward _ => has_auth (tx_ctx t) system_account = false | _ => True end;
}.
Definition txs_ok (l : list tx) : Prop :=
  Forall tx_ok l /\ foldr (fun t n => msg_registers (tx_msg t) + n) 0 l < 2 ^ 32 - 1.
End chain.
