(* ===== verification/ChainSteps.v ===== *)
(** * The contracts together: what flon.system does to votes and stakes

    Every action of flon.system either leaves the votes alone and sends no report of votes,
    or is one of the four vote actions, whose inline actions are stated.  What it transfers
    are core tokens, and never those of flon.reward. *)
From S2P Require Import Prelude Table Cdt CdtRef SystemData NameBid.
From S2P Require Import Finalizer FinalizerProps Voting VotingProps Election.
From S2P Require Token Reward RewardInv RewardProps BlockInfo AuthChange.
From S2P Require Import ProducerPay Admin System SystemInv VoteBook Chain.
From Stdlib Require Import ZArith Lia String.
From stdpp Require Import base tactics numbers list gmap.
Open Scope Z_scope.

Section calm.
Context {cdt : Cdt} {bls : Bls} {memory : Memory} {serializer : Serializer}.

(** ** Actions of flon.system that leave votes alone *)

(** An inline action that reports no vote, and transfers only as [pays] says *)
Definition calm_action (pays : name -> asset -> Prop) (a : action) : Prop :=
  match act_call a with
  | reward_addvote _ _ | reward_subvote _ _ | reward_voteproducer _ _ | system_voterefund _ => False
  | token_transfer from _ q _ => act_account a = token_account /\ pays from q
  | system_logsystemfee _ _ _ => actor <$> act_authorization a = [system_account]
  | _ => True
  end.
Definition calm_effect (pays : name -> asset -> Prop) (e : effect) : Prop :=
  match e with Send a => calm_action pays a | _ => True end.

(** Tokens of symbol [s], and not those of flon.reward *)
Definition core_payment (s : symbol) (from : name) (q : asset) : Prop :=
  from <> reward_account /\ asset_symbol q = s.

Definition votes_op (o : System.op) : bool :=
  match o with Voteproducer _ _ | Addvote _ _ | Subvote _ _ | Voterefund _ => true | _ => false end.

Record calm_step (g : eosio_global_state) (s s' : System.sys) (es : list effect) : Prop := {
  cs_voters : voters (voting s') = voters (voting s);
  cs_calm : Forall (calm_effect (core_payment (core_of g))) es;
}.

Context {laws : CdtLaws} (Hmem : disengaged = []).

Lemma calm_refl g s es : Forall (calm_effect (core_payment (core_of g))) es -> calm_step g s s es.
Proof. by split. Qed.

(** Effects that are not inline actions *)
Lemma calm_sendless pays es :
  Forall (fun e => match e with Send _ => False | _ => True end) es -> Forall (calm_effect pays) es.
Proof. intros H. eapply Forall_impl; [exact H|]. by intros []. Qed.

Lemma calm_register c g s reg p au u l r v es :
  register_producer c g (voting s) reg p au u l r = Ok (v, es) ->
  calm_step g s (with_voting v s) es.
Proof.
  intros H. unfold register_producer in H. do 2 apply bind_Ok in H as (? & _ & H).
  apply bind_Ok in H as (core & _ & H).
  assert (Hes : forall b : bool, Forall (calm_effect (core_payment (core_of g))) (if b then [] else
    [send reward_account [active_of p] (reward_regproducer p)]))
    by (intros []; repeat constructor).
  destruct (producers (voting s) !! p).
  - injection H as <- <-. by split.
  - apply bind_Ok in H as (? & _ & H). apply bind_Ok in H as (? & _ & [= <- <-]). by split.
Qed.

Lemma names_vote : names_account <> vote_account.
Proof. intros E. by apply (@vote_names cdt laws). Qed.

Lemma names_reward : names_account <> reward_account.
Proof. by apply (names_differ 6 5). Qed.

Lemma calm_elected pays c g v fin t g' f es :
  update_elected_producers c g v fin t = (g', f, es) ->
  total_vote_stake g' = total_vote_stake g /\ Forall (calm_effect pays) es.
Proof.
  intros H. unfold update_elected_producers, set_proposed_finalizers in H.
  repeat case_match; simplify_eq; by repeat constructor.
Qed.

Lemma calm_close c g nm t g' nm' es :
  get_self c = system_account ->
  close_highest_bid c g nm t = Ok (g', nm', es) ->
  total_vote_stake g' = total_vote_stake g /\ Forall (calm_effect (core_payment (core_of g))) es.
Proof.
  intros Hself H. unfold close_highest_bid in H. repeat case_match; try (by injection H as <- _ <-).
  apply bind_Ok in H as (core & [_ ->]%core_symbol_Ok & H).
  apply bind_Ok in H as (fee & (_ & _ & ->)%law_asset_ctor & [= <- _ <-]).
  split; [done|]. constructor; [split; [done|split; [exact names_reward|done]]|]. constructor; [|done].
  simpl. by rewrite Hself.
Qed.

Lemma calm_onblock c g s t p id g' s' es :
  get_self c = system_account -> onblock c g s t p id = Ok (g', s', es) ->
  calm_step g s s' es /\ core_of g' = core_of g.
Proof.
  intros Hself H. unfold onblock in H. apply bind_Ok in H as (_ & _ & H).
  apply bind_Ok in H as (b & _ & H). destruct (_ || _); [by injection H as <- <- <-|].
  apply bind_Ok in H as ([g1 v] & Hp & H).
  assert (Hv : voters v = voters (voting s) /\ core_of g1 = core_of g).
  { unfold pay_block in Hp. simpl in Hp. destruct (producers (voting s) !! p); [|by injection Hp as <- <-].
    destruct (_ && _); [|by injection Hp as <- <-]. by apply bind_Ok in Hp as (r & _ & [= <- <-]). }
  destruct Hv as (E1 & E3). unfold update_schedule in H.
  destruct (_ <? _); [|by injection H as <- <- <-].
  destruct (update_elected_producers _ _ _ _ _) as [[g2 f] es1] eqn:Eu.
  apply bind_Ok in H as ([[g3 nm] es2] & Hc & [= <- <- <-]).
  apply (calm_elected (core_payment (core_of g))) in Eu as [E4 H4]. apply calm_close in Hc as [E5 H5]; [|done].
  assert (E : core_of g2 = core_of g) by (rewrite <- E3; unfold core_of; by rewrite E4).
  rewrite E in H5. split; [split; simpl; [done|by apply Forall_app]|].
  rewrite <- E. unfold core_of. by rewrite E5.
Qed.

(** A step of other tables *)
Lemma calm_same g s s' es :
  voting s' = voting s -> Forall (calm_effect (core_payment (core_of g))) es -> calm_step g s s' es.
Proof. intros E H. split; by rewrite ?E. Qed.

Lemma calm_finality g s (r : result (Finalizer.state * list effect)) g' s' es :
  (forall f es0, r = Ok (f, es0) -> Forall (calm_effect (core_payment (core_of g))) es0) ->
  on_finality g s r = Ok (g', s', es) -> calm_step g s s' es.
Proof.
  intros Hr H. unfold on_finality in H. apply bind_Ok in H as ([f es0] & E & [= <- <- <-]).
  apply calm_same; [done|]. by eapply Hr.
Qed.

Lemma calm_propose pays f l : Forall (calm_effect pays) (set_proposed_finalizers f l).2.
Proof. unfold set_proposed_finalizers. repeat case_match; by repeat constructor. Qed.

Lemma calm_key_actions e o g s g' s' es :
  match o with Switchtosvnn | Regfinkey _ _ _ | Actfinkey _ _ | Delfinkey _ _ => True | _ => False end ->
  handler e o g s = Ok (g', s', es) -> calm_step g s s' es.
Proof.
  intros Ho H. destruct o; try done; simpl in H; revert H; apply calm_finality;
    intros f es0 H.
  - unfold switchtosvnn in H. apply bind_Ok in H as (_ & _ & H). case_match.
    do 2 apply bind_Ok in H as (_ & _ & H).
    match type of H with context [set_proposed_finalizers ?f ?l] =>
      pose proof (calm_propose (core_payment (core_of g)) f l) as Hp; destruct (set_proposed_finalizers f l) as [f1 es1] end.
    case_match. by apply bind_Ok in H as (_ & _ & [= _ <-]).
  - unfold regfinkey, insert_finalizer_key in H. ok_inv; done.
  - unfold actfinkey in H. ok_inv; try done.
    match goal with E : set_proposed_finalizers ?f ?l = _ |- _ =>
      pose proof (calm_propose (core_payment (core_of g)) f l) as Hp; by rewrite E in Hp end.
  - unfold delfinkey in H. ok_inv; done.
Qed.

(** An action that its payer authorises does not pay from flon.reward. *)
Lemma other_payer c k u :
  has_auth c reward_account = false -> require_auth c k = Ok u -> k <> reward_account.
Proof. intros Hq H%check_Ok ->. congruence. Qed.

Lemma calm_buygas c g p r q es :
  has_auth c reward_account = false -> buygas c g p r q = Ok es ->
  Forall (calm_effect (core_payment (core_of g))) es.
Proof.
  intros Hq H. unfold buygas in H. apply bind_Ok in H as (u & Hp & H).
  apply bind_Ok in H as (core & [_ ->]%core_symbol_Ok & H).
  apply bind_Ok in H as (? & Hs%check_Ok%Z.eqb_eq & H).
  do 3 apply bind_Ok in H as (? & _ & H). case_match. apply bind_Ok in H as (? & _ & [= <-]).
  constructor; [|by repeat constructor]. split; [done|split; [by eapply other_payer|done]].
Qed.

Lemma calm_bidname c g st b nn q st' es :
  has_auth c reward_account = false -> bidname c g st b nn q = Ok (st', es) ->
  Forall (calm_effect (core_payment (core_of g))) es.
Proof.
  intros Hq H. unfold bidname in H. apply bind_Ok in H as (u & Hb & H).
  eapply other_payer in Hb; [|done].
  do 5 apply bind_Ok in H as (? & _ & H). apply bind_Ok in H as (core & [_ ->]%core_symbol_Ok & H).
  apply bind_Ok in H as (? & Hs%check_Ok%Z.eqb_eq & H). apply bind_Ok in H as (? & _ & H).
  assert (Ht : forall memo, Forall (calm_effect (core_payment (core_of g)))
    [send token_account [active_of b] (token_transfer b names_account q memo)])
    by (intros memo; constructor; [by split|done]).
  destruct (NameBid.bids st !! nn).
  - do 4 apply bind_Ok in H as (? & _ & H). injection H as _ <-. apply Ht.
  - apply bind_Ok in H as (? & _ & H). injection H as _ <-. apply Ht.
Qed.

(** Every action but the four on votes *)
Lemma calm_handler n e o g s g' s' es :
  votes_op o = false -> has_auth (env_ctx e) reward_account = false ->
  get_self (env_ctx e) = system_account -> sys_ok n g s ->
  handler e o g s = Ok (g', s', es) -> calm_step g s s' es.
Proof.
  intros Hv Hq Hself Hok H.
  destruct o; simpl in Hv; try discriminate Hv;
    try (eapply calm_key_actions; [|exact H]; done); simpl in H;
    try (apply bind_Ok in H as (? & _ & [= <- <- <-]); by apply calm_refl);
    try (injection H as <- <- <-; by apply calm_refl); try discriminate H.
  all: try (by apply calm_onblock in H as [H _]).
  all: unfold only_effects, on_names, on_voting in H.
  all: apply bind_Ok in H as (r & Hr & H); repeat case_match; injection H as <- <- <-.
  all: try (unfold init, setparams, wasmcfg, setpriv, setalimits, activate, logsystemfee, cfgelection, unregprod,
      rmvproducer in Hr; ok_inv; split; by repeat constructor).
  all: try (by split).
  - apply calm_same; [done|]. unfold newaccount in Hr. ok_inv; by repeat constructor.
  - apply calm_same; [done|]. by eapply calm_buygas.
  - apply calm_same; [done|]. by eapply calm_buygas.
  - apply calm_same; [done|]. by eapply calm_bidname.
  - apply calm_same; [done|]. apply bidrefund_Ok in Hr as (rf & Hr & _ & ->).
    constructor; [|done]. split; [done|split; [exact names_reward|]].
    by destruct (ni_refunds _ _ (ok_names _ _ _ Hok) _ _ Hr).
  - unfold regproducer in Hr. do 2 apply bind_Ok in Hr as (? & _ & Hr). by eapply calm_register.
  - unfold regproducer2 in Hr. do 3 apply bind_Ok in Hr as (? & _ & Hr). by eapply calm_register.
Qed.

(** The token of symbol [s] exists. *)
Definition token_has (t : Token.state) (s : symbol) : Prop :=
  exists row, Token.stats t !! (symbol_code s, symbol_code s) = Some row /\
    asset_symbol (Token.supply row) = s.

(** Only [init] chooses the core symbol, and it checks that the token exists. *)
Lemma calm_core e o g s g' s' es :
  votes_op o = false -> get_self (env_ctx e) = system_account ->
  handler e o g s = Ok (g', s', es) ->
  core_of g' = core_of g \/
  token_has (env_token e) (core_of g') /\ forall pays, Forall (calm_effect pays) es.
Proof.
  intros Hv Hself H. destruct o; simpl in Hv; try discriminate Hv; simpl in H;
    try discriminate H; try (left; by injection H as <- _ _);
    try (left; by apply calm_onblock in H as [_ H]);
    unfold only_effects, only_check, on_names, on_voting, on_finality in H;
    apply bind_Ok in H as (r & Hr & H); repeat case_match; injection H as <- _ <-; try (by left).
  - right. unfold init in Hr. do 3 apply bind_Ok in Hr as (_ & _ & Hr).
    apply bind_Ok in Hr as (sup & Hs & Hr). apply bind_Ok in Hr as (_ & Hsym%check_Ok%Z.eqb_eq & Hr).
    do 2 apply bind_Ok in Hr as (_ & _ & Hr). injection Hr as <- <-.
    unfold Token.get_supply in Hs. apply bind_Ok in Hs as (row & Hrow%get_or_Ok & [= <-]).
    split; [by exists row|by repeat constructor].
  - left. unfold setparams in Hr. do 2 apply bind_Ok in Hr as (_ & _ & Hr). by injection Hr as <- _.
  - left. unfold cfgelection in Hr. ok_inv; done.
Qed.

(** ** What the actions of flon.system do to the book, and what they send *)

Definition system_meaning (o : System.op) (b : book) : book :=
  match o with
  | Addvote k q => add_votes k (amount q) b
  | Subvote k q => add_votes k (- amount q) b
  | Voteproducer k ps => revote k ps b
  | _ => b
  end.

Definition vote_sends (o : System.op) (s : System.sys) (es : list effect) : Prop :=
  let auth k := [active_of system_account; active_of k] in
  match o with
  | Addvote k q =>
      k <> vote_account /\ k <> reward_account /\ asset_symbol q = core_of (stored s) /\
      es = [send token_account [active_of k] (token_transfer k vote_account q "addvote");
            send reward_account (auth k) (reward_addvote k (amount q))]
  | Subvote k q =>
      exists e, es = [send reward_account (auth k) (reward_subvote k (amount q)); e] /\
        match e with Send _ => False | _ => True end
  | Voteproducer k ps => es = [send reward_account (auth k) (reward_voteproducer k ps)]
  | Voterefund k =>
      exists r, vote_refunds (voting s) !! (k, k) = Some r /\
      es = [send token_account [active_of vote_account]
        (token_transfer vote_account (r_owner r) (vote_staked r) "voterefund")]
  | _ => Forall (calm_effect (core_payment (core_of (stored s)))) es
  end.

Lemma calm_book g s s' es :
  calm_step g s s' es -> system_book (voting s') = system_book (voting s).
Proof. intros []. unfold system_book. by rewrite cs_voters0. Qed.

Lemma handler_book n e o s g' s' es :
  sys_ok n (loaded e s) s -> op_ok (e, o) -> holders_quiet e ->
  has_auth (env_ctx e) reward_account = false -> get_self (env_ctx e) = system_account ->
  handler e o (loaded e s) s = Ok (g', s', es) -> transfers_allowed es = true ->
  system_book (voting s') = system_meaning o (system_book (voting s)) /\ vote_sends o s es /\
  (votes_op o = true -> core_of g' = core_of (loaded e s)).
Proof.
  intros Hok [Hva Hty] [Hqv Hqn] Hqr Hself H Hes. pose proof (ok_voting _ _ _ Hok) as Hinv.
  destruct (votes_op o) eqn:Hv.
  2:{ apply (calm_handler n) in H; [|done..]. split_and!; [| |done].
      - apply calm_book in H. by destruct o.
      - destruct H as [_ H]. unfold core_of in H. rewrite stored_loaded in H. by destruct o. }
  destruct o; try discriminate Hv; simpl in H, Hty.
  - specialize (Hva (default [] (v_producers <$> voters (voting s) !! voter)) producers). simpl in Hva.
    destruct (vector_addresses e _ producers) as [a_old a_new].
    apply bind_Ok in H as ([v es1] & H & [= <- <- <-]).
    apply (voteproducer_Ok _ (loaded e s)) in H; [|done|by intros w Hw; rewrite Hw in Hva].
    destruct H as (_ & _ & _ & w & Hw & _ & _ & -> & ->). rewrite Hself.
    split_and!; [by apply voteproducer_book|done..].
  - apply bind_Ok in H as ([[g1 v] es1] & H & [= <- <- <-]).
    assert (Hq : amount vote_staked <= max_amount).
    { unfold addvote in H. do 5 apply bind_Ok in H as (? & _ & H).
      apply bind_Ok in H as ([? ?] & _ & [= _ _ <-]). unfold transfers_allowed in Hes.
      simpl in Hes. rewrite !andb_true_iff, Z.leb_le in Hes. tauto. }
    apply addvote_Ok in H as (Ha & _ & Hs & _ & _ & _ & [= -> ->] & ->); [|done..].
    split_and!; [apply (addvote_book (loaded e s))| |done]. simpl. rewrite Hself.
    split_and!; [congruence|congruence| |done]. rewrite Hs. unfold core_of. by rewrite stored_loaded.
  - apply bind_Ok in H as ([[g1 v] es1] & H & [= <- <- <-]).
    apply subvote_Ok in H as (_ & _ & _ & _ & _ & _ & [= -> ->] & ->); [|done..].
    split_and!; [apply (subvote_book (env_ctx e) (loaded e s))| |done]. simpl. rewrite Hself. by eexists.
  - apply bind_Ok in H as ([v es1] & H & [= <- <- <-]).
    apply voterefund_Ok in H as (r & Hr & _ & -> & ->). split_and!; [done| |done]. simpl. eauto.
Qed.

Lemma exec_core e o s s' es :
  votes_op o = false -> get_self (env_ctx e) = system_account ->
  System.exec e o s = Ok (s', es) ->
  core_of (stored s') = core_of (stored s) \/
  token_has (env_token e) (core_of (stored s')) /\ forall pays, Forall (calm_effect pays) es.
Proof.
  intros Hv Hself H. apply sys_exec_Ok in H as (g & s1 & H & _ & _ & Est & _).
  assert (Ec : core_of (stored s') = core_of g) by (unfold core_of; by rewrite Est).
  rewrite Ec. apply calm_core in H as [H|H]; [left|by right|done..].
  rewrite H. unfold core_of. by rewrite stored_loaded.
Qed.

Lemma system_exec_book n e o s s' es :
  0 <= n -> sys_inv n s -> op_ok (e, o) -> holders_quiet e ->
  has_auth (env_ctx e) reward_account = false -> get_self (env_ctx e) = system_account ->
  System.exec e o s = Ok (s', es) ->
  system_book (voting s') = system_meaning o (system_book (voting s)) /\ vote_sends o s es /\
  (votes_op o = true -> core_of (stored s') = core_of (stored s)).
Proof.
  intros Hn Hinv Hop Hq Hqr Hself H. apply sys_exec_Ok in H as (g & s1 & H & Ht & Es & Est & _).
  replace (core_of (stored s)) with (core_of (loaded e s)) by (unfold core_of; by rewrite stored_loaded).
  replace (core_of (stored s')) with (core_of g) by (unfold core_of; by rewrite Est).
  replace (voting s') with (voting s1) by (subst s'; by destruct (in_native o)).
  apply (handler_book n e o s g s1 es); [by apply loaded_ok|done..].
Qed.
End calm.
