(* ===== verification/ChainProps.v ===== *)
(** * The contracts together: the vote books agree

    Every transaction ([Chain.v]) keeps the invariants of flon.system, flon.token and
    flon.reward, and the votes that flon.system and flon.reward keep stay equal. *)
From S2P Require Import Prelude Table Cdt CdtRef SystemData NameBid.
From S2P Require Import Finalizer FinalizerProps Voting VotingProps Election.
From S2P Require Token Reward RewardInv RewardProps BlockInfo AuthChange.
From S2P Require Import ProducerPay Admin System SystemInv VoteBook Chain ChainSteps.
From Stdlib Require Import ZArith Lia String.
From stdpp Require Import base tactics numbers list gmap.
Open Scope Z_scope.

Section chain.
Context {cdt : Cdt} {bls : Bls} {memory : Memory} {serializer : Serializer}.
Context {laws : CdtLaws} (Hmem : disengaged = []).

(** ** The parts *)

Record parts (n : Z) (ch : chain) : Prop := {
  pt_ids : 0 <= n;
  pt_sys : sys_inv n (sys ch);
  pt_reward : RewardInv.inv (reward ch);
  pt_token : Token.inv (token ch);
}.

Definition core (ch : chain) : symbol := core_of (stored (sys ch)).

(** A step that leaves votes alone *)
Record untouched (ch ch' : chain) : Prop := {
  un_system : system_book (voting (sys ch')) = system_book (voting (sys ch));
  un_reward : reward_book (reward ch') = reward_book (reward ch);
  un_core : core ch' = core ch \/
    is_init (stored (sys ch)) = false /\ token_has (token ch') (core ch');
  un_tokens : forall s, token_has (token ch) s -> token_has (token ch') s;
}.

#[export] Instance untouched_preorder : PreOrder untouched.
Proof.
  split.
  - intros ch. split; try done. by left.
  - intros c1 c2 c3 [A1 A2 A4 A5] [B1 B2 B4 B5].
    assert (Hi : core c2 = core c1 -> is_init (stored (sys c2)) = is_init (stored (sys c1)))
      by (unfold core, core_of, is_init; by intros ->).
    split; try congruence; [|by auto].
    destruct A4 as [A4|[A4 A4']].
    + rewrite <- A4. destruct B4 as [B4|[B4 B4']]; [by left|right].
      split; [by rewrite <- Hi|done].
    + right. split; [done|]. destruct B4 as [->|[_ B4]]; [by apply B5|done].
Qed.

(** ** Tokens *)

Lemma transfer_facts c st from to q memo st' es :
  Token.inv st -> Token.transfer c st from to q memo = Ok (st', es) ->
  from <> to /\ asset_valid q = true /\ 0 < amount q /\ is_i64 (amount q) /\
  token_has st (asset_symbol q) /\
  Token.inv st' /\ st' = Token.transfer_post st from to q /\
  es = [RequireRecipient from; RequireRecipient to].
Proof.
  intros Hinv H.
  assert (Hq : is_i64 (amount q)).
  { unfold Token.transfer in H. do 4 apply bind_Ok in H as (? & _ & H).
    apply bind_Ok in H as (_ & [Hr _]%check_Ok%law_asset_valid & _). revert Hr. unfold_range. unfold_ints. lia. }
  assert (Hinv' : Token.inv st') by (eapply (Token.exec_inv c (Token.op_transfer from to q memo)); done).
  apply Token.transfer_Ok in H as (H1 & _ & _ & (H2 & H3 & _ & row & Hrow & Hs) & _ & H5 & ->); try done.
  split_and!; try done. by exists row.
Qed.

Lemma transfer_balance st from to q who code :
  from <> to ->
  Token.balance_of (Token.transfer_post st from to q) who code =
  Token.balance_of st who code +
  (if bool_decide (code = symbol_code (asset_symbol q))
   then (if who =? to then amount q else 0) - (if who =? from then amount q else 0) else 0).
Proof.
  intros Hne. unfold Token.transfer_post. rewrite !Token.balance_of_set.
  destruct (Z.eqb_spec who to), (Z.eqb_spec who from); repeat case_bool_decide; destruct_and?;
    subst; try done; try tauto; unfold Token.balance_of; simpl; lia.
Qed.

(** A token once created stays, with its symbol. *)
Lemma token_persists c o st st' es s :
  Token.inv st -> Token.op_typed o -> Token.exec c o st = Ok (st', es) ->
  token_has st s -> token_has st' s.
Proof.
  intros Hinv Ht H (row & Hrow & Hs). unfold token_has.
  assert (Hset : forall code row0 n,
    Token.stats st !! (code, code) = Some row0 ->
    exists row', Token.set_supply st code row0 n !! (symbol_code s, symbol_code s) = Some row' /\
      asset_symbol (Token.supply row') = s).
  { intros code row0 n H0. rewrite Token.set_supply_lookup. case_bool_decide as E; [|by eexists].
    subst code. rewrite Hrow in H0. injection H0 as ->. by eexists. }
  destruct o as [i q|to q m|q m|from to q m|owner s0 p|owner s0]; simpl in *.
  - apply Token.create_Ok in H as (_ & _ & _ & Hn & -> & _). simpl.
    rewrite lookup_insert_ne by congruence. by eexists.
  - apply Token.issue_Ok in H as (_ & row0 & H0 & _ & _ & _ & -> & _); [|done..]. by apply Hset.
  - apply Token.retire_Ok in H as (_ & row0 & H0 & _ & _ & -> & _); [|done..]. by apply Hset.
  - apply Token.transfer_Ok in H as (_ & _ & _ & _ & _ & -> & _); [|done..]. by eexists.
  - apply Token.open_Ok in H as (_ & _ & _ & -> & _); [|done]. destruct (Token.accounts st !! _); by eexists.
  - apply Token.close_Ok in H as (_ & _ & -> & _). by eexists.
Qed.

(** An inline transfer comes from the contracts, whose quantities flon.token checks. *)
Definition inline_typed (o : Token.op) : Prop :=
  match o with Token.op_transfer _ _ _ _ => True | _ => Token.op_typed o end.

Lemma token_step c o st st' es :
  Token.inv st -> inline_typed o -> Token.exec c o st = Ok (st', es) ->
  Token.op_typed o /\ Token.inv st' /\
  (forall s, token_has st s -> token_has st' s) /\
  (forall pays, Forall (calm_effect pays) es) /\
  match o with
  | Token.op_transfer _ _ q _ => asset_valid q = true /\ 0 < amount q
  | _ => es = []
  end.
Proof.
  intros Hinv Hs H.
  destruct (match o with Token.op_transfer _ _ _ _ => true | _ => false end) eqn:Ho.
  - destruct o as [| | |from to q m| |]; try discriminate Ho. simpl in *.
    apply transfer_facts in H as (H1 & H2 & H3 & H0 & _ & H4 & -> & ->); [|done].
    split_and!; try done. intros pays. by repeat constructor.
  - assert (Ht : Token.op_typed o) by by destruct o.
    pose proof (Token.exec_inv _ _ _ _ _ Hinv Ht H) as Hinv'.
    assert (Hes : es = []).
    { destruct o; simpl in H; [apply Token.create_Ok in H|apply Token.issue_Ok in H|
        apply Token.retire_Ok in H| |apply Token.open_Ok in H|apply Token.close_Ok in H];
        naive_solver. }
    subst es. split_and!; [done|done|intros s; by eapply token_persists|done|by destruct o].
Qed.

(** ** One action *)

Definition votes_free (o : RewardProps.op) : bool :=
  match o with
  | RewardProps.op_addvote _ _ | RewardProps.op_subvote _ _ | RewardProps.op_voteproducer _ _
  | RewardProps.op_ontransfer _ _ _ _ => false
  | _ => true
  end.

Definition host_ok (h : host) : Prop :=
  forall l m, let '(a, b) := addresses h l m in disjoint_at a l b m.

(** An action that leaves votes alone *)
Definition calm_msg (c : ctx) (m : msg) : Prop :=
  match m with
  | ToSystem o =>
      votes_op o = false /\ get_self c = system_account /\
      (forall a, a ∈ holders -> has_auth c a = false) /\
      match o with Bidname _ _ q | Cfgelection _ _ q => is_i64 (amount q) | _ => True end
  | ToToken o => inline_typed o
  | ToReward o => votes_free o = true
  end.

(** A transfer's quantity, for the notification *)
Definition notifiable (m : msg) : Prop :=
  match m with
  | ToToken (Token.op_transfer _ _ q _) => asset_valid q = true /\ 0 < amount q
  | _ => True
  end.

Lemma registers_nonneg m : 0 <= msg_registers m.
Proof. destruct m as [[]|o|o]; simpl; lia. Qed.

(** The calm inline actions of flon.system, for the core symbol it starts with *)
Definition calm_for (ch : chain) : effect -> Prop := calm_effect (core_payment (core ch)).

(** flon.system's actions, its constructor and destructor included *)
Lemma system_apply n h c o ch ch1 es :
  host_ok h -> parts n ch -> calm_msg c (ToSystem o) ->
  n + msg_registers (ToSystem o) < 2 ^ 32 - 1 ->
  apply_msg h c (ToSystem o) ch = Ok (ch1, es) ->
  parts (n + msg_registers (ToSystem o)) ch1 /\ untouched ch ch1 /\ Forall (calm_for ch) es.
Proof.
  intros Hh [P1 P2 P3 P4] (Hv & Hself & Hq & Hty) Hn H. simpl in H.
  apply bind_Ok in H as ([s es1] & H & [= <- <-]).
  set (e := System.Env _ _ _ _ _) in H.
  assert (Hop : System.op_ok (e, o)) by (split; [exact Hh|by destruct o]).
  assert (Hq' : holders_quiet e /\ has_auth c reward_account = false)
    by (unfold holders_quiet; split_and!; apply Hq; set_solver).
  destruct Hq' as [Hq1 Hq2].
  assert (Hr : msg_registers (ToSystem o) = registers o) by (by destruct o).
  rewrite Hr in *.
  destruct (exec_step Hmem n e o (sys ch) s es1) as (A1 & _ & _ & A4); try done.
  destruct (system_exec_book n e o (sys ch) s es1) as (B1 & B2 & _); try done.
  split_and!; [split; simpl; try done; unfold registers; destruct o; lia| |by destruct o].
  pose proof (exec_core e o (sys ch) s es1 Hv Hself H) as C2.
  split; simpl; try done.
  - rewrite B1. by destruct o.
  - unfold core. simpl. destruct C2 as [C2|[C2 _]]; [by left|].
    destruct (is_init (stored (sys ch))) eqn:Hi; [left|by right].
    unfold stored in Hi. destruct (global (sys ch)) as [g|] eqn:Eg; simpl in Hi.
    + rewrite (A4 g eq_refl Hi). unfold stored. by rewrite Eg.
    + unfold is_init in Hi. simpl in Hi. by rewrite law_symbol_default in Hi.
Qed.

Lemma token_apply n h c o ch ch1 es :
  parts n ch -> inline_typed o -> apply_msg h c (ToToken o) ch = Ok (ch1, es) ->
  parts n ch1 /\ untouched ch ch1 /\ (forall pays, Forall (calm_effect pays) es) /\
  notifiable (ToToken o).
Proof.
  intros [P1 P2 P3 P4] Hs H. simpl in H. apply bind_Ok in H as ([t es1] & H & [= <- <-]).
  apply token_step in H as (_ & H1 & H3 & H4 & H5); [|done..].
  split_and!; [by split|split; try done; by left|done|by destruct o].
Qed.

(** What flon.reward pays, its own tokens *)
Definition reward_payment (c : ctx) (from : name) (q : asset) : Prop := from = get_self c.

Lemma holders_system : system_account ∉ holders.
Proof.
  unfold holders. rewrite !elem_of_cons. intros [E|[E|[E|E%elem_of_nil]]]; [| | |done].
  - by apply (names_differ 0 4) in E.
  - by apply (names_differ 0 6) in E.
  - by apply (names_differ 0 5) in E.
Qed.

Lemma reward_apply n h c o ch ch1 es :
  parts n ch -> votes_free o = true -> indeterminate_i64 c = 0 ->
  apply_msg h c (ToReward o) ch = Ok (ch1, es) ->
  parts n ch1 /\ untouched ch ch1 /\ Forall (calm_effect (reward_payment c)) es.
Proof.
  intros [P1 P2 P3 P4] Hs Hind H. simpl in H. apply bind_Ok in H as (_ & _ & H).
  apply bind_Ok in H as ([r es1] & H & [= <- <-]).
  assert (Hop : RewardProps.op_ok (c, o)) by (split; [done|by destruct o]).
  pose proof (RewardProps.reward_exec_step _ _ _ _ _ P3 Hop H) as [H1 _].
  pose proof (reward_exec_book _ _ _ _ _ P3 Hop H) as H2.
  split_and!; [by split| |].
  - split; simpl; try done; [|by left]. rewrite H2. by destruct o.
  - destruct o; try discriminate Hs; simpl in H.
    + unfold Reward.init in H. by ok_inv.
    + unfold Reward.regproducer in H. by ok_inv.
    + unfold Reward.claimrewards, Reward.claim_rewards in H. ok_inv; by repeat constructor.
    + unfold Reward.claimfor, Reward.claim_rewards in H. ok_inv; by repeat constructor.
Qed.

(** The notification of flon.reward *)
Lemma notify_keeps n h c m ch e ch' :
  parts n ch -> indeterminate_i64 c = 0 -> notifiable m -> notify h c m ch e = Ok ch' ->
  parts n ch' /\ sys ch' = sys ch /\ token ch' = token ch /\
  reward_book (reward ch') = reward_book (reward ch).
Proof.
  intros P Hind Hm H.
  assert (Hsame : ch' = ch -> parts n ch' /\ sys ch' = sys ch /\ token ch' = token ch /\
    reward_book (reward ch') = reward_book (reward ch)) by (by intros ->).
  unfold notify in H. destruct m as [o|[]|o]; try (injection H as <-; by apply Hsame).
  destruct e; try (injection H as <-; by apply Hsame).
  destruct (_ =? _); [|apply bind_Ok in H as (_ & _ & [= <-]); by apply Hsame].
  apply bind_Ok in H as ([r es] & H & [= <-]). destruct P as [P1 P2 P3 P4].
  assert (Hop : RewardProps.op_ok (notified_ctx n0 c, RewardProps.op_ontransfer from to quantity memo))
    by by split.
  pose proof (RewardProps.reward_exec_step _ _ _ _ _ P3 Hop H) as [H1 _].
  pose proof (reward_exec_book _ _ _ _ _ P3 Hop H) as H2. by split_and!.
Qed.

(** What a transfer of [q] to [to] does to the totals of flon.reward *)
Definition received (to : name) (q : asset) (r r' : Reward.state) : Prop :=
  Reward.core_symbol r' = Reward.core_symbol r /\
  RewardInv.claimed_sum (Reward.voters r') = RewardInv.claimed_sum (Reward.voters r) /\
  (amount (Reward.gstate r') = amount (Reward.gstate r) \/
   to = reward_account /\ asset_symbol q = Reward.core_symbol r /\
   amount (Reward.gstate r') = amount (Reward.gstate r) + amount q).

Lemma ontransfer_received c r from to q memo r' es :
  RewardInv.inv r -> asset_valid q = true -> 0 < amount q -> get_self c = reward_account ->
  Reward.ontransfer c r from to q memo = Ok (r', es) ->
  received to q r r' /\ (to <> reward_account -> r' = r).
Proof.
  intros Hinv Hval Hpos Hself H.
  assert (Hnot : r' = r -> received to q r r') by (intros ->; split_and!; [done|done|by left]).
  destruct (RewardProps.incoming c r from to q) eqn:Hin.
  2:{ unfold Reward.ontransfer, RewardProps.incoming in *. unfold Reward.core_symbol in *.
      rewrite Hin in H. injection H as <- _. by split; [apply Hnot|]. }
  assert (Hsym : asset_symbol q = Reward.core_symbol r /\ to = reward_account).
  { unfold RewardProps.incoming in Hin. rewrite !andb_true_iff, !Z.eqb_eq in Hin.
    destruct Hin as [[[_ ?] _] ?]. split; congruence. }
  destruct Hsym as [Hsym Hto]. apply law_asset_valid in Hval as [Hr Hval].
  apply RewardProps.ontransfer_Ok in H;
    [|done|unfold RewardProps.initialised; congruence|unfold_range; lia].
  rewrite Hin in H. destruct H as (_ & p & _ & _ & [= -> _]).
  split; [|done]. split_and!; [done|done|by right].
Qed.

Lemma notify_untouched n h c m ch e ch' :
  parts n ch -> indeterminate_i64 c = 0 -> notifiable m -> notify h c m ch e = Ok ch' ->
  parts n ch' /\ untouched ch ch'.
Proof.
  intros P Hind Hm H. apply (notify_keeps n) in H as (H1 & H2 & H3 & H4); [|done..].
  split; [done|]. split; unfold core; rewrite ?H2, ?H3; try done. by left.
Qed.

(** An inline action of a calm one is calm. *)
Lemma calm_inline pays c a m :
  calm_action pays a -> decode_action a = Some m ->
  calm_msg (inline_ctx (act_account a) (act_authorization a) c) m /\ msg_registers m = 0 /\
  account_of m = act_account a.
Proof.
  destruct a as [acc auth cl]. unfold decode_action, calm_action. simpl. intros Hc H.
  destruct cl; simpl in *; try done; destruct (acc =? _) eqn:E; try done;
    apply Z.eqb_eq in E; injection H as <-; subst acc; split_and!; try done.
  split_and!; try done. intros a Ha. simpl. rewrite Hc. apply bool_decide_false.
  intros ->%list_elem_of_singleton. by apply holders_system.
Qed.

(** ** An action with everything it sets off *)

Lemma fold_keeps {E} (R : chain -> chain -> Prop) `{!PreOrder R} (f : chain -> E -> result chain) n
    (P : E -> Prop) :
  (forall ch e ch', P e -> parts n ch -> f ch e = Ok ch' -> parts n ch' /\ R ch ch') ->
  forall es ch ch', Forall P es -> parts n ch -> fold_res f ch es = Ok ch' ->
  parts n ch' /\ R ch ch'.
Proof.
  intros Hf es. induction es as [|e es IH]; intros ch ch' HP Hp H; simpl in H.
  { injection H as <-. split; [done|reflexivity]. }
  apply Forall_cons in HP as [He Hes]. apply bind_Ok in H as (ch1 & H1 & H).
  destruct (Hf ch e ch1 He Hp H1) as [Hp1 R1].
  destruct (IH ch1 ch' Hes Hp1 H) as [Hp2 R2]. split; [done|]. by etrans.
Qed.

Lemma calm_process depth : forall n h c m ch ch',
  host_ok h -> indeterminate_i64 c = 0 -> get_self c = account_of m -> parts n ch ->
  calm_msg c m -> n + msg_registers m < 2 ^ 32 - 1 ->
  process depth h c m ch = Ok ch' -> parts (n + msg_registers m) ch' /\ untouched ch ch'.
Proof.
  induction depth as [|depth IH]; intros n h c m ch ch' Hh Hind Hself P Hc Hn H; [done|].
  simpl in H. apply bind_Ok in H as ([ch1 es] & Ha & H). apply bind_Ok in H as (ch2 & Hno & H).
  assert (H1 : parts (n + msg_registers m) ch1 /\ untouched ch ch1 /\
    (exists pays, Forall (calm_effect pays) es) /\ notifiable m).
  { destruct m as [o|o|o].
    - apply (system_apply n) in Ha as (? & ? & ?); try done. split_and!; try done. by eexists.
    - rewrite Z.add_0_r. apply (token_apply n) in Ha as (? & ? & Hes & ?); try done.
      split_and!; try done. exists (fun _ _ => True). apply Hes.
    - rewrite Z.add_0_r. apply (reward_apply n) in Ha as (? & ? & ?); try done.
      split_and!; try done. by eexists. }
  destruct H1 as (P1 & U1 & [pays Hes] & Hm).
  destruct (fold_keeps untouched (notify h c m) (n + msg_registers m) (fun _ => True))
    with (es := es) (ch := ch1) (ch' := ch2) as [P2 U2]; try done.
  { intros ch0 e ch0' _ P0 H0. by eapply notify_untouched. }
  { by apply Forall_true. }
  assert (P3 : parts (n + msg_registers m) ch' /\ untouched ch2 ch').
  { revert H. apply (fold_keeps untouched _ _ (calm_effect pays)); [|done|done].
    intros ch0 e ch0' He P0 H0. unfold send_inline in H0. destruct e; try (injection H0 as <-; done).
    destruct (decode_action a) as [m'|] eqn:Ed; [|by injection H0 as <-].
    destruct (calm_inline pays c a m' He Ed) as (C1 & C2 & C3).
    apply (IH (n + msg_registers m)) in H0; try done; rewrite ?C2, ?Z.add_0_r in *; done. }
  destruct P3 as [P3 U3]. split; [done|]. by do 2 (etrans; [eassumption|]).
Qed.

(** ** Inline actions of the vote actions *)

Lemma notify_received n h c from to q memo ch x ch' :
  parts n ch -> asset_valid q = true -> 0 < amount q -> x = from \/ x = to -> from <> to ->
  notify h c (ToToken (Token.op_transfer from to q memo)) ch (RequireRecipient x) = Ok ch' ->
  received to q (reward ch) (reward ch') /\ (x <> to -> reward ch' = reward ch).
Proof.
  intros P Hval Hpos Hx Hne H. unfold notify in H. destruct (Z.eqb_spec x reward_account) as [E|].
  2:{ apply bind_Ok in H as (_ & _ & [= <-]). split; [|done]. split_and!; [done|done|by left]. }
  apply bind_Ok in H as ([r es] & H & [= <-]). simpl.
  destruct (ontransfer_received (notified_ctx x c) (reward ch) from to q memo r es) as [H1 H2];
    [apply P|done..|]. split; [done|]. intros Hxt. apply H2. congruence.
Qed.

Lemma process_transfer n depth h c from to q memo ch ch' :
  parts n ch -> indeterminate_i64 c = 0 ->
  process depth h c (ToToken (Token.op_transfer from to q memo)) ch = Ok ch' ->
  parts n ch' /\ sys ch' = sys ch /\ reward_book (reward ch') = reward_book (reward ch) /\
  token ch' = Token.transfer_post (token ch) from to q /\ from <> to /\ 0 < amount q /\
  (forall s, token_has (token ch) s -> token_has (token ch') s) /\
  token_has (token ch') (asset_symbol q) /\ received to q (reward ch) (reward ch').
Proof.
  intros P Hind H. destruct depth; [done|]. cbn [process] in H.
  apply bind_Ok in H as ([ch1 es] & Ha & H). apply bind_Ok in Ha as ([t es1] & Ha & [= <- <-]).
  cbn [Token.exec] in Ha.
  apply transfer_facts in Ha as (H1 & H2 & H3 & H0 & Hh & H4 & -> & ->); [|apply P].
  apply bind_Ok in H as (ch2 & Hno & [= <-]).
  cbn [fold_res] in Hno. apply bind_Ok in Hno as (ch3 & N1 & Hno).
  apply bind_Ok in Hno as (ch4 & N2 & [= <-]).
  assert (P1 : parts n (Chain (sys ch) (Token.transfer_post (token ch) from to q) (reward ch)))
    by (destruct P; by split).
  pose proof (notify_received n h c from to q memo _ from _ P1 H2 H3 (or_introl eq_refl) H1 N1) as [R1 R1'].
  apply (notify_keeps n) in N1 as (P3 & E1 & E2 & E3); [|done..].
  pose proof (notify_received n h c from to q memo _ to _ P3 H2 H3 (or_intror eq_refl) H1 N2) as [R2 _].
  apply (notify_keeps n) in N2 as (P4 & F1 & F2 & F3); [|done..].
  specialize (R1' H1). simpl in *.
  assert (Et : token ch4 = Token.transfer_post (token ch) from to q) by congruence.
  rewrite R1' in R2. split_and!; try done; try congruence; by rewrite Et.
Qed.

Definition votes_reward (o : RewardProps.op) : Prop :=
  match o with
  | RewardProps.op_addvote _ n | RewardProps.op_subvote _ n => is_i64 n
  | RewardProps.op_voteproducer _ _ => True
  | _ => False
  end.

Lemma votes_quiet c o st st' es :
  votes_reward o -> RewardProps.exec c o st = Ok (st', es) -> es = [].
Proof.
  intros Ho H. destruct o; try done; simpl in H.
  - unfold Reward.addvote in H. by ok_inv.
  - unfold Reward.subvote in H. by ok_inv.
  - unfold Reward.voteproducer in H. do 4 apply bind_Ok in H as (? & _ & H).
    apply bind_Ok in H as ([??] & _ & H). by injection H as _ <-.
Qed.

Lemma process_vote n depth h c o ch ch' :
  parts n ch -> indeterminate_i64 c = 0 -> votes_reward o ->
  process depth h c (ToReward o) ch = Ok ch' ->
  parts n ch' /\ sys ch' = sys ch /\ token ch' = token ch /\
  reward_book (reward ch') = reward_meaning o (reward_book (reward ch)).
Proof.
  intros P Hind Ho H. destruct depth; [done|]. cbn [process] in H.
  apply bind_Ok in H as ([ch1 es] & Ha & H). apply bind_Ok in Ha as (_ & _ & Ha).
  apply bind_Ok in Ha as ([r es1] & Ha & [= <- <-]). destruct P as [P1 P2 P3 P4].
  assert (Hop : RewardProps.op_ok (c, o)) by (split; [done|by destruct o]).
  pose proof (RewardProps.reward_exec_step _ _ _ _ _ P3 Hop Ha) as [H1 _].
  pose proof (reward_exec_book _ _ _ _ _ P3 Hop Ha) as H2.
  rewrite (votes_quiet _ _ _ _ _ Ho Ha) in H. injection H as <-. by split_and!.
Qed.

Lemma fold_notify_system h c o es : forall ch ch',
  fold_res (notify h c (ToSystem o)) ch es = Ok ch' -> ch' = ch.
Proof.
  induction es as [|e es IH]; intros ch ch' H; simpl in H; [by injection H|]. by apply IH.
Qed.

(** ** The invariant *)

Record chain_inv (n : Z) (ch : chain) : Prop := {
  ci_parts : parts n ch;
  ci_agree : system_book (voting (sys ch)) = reward_book (reward ch);
  ci_core : is_init (stored (sys ch)) = true -> token_has (token ch) (core ch);
}.

Lemma calm_inv n m ch ch' :
  parts m ch' -> untouched ch ch' -> chain_inv n ch -> chain_inv m ch'.
Proof.
  intros P [U1 U2 U4 U5] [C1 C2 C4]. split; [done|congruence|].
  intros Hi. destruct U4 as [E|[_ E]]; [|done]. rewrite E. apply U5, C4.
  revert Hi. unfold core, core_of, is_init in *. by rewrite E.
Qed.

(** After a vote action of flon.system: its tables, and what is still to be processed *)
Lemma vote_apply n h c o ch ch1 es :
  host_ok h -> get_self c = system_account -> (forall a, a ∈ holders -> has_auth c a = false) ->
  votes_op o = true ->
  match o with Addvote _ q | Subvote _ q => is_i64 (amount q) | _ => True end ->
  n < 2 ^ 32 - 1 -> parts n ch -> apply_msg h c (ToSystem o) ch = Ok (ch1, es) ->
  parts n ch1 /\ token ch1 = token ch /\ reward ch1 = reward ch /\ core ch1 = core ch /\
  system_book (voting (sys ch1)) = system_meaning o (system_book (voting (sys ch))) /\
  vote_sends o (sys ch) es.
Proof.
  intros Hh Hself Hq Hv Hty Hn [P1 P2 P3 P4] Ha. simpl in Ha.
  apply bind_Ok in Ha as ([s es1] & Ha & [= <- <-]).
  set (e := System.Env _ _ _ _ _) in Ha.
  assert (Hop : System.op_ok (e, o)) by (split; [exact Hh|by destruct o]).
  assert (Hq' : holders_quiet e /\ has_auth c reward_account = false)
    by (unfold holders_quiet; split_and!; apply Hq; set_solver).
  destruct Hq' as [Hq1 Hq2].
  assert (Hr : registers o = 0) by by destruct o.
  destruct (exec_step Hmem n e o (sys ch) s es1) as (A1 & A2 & _ & _); try done;
    [by rewrite Hr, Z.add_0_r|].
  destruct (system_exec_book n e o (sys ch) s es1) as (B1 & B2 & B3); try done.
  rewrite Hr, Z.add_0_r in A1. split_and!; try done. by apply B3.
Qed.

(** What flon.system did is done again by flon.reward. *)
Lemma vote_process n depth h c o ch ch' :
  host_ok h -> indeterminate_i64 c = 0 -> get_self c = system_account ->
  (forall a, a ∈ holders -> has_auth c a = false) -> votes_op o = true ->
  match o with Addvote _ q | Subvote _ q => is_i64 (amount q) | _ => True end ->
  n < 2 ^ 32 - 1 -> chain_inv n ch ->
  process depth h c (ToSystem o) ch = Ok ch' -> chain_inv n ch'.
Proof.
  intros Hh Hind Hself Hq Hv Hty Hn [P Hag Hc] H. destruct depth; [done|]. cbn [process] in H.
  apply bind_Ok in H as ([ch1 es] & Ha & H). apply bind_Ok in H as (ch2 & ->%fold_notify_system & H).
  apply (vote_apply n) in Ha as (P1 & T1 & R1 & C1 & B1 & B2); try done.
  assert (Hend : forall x, parts n x -> sys x = sys ch1 ->
    (forall s, token_has (token ch) s -> token_has (token x) s) ->
    reward_book (reward x) = system_book (voting (sys ch1)) -> chain_inv n x).
  { intros x Hx Es Ht Hb. unfold core in C1. split; [done|by rewrite Es, Hb|].
    unfold core. rewrite Es, C1. intros Hi. apply Ht, Hc. revert Hi. unfold is_init, core_of in *.
    by rewrite C1. }
  destruct o; try discriminate Hv; simpl in B1, B2.
  - subst es. cbn -[process] in H. rewrite Z.eqb_refl in H. apply bind_Ok in H as (ch2 & H & [= <-]).
    apply (process_vote n) in H as (P2 & E1 & E2 & E3); [|done..].
    apply Hend; [done..|by rewrite E2, T1|]. by rewrite E3, B1, R1, Hag.
  - destruct B2 as (_ & _ & _ & ->). cbn -[process] in H. rewrite !Z.eqb_refl in H.
    apply bind_Ok in H as (ch2 & H2 & H). apply bind_Ok in H as (ch3 & H3 & [= <-]).
    apply (process_transfer n) in H2 as (P2 & E1 & E2 & _ & _ & _ & E3 & _); [|done..].
    apply (process_vote n) in H3 as (P3 & F1 & F2 & F3); [|done..].
    apply Hend; [done|congruence|rewrite F2, <- T1; exact E3|]. by rewrite F3, E2, B1, R1, Hag.
  - destruct B2 as (e' & -> & He'). cbn -[process] in H. rewrite Z.eqb_refl in H.
    apply bind_Ok in H as (ch2 & H2 & H). assert (ch' = ch2) as -> by (destruct e'; try done; by injection H).
    apply (process_vote n) in H2 as (P2 & E1 & E2 & E3); [|done..].
    apply Hend; [done..|by rewrite E2, T1|]. by rewrite E3, B1, R1, Hag.
  - destruct B2 as (r & _ & ->). cbn -[process] in H. rewrite Z.eqb_refl in H.
    apply bind_Ok in H as (ch2 & H2 & [= <-]).
    apply (process_transfer n) in H2 as (P2 & E1 & E2 & _ & _ & _ & E3 & _); [|done..].
    apply Hend; [done..|rewrite <- T1; exact E3|]. by rewrite E2, B1, R1, Hag.
Qed.

(** ** Runs *)

(** flon.reward's records of votes are made by flon.system only. *)
Lemma reward_tx_free d h c o ch ch' :
  has_auth c system_account = false -> process d h c (ToReward o) ch = Ok ch' -> votes_free o = true.
Proof.
  intros Hq H. destruct d; [done|]. cbn [process] in H.
  apply bind_Ok in H as ([ch1 es] & H & _). simpl in H. apply bind_Ok in H as (_ & Hno%check_Ok & H).
  apply bind_Ok in H as ([rw es1] & H & _).
  assert (Hauth : forall u, require_auth c Reward.SYSTEM_CONTRACT <> Ok u)
    by (intros u E%check_Ok; unfold system_account in Hq; congruence).
  destruct o; simpl in *; try done.
  - unfold Reward.addvote, Reward.change_vote in H. apply bind_Ok in H as (_ & _ & H).
    apply bind_Ok in H as (? & H & _). apply bind_Ok in H as (u & H & _). by apply Hauth in H.
  - unfold Reward.subvote, Reward.change_vote in H. apply bind_Ok in H as (_ & _ & H).
    apply bind_Ok in H as (? & H & _). apply bind_Ok in H as (u & H & _). by apply Hauth in H.
  - unfold Reward.voteproducer in H. apply bind_Ok in H as (_ & _ & H).
    apply bind_Ok in H as (u & H & _). by apply Hauth in H.
Qed.

Lemma tx_step n ch t ch' :
  tx_ok t -> chain_inv n ch -> n + msg_registers (tx_msg t) < 2 ^ 32 - 1 ->
  run_tx ch t = Ok ch' -> chain_inv (n + msg_registers (tx_msg t)) ch'.
Proof.
  intros [T1 T2 T3 T4 T5 T6 T7] Hi Hn H. unfold run_tx in H. pose proof (ci_parts _ _ Hi) as P.
  destruct (match tx_msg t with ToSystem o => votes_op o | _ => false end) eqn:Hv.
  - destruct (tx_msg t) as [o|o|o] eqn:Em; try discriminate Hv.
    assert (Hr : msg_registers (ToSystem o) = 0) by by destruct o.
    rewrite Hr, Z.add_0_r in *. eapply vote_process; try exact H; try done.
    by destruct o.
  - apply (calm_process _ n) in H as [Hp Hu]; try done; [by eapply calm_inv|].
    destruct (tx_msg t) as [o|o|o] eqn:Em; simpl in *.
    + split_and!; try done. by destruct o.
    + by destruct o.
    + eapply reward_tx_free; [..|exact H]; done.
Qed.

Definition registered_keys (l : list tx) : Z := foldr (fun t n => msg_registers (tx_msg t) + n) 0 l.

Lemma registered_nonneg l : 0 <= registered_keys l.
Proof.
  unfold registered_keys. induction l as [|t l IH]; simpl; [lia|].
  pose proof (registers_nonneg (tx_msg t)). lia.
Qed.

Lemma chain_run_inv l : forall n ch ch',
  Forall tx_ok l -> n + registered_keys l < 2 ^ 32 - 1 -> chain_inv n ch ->
  run l ch = Ok ch' -> chain_inv (n + registered_keys l) ch'.
Proof.
  induction l as [|t l IH]; intros n ch ch' Hl Hn Hi H; unfold run in H; simpl in H.
  { injection H as <-. by rewrite Z.add_0_r. }
  apply Forall_cons in Hl as [Ht Hl]. apply bind_Ok in H as (ch1 & H1 & H).
  unfold registered_keys in *. simpl in *. fold (registered_keys l) in *.
  pose proof (registered_nonneg l). apply (tx_step n) in H1; [|done|done|lia].
  rewrite Z.add_assoc. eapply IH; [done|lia|done|exact H].
Qed.

Lemma chain_inv_init : chain_inv 0 init_chain.
Proof.
  assert (Hi : is_init (stored (sys init_chain)) = false) by apply law_symbol_default.
  split; [split|done|congruence]; [done|done|apply RewardProps.inv_init_state|apply Token.inv_init].
Qed.

(** The states transactions lead to *)
Definition chain_reachable (ch : chain) : Prop := exists l, txs_ok l /\ run l init_chain = Ok ch.

Lemma chain_reachable_inv ch : chain_reachable ch -> exists n, n < 2 ^ 32 - 1 /\ chain_inv n ch.
Proof.
  intros (l & [Hl Hn] & H). exists (0 + registered_keys l). split; [done|].
  by eapply chain_run_inv; [..|apply chain_inv_init|].
Qed.

(** ** The theorems *)

(** C3 (the vote books agree).  After any sequence of transactions, flon.system and flon.reward
    hold the same votes and the same list of producers for every voter, and every producer
    has as many votes in one as in the other. *)
Theorem votes_agree ch :
  chain_reachable ch ->
  system_book (voting (sys ch)) = reward_book (reward ch) /\
  (forall p, default 0 (total_votes <$> producers (voting (sys ch)) !! p) =
             default 0 (Reward.votes <$> Reward.producers (reward ch) !! p)).
Proof.
  intros (n & Hn & [[P1 P2 P3 P4] Hag _])%chain_reachable_inv. split; [done|]. intros p.
  destruct (stored_ok n (sys ch) P1 P2) as [Hv _ _ _ _ _ _ _].
  rewrite (system_votes_in _ _ p Hv), Hag. symmetry. by apply reward_votes_in.
Qed.

End chain.
