(* ===== verification/ChainDepth.v ===== *)
(** * The contracts together: two levels of inline actions are enough

    An inline action of flon.system or flon.reward sends no further action, so a
    transaction never runs into the host's limit on the depth of inline actions, and
    [Chain.process] with two levels is the whole computation. *)
From S2P Require Import Prelude Table Cdt CdtRef SystemData.
From S2P Require Import Finalizer Voting VotingProps.
From S2P Require Token Reward RewardProps.
From S2P Require Import Admin System SystemInv VoteBook Chain ChainSteps ChainProps.
From Stdlib Require Import ZArith Lia String.
From stdpp Require Import base tactics numbers list gmap.
Open Scope Z_scope.

Section depth.
Context {cdt : Cdt} {bls : Bls} {memory : Memory} {serializer : Serializer}.

(** ** Actions that send nothing *)

Definition sendless (e : effect) : Prop := match e with Send _ => False | _ => True end.

Definition leaf (m : msg) : bool :=
  match m with
  | ToSystem (Logsystemfee _ _ _) => true
  | ToSystem _ => false
  | ToToken _ => true
  | ToReward (RewardProps.op_claimrewards _ | RewardProps.op_claimfor _ _) => false
  | ToReward _ => true
  end.

Lemma token_sendless c o st st' es : Token.exec c o st = Ok (st', es) -> Forall sendless es.
Proof.
  destruct o; simpl; unfold Token.create, Token.issue, Token.retire, Token.transfer, Token.open,
    Token.close; intros H; ok_inv; by repeat constructor.
Qed.

Lemma reward_sendless c o st st' es :
  leaf (ToReward o) = true -> RewardProps.exec c o st = Ok (st', es) -> es = [].
Proof.
  destruct o; simpl; intros Hl H; try discriminate Hl.
  - unfold Reward.init in H. by ok_inv.
  - unfold Reward.regproducer in H. by ok_inv.
  - unfold Reward.addvote in H. by ok_inv.
  - unfold Reward.subvote in H. by ok_inv.
  - unfold Reward.voteproducer in H. do 4 apply bind_Ok in H as (? & _ & H).
    apply bind_Ok in H as ([??] & _ & H). by injection H as _ <-.
  - unfold Reward.ontransfer in H. by ok_inv.
Qed.

Lemma leaf_sendless h c m ch ch1 es :
  leaf m = true -> apply_msg h c m ch = Ok (ch1, es) -> Forall sendless es.
Proof.
  intros Hl H. destruct m as [o|o|o]; simpl in H.
  - destruct o; try discriminate Hl. apply bind_Ok in H as ([s es1] & H & [= _ <-]).
    unfold System.exec in H. apply bind_Ok in H as ([[g s1] es2] & H & Ht).
    apply bind_Ok in Ht as (_ & _ & [= _ <-]). simpl in H. unfold only_effects, logsystemfee in H.
    ok_inv. constructor.
  - apply bind_Ok in H as ([t es1] & H & [= _ <-]). by eapply token_sendless.
  - apply bind_Ok in H as (_ & _ & H). apply bind_Ok in H as ([r es1] & H & [= _ <-]).
    rewrite (reward_sendless _ _ _ _ _ Hl H). constructor.
Qed.

(** ** The depth does not matter *)

Lemma fold_inline_ext go go' c es : forall ch,
  (forall a m, Send a ∈ es -> decode_action a = Some m -> forall c ch, go c m ch = go' c m ch) ->
  fold_res (send_inline go c) ch es = fold_res (send_inline go' c) ch es.
Proof.
  induction es as [|e es IH]; intros ch Hgo; [done|]. simpl.
  assert (E : send_inline go c ch e = send_inline go' c ch e).
  { destruct e; try done. simpl. destruct (decode_action a) eqn:Ed; [|done].
    apply (Hgo a); [set_solver|done]. }
  rewrite E. destruct (send_inline go' c ch e); [|done]. simpl. apply IH. set_solver.
Qed.

(** One more level of a computation whose inline actions do not depend on the depth *)
Lemma process_ext d1 d2 h c m ch :
  (forall ch1 es a m', apply_msg h c m ch = Ok (ch1, es) -> Send a ∈ es ->
    decode_action a = Some m' -> forall c ch, process d1 h c m' ch = process d2 h c m' ch) ->
  process (S d1) h c m ch = process (S d2) h c m ch.
Proof.
  intros He. cbn [process]. destruct (apply_msg h c m ch) as [[ch1 es]|] eqn:Ha; [|done].
  cbn [mbind result_bind]. destruct (fold_res (notify h c m) ch1 es) as [ch2|]; [|done].
  cbn [mbind result_bind]. apply fold_inline_ext. intros a m' Hin Hd. by eapply He.
Qed.

Lemma leaf_depth d h c m ch : leaf m = true -> process (S d) h c m ch = process 1 h c m ch.
Proof.
  intros Hl. apply process_ext. intros ch1 es a m' Ha Hin. apply leaf_sendless in Ha; [|done].
  rewrite Forall_forall in Ha. by specialize (Ha _ Hin).
Qed.

Lemma sendless_fold go c es : forall ch,
  Forall sendless es -> fold_res (send_inline go c) ch es = Ok ch.
Proof.
  induction es as [|e es IH]; intros ch Hs; [done|]. apply Forall_cons in Hs as [He Hs].
  simpl. destruct e; try done; by apply IH.
Qed.

(** Only transfers notify. *)
Definition notifies (m : msg) : bool :=
  match m with ToToken (Token.op_transfer _ _ _ _) => true | _ => false end.

Lemma notify_silent h c m es : forall ch,
  notifies m = false -> fold_res (notify h c m) ch es = Ok ch.
Proof.
  intros ch Hm. assert (E : forall e, notify h c m ch e = Ok ch) by (by destruct m as [|[]|]).
  induction es as [|e es IH]; [done|]. simpl. by rewrite E.
Qed.

(** Such an action is what it does itself. *)
Lemma leaf_process d h c m ch ch' :
  leaf m = true -> notifies m = false -> process d h c m ch = Ok ch' ->
  exists es, apply_msg h c m ch = Ok (ch', es).
Proof.
  intros Hl Hm H. destruct d; [done|]. cbn [process] in H. apply bind_Ok in H as ([ch1 es] & Ha & H).
  pose proof (leaf_sendless _ _ _ _ _ _ Hl Ha) as Hs.
  rewrite (notify_silent h c m es ch1 Hm) in H. cbn [mbind result_bind] in H.
  rewrite sendless_fold in H by done. injection H as <-. by exists es.
Qed.

(** What flon.system sends besides [voterefund], which it only schedules *)
Lemma decode_leaf a m :
  decode_action a = Some m -> (forall k, act_call a <> system_voterefund k) -> leaf m = true.
Proof.
  destruct a as [acc auth cl]. simpl. intros H Hn.
  destruct cl; try discriminate H; destruct (_ =? _); try discriminate H; injection H as <-; try done.
  exfalso. by eapply Hn.
Qed.

Context {laws : CdtLaws} (Hmem : disengaged = []).

Lemma system_sends n h c o ch ch1 es a :
  host_ok h -> (forall a, a ∈ holders -> has_auth c a = false) -> get_self c = system_account ->
  match o with Addvote _ q | Subvote _ q | Bidname _ _ q | Cfgelection _ _ q => is_i64 (amount q)
  | _ => True end ->
  parts n ch -> apply_msg h c (ToSystem o) ch = Ok (ch1, es) -> Send a ∈ es ->
  forall k, act_call a <> system_voterefund k.
Proof.
  intros Hh Hq Hself Hty P Ha Hin k E. simpl in Ha. apply bind_Ok in Ha as ([s es1] & H & [= _ <-]).
  set (e := System.Env _ _ _ _ _) in H.
  assert (Hop : System.op_ok (e, o)) by (split; [exact Hh|by destruct o]).
  assert (Hq' : holders_quiet e /\ has_auth c reward_account = false)
    by (unfold holders_quiet; split_and!; apply Hq; set_solver).
  destruct Hq' as [Hq1 Hq2].
  destruct (system_exec_book n e o (sys ch) s es1) as (_ & Hs & _); try done; [by destruct P..|].
  assert (Hcalm : forall pays, ~ calm_effect pays (Send a))
    by (intros pays; simpl; unfold calm_action; rewrite E; by intros []).
  destruct o; simpl in Hs;
    try (rewrite Forall_forall in Hs; by apply (Hcalm _ (Hs _ Hin))).
  - subst es1. apply list_elem_of_singleton in Hin. by injection Hin as ->.
  - destruct Hs as (_ & _ & _ & ->). rewrite !elem_of_cons in Hin.
    destruct Hin as [[= ->]|[[= ->]|Hin%elem_of_nil]]; done.
  - destruct Hs as (e' & -> & He'). rewrite !elem_of_cons in Hin.
    destruct Hin as [[= ->]|[<-|Hin%elem_of_nil]]; done.
  - destruct Hs as (r & _ & ->). apply list_elem_of_singleton in Hin. by injection Hin as ->.
Qed.

(** C10 (inline actions go two levels deep).  From any state that transactions lead to, running a
    transaction with any bound of at least two on the depth of inline actions gives the same
    result, success or failure: inline actions send no further ones and the limit is never
    the reason of a failure. *)
Theorem depth_two ch t d :
  chain_reachable ch -> tx_ok t -> (2 <= d)%nat ->
  process d (tx_host t) (tx_ctx t) (tx_msg t) ch = process 2 (tx_host t) (tx_ctx t) (tx_msg t) ch.
Proof.
  intros (n & _ & Hinv)%(chain_reachable_inv Hmem) Ht Hd. destruct d as [|[|d]]; [lia|lia|].
  apply process_ext. intros ch1 es a m' Ha Hin Hdec c' ch'. apply leaf_depth.
  pose proof (ci_parts _ _ Hinv) as P. destruct (tx_msg t) as [o|o|o] eqn:Em.
  - eapply decode_leaf; [exact Hdec|]. destruct Ht as [T1 T2 T3 T4 T5 T6 T7]. rewrite Em in T1, T6.
    by eapply (system_sends n _ _ o).
  - apply leaf_sendless in Ha; [|done]. rewrite Forall_forall in Ha. by specialize (Ha _ Hin).
  - eapply decode_leaf; [exact Hdec|]. intros k E.
    simpl in Ha. apply bind_Ok in Ha as (_ & _ & Ha). apply bind_Ok in Ha as ([r es1] & Ha & [= _ <-]).
    assert (Hpay : forall pays, Forall (calm_effect pays) es1 -> False).
    { intros pays. rewrite Forall_forall. intros Hc. specialize (Hc _ Hin). simpl in Hc.
      unfold calm_action in Hc. by rewrite E in Hc. }
    apply (Hpay (fun _ _ => True)).
    destruct (leaf (ToReward o)) eqn:Hl.
    + rewrite (reward_sendless _ _ _ _ _ Hl Ha). constructor.
    + destruct o; try discriminate Hl; simpl in Ha.
      * unfold Reward.claimrewards, Reward.claim_rewards in Ha. ok_inv; by repeat constructor.
      * unfold Reward.claimfor, Reward.claim_rewards in Ha. ok_inv; by repeat constructor.
Qed.
End depth.
