(* ===== verification/ChainMoney.v ===== *)
(** * The contracts together: the money is there

    Three accounts hold what others are owed: flon.vote the stakes, flon.names the bids and
    flon.reward the rewards.  Every transaction keeps each of them covered by the account's
    balance in flon.token, so that refunds and claims are paid. *)
From S2P Require Import Prelude Table Cdt CdtRef SystemData NameBid.
From S2P Require Import Finalizer FinalizerProps Voting VotingProps Election.
From S2P Require Token Reward RewardInv RewardProps BlockInfo AuthChange.
From S2P Require Import ProducerPay Admin System SystemInv VoteBook Chain ChainSteps ChainProps ChainDepth.
From Stdlib Require Import ZArith Lia String.
From stdpp Require Import base tactics numbers list gmap strings.
Open Scope Z_scope.

(** The rewards received and not claimed yet *)
Definition unclaimed (r : Reward.state) : Z :=
  amount (Reward.gstate r) - RewardInv.claimed_sum (Reward.voters r).

Inductive purse : Type := Stakes | Bids | Rewards.

Section money.
Context {cdt : Cdt} {bls : Bls} {memory : Memory} {serializer : Serializer}.

Definition holder (p : purse) : name :=
  match p with Stakes => vote_account | Bids => names_account | Rewards => reward_account end.
Definition currency (p : purse) (ch : chain) : symbol :=
  match p with Rewards => Reward.core_symbol (reward ch) | _ => core ch end.
Definition owes (p : purse) (ch : chain) : Z :=
  match p with
  | Stakes => held (sys ch)
  | Bids => NameBid.owed (names (sys ch))
  | Rewards => unclaimed (reward ch)
  end.
Definition funds (p : purse) (ch : chain) : Z :=
  Token.balance_of (token ch) (holder p) (symbol_code (currency p ch)).

(** What the effects still to be processed move.  flon.reward books what it receives when it
    is notified, and pays in the only effect of a claim. *)
Definition pending (p : purse) (es : list effect) : Z :=
  match p with Rewards => 0 | _ => net (holder p) es end.

(** Every purse is covered once [es] is processed, and the token of the rewards exists. *)
Record solvent (es : list effect) (ch : chain) : Prop := {
  sv_covered : forall p, owes p ch <= funds p ch + pending p es;
  sv_known : 0 < amount (Reward.gstate (reward ch)) ->
    token_has (token ch) (Reward.core_symbol (reward ch));
}.

Context {laws : CdtLaws} (Hmem : disengaged = []).

Lemma holder_in p : holder p ∈ holders.
Proof. unfold holders. destruct p; simpl; set_solver. Qed.

Lemma pending_nil p : pending p [] = 0.
Proof. by destruct p. Qed.

Lemma pending_cons p e es : pending p (e :: es) = pending p [e] + pending p es.
Proof.
  assert (E : forall a, net a (e :: es) = net a [e] + net a es)
    by (intros a; change (e :: es) with ([e] ++ es); apply net_app).
  destruct p; simpl; [apply E..|lia].
Qed.

(** Effects that are no transfers move nothing. *)
Definition no_transfer (e : effect) : Prop :=
  match e with Send (Action _ _ (token_transfer _ _ _ _)) => False | _ => True end.
Lemma pending_none p e es : no_transfer e -> pending p (e :: es) = pending p es.
Proof.
  intros He. rewrite pending_cons. assert (E : forall a, net a [e] = 0)
    by (intros a; destruct e as [[? ? []]| | | | | | | | | |]; done).
  destruct p; simpl; rewrite ?E; lia.
Qed.

(** ** Steps that move nothing *)

(** flon.token alone, and no holder loses *)
Lemma solvent_tokens es ch t :
  solvent es ch -> (forall p code, Token.balance_of (token ch) (holder p) code <= Token.balance_of t (holder p) code) ->
  (forall s, token_has (token ch) s -> token_has t s) ->
  solvent es (Chain (sys ch) t (reward ch)).
Proof.
  intros [H1 H2] Hb Ht. split; simpl; [|intros Hp; by apply Ht, H2]. intros p. specialize (H1 p).
  specialize (Hb p (symbol_code (currency p ch))). unfold funds in H1.
  enough (owes p ch <= Token.balance_of t (holder p) (symbol_code (currency p ch)) + pending p es)
    by by destruct p.
  lia.
Qed.

(** flon.reward alone: its totals stay, or it is initialised. *)
Definition reward_quiet (r r' : Reward.state) : Prop :=
  Reward.gstate r' = Reward.gstate r /\ unclaimed r' = unclaimed r \/
  amount (Reward.gstate r') = 0 /\ unclaimed r' = 0.

Lemma solvent_reward n es ch r :
  parts n ch -> solvent es ch -> reward_quiet (reward ch) r ->
  solvent es (Chain (sys ch) (token ch) r).
Proof.
  intros [_ _ _ P] [H1 H2] Hq. split; simpl.
  - intros p. specialize (H1 p). unfold funds in *. destruct p; simpl in *; try done.
    destruct Hq as [[E1 E2]|[_ E2]]; unfold Reward.core_symbol in *; rewrite ?E1, E2; [done|].
    rewrite Z.add_0_r. by apply Token.balance_of_nonneg.
  - destruct Hq as [[E1 _]|[E1 _]]; unfold Reward.core_symbol in *; rewrite E1; [done|lia].
Qed.

Lemma reward_quiet_exec c o r r' es :
  RewardInv.inv r -> RewardProps.op_ok (c, o) -> RewardProps.exec c o r = Ok (r', es) ->
  match o with RewardProps.op_ontransfer _ _ _ _ => False | _ => es = [] end -> reward_quiet r r'.
Proof.
  intros Hinv Hop H Hes. destruct (RewardProps.reward_exec_step _ _ _ _ _ Hinv Hop H) as [_ Hcl].
  assert (Hsame : Reward.global r' = Reward.global r -> reward_quiet r r').
  { intros E. left. unfold unclaimed, Reward.gstate. rewrite E, Hcl. destruct o; try done; subst es;
      rewrite RewardProps.paid_nil; split; lia || done. }
  destruct o; try done; simpl in H.
  - right. unfold Reward.init in H. apply bind_Ok in H as (? & _ & H).
    apply bind_Ok in H as (? & Hn%check_Ok & H). apply bind_Ok in H as (z & (_ & _ & ->)%law_asset_ctor & H).
    injection H as <- <-. unfold unclaimed. simpl in *. split; [done|].
    assert (Hg : Reward.global r = None).
    { destruct (Reward.global r) as [g|] eqn:Eg; [|done]. unfold Reward.gstate in Hn. rewrite Eg in Hn.
      simpl in Hn. by rewrite (RewardInv.inv_sym _ Hinv _ Eg) in Hn. }
    destruct (RewardInv.inv_init _ Hinv Hg) as [-> _]. done.
  - apply Hsame. unfold Reward.regproducer in H. do 3 apply bind_Ok in H as (? & _ & H).
    by apply bind_Ok in H as ([] & _ & [= <- _]).
  - apply Hsame. unfold Reward.addvote, Reward.change_vote in H. ok_inv; done.
  - apply Hsame. unfold Reward.subvote, Reward.change_vote in H. ok_inv; done.
  - apply Hsame. unfold Reward.voteproducer in H. do 4 apply bind_Ok in H as (? & _ & H).
    by apply bind_Ok in H as ([] & _ & [= <- _]).
  - exfalso. unfold Reward.claimrewards, Reward.claim_rewards in H. ok_inv; done.
  - exfalso. unfold Reward.claimfor, Reward.claim_rewards in H. ok_inv; done.
Qed.
(** ** Transfers *)

(** What a transfer moves from or to a purse; flon.reward books what it receives itself. *)
Definition moved (p : purse) (ch : chain) (from to : name) (q : asset) : Z :=
  if bool_decide (symbol_code (currency p ch) = symbol_code (asset_symbol q)) then
    (if holder p =? to then match p with Rewards => 0 | _ => amount q end else 0)
    - (if holder p =? from then amount q else 0)
  else 0.

Lemma transfer_solvent n d h c from to q memo ch ch' es :
  parts n ch -> indeterminate_i64 c = 0 ->
  (forall p, owes p ch <= funds p ch + moved p ch from to q + pending p es) ->
  (0 < amount (Reward.gstate (reward ch)) -> token_has (token ch) (Reward.core_symbol (reward ch))) ->
  process d h c (ToToken (Token.op_transfer from to q memo)) ch = Ok ch' ->
  parts n ch' /\ sys ch' = sys ch /\ solvent es ch'.
Proof.
  intros P Hind Hc Hk H.
  apply (process_transfer n) in H as (P' & E1 & _ & E3 & Hne & Hpos & Hp & Hh & R1 & R2 & R3); [|done..].
  split_and!; [done..|]. split.
  - intros p. specialize (Hc p).
    assert (Ec : currency p ch' = currency p ch) by (destruct p; simpl; unfold core; by rewrite ?E1).
    assert (Ef := transfer_balance (token ch) from to q (holder p) (symbol_code (currency p ch)) Hne).
    rewrite <- E3 in Ef. fold (funds p ch) in Ef.
    replace (Token.balance_of _ _ _) with (funds p ch') in Ef by (unfold funds; by rewrite Ec).
    unfold moved in Hc. rewrite Ef. destruct p; simpl in *; unfold unclaimed in *; rewrite ?E1, ?R2 in *;
      repeat case_bool_decide; repeat case_match; try lia;
      destruct R3 as [->|(-> & Es & ->)]; try lia; rewrite ?Z.eqb_refl in *; try congruence.
  - rewrite R1. destruct R3 as [->|(_ & <- & _)]; [|done]. intros Hg. by apply Hp, Hk.
Qed.
(** ** Inline actions *)

Lemma solvent_skip e es ch : no_transfer e -> solvent (e :: es) ch <-> solvent es ch.
Proof. intros He. split; intros [H1 H2]; split; try done; intros p; specialize (H1 p); by rewrite pending_none in *. Qed.

Lemma reward_solvent n d h c o ch ch' es :
  parts n ch -> leaf (ToReward o) = true -> RewardProps.op_ok (c, o) ->
  match o with RewardProps.op_ontransfer _ _ _ _ => False | _ => True end ->
  solvent es ch -> process d h c (ToReward o) ch = Ok ch' ->
  parts n ch' /\ sys ch' = sys ch /\ solvent es ch'.
Proof.
  intros P Hl Hop Ho Hs H. apply leaf_process in H as (es1 & Ha); [|done..].
  simpl in Ha. apply bind_Ok in Ha as (_ & _ & Ha). apply bind_Ok in Ha as ([r es2] & Ha & [= <- <-]).
  pose proof (reward_sendless _ _ _ _ _ Hl Ha) as ->. pose proof P as [P1 P2 P3 P4].
  destruct (RewardProps.reward_exec_step _ _ _ _ _ P3 Hop Ha) as [P3' _].
  split_and!; [by split|done|]. eapply solvent_reward; [done..|].
  eapply reward_quiet_exec; [done..|]. by destruct o.
Qed.

(** An account that does not sign loses no tokens. *)
Lemma token_balances c o st st' es who code :
  Token.inv st -> Token.op_typed o ->
  match o with
  | Token.op_open _ _ _ => True
  | Token.op_transfer _ _ _ _ => False
  | Token.op_issue _ q _ => True
  | _ => has_auth c who = false
  end ->
  Token.exec c o st = Ok (st', es) -> Token.balance_of st who code <= Token.balance_of st' who code.
Proof.
  intros Hinv Ht Ho H. destruct o as [i q|to q m|q m|from to q m|owner s0 p|owner s0]; simpl in *.
  - by apply Token.create_Ok in H as (_ & _ & _ & _ & -> & _).
  - apply Token.issue_Ok in H as ((_ & Hq & _) & row & _ & _ & _ & _ & -> & _); [|done..].
    rewrite Token.balance_of_set. case_bool_decide as E; [|done]. destruct E as [-> ->]. lia.
  - apply Token.retire_Ok in H as (_ & row & _ & Ha & _ & -> & _); [|done..].
    rewrite Token.balance_of_set. rewrite bool_decide_false; [done|]. intros [-> _]. congruence.
  - done.
  - apply Token.open_Ok in H as (_ & _ & _ & -> & _); [|done].
    destruct (Token.accounts st !! (owner, symbol_code s0)) eqn:E; [done|].
    rewrite Token.balance_of_set. case_bool_decide as E1; [|done]. destruct E1 as [-> ->].
    unfold Token.balance_of. by rewrite E.
  - apply Token.close_Ok in H as (Ha & _ & -> & _). unfold Token.balance_of. simpl.
    rewrite lookup_delete_ne; [done|]. intros [= <- _]. congruence.
Qed.

Lemma token_solvent n d h c o ch ch' es :
  parts n ch -> Token.op_typed o -> notifies (ToToken o) = false ->
  match o with Token.op_open _ _ _ => True | _ => forall a, a ∈ holders -> has_auth c a = false end ->
  solvent es ch -> process d h c (ToToken o) ch = Ok ch' ->
  parts n ch' /\ sys ch' = sys ch /\ solvent es ch'.
Proof.
  intros P Ht Hn Hq Hs H. apply leaf_process in H as (es1 & Ha); [|done..].
  simpl in Ha. apply bind_Ok in Ha as ([t es2] & Ha & [= <- <-]). pose proof P as [P1 P2 P3 P4].
  pose proof (Token.exec_inv _ _ _ _ _ P4 Ht Ha) as P4'.
  split_and!; [by split|done|]. apply solvent_tokens; [done| |].
  - intros p code. eapply token_balances; [done|done| |exact Ha].
    pose proof (holder_in p). destruct o; try done; by apply Hq.
  - intros s. by eapply token_persists.
Qed.

(** [logsystemfee] stores the singletons as they are. *)
Lemma fee_solvent n d h c p q memo ch ch' es :
  host_ok h -> indeterminate_i64 c = 0 -> n < 2 ^ 32 - 1 -> parts n ch ->
  calm_msg c (ToSystem (Logsystemfee p q memo)) -> solvent es ch ->
  process d h c (ToSystem (Logsystemfee p q memo)) ch = Ok ch' ->
  parts n ch' /\ core ch' = core ch /\ solvent es ch'.
Proof.
  intros Hh Hind Hn P Hc [H1 H2] H.
  assert (P' : parts n ch').
  { apply (calm_process Hmem d n) in H as [P' _]; try done; [by rewrite Z.add_0_r in P'|apply Hc|simpl; lia]. }
  apply leaf_process in H as (es1 & Ha); [|done..]. simpl in Ha.
  apply bind_Ok in Ha as ([s es2] & Ha & [= <- <-]). unfold System.exec in Ha. simpl in Ha.
  apply bind_Ok in Ha as ([[g s1] es3] & Ha & Hb). apply bind_Ok in Hb as (_ & _ & [= <- <-]).
  apply bind_Ok in Ha as (es4 & _ & [= <- <- <-]).
  set (e := System.Env _ _ _ _ _) in *. split; [done|].
  match goal with |- core ?x = _ /\ _ => set (ch' := x) in * end.
  assert (Et : total_vote_stake (stored (sys ch')) = total_vote_stake (stored (sys ch)))
    by (transitivity (total_vote_stake (loaded e (sys ch))); [done|apply stored_loaded]).
  assert (Ec : core ch' = core ch) by (unfold core, core_of; by rewrite Et).
  split; [done|]. split; [|exact H2]. intros pu. specialize (H1 pu).
  replace (owes pu ch') with (owes pu ch) by (destruct pu; [unfold owes, held, staked; by rewrite Et|done..]).
  replace (funds pu ch') with (funds pu ch); [done|]. unfold funds.
  by destruct pu; unfold currency; rewrite ?Ec.
Qed.
(** What flon.system sends *)
Definition money_action (s : symbol) (a : action) : Prop :=
  match act_call a with
  | reward_addvote _ n | reward_subvote _ n => is_i64 n
  | reward_voteproducer _ _ => True
  | _ => calm_action (core_payment s) a
  end.
Definition money_effect (s : symbol) (e : effect) : Prop :=
  match e with Send a => money_action s a | _ => True end.

Lemma calm_money s e : calm_effect (core_payment s) e -> money_effect s e.
Proof. destruct e as [[? ? []]| | | | | | | | | |]; done. Qed.

(** A transfer among the pending effects *)
Lemma pending_transfer s acc auth from to q memo es ch p :
  core ch = s -> core_payment s from q -> solvent (Send (Action acc auth (token_transfer from to q memo)) :: es) ch ->
  owes p ch <= funds p ch + moved p ch from to q + pending p es.
Proof.
  intros Hc [Hf Hs] [H _]. specialize (H p). rewrite pending_cons in H. unfold moved.
  assert (E : forall a, net a [Send (Action acc auth (token_transfer from to q memo))] =
    (if a =? to then amount q else 0) - (if a =? from then amount q else 0)).
  { intros a. unfold net. simpl. rewrite (Z.eqb_sym to), (Z.eqb_sym from). lia. }
  destruct p; simpl in *; rewrite ?E in H.
  - rewrite bool_decide_true by congruence. lia.
  - rewrite bool_decide_true by congruence. lia.
  - rewrite (proj2 (Z.eqb_neq reward_account from)) by congruence.
    case_bool_decide; destruct (reward_account =? to); lia.
Qed.

Lemma inline_money n d h c e es ch ch' :
  host_ok h -> indeterminate_i64 c = 0 -> n < 2 ^ 32 - 1 -> parts n ch ->
  money_effect (core ch) e -> solvent (e :: es) ch ->
  send_inline (process d h) c ch e = Ok ch' ->
  parts n ch' /\ core ch' = core ch /\ solvent es ch'.
Proof.
  intros Hh Hind Hn P Hm Hs H.
  assert (Hskip : no_transfer e -> Ok ch = Ok ch' -> parts n ch' /\ core ch' = core ch /\ solvent es ch')
    by (intros He [= <-]; split_and!; [done..|]; by rewrite solvent_skip in Hs).
  assert (Hsys : parts n ch' /\ sys ch' = sys ch /\ solvent es ch' ->
    parts n ch' /\ core ch' = core ch /\ solvent es ch')
    by (intros (? & E & ?); unfold core; by rewrite E).
  destruct e as [[acc auth cl]| | | | | | | | | |]; try by apply Hskip.
  unfold money_effect, money_action, calm_action in Hm. unfold send_inline in H.
  destruct cl as [from to q memo|owner s0 p|core0|p|k m|k m|k ps|p q memo|k|cr nm ow ac|nm dt];
    simpl in Hm, H; try (by apply Hskip); try done;
    try (destruct (acc =? reward_account); [|by apply Hskip];
      apply solvent_skip in Hs; [|done]; apply Hsys;
      by apply (reward_solvent n _ _ _ _ _ _ es) in H; [exact H|done..|by split|done|done]).
  - destruct Hm as [-> Hm]. rewrite Z.eqb_refl in H. apply Hsys.
    eapply transfer_solvent; [exact P| | |apply Hs|exact H]; [done|].
    intros p. by eapply pending_transfer.
  - destruct (acc =? token_account); [|by apply Hskip]. apply solvent_skip in Hs; [|done].
    apply Hsys. by eapply (token_solvent n) in H.
  - destruct (acc =? system_account) eqn:Ea; [|by apply Hskip]. apply solvent_skip in Hs; [|done].
    apply Z.eqb_eq in Ea. subst acc. eapply (fee_solvent n) in H; try done.
    split_and!; try done. intros a Ha. simpl. rewrite Hm. apply bool_decide_false.
    intros ->%list_elem_of_singleton. by apply holders_system.
Qed.

Lemma fold_money n d h c es : forall ch ch',
  host_ok h -> indeterminate_i64 c = 0 -> n < 2 ^ 32 - 1 -> parts n ch ->
  Forall (money_effect (core ch)) es -> solvent es ch ->
  fold_res (send_inline (process d h) c) ch es = Ok ch' -> solvent [] ch'.
Proof.
  induction es as [|e es IH]; intros ch ch' Hh Hind Hn P Hes Hs H; simpl in H.
  { by injection H as <-. }
  apply Forall_cons in Hes as [He Hes]. apply bind_Ok in H as (ch1 & H1 & H).
  eapply (inline_money n) in H1 as (P1 & E & S1); try done.
  eapply IH; [..|exact H]; try done. by rewrite E.
Qed.
(** ** Actions *)

(** Before [init] nothing is owed. *)
Lemma owes_uninit n ch p :
  parts n ch -> is_init (stored (sys ch)) = false -> p <> Rewards -> owes p ch = 0.
Proof.
  intros [P1 P2 _ _] Hi Hp. destruct (stored_ok n (sys ch) P1 P2) as [Hv _ _ Hnm _ _ _ _].
  destruct p; try done; simpl.
  - destruct (vi_uninit _ _ Hv Hi) as [E1 E2]. unfold held, staked, refunds_sum.
    by rewrite (vi_total _ _ Hv), E1, E2.
  - destruct (ni_uninit _ _ Hnm Hi) as [E1 E2]. unfold owed. by rewrite E1, E2.
Qed.

Lemma free_net a es : (forall pays, Forall (calm_effect pays) es) -> net a es = 0.
Proof.
  intros H. specialize (H (fun _ _ => False)). unfold net. induction H as [|e es He _ IH]; [done|].
  destruct e as [[? ? []]| | | | | | | | | |]; try done. by destruct He.
Qed.

(** What flon.system sends moves money only by transfers of core tokens. *)
Lemma sends_money n s o es :
  0 <= n -> sys_inv n s ->
  match o with Addvote _ q | Subvote _ q => is_i64 (amount q) | _ => True end ->
  vote_sends o s es -> Forall (money_effect (core_of (stored s))) es.
Proof.
  intros Hn Hinv Hty H.
  assert (Hcalm : Forall (calm_effect (core_payment (core_of (stored s)))) es ->
    Forall (money_effect (core_of (stored s))) es)
    by (intros Hc; eapply Forall_impl; [exact Hc|]; apply calm_money).
  destruct o; simpl in H; try by apply Hcalm.
  - subst es. by repeat constructor.
  - destruct H as (_ & Hk & Hs & ->). constructor; [by split|]. constructor; [exact Hty|done].
  - destruct H as (e & -> & He). constructor; [done|]. constructor; [by destruct e|done].
  - destruct H as (r & Hr & ->). constructor; [|done]. split; [done|].
    split; [by apply (names_differ 4 5)|].
    destruct (stored_ok n s Hn Hinv) as [Hv _ _ _ _ _ _ _]. by destruct (vi_refunds _ _ Hv _ _ Hr).
Qed.

Lemma system_money n h c o ch ch1 es :
  host_ok h -> get_self c = system_account -> (forall a, a ∈ holders -> has_auth c a = false) ->
  match o with Addvote _ q | Subvote _ q | Bidname _ _ q | Cfgelection _ _ q => is_i64 (amount q)
  | _ => True end ->
  n + registers o < 2 ^ 32 - 1 -> parts n ch -> solvent [] ch ->
  apply_msg h c (ToSystem o) ch = Ok (ch1, es) ->
  parts (n + registers o) ch1 /\ solvent es ch1 /\ Forall (money_effect (core ch1)) es.
Proof.
  intros Hh Hself Hq Hty Hn P [S1 S2] H. pose proof P as [P1 P2 P3 P4]. simpl in H.
  apply bind_Ok in H as ([s es1] & H & [= <- <-]). set (e := System.Env _ _ _ _ _) in H.
  assert (Hop : System.op_ok (e, o)) by (split; [exact Hh|by destruct o]).
  assert (Hq' : holders_quiet e /\ has_auth c reward_account = false)
    by (unfold holders_quiet; split_and!; apply Hq; set_solver).
  destruct Hq' as [Hq1 Hq2].
  destruct (exec_step Hmem n e o (sys ch) s es1) as (A1 & A2 & A3 & A4); try done.
  destruct (system_exec_book n e o (sys ch) s es1) as (_ & B2 & B3); try done.
  assert (Hm : Forall (money_effect (core ch)) es1)
    by (eapply (sends_money n _ o); try done; by destruct o).
  split; [split; simpl; try done; unfold registers; destruct o; lia|].
  set (ch1 := Chain s (token ch) (reward ch)).
  destruct (decide (core ch1 = core ch)) as [Ec|Ec].
  - rewrite Ec. split; [|done]. split; [|exact S2]. intros p. specialize (S1 p).
    rewrite pending_nil in S1. assert (Ef : funds p ch1 = funds p ch)
      by (unfold funds; destruct p; unfold currency; rewrite ?Ec; done).
    rewrite Ef. destruct p; simpl in *; lia.
  - destruct (votes_op o) eqn:Hv; [by destruct Ec; apply B3|].
    destruct (exec_core e o (sys ch) s es1 Hv Hself H) as [C|[_ C]]; [done|].
    split; [|by eapply Forall_impl; [apply C|apply calm_money]].
    assert (Hi : is_init (stored (sys ch)) = false).
    { destruct (is_init (stored (sys ch))) eqn:Hi; [|done]. destruct Ec. unfold core, stored in *.
      destruct (global (sys ch)) as [g|] eqn:Eg; simpl in *; [by apply (A4 g)|].
      unfold is_init in Hi. simpl in Hi. by rewrite law_symbol_default in Hi. }
    split; [|exact S2]. intros p.
    pose proof (Token.balance_of_nonneg (token ch) (holder p) (symbol_code (currency p ch1)) P4) as Hf.
    pose proof (owes_uninit n ch p P Hi) as Ho. pose proof (free_net (holder p) es1 C) as Hz.
    destruct p; simpl in *; [specialize (Ho ltac:(done))..|]; try (unfold funds; simpl; lia).
    specialize (S1 Rewards). exact S1.
Qed.
(** A claim pays from flon.reward what it books as claimed. *)
Lemma claim_solvent n c k who ch r es :
  parts n ch -> get_self c = reward_account -> solvent [] ch ->
  (_ ← Reward.check_init (reward ch); _ ← require_auth c who; Reward.claim_rewards c (reward ch) k)
    = Ok (r, es) ->
  RewardInv.inv r /\ exists q, 
    es = [send token_account [PermissionLevel reward_account Reward.ACTIVE_PERM]
            (token_transfer reward_account k q "voted rewards")] /\
    let ch1 := Chain (sys ch) (token ch) r in
    (forall p, owes p ch1 <= funds p ch1 + moved p ch1 reward_account k q + pending p []) /\
    (0 < amount (Reward.gstate r) -> token_has (token ch) (Reward.core_symbol r)).
Proof.
  intros [P1 P2 P3 P4] Hself [S1 S2] H.
  apply bind_Ok in H as (u & Hini%RewardProps.check_init_Ok & H). apply bind_Ok in H as (_ & _ & H).
  destruct (RewardProps.claim_step c (reward ch) k r es P3 Hini H) as [Hinv Hcl].
  rewrite RewardProps.claim_rewards_eq, Hself in H by done. split; [done|].
  destruct (Reward.voters (reward ch) !! k) as [v|] eqn:Hk; [|done].
  apply bind_Ok in H as (? & Hd%check_Ok%Z.ltb_lt & [= <- <-]). eexists. split; [done|].
  assert (Hg : Reward.gstate (RewardProps.claim_post c (reward ch) k v) = Reward.gstate (reward ch)).
  { unfold RewardProps.claim_post. by case_match. }
  simpl. split; [|unfold Reward.core_symbol; rewrite Hg; exact S2].
  intros p. specialize (S1 p). unfold moved, funds, currency, owes, unclaimed, Reward.core_symbol, core in *.
  destruct p; simpl in *; rewrite ?Hg.
  - rewrite (proj2 (Z.eqb_neq vote_account reward_account)) by by apply (names_differ 4 5).
    repeat case_match; try lia.
  - rewrite (proj2 (Z.eqb_neq names_account reward_account)) by by apply (names_differ 6 5).
    repeat case_match; try lia.
  - rewrite bool_decide_true, Z.eqb_refl by done. rewrite Hcl. unfold RewardProps.paid. simpl.
    destruct (_ =? k); lia.
Qed.
(** ** Transactions *)

Lemma claim_process n d h c o ch ch' :
  parts n ch -> indeterminate_i64 c = 0 -> get_self c = reward_account -> solvent [] ch ->
  match o with RewardProps.op_claimrewards _ | RewardProps.op_claimfor _ _ => True | _ => False end ->
  process d h c (ToReward o) ch = Ok ch' -> solvent [] ch'.
Proof.
  intros P Hind Hself Hs Ho H. destruct d; [done|]. cbn [process] in H.
  apply bind_Ok in H as ([ch1 es] & Ha & H). rewrite notify_silent in H by done.
  cbn [mbind result_bind] in H. simpl in Ha. apply bind_Ok in Ha as (_ & _ & Ha).
  apply bind_Ok in Ha as ([r es1] & Ha & [= <- <-]).
  assert (Hc : exists k who, (_ ← Reward.check_init (reward ch); _ ← require_auth c who;
    Reward.claim_rewards c (reward ch) k) = Ok (r, es1)) by (destruct o; try done; eauto).
  destruct Hc as (k & who & Hc). eapply (claim_solvent n) in Hc as (Hr & q & -> & H1 & H2); try done.
  cbn -[process] in H. rewrite Z.eqb_refl in H. apply bind_Ok in H as (ch2 & H & [= <-]).
  eapply (transfer_solvent n) in H; try done; [apply H|]. destruct P; by split.
Qed.

Lemma tx_money n ch t ch' :
  tx_ok t -> parts n ch -> n + msg_registers (tx_msg t) < 2 ^ 32 - 1 -> solvent [] ch ->
  run_tx ch t = Ok ch' -> solvent [] ch'.
Proof.
  intros [T1 T2 T3 T4 T5 T6 T7] P Hn Hs H. unfold run_tx in H.
  destruct (tx_msg t) as [o|o|o] eqn:Em; simpl in T1, T6.
  - destruct (tx_depth t); [done|]. cbn [process] in H.
    apply bind_Ok in H as ([ch1 es] & Ha & H). apply bind_Ok in H as (ch2 & ->%fold_notify_system & H).
    assert (Hr : msg_registers (ToSystem o) = registers o) by by destruct o. rewrite Hr in Hn.
    apply (system_money n) in Ha as (P1 & S1 & F1); try done.
    by eapply fold_money.
  - destruct (notifies (ToToken o)) eqn:Ho.
    + destruct o; try discriminate Ho.
      assert (Hf : (from ∉ holders) /\ 0 < amount quantity).
      { pose proof H as H'. destruct (tx_depth t); [done|]. cbn [process] in H'.
        apply bind_Ok in H' as ([ch1 es] & Ha & _). apply bind_Ok in Ha as ([t1 es1] & Ha & _).
        apply Token.transfer_Ok in Ha as (_ & Hauth & _ & (_ & Hpos & _) & _); [|apply P|done].
        split; [|done]. intros Hin. by rewrite T3 in Hauth. }
      destruct Hf as [Hf Hpos]. eapply (transfer_solvent n) in H; try done; [apply H| |apply Hs].
      intros p. destruct Hs as [S1 _]. specialize (S1 p). unfold moved.
      rewrite (proj2 (Z.eqb_neq (holder p) from)) by (intros <-; apply Hf, holder_in).
      case_bool_decide; [|lia]. destruct (_ =? _), p; lia.
    + eapply (token_solvent n) in H; try done; [apply H..|by destruct o].
  - pose proof (reward_tx_free _ _ _ _ _ _ T7 H) as Hfree. destruct o; try discriminate Hfree.
    + apply (reward_solvent n _ _ _ _ _ _ []) in H; try done; apply H.
    + apply (reward_solvent n _ _ _ _ _ _ []) in H; try done; apply H.
    + by eapply (claim_process n); [..|exact H].
    + by eapply (claim_process n); [..|exact H].
Qed.

Lemma run_money l : forall n ch ch',
  Forall tx_ok l -> n + registered_keys l < 2 ^ 32 - 1 -> chain_inv n ch -> solvent [] ch ->
  run l ch = Ok ch' -> solvent [] ch'.
Proof.
  induction l as [|t l IH]; intros n ch ch' Hl Hn Hi Hs H; unfold run in H; simpl in H.
  { by injection H as <-. }
  apply Forall_cons in Hl as [Ht Hl]. apply bind_Ok in H as (ch1 & H1 & H).
  unfold registered_keys in *. simpl in *. fold (registered_keys l) in *.
  pose proof (registered_nonneg l). pose proof H1 as H2.
  apply (tx_step Hmem n) in H1; [|done|done|lia].
  apply (tx_money n) in H2; [|done|apply Hi|lia|done].
  eapply IH; [done| |exact H1|done|exact H]. lia.
Qed.

Lemma solvent_init : solvent [] init_chain.
Proof. split; [|done]. by intros []. Qed.

(** What a reachable state satisfies *)
Lemma reachable_solvent ch :
  chain_reachable ch -> exists n, n < 2 ^ 32 - 1 /\ chain_inv n ch /\ solvent [] ch.
Proof.
  intros Hr. pose proof Hr as (n & Hn & Hi)%(chain_reachable_inv Hmem). exists n. split_and!; [done..|].
  destruct Hr as (l & [Hl Hk] & H). eapply (run_money l 0); [done|exact Hk| |apply solvent_init|done].
  apply chain_inv_init.
Qed.
(** ** Paying *)

Lemma due_nonneg st k v :
  RewardInv.inv st -> Reward.voters st !! k = Some v ->
  0 <= RewardProps.due (Reward.core_symbol st) (Reward.producers st) v.
Proof.
  intros Hinv Hk. pose proof (RewardInv.inv_voters _ _ _ _ (RewardInv.inv_core _ Hinv) _ _ Hk) as Hv.
  pose proof Hv as []. unfold RewardProps.due.
  assert (Hst : forall p i, (p, i) ∈ Reward.v_producers v -> Reward.last_rewards_per_vote i <=
    Reward.rewards_per_vote (Reward.row_at (Reward.core_symbol st) (Reward.producers st) p)).
  { intros p i Hin. specialize (vo_last p). rewrite (RewardInv.stake_elem v p i) in vo_last by done.
    simpl in vo_last. lia. }
  enough (0 <= RewardInv.earned (Reward.core_symbol st) (Reward.producers st) (Reward.v_votes v)
    (Reward.v_producers v)) by lia.
  revert Hst. generalize (Reward.v_producers v) as l. intros l Hst.
  induction l as [|[p i] ps IH]; simpl; [lia|].
  assert (0 <= Reward.payout (Reward.v_votes v) (Reward.rewards_per_vote (Reward.row_at
    (Reward.core_symbol st) (Reward.producers st) p) - Reward.last_rewards_per_vote i)).
  { unfold Reward.payout. apply Z.div_pos; [|done]. specialize (Hst p i ltac:(set_solver)). nia. }
  enough (0 <= RewardInv.earned (Reward.core_symbol st) (Reward.producers st) (Reward.v_votes v) ps)
    by lia.
  apply IH. intros q j Hq. apply Hst. set_solver.
Qed.

(** An account that holds what it owes can pay a part of it. *)
Lemma holder_pays n ch p q to memo c :
  parts n ch -> solvent [] ch -> 0 < amount q <= max_amount -> amount q <= owes p ch ->
  asset_symbol q = currency p ch -> token_has (token ch) (currency p ch) ->
  to <> holder p -> is_account c to = true -> has_auth c (holder p) = true ->
  Z.of_nat (String.length memo) <= 256 ->
  Token.transfer c (token ch) (holder p) to q memo =
  Ok (Token.transfer_post (token ch) (holder p) to q,
      [RequireRecipient (holder p); RequireRecipient to]).
Proof.
  intros [_ _ _ P] [S _] Ha Ho Es (row & Hrow & Hrs) Hto Hacc Hauth Hm. specialize (S p).
  rewrite pending_nil in S. pose proof (Token.inv_stats _ P _ _ Hrow) as [_ _ Hval _ _].
  apply Token.transfer_Ok; [done|unfold_ints; unfold max_amount in *; lia|].
  split_and!; try done.
  - split_and!; [|lia|done|exists row; by rewrite Es, Hrs].
    apply law_asset_valid. split; [unfold_range; lia|]. by rewrite Es, <- Hrs.
  - unfold Token.can_pay. rewrite Es. unfold funds, Token.balance_of in S.
    destruct (Token.accounts (token ch) !! _) as [a|]; simpl in S; [|lia]. exists a. split; [done|lia].
Qed.

(** A transfer out of a purse to another account than flon.reward sets nothing off, if the account
    does not refuse it. *)
Definition paid (h : host) (from to : name) (q : asset) (memo : string) (ch : chain) : result chain :=
  ensure accepts_transfer h to from to q memo else "aborted by the notified contract"; mret ch.

Lemma transfer_process depth h c p to q memo ch t' :
  Token.transfer c (token ch) (holder p) to q memo =
    Ok (t', [RequireRecipient (holder p); RequireRecipient to]) ->
  to <> reward_account ->
  process (S depth) h c (ToToken (Token.op_transfer (holder p) to q memo)) ch =
  paid h (holder p) to q memo (Chain (sys ch) t' (reward ch)).
Proof.
  intros H Hto. cbn [process apply_msg Token.exec]. rewrite H. cbn [mbind result_bind mret result_ret fold_res].
  assert (E : notify h c (ToToken (Token.op_transfer (holder p) to q memo)) (Chain (sys ch) t' (reward ch))
    (RequireRecipient (holder p)) = Ok (Chain (sys ch) t' (reward ch))).
  { cbn [notify]. destruct (Z.eqb_spec (holder p) reward_account) as [E|E].
    - cbn [RewardProps.exec]. unfold Reward.ontransfer. cbn [get_self notified_ctx with_auth].
      rewrite (Z.eqb_refl (holder p)), andb_false_r. done.
    - unfold accepts_transfer. rewrite (bool_decide_eq_true_2 (_ ∈ _)); [done|].
      unfold without_handler. rewrite !elem_of_cons. destruct p; simpl in *; [tauto|tauto|done]. }
  rewrite E. cbn [mbind result_bind]. cbn [notify]. rewrite (proj2 (Z.eqb_neq _ _) Hto).
  unfold paid. by destruct (accepts_transfer _ _ _ _ _ _).
Qed.

(** An action that sends one transfer to such an account *)
Lemma sends_one depth h c m ch ch1 p auth to q memo :
  apply_msg h c m ch = Ok (ch1, [send token_account auth (token_transfer (holder p) to q memo)]) ->
  notifies m = false -> token ch1 = token ch -> to <> reward_account ->
  Token.transfer (inline_ctx token_account auth c) (token ch) (holder p) to q memo =
    Ok (Token.transfer_post (token ch) (holder p) to q,
        [RequireRecipient (holder p); RequireRecipient to]) ->
  process (S (S depth)) h c m ch =
  paid h (holder p) to q memo
    (Chain (sys ch1) (Token.transfer_post (token ch) (holder p) to q) (reward ch1)).
Proof.
  intros Ha Hm Et Hto Ht. remember (S depth) as d eqn:Ed. cbn [process]. rewrite Ha.
  cbn [mbind result_bind]. rewrite notify_silent by done. subst d. cbn -[process].
  rewrite Z.eqb_refl. rewrite <- Et in Ht.
  rewrite (transfer_process _ _ _ p _ _ _ ch1 _ Ht Hto), Et. by destruct (paid _ _ _ _ _ _).
Qed.

(** The payment goes through if the payee accepts it, otherwise the whole transaction is undone. *)
Lemma paid_or_refused h from to q memo r ch (P : chain -> Prop) :
  r = paid h from to q memo ch -> P ch ->
  if accepts_transfer h to from to q memo then exists ch', r = Ok ch' /\ P ch' else is_ok r = false.
Proof.
  intros -> HP. unfold paid. destruct (accepts_transfer _ _ _ _ _ _); [by exists ch|done].
Qed.

Lemma voterefund_exec e k r s :
  r_owner r = k -> k <> vote_account -> 0 < amount (vote_staked r) <= max_amount ->
  vote_refunds (voting s) !! (k, k) = Some r ->
  (request_time r + refund_delay_sec) * 1000000 <= current_time_point (env_ctx e) ->
  exists s', System.exec e (Voterefund k) s = Ok (s', [send token_account
      [active_of vote_account] (token_transfer vote_account k (vote_staked r) "voterefund")]) /\
    vote_refunds (voting s') = delete (k, k) (vote_refunds (voting s)).
Proof.
  intros Eo Hk Ha Hr Hmat. unfold System.exec. cbn [handler]. unfold on_voting.
  rewrite (proj2 (voterefund_Ok (env_ctx e) (voting s) k
    (State (voters (voting s)) (producers (voting s)) (delete (k, k) (vote_refunds (voting s)))) _)
    (ex_intro _ r (conj Hr (conj Hmat (conj eq_refl eq_refl))))).
  rewrite Eo. cbn [mbind result_bind mret result_ret].
  assert (E : transfers_allowed [send token_account [active_of vote_account]
    (token_transfer vote_account k (vote_staked r) "voterefund")] = true).
  { unfold transfers_allowed. simpl. rewrite (proj2 (Z.eqb_neq vote_account k)) by congruence.
    rewrite (proj2 (Z.ltb_lt _ _)), (proj2 (Z.leb_le _ _)) by lia. done. }
  rewrite E. by eexists.
Qed.

Lemma bidrefund_exec e b nn r s :
  bidder r = b -> b <> names_account -> 0 < amount (refund_amount r) <= max_amount ->
  bid_refunds (names s) !! (nn, b) = Some r ->
  exists s', System.exec e (Bidrefund b nn) s = Ok (s', [send token_account
      [active_of names_account; active_of b]
      (token_transfer names_account b (refund_amount r) ("refund bid on name " +:+ name_to_string nn))]) /\
    bid_refunds (names s') = delete (nn, b) (bid_refunds (names s)).
Proof.
  intros Eb Hb Ha Hr. unfold System.exec. cbn [handler]. unfold on_names.
  rewrite (proj2 (bidrefund_Ok (names s) b nn _ _) (ex_intro _ r (conj Hr (conj eq_refl eq_refl)))).
  cbn [mbind result_bind mret result_ret]. unfold transfers_allowed. simpl.
  rewrite (proj2 (Z.eqb_neq names_account b)) by congruence.
  rewrite (proj2 (Z.ltb_lt _ _)), (proj2 (Z.leb_le _ _)) by lia. simpl. by eexists.
Qed.

(** What waits for a voter or a bidder is part of what is owed. *)
Lemma refund_owed n ch k r :
  chain_inv n ch -> vote_refunds (voting (sys ch)) !! (k, k) = Some r ->
  r_owner r = k /\ asset_symbol (vote_staked r) = core ch /\
  0 < amount (vote_staked r) <= max_amount /\ token_has (token ch) (core ch) /\
  amount (vote_staked r) <= owes Stakes ch.
Proof.
  intros [[P1 P2 _ _] _ Hc] Hr. destruct (stored_ok n (sys ch) P1 P2) as [Hv _ _ _ _ _ _ _].
  destruct (vi_refunds _ _ Hv _ _ Hr) as [Hk Hs Ha].
  assert (Hi : is_init (stored (sys ch)) = true).
  { destruct (is_init _) eqn:Hi; [done|]. destruct (vi_uninit _ _ Hv Hi) as [_ E]. by rewrite E in Hr. }
  split_and!; [congruence|done|lia|lia|by apply Hc|]. simpl. unfold held, staked, refunds_sum.
  assert (Hpos : forall k r, vote_refunds (voting (sys ch)) !! k = Some r -> 0 <= amount (vote_staked r))
    by (intros k' r' Hr'; destruct (vi_refunds _ _ Hv _ _ Hr'); lia).
  pose proof (msum_member (fun _ r => amount (vote_staked r)) _ _ _ Hpos Hr) as Hm. simpl in Hm.
  pose proof (votes_for_bounds _ _ 0 Hv). lia.
Qed.

Lemma bid_owed n ch nn b r :
  chain_inv n ch -> bid_refunds (names (sys ch)) !! (nn, b) = Some r ->
  bidder r = b /\ asset_symbol (refund_amount r) = core ch /\
  0 < amount (refund_amount r) <= max_amount /\ token_has (token ch) (core ch) /\
  amount (refund_amount r) <= owes Bids ch.
Proof.
  intros [[P1 P2 _ _] _ Hc] Hr. destruct (stored_ok n (sys ch) P1 P2) as [_ _ _ Hnm _ _ _ _].
  destruct (ni_refunds _ _ Hnm _ _ Hr) as [Hk Ha Hs].
  assert (Hi : is_init (stored (sys ch)) = true).
  { destruct (is_init _) eqn:Hi; [done|]. destruct (ni_uninit _ _ Hnm Hi) as [_ E]. by rewrite E in Hr. }
  split_and!; [done|done|lia|lia|by apply Hc|]. simpl. unfold owed.
  assert (Hpos : forall k r, bid_refunds (names (sys ch)) !! k = Some r -> 0 <= amount (refund_amount r))
    by (intros k' r' Hr'; destruct (ni_refunds _ _ Hnm _ _ Hr'); lia).
  pose proof (msum_member (fun _ r => amount (refund_amount r)) _ _ _ Hpos Hr) as Hm. simpl in Hm.
  assert (0 <= msum (fun _ b => open_amount b) (NameBid.bids (names (sys ch)))); [|lia].
  apply msum_nonneg. intros k' b' Hb. eapply open_amount_bounds, (ni_bids _ _ Hnm), Hb.
Qed.

Lemma due_owed n ch k v :
  parts n ch -> Reward.voters (reward ch) !! k = Some v ->
  let q := RewardProps.due (Reward.core_symbol (reward ch)) (Reward.producers (reward ch)) v in
  q <= owes Rewards ch <= amount (Reward.gstate (reward ch)) /\
  amount (Reward.gstate (reward ch)) <= max_amount.
Proof.
  intros [_ _ P _] Hk q. pose proof (RewardInv.inv_core _ P) as Hi. simpl. unfold unclaimed.
  pose proof (RewardProps.due_covered _ _ _ _ Hi) as Hd.
  assert (Hpos : forall k v, Reward.voters (reward ch) !! k = Some v ->
    0 <= RewardProps.due (Reward.core_symbol (reward ch)) (Reward.producers (reward ch)) v)
    by (intros k' v' Hk'; by eapply due_nonneg).
  pose proof (msum_member (fun _ v => RewardProps.due (Reward.core_symbol (reward ch))
    (Reward.producers (reward ch)) v) _ _ _ Hpos Hk) as Hm. simpl in Hm. fold q in Hm.
  assert (0 <= RewardInv.claimed_sum (Reward.voters (reward ch))).
  { apply msum_nonneg. intros k' v' Hk'. by apply (RewardInv.inv_voters _ _ _ _ Hi _ _ Hk'). }
  pose proof (RewardInv.inv_max _ _ _ _ Hi). lia.
Qed.

(** ** The theorems *)

(** C1 (what is owed is there).  After any sequence of transactions the balances that
    flon.token keeps cover what is owed: flon.vote holds at least all staked votes and all
    refunds that wait, flon.names all open bids and all refunds to outbid bidders, and
    flon.reward everything that all voters together could claim. *)
Theorem purses_covered ch g :
  chain_reachable ch -> global (sys ch) = Some g ->
  let core := symbol_code (asset_symbol (total_vote_stake g)) in
  let symbol := Reward.core_symbol (reward ch) in
  amount (total_vote_stake g) + refunds_sum (vote_refunds (voting (sys ch))) <=
    Token.balance_of (token ch) vote_account core /\
  NameBid.owed (names (sys ch)) <= Token.balance_of (token ch) names_account core /\
  msum (fun _ v => RewardProps.due symbol (Reward.producers (reward ch)) v) (Reward.voters (reward ch))
    <= Token.balance_of (token ch) reward_account (symbol_code symbol).
Proof.
  intros (n & Hn & [P _ _] & [S _])%reachable_solvent Hg.
  assert (Hs : forall p, owes p ch <= funds p ch) by (intros p; specialize (S p); by rewrite pending_nil, Z.add_0_r in S).
  split_and!.
  - specialize (Hs Stakes). unfold funds in Hs. simpl in Hs. unfold held, staked, core, stored in Hs.
    by rewrite Hg in Hs.
  - specialize (Hs Bids). unfold funds in Hs. simpl in Hs. unfold core, stored in Hs. by rewrite Hg in Hs.
  - etrans; [|exact (Hs Rewards)].
    apply (RewardProps.due_covered _ _ _ _ (RewardInv.inv_core _ (pt_reward _ _ P))).
Qed.
(** C4 (refunds are paid).  After any sequence of transactions, once the delay of a refund has
    passed, [voterefund] succeeds together with the inline transfer it sends, unless a contract on the owner's
    account refuses the transfer: the refund is erased and flon.vote has paid its owner the
    staked quantity.  If it refuses, nothing happens, and the refund waits. *)
Theorem refund_paid ch k r depth h c :
  chain_reachable ch -> vote_refunds (voting (sys ch)) !! (k, k) = Some r ->
  (request_time r + refund_delay_sec) * 1000000 <= current_time_point c ->
  is_account c k = true -> k <> vote_account -> k <> reward_account ->
  let result := process (S (S depth)) h c (ToSystem (Voterefund k)) ch in
  if accepts_transfer h k vote_account k (vote_staked r) "voterefund" then
    exists ch', result = Ok ch' /\
      vote_refunds (voting (sys ch')) = delete (k, k) (vote_refunds (voting (sys ch))) /\
      token ch' = Token.transfer_post (token ch) vote_account k (vote_staked r) /\
      reward ch' = reward ch
  else is_ok result = false.
Proof.
  intros (n & Hn & Hinv & Hs)%reachable_solvent Hr Hmat Hacc Hk1 Hk2.
  destruct (refund_owed n ch k r Hinv Hr) as (Eo & Es & Ha & Ht & Hle).
  destruct (voterefund_exec (System.Env c (parameters h) (token ch) (reward ch) (addresses h)) k r
    (sys ch)) as (s' & He & Ev); try done.
  intros result.
  apply (paid_or_refused h vote_account k (vote_staked r) "voterefund" result
    (Chain s' (Token.transfer_post (token ch) vote_account k (vote_staked r)) (reward ch)));
    [|by split_and!].
  apply (sends_one _ _ _ _ _ (Chain s' (token ch) (reward ch)) Stakes [active_of vote_account] _ _ "voterefund");
    try done.
  - cbn [apply_msg]. by rewrite He.
  - eapply (holder_pays n); try done; [apply Hinv|]. by apply bool_decide_true, list_elem_of_singleton.
Qed.

(** C6 (bids are paid back).  After any sequence of transactions [bidrefund] succeeds for every
    outbid bidder together with the inline transfer it sends, unless a contract on his account refuses the
    transfer: the refund is erased and flon.names has paid him what was kept for him.  If it
    refuses, nothing happens. *)
Theorem bid_refund_paid ch b nn r depth h c :
  chain_reachable ch -> bid_refunds (names (sys ch)) !! (nn, b) = Some r ->
  Z.of_nat (String.length (name_to_string nn)) <= 13 ->
  is_account c b = true -> b <> names_account -> b <> reward_account ->
  let result := process (S (S depth)) h c (ToSystem (Bidrefund b nn)) ch in
  if accepts_transfer h b names_account b (refund_amount r) ("refund bid on name " +:+ name_to_string nn) then
    exists ch', result = Ok ch' /\
      bid_refunds (names (sys ch')) = delete (nn, b) (bid_refunds (names (sys ch))) /\
      token ch' = Token.transfer_post (token ch) names_account b (refund_amount r) /\
      reward ch' = reward ch
  else is_ok result = false.
Proof.
  intros (n & Hn & Hinv & Hs)%reachable_solvent Hr Hlen Hacc Hk1 Hk2.
  destruct (bid_owed n ch nn b r Hinv Hr) as (Eo & Es & Ha & Ht & Hle).
  destruct (bidrefund_exec (System.Env c (parameters h) (token ch) (reward ch) (addresses h)) b nn r
    (sys ch)) as (s' & He & Ev); try done.
  intros result.
  apply (paid_or_refused h names_account b (refund_amount r) ("refund bid on name " +:+ name_to_string nn) result
    (Chain s' (Token.transfer_post (token ch) names_account b (refund_amount r)) (reward ch)));
    [|by split_and!].
  apply (sends_one _ _ _ _ _ (Chain s' (token ch) (reward ch)) Bids [active_of names_account; active_of b]
    _ _ ("refund bid on name " +:+ name_to_string nn)); try done.
  - cbn [apply_msg]. by rewrite He.
  - eapply (holder_pays n); try done; [apply Hinv| |].
    + apply bool_decide_true. set_solver.
    + change (Z.of_nat (19 + String.length (name_to_string nn)) <= 256). lia.
Qed.

(** C5 (claims are paid).  After any sequence of transactions [claimrewards] succeeds for every
    voter who is due a positive amount, together with the inline transfer it sends, unless a contract on his
    account refuses the transfer: his rewards are settled and flon.reward has paid him exactly what was
    due.  If it refuses, nothing happens. *)
Theorem claim_paid ch k v depth h c :
  chain_reachable ch -> Reward.voters (reward ch) !! k = Some v ->
  let symbol := Reward.core_symbol (reward ch) in
  let q := RewardProps.due symbol (Reward.producers (reward ch)) v in
  0 < q -> has_auth c k = true -> get_self c = reward_account ->
  is_account c k = true -> k <> reward_account ->
  let result := process (S (S depth)) h c (ToReward (RewardProps.op_claimrewards k)) ch in
  if accepts_transfer h k reward_account k (Asset q symbol) "voted rewards" then
    exists ch', result = Ok ch' /\
      sys ch' = sys ch /\ reward ch' = RewardProps.claim_post c (reward ch) k v /\
      token ch' = Token.transfer_post (token ch) reward_account k (Asset q symbol)
  else is_ok result = false.
Proof.
  intros (n & Hn & [P Hag Hc] & Hs)%reachable_solvent Hk symbol q Hq Hauth Hself Hacc Hne.
  destruct (due_owed n ch k v P Hk) as [Hle Hmax]. fold symbol q in Hle.
  pose proof (pt_reward _ _ P) as Hinv.
  assert (Hini : RewardProps.initialised (reward ch)).
  { unfold RewardProps.initialised, Reward.core_symbol, Reward.gstate.
    destruct (Reward.global (reward ch)) as [g|] eqn:Eg; [by apply (RewardInv.inv_sym _ Hinv)|].
    destruct (RewardInv.inv_init _ Hinv Eg) as [E _]. by rewrite E in Hk. }
  intros result.
  apply (paid_or_refused h reward_account k (Asset q symbol) "voted rewards" result
    (Chain (sys ch) (Token.transfer_post (token ch) reward_account k (Asset q symbol))
      (RewardProps.claim_post c (reward ch) k v))); [|by split_and!].
  apply (sends_one _ _ _ _ _ (Chain (sys ch) (token ch) (RewardProps.claim_post c (reward ch) k v))
      Rewards [PermissionLevel reward_account Reward.ACTIVE_PERM] _ _ "voted rewards"); try done.
  - cbn [apply_msg RewardProps.exec]. unfold Reward.claimrewards.
      rewrite (proj2 (RewardProps.check_init_Ok (reward ch) tt) Hini).
      cbn [mbind result_bind]. unfold require_auth. rewrite Hauth. cbn [check mbind result_bind].
      rewrite RewardProps.claim_rewards_eq, Hk by done. fold symbol q.
      rewrite (proj2 (Z.ltb_lt _ _) Hq), Hself. done.
  - simpl in Hle. eapply (holder_pays n); try done; simpl; [lia|lia|apply Hs; lia|].
      by apply bool_decide_true, list_elem_of_singleton.
Qed.
End money.
