(* ===== verification/ChainBlocks.v ===== *)
(** * The contracts together: blocks are processed

    [onblock] is the one action nobody chooses to send: the chain runs it at the start of every
    block, with everything it sets off.  From every reachable state it succeeds, whatever the
    votes, the finalizer keys and the auctions have come to, until the rewards have halved 64
    times. *)
From S2P Require Import Prelude Table Cdt CdtRef SystemData NameBid.
From S2P Require Import Finalizer FinalizerProps Voting VotingProps Election.
From S2P Require Token Reward RewardInv RewardProps BlockInfo.
From S2P Require Import ProducerPay Admin System SystemInv VoteBook Chain ChainSteps ChainProps ChainDepth ChainMoney.
From Stdlib Require Import ZArith Lia String.
From stdpp Require Import base tactics numbers list gmap strings.
Open Scope Z_scope.

Section blocks.
Context {cdt : Cdt} {bls : Bls} {memory : Memory} {serializer : Serializer}.
Context {laws : CdtLaws} (Hmem : disengaged = []).

(** ** The steps of [onblock] *)

(** Effects for the host alone *)
Definition for_host (e : effect) : Prop :=
  match e with SetProposedProducers _ | SetFinalizers _ _ => True | _ => False end.

Lemma for_host_skipped go c es es' ch :
  Forall for_host es -> fold_res (send_inline go c) ch (es ++ es') = fold_res (send_inline go c) ch es'.
Proof. induction es as [|e es IH]; intros Hes; [done|]. inversion Hes; subst. destruct e; try done; by apply IH. Qed.

Lemma for_host_transfers es es' : Forall for_host es -> transfers_of (es ++ es') = transfers_of es'.
Proof. induction es as [|e es IH]; intros Hes; [done|]. inversion Hes; subst. destruct e; try done; by apply IH. Qed.

(** The reward of a block is computed as long as the divisor is not zero. *)
Lemma pay_runs g st p now :
  rewards_inv g (producers st) ->
  (reward_started_time g <> 0 ->
   now < reward_started_time g + 64 * (1000000 * reward_halving_period_seconds)) ->
  exists g' st', pay_block g st p now = Ok (g', st') /\
    total_vote_stake g' = total_vote_stake g /\ last_name_close g' = last_name_close g.
Proof.
  intros (_ & _ & Hini & _) Hnow. unfold pay_block. destruct (producers st !! p) as [i|]; [|by do 2 eexists].
  destruct (Z.eqb_spec (reward_started_time g) 0) as [E0|E0]; [by do 2 eexists|].
  destruct (Z.leb_spec (reward_started_time g) now) as [E1|E1]; [|by do 2 eexists]. cbn [negb andb].
  pose proof (block_reward_spec g now Hini E1) as Hb. specialize (Hnow E0).
  unfold block_reward in Hb. assert (Hk : period_of g now < 64).
  { unfold period_of. apply Z.div_lt_upper_bound; [done|lia]. }
  destruct (Z.leb_spec (period_of g now) 62) as [Hle|Hle].
  - destruct Hb as [-> _]. by do 2 eexists.
  - rewrite (proj2 (Z.eqb_eq (period_of g now) 63)) in Hb by lia. destruct Hb as [-> _]. by do 2 eexists.
Qed.

(** Closing the highest bid, whether or not there is one *)
Definition closes (c : ctx) (core : symbol) (st st' : NameBid.state) (es : list effect) : Prop :=
  st' = st /\ es = [] \/
  exists k b, bids st !! k = Some b /\ 0 < high_bid b <= max_amount /\ st' = close_post st k b /\
    let fee := Asset (high_bid b) core in
    es = [channel_to_system_fees names_account fee;
          send (get_self c) [active_of (get_self c)] (system_logsystemfee names_account fee "buy name")].

Lemma close_runs c g st t :
  NameBid.inv g st ->
  exists g' st' es, close_highest_bid c g st t = Ok (g', st', es) /\
    closes c (asset_symbol (total_vote_stake g)) st st' es.
Proof.
  intros Hinv. destruct (is_init g) eqn:Hini.
  - rewrite close_highest_bid_eq by done. pose proof (highest_bid st (ni_bids _ _ Hinv)) as Hh.
    destruct (lower_bound _ _ _) as [[k b]|]; [|do 3 eexists; split; [done|by left]].
    destruct Hh as (Hk & Ho & _). destruct (ni_bids _ _ Hinv k b Hk) as [_ Ha].
    case_bool_decide; do 3 eexists; (split; [done|]); [right|by left].
    exists k, b. unfold is_open in Ho. split_and!; done || lia.
  - destruct (ni_uninit _ _ Hinv Hini) as [Hb _]. unfold close_highest_bid. rewrite Hb.
    destruct (_ <? _); do 3 eexists; (split; [done|by left]).
Qed.

(** The daily part: the schedule goes to the host, the fee to flon.fees. *)
Lemma schedule_runs n c g s t :
  sys_ok n g s ->
  exists g' s' es es', update_schedule c g s t = Ok (g', s', es ++ es') /\ Forall for_host es /\
    closes c (asset_symbol (total_vote_stake g)) (names s) (names s') es' /\ blocks s' = blocks s.
Proof.
  intros []. unfold update_schedule. destruct (_ <? _);
    [|exists g, s, [], []; split_and!; try done; by left].
  pose proof (update_elected_spec c g (voting s) (finality s) t Hmem ok_voting ok_finality) as Hsp.
  cbn zeta in Hsp. destruct (update_elected_producers c g (voting s) (finality s) t) as [[g1 f1] es1].
  destruct Hsp as (_ & _ & _ & _ & Hsp).
  assert (H1 : total_vote_stake g1 = total_vote_stake g /\ Forall for_host es1).
  { destruct (_ || _); [by destruct Hsp as (-> & -> & _)|].
    destruct Hsp as ((es2 & -> & Hes) & Hsp). split; [naive_solver|]. constructor; [done|].
    eapply Forall_impl; [exact Hes|]. by intros []. }
  destruct H1 as [Eg Hes].
  destruct (close_runs c g1 (names s) t) as (g2 & nm & es2 & -> & Hc).
  { eapply inv_global; [|done]. by rewrite Eg. }
  rewrite Eg in Hc. cbn [mbind result_bind mret result_ret]. by exists g2, (with_names nm (with_finality f1 s)), es1, es2.
Qed.

Lemma closes_allowed c core st st' es es' :
  Forall for_host es -> closes c core st st' es' -> transfers_allowed (es ++ es') = true.
Proof.
  intros Hes Hc. unfold transfers_allowed. rewrite for_host_transfers by done.
  destruct Hc as [[_ ->]|(k & b & _ & Hb & _ & ->)]; [done|]. simpl.
  by rewrite (proj2 (Z.eqb_neq _ _) names_fees), (proj2 (Z.ltb_lt 0 (high_bid b))), (proj2 (Z.leb_le (high_bid b) _)) by lia.
Qed.

(** The action itself, without what it sends *)
Lemma onblock_exec n e ts p prev s :
  0 <= n -> sys_inv n s -> has_auth (env_ctx e) (get_self (env_ctx e)) = true ->
  blocks s !! u32 (BlockInfo.block_height_from_id prev + 1) = None ->
  (reward_started_time (loaded e s) <> 0 -> time_point_of_slot ts <
     reward_started_time (loaded e s) + 64 * (1000000 * reward_halving_period_seconds)) ->
  exists s' es es', System.exec e (Onblock ts p prev) s = Ok (s', es ++ es') /\ Forall for_host es /\
    closes (env_ctx e) (core_of (loaded e s)) (names s) (names s') es' /\
    BlockInfo.add_to_blockinfo_table (blocks s) prev ts = Ok (blocks s').
Proof.
  intros Hn Hinv Hauth Hnew Hhalf. pose proof (loaded_ok n e s Hn Hinv) as Hok.
  set (g := loaded e s) in *. unfold System.exec. fold g. cbn [handler]. unfold onblock, require_auth.
  rewrite Hauth. cbn [check mbind result_bind].
  destruct (BlockInfo.add_to_blockinfo_table (blocks s) prev ts) as [t|] eqn:Et.
  2:{ exfalso. unfold BlockInfo.add_to_blockinfo_table in Et. unfold emplace in Et. by rewrite Hnew in Et. }
  cbn [mbind result_bind].
  assert (Hb : sys_ok n g (with_blocks t s)) by (destruct Hok; split; try done; by eapply blocks_inv).
  assert (Hdone : forall g' s' es es', Forall for_host es ->
    closes (env_ctx e) (core_of g) (names s) (names s') es' -> blocks s' = t ->
    exists s2 es2 es2', (ensure transfers_allowed (es ++ es') else "inline transfer failed";
        mret (with_global g' (with_finality (next_action (finality s')) s'), es ++ es'))
      = Ok (s2, es2 ++ es2') /\ Forall for_host es2 /\
    closes (env_ctx e) (core_of g) (names s) (names s2) es2' /\ Ok t = Ok (blocks s2)).
  { intros g' s' es es' H1 H2 H3. eexists _, es, es'. rewrite (closes_allowed _ _ _ _ _ _ H1 H2).
    cbn [check mbind result_bind]. by rewrite <- H3. }
  destruct (_ || _); [by apply (Hdone g (with_blocks t s) [] []); [|left|]|].
  destruct (pay_runs g (voting s) p (time_point_of_slot ts) (ok_rewards _ _ _ Hok) Hhalf)
    as (g1 & v & Hp & Eg & _).
  change (voting (with_blocks t s)) with (voting s). rewrite Hp. cbn [mbind result_bind].
  pose proof (so_inv _ _ _ _ _ _ (pay_step n g (with_blocks t s) p _ g1 v Hb Hp)) as Hb1.
  destruct (schedule_runs n (env_ctx e) g1 (with_voting v (with_blocks t s)) ts Hb1)
    as (g2 & s2 & es & es' & -> & H1 & H2 & H3). cbn [mbind result_bind].
  rewrite Eg in H2. by apply Hdone.
Qed.

(** ** With what it sets off *)

Lemma open_bid_owed n ch k b :
  chain_inv n ch -> bids (names (sys ch)) !! k = Some b -> 0 < high_bid b ->
  token_has (token ch) (core ch) /\ high_bid b <= owes Bids ch.
Proof.
  intros [[P1 P2 _ _] _ Hc] Hb Hpos. destruct (stored_ok n (sys ch) P1 P2) as [_ _ _ Hnm _ _ _ _].
  assert (Hi : is_init (stored (sys ch)) = true).
  { destruct (is_init _) eqn:Hi; [done|]. destruct (ni_uninit _ _ Hnm Hi) as [E _]. by rewrite E in Hb. }
  split; [by apply Hc|]. simpl. unfold owed.
  assert (Hnn : forall k b, bids (names (sys ch)) !! k = Some b -> 0 <= open_amount b)
    by (intros k' b' Hb'; eapply open_amount_bounds, (ni_bids _ _ Hnm), Hb').
  pose proof (msum_member (fun _ b => open_amount b) _ _ _ Hnn Hb) as Hm. unfold open_amount in Hm at 1.
  rewrite Z.max_r in Hm by lia.
  assert (0 <= msum (fun _ r => amount (refund_amount r)) (bid_refunds (names (sys ch)))); [|lia].
  apply msum_nonneg. intros k' r' Hr. destruct (ni_refunds _ _ Hnm _ _ Hr). lia.
Qed.

Lemma fees_reward : fees_account <> reward_account.
Proof. by apply (names_differ 7 5). Qed.

(** The log of a fee is signed by the contract that sends it. *)
Lemma log_process depth h c p q memo ch :
  exists ch', process (S depth) h (inline_ctx system_account [active_of system_account] c)
      (ToSystem (Logsystemfee p q memo)) ch = Ok ch' /\
    names (sys ch') = names (sys ch) /\ blocks (sys ch') = blocks (sys ch) /\
    token ch' = token ch /\ reward ch' = reward ch.
Proof.
  set (ic := inline_ctx _ _ c). cbn [process apply_msg]. unfold System.exec. cbn [handler env_ctx].
  unfold logsystemfee, require_auth.
  assert (Ha : has_auth ic (get_self ic) = true)
    by (apply bool_decide_eq_true_2; apply list_elem_of_singleton; done).
  rewrite Ha. cbn. by eexists.
Qed.

(** Both actions of a closed auction *)
Lemma fee_process n depth h c k b ch s2 :
  chain_inv n ch -> solvent [] ch ->
  bids (names (sys ch)) !! k = Some b -> 0 < high_bid b <= max_amount ->
  get_self c = system_account -> is_account c fees_account = true ->
  Z.of_nat (String.length (name_to_string names_account)) <= 13 ->
  Z.of_nat (String.length (name_to_string fees_account)) <= 13 ->
  let fee := Asset (high_bid b) (core ch) in
  exists ch', fold_res (send_inline (process (S depth) h) c) (Chain s2 (token ch) (reward ch))
      [channel_to_system_fees names_account fee;
       send (get_self c) [active_of (get_self c)] (system_logsystemfee names_account fee "buy name")]
      = Ok ch' /\
    names (sys ch') = names s2 /\ blocks (sys ch') = blocks s2 /\ reward ch' = reward ch /\
    token ch' = Token.transfer_post (token ch) names_account fees_account fee.
Proof.
  intros Hinv Hs Hk Hb Hself Hacc Hl1 Hl2 fee.
  destruct (open_bid_owed n ch k b Hinv Hk ltac:(lia)) as [Ht Hle].
  set (memo := ("transfer from " +:+ name_to_string names_account +:+ " to " +:+
    name_to_string fees_account)%string).
  assert (Hp : Token.transfer (inline_ctx token_account [active_of names_account] c) (token ch)
    names_account fees_account fee memo =
    Ok (Token.transfer_post (token ch) names_account fees_account fee,
        [RequireRecipient names_account; RequireRecipient fees_account])).
  { eapply (holder_pays n _ Bids); try done; [apply Hinv|symmetry; apply names_fees| |].
    - by apply bool_decide_true, list_elem_of_singleton.
    - unfold memo. change (Z.of_nat (14 + String.length (name_to_string names_account +:+
        (" to " +:+ name_to_string fees_account))) <= 256). rewrite !string_length_app. cbn [String.length]. lia. }
  rewrite Hself. cbn [fold_res send_inline send decode_action channel_to_system_fees].
  rewrite !Z.eqb_refl. cbn [act_account act_authorization]. fold memo.
  rewrite (transfer_process _ _ _ Bids _ _ _ (Chain s2 (token ch) (reward ch)) _ Hp fees_reward).
  unfold paid, accepts_transfer. rewrite (bool_decide_eq_true_2 (_ ∈ _)) by
    (unfold without_handler; rewrite !elem_of_cons; tauto).
  cbn [orb check mbind result_bind sys reward mret result_ret].
  destruct (log_process depth h c names_account fee "buy name" (Chain s2
    (Token.transfer_post (token ch) names_account fees_account fee) (reward ch))) as (ch' & -> & E).
  exists ch'. split; [done|]. naive_solver.
Qed.

(** C7 (blocks are processed).  After any sequence of transactions, the [onblock] of a block
    not yet recorded succeeds with everything it sets off: whatever the votes, the schedule, the finalizer
    keys and the auctions have come to, no check, no addition and no inline action in it
    fails, as long as less than 64 halving periods of the rewards have passed.  The
    block is recorded; flon.token does not change unless the highest open bid is closed, and
    then flon.names has paid it to flon.fees. *)
Theorem onblock_runs ch ts p prev depth h c :
  chain_reachable ch -> get_self c = system_account -> has_auth c system_account = true ->
  is_account c fees_account = true ->
  Z.of_nat (String.length (name_to_string names_account)) <= 13 ->
  Z.of_nat (String.length (name_to_string fees_account)) <= 13 ->
  blocks (sys ch) !! u32 (BlockInfo.block_height_from_id prev + 1) = None ->
  (forall g, global (sys ch) = Some g -> reward_started_time g <> 0 ->
   time_point_of_slot ts < reward_started_time g + 64 * (5 * 365 * 24 * 3600 * 1000000)) ->
  exists ch',
    process (S (S depth)) h c (ToSystem (Onblock ts p prev)) ch = Ok ch' /\
    BlockInfo.add_to_blockinfo_table (blocks (sys ch)) prev ts = Ok (blocks (sys ch')) /\
    reward ch' = reward ch /\
    (names (sys ch') = names (sys ch) /\ token ch' = token ch \/
     exists k b, bids (names (sys ch)) !! k = Some b /\ 0 < high_bid b /\
       names (sys ch') = NameBid.State
         (<[k := NameBid k (high_bidder b) (- high_bid b) (last_bid_time b)]> (bids (names (sys ch))))
         (bid_refunds (names (sys ch))) /\
       token ch' = Token.transfer_post (token ch) names_account fees_account
         (Asset (high_bid b) (core ch))).
Proof.
  intros (n & Hn & Hinv & Hs)%(reachable_solvent Hmem) Hself Hauth Hacc Hl1 Hl2 Hnew Hhalf.
  pose proof (ci_parts _ _ Hinv) as [P1 P2 _ _].
  set (e := System.Env c (parameters h) (token ch) (reward ch) (addresses h)).
  destruct (onblock_exec n e ts p prev (sys ch) P1 P2)
    as (s' & es & es' & He & Hes & Hc & Hb); [by simpl; rewrite Hself|done| |].
  { unfold loaded. intros Hst. destruct (global (sys ch)) as [g|] eqn:Eg; [by apply (Hhalf g)|done]. }
  remember (S depth) as d eqn:Ed. cbn [process apply_msg]. subst d. fold e.
  rewrite He. cbn [mbind result_bind mret result_ret]. rewrite notify_silent by done.
  cbn [mbind result_bind]. rewrite for_host_skipped by done.
  destruct Hc as [[E1 ->]|(k & b & Hk & Hbid & E1 & ->)].
  - eexists. split_and!; [done|done|done|]. left. done.
  - assert (Ec : core_of (loaded e (sys ch)) = core ch).
    { unfold core, core_of. by rewrite stored_loaded. }
    rewrite Ec. change (get_self (env_ctx e)) with (get_self c).
    destruct (fee_process n depth h c k b ch s' Hinv Hs Hk Hbid Hself Hacc Hl1 Hl2)
      as (ch' & -> & E2 & E3 & E4 & E5).
    exists ch'. rewrite E3. split_and!; [done|done|done|]. right. exists k, b.
    split_and!; [done|lia| |done]. rewrite E2, E1. unfold close_post.
    destruct (stored_ok n (sys ch) P1 P2) as [_ _ _ Hnm _ _ _ _].
    by rewrite (bd_name _ _ (ni_bids _ _ Hnm k b Hk)).
Qed.
End blocks.
