(* ===== verification/Actions.v ===== *)
(** * The actions of the contracts

    The [abi]s of flon.token, flon.reward, the system contract and flon.msig, as their
    headers declare them; what a contract makes of the bytes it is called with
    ([dispatch]); and the bytes its callers pack. *)
From S2P Require Import Prelude Cdt CdtRef SystemData Wire WireRef Native Abi.
From S2P Require Token Reward RewardProps Msig System.
From S2P Require Import SystemInv Chain.
From Stdlib Require Import ZArith Lia String.
From stdpp Require Import base tactics numbers list gmap strings.
Open Scope Z_scope.

(** ** The contracts' declarations *)

Section contracts.
Context {wire : Wire}.

Definition token_abi : abi Token.op :=
  [Entry "create" (wire_name ⊗ wire_asset) (fun '(i, m) => Token.op_create i m)
     (fun o => match o with Token.op_create i m => Some (i, m) | _ => None end);
   Entry "issue" (wire_name ⊗ wire_asset ⊗ wire_string) (fun '(t, q, m) => Token.op_issue t q m)
     (fun o => match o with Token.op_issue t q m => Some (t, q, m) | _ => None end);
   Entry "retire" (wire_asset ⊗ wire_string) (fun '(q, m) => Token.op_retire q m)
     (fun o => match o with Token.op_retire q m => Some (q, m) | _ => None end);
   Entry "transfer" (wire_name ⊗ wire_name ⊗ wire_asset ⊗ wire_string)
     (fun '(f, t, q, m) => Token.op_transfer f t q m)
     (fun o => match o with Token.op_transfer f t q m => Some (f, t, q, m) | _ => None end);
   Entry "open" (wire_name ⊗ wire_symbol ⊗ wire_name) (fun '(o, s, p) => Token.op_open o s p)
     (fun o => match o with Token.op_open o s p => Some (o, s, p) | _ => None end);
   Entry "close" (wire_name ⊗ wire_symbol) (fun '(o, s) => Token.op_close o s)
     (fun o => match o with Token.op_close o s => Some (o, s) | _ => None end)].

Definition reward_abi : abi RewardProps.op :=
  [Entry "init" wire_symbol RewardProps.op_init
     (fun o => match o with RewardProps.op_init s => Some s | _ => None end);
   Entry "regproducer" wire_name RewardProps.op_regproducer
     (fun o => match o with RewardProps.op_regproducer p => Some p | _ => None end);
   Entry "addvote" (wire_name ⊗ wire_int64) (fun '(k, n) => RewardProps.op_addvote k n)
     (fun o => match o with RewardProps.op_addvote k n => Some (k, n) | _ => None end);
   Entry "subvote" (wire_name ⊗ wire_int64) (fun '(k, n) => RewardProps.op_subvote k n)
     (fun o => match o with RewardProps.op_subvote k n => Some (k, n) | _ => None end);
   Entry "voteproducer" (wire_name ⊗ wire_vector wire_name)
     (fun '(k, ps) => RewardProps.op_voteproducer k ps)
     (fun o => match o with RewardProps.op_voteproducer k ps => Some (k, ps) | _ => None end);
   Entry "claimrewards" wire_name RewardProps.op_claimrewards
     (fun o => match o with RewardProps.op_claimrewards k => Some k | _ => None end);
   Entry "claimfor" (wire_name ⊗ wire_name) (fun '(c, k) => RewardProps.op_claimfor c k)
     (fun o => match o with RewardProps.op_claimfor c k => Some (c, k) | _ => None end)].

(** [on_notify("flon.token::transfer")] *)
Definition reward_notify : abi RewardProps.op :=
  [Entry "transfer" (wire_name ⊗ wire_name ⊗ wire_asset ⊗ wire_string)
     (fun '(f, t, q, m) => RewardProps.op_ontransfer f t q m)
     (fun o => match o with RewardProps.op_ontransfer f t q m => Some (f, t, q, m) | _ => None end)].
(** [blockchain_parameters_v1]: [EOSLIB_SERIALIZE_DERIVED], the base's members first *)
Definition parameters_v1_wire : codec blockchain_parameters_v1 :=
  struct_codec (fun '(p, m) => BlockchainParametersV1 p m)
    (fun r => (base_parameters r, max_action_return_value_size r))
    (wire_parameters ⊗ wire_extension 0 (wire_uint 32)).

(** The native actions: [native.hpp] *)
Definition native_abi : abi System.op :=
  [Entry "newaccount" (wire_name ⊗ wire_name) (fun '(c, n) => System.Newaccount c n)
     (fun o => match o with System.Newaccount c n => Some (c, n) | _ => None end);
   Entry "updateauth" (wire_name ⊗ wire_name ⊗ wire_name ⊗ authority_wire ⊗ wire_extension 0 wire_name)
     (fun '(a, p, pa, au, by_) => System.Updateauth a p pa au by_)
     (fun o => match o with System.Updateauth a p pa au by_ => Some (a, p, pa, au, by_) | _ => None end);
   Entry "deleteauth" (wire_name ⊗ wire_name ⊗ wire_extension 0 wire_name)
     (fun '(a, p, by_) => System.Deleteauth a p by_)
     (fun o => match o with System.Deleteauth a p by_ => Some (a, p, by_) | _ => None end);
   Entry "linkauth" (wire_name ⊗ wire_name ⊗ wire_name ⊗ wire_name ⊗ wire_extension 0 wire_name)
     (fun '(a, co, ty, r, by_) => System.Linkauth a co ty r by_)
     (fun o => match o with System.Linkauth a co ty r by_ => Some (a, co, ty, r, by_) | _ => None end);
   Entry "unlinkauth" (wire_name ⊗ wire_name ⊗ wire_name ⊗ wire_extension 0 wire_name)
     (fun '(a, co, ty, by_) => System.Unlinkauth a co ty by_)
     (fun o => match o with System.Unlinkauth a co ty by_ => Some (a, co, ty, by_) | _ => None end);
   Entry "canceldelay" no_args (fun _ => System.Canceldelay)
     (fun o => match o with System.Canceldelay => Some tt | _ => None end);
   Entry "onerror" no_args (fun _ => System.Onerror)
     (fun o => match o with System.Onerror => Some tt | _ => None end);
   Entry "setabi" (wire_name ⊗ wire_blob ⊗ wire_extension "" wire_string)
     (fun '(a, abi, m) => System.Setabi a abi m)
     (fun o => match o with System.Setabi a abi m => Some (a, abi, m) | _ => None end);
   Entry "setcode" (wire_name ⊗ wire_uint 8 ⊗ wire_uint 8 ⊗ wire_blob ⊗ wire_extension "" wire_string)
     (fun '(a, t, v, co, m) => System.Setcode a t v co m)
     (fun o => match o with System.Setcode a t v co m => Some (a, t, v, co, m) | _ => None end)].

(** The actions of [system_contract], in the order of the class: up to gas, *)
Definition gas_abi : abi System.op :=
  [Entry "init" (wire_unsigned_int ⊗ wire_symbol) (fun '(v, s) => System.Init v s)
     (fun o => match o with System.Init v s => Some (v, s) | _ => None end);
   Entry "cfgelection" (wire_time_point ⊗ wire_time_point ⊗ wire_asset)
     (fun '(t1, t2, q) => System.Cfgelection t1 t2 q)
     (fun o => match o with System.Cfgelection t1 t2 q => Some (t1, t2, q) | _ => None end);
   Entry "onblock" (wire_block_timestamp ⊗ wire_name ⊗ wire_uint 16 ⊗ wire_checksum256)
     (fun '(t, p, _, id) => System.Onblock t p id)
     (fun o => match o with System.Onblock t p id => Some (t, p, 0, id) | _ => None end);
   Entry "setalimits" (wire_name ⊗ wire_uint 64 ⊗ wire_bool)
     (fun '(a, g, u) => System.Setalimits a g u)
     (fun o => match o with System.Setalimits a g u => Some (a, g, u) | _ => None end);
   Entry "activate" wire_checksum256 (fun d => System.Activate d)
     (fun o => match o with System.Activate d => Some d | _ => None end);
   Entry "logsystemfee" (wire_name ⊗ wire_asset ⊗ wire_string)
     (fun '(p, q, m) => System.Logsystemfee p q m)
     (fun o => match o with System.Logsystemfee p q m => Some (p, q, m) | _ => None end);
   Entry "buygas" (wire_name ⊗ wire_name ⊗ wire_asset) (fun '(p, r, q) => System.Buygas p r q)
     (fun o => match o with System.Buygas p r q => Some (p, r, q) | _ => None end);
   Entry "buygasself" (wire_name ⊗ wire_asset) (fun '(a, q) => System.Buygasself a q)
     (fun o => match o with System.Buygasself a q => Some (a, q) | _ => None end)].

(** those on producers, finalizers and votes, *)
Definition voting_abi : abi System.op :=
  [Entry "voterefund" wire_name (fun k => System.Voterefund k)
     (fun o => match o with System.Voterefund k => Some k | _ => None end);
   Entry "regproducer" (wire_name ⊗ wire_public_key ⊗ wire_string ⊗ wire_uint 16 ⊗ wire_optional (wire_uint 32))
     (fun '(p, k, u, l, r) => System.Regproducer p k u l r)
     (fun o => match o with System.Regproducer p k u l r => Some (p, k, u, l, r) | _ => None end);
   Entry "regproducer2" (wire_name ⊗ wire_signing_authority ⊗ wire_string ⊗ wire_uint 16 ⊗ wire_optional (wire_uint 32))
     (fun '(p, a, u, l, r) => System.Regproducer2 p a u l r)
     (fun o => match o with System.Regproducer2 p a u l r => Some (p, a, u, l, r) | _ => None end);
   Entry "unregprod" wire_name (fun p => System.Unregprod p)
     (fun o => match o with System.Unregprod p => Some p | _ => None end);
   Entry "switchtosvnn" no_args (fun _ => System.Switchtosvnn)
     (fun o => match o with System.Switchtosvnn => Some tt | _ => None end);
   Entry "regfinkey" (wire_name ⊗ wire_string ⊗ wire_string)
     (fun '(n, k, pop) => System.Regfinkey n k pop)
     (fun o => match o with System.Regfinkey n k pop => Some (n, k, pop) | _ => None end);
   Entry "actfinkey" (wire_name ⊗ wire_string) (fun '(n, k) => System.Actfinkey n k)
     (fun o => match o with System.Actfinkey n k => Some (n, k) | _ => None end);
   Entry "delfinkey" (wire_name ⊗ wire_string) (fun '(n, k) => System.Delfinkey n k)
     (fun o => match o with System.Delfinkey n k => Some (n, k) | _ => None end);
   Entry "voteproducer" (wire_name ⊗ wire_vector wire_name)
     (fun '(k, ps) => System.Voteproducer k ps)
     (fun o => match o with System.Voteproducer k ps => Some (k, ps) | _ => None end);
   Entry "addvote" (wire_name ⊗ wire_asset) (fun '(k, q) => System.Addvote k q)
     (fun o => match o with System.Addvote k q => Some (k, q) | _ => None end);
   Entry "subvote" (wire_name ⊗ wire_asset) (fun '(k, q) => System.Subvote k q)
     (fun o => match o with System.Subvote k q => Some (k, q) | _ => None end)].

(** and the rest *)
Definition config_abi : abi System.op :=
  [Entry "setparams" parameters_v1_wire (fun p => System.Setparams p)
     (fun o => match o with System.Setparams p => Some p | _ => None end);
   Entry "wasmcfg" wire_name (fun n => System.Wasmcfg n)
     (fun o => match o with System.Wasmcfg n => Some n | _ => None end);
   Entry "claimrewards" wire_name (fun n => System.Claimrewards n)
     (fun o => match o with System.Claimrewards n => Some n | _ => None end);
   Entry "setpriv" (wire_name ⊗ wire_uint 8) (fun '(a, p) => System.Setpriv a p)
     (fun o => match o with System.Setpriv a p => Some (a, p) | _ => None end);
   Entry "rmvproducer" wire_name (fun p => System.Rmvproducer p)
     (fun o => match o with System.Rmvproducer p => Some p | _ => None end);
   Entry "bidname" (wire_name ⊗ wire_name ⊗ wire_asset) (fun '(b, n, q) => System.Bidname b n q)
     (fun o => match o with System.Bidname b n q => Some (b, n, q) | _ => None end);
   Entry "bidrefund" (wire_name ⊗ wire_name) (fun '(b, n) => System.Bidrefund b n)
     (fun o => match o with System.Bidrefund b n => Some (b, n) | _ => None end);
   Entry "limitauthchg" (wire_name ⊗ wire_vector wire_name ⊗ wire_vector wire_name)
     (fun '(a, al, di) => System.Limitauthchg a al di)
     (fun o => match o with System.Limitauthchg a al di => Some (a, al, di) | _ => None end);
   Entry "setibintervl" (wire_uint 64) (fun n => System.Setibintervl n)
     (fun o => match o with System.Setibintervl n => Some n | _ => None end)].

Definition system_abi : abi System.op := native_abi ++ gas_abi ++ voting_abi ++ config_abi.

Definition msig_abi : abi Msig.op :=
  [Entry "propose" (wire_name ⊗ wire_name ⊗ wire_vector wire_permission_level ⊗ ignored)
     (fun '(p, n, r, t) => Msig.Propose p n r t)
     (fun o => match o with Msig.Propose p n r t => Some (p, n, r, t) | _ => None end);
   Entry "approve" (wire_name ⊗ wire_name ⊗ wire_permission_level ⊗ wire_extension (repeat 0 32) wire_checksum256)
     (fun '(p, n, l, h) => Msig.Approve p n l h)
     (fun o => match o with Msig.Approve p n l h => Some (p, n, l, h) | _ => None end);
   Entry "unapprove" (wire_name ⊗ wire_name ⊗ wire_permission_level)
     (fun '(p, n, l) => Msig.Unapprove p n l)
     (fun o => match o with Msig.Unapprove p n l => Some (p, n, l) | _ => None end);
   Entry "cancel" (wire_name ⊗ wire_name ⊗ wire_name) (fun '(p, n, c) => Msig.CancelProposal p n c)
     (fun o => match o with Msig.CancelProposal p n c => Some (p, n, c) | _ => None end);
   Entry "exec" (wire_name ⊗ wire_name ⊗ wire_name) (fun '(p, n, x) => Msig.Exec p n x)
     (fun o => match o with Msig.Exec p n x => Some (p, n, x) | _ => None end);
   Entry "invalidate" wire_name (fun a => Msig.Invalidate a)
     (fun o => match o with Msig.Invalidate a => Some a | _ => None end)].

(** ** The three contracts together *)

(** What the contract on [account] makes of an action's data *)
Context {cdt : Cdt}.
Definition dispatch (account : name) (action : string) (data : bytes) : result msg :=
  if account =? token_account then ToToken <$> read_action token_abi action data
  else if account =? reward_account then ToReward <$> read_action reward_abi action data
  else if account =? system_account then ToSystem <$> read_action system_abi action data
  else Err "no contract".

(** What the [action_wrapper]s of the headers pack for an inline action *)
Definition call_data (cl : call) : string * bytes :=
  match cl with
  | token_transfer f t q m =>
      ("transfer", pack (wire_name ⊗ wire_name ⊗ wire_asset ⊗ wire_string) (f, t, q, m))
  | token_open o s p => ("open", pack (wire_name ⊗ wire_symbol ⊗ wire_name) (o, s, p))
  | reward_init s => ("init", pack wire_symbol s)
  | reward_regproducer p => ("regproducer", pack wire_name p)
  | reward_addvote k n => ("addvote", pack (wire_name ⊗ wire_int64) (k, n))
  | reward_subvote k n => ("subvote", pack (wire_name ⊗ wire_int64) (k, n))
  | reward_voteproducer k ps => ("voteproducer", pack (wire_name ⊗ wire_vector wire_name) (k, ps))
  | system_logsystemfee p q m => ("logsystemfee", pack (wire_name ⊗ wire_asset ⊗ wire_string) (p, q, m))
  | system_voterefund k => ("voterefund", pack wire_name k)
  | system_newaccount c n ok ak =>
      ("newaccount", pack (wire_name ⊗ wire_name ⊗ wire_public_key ⊗ wire_public_key) (c, n, ok, ak))
  | raw_call n data => (name_to_string n, data)
  end.
Definition call_fits (cl : call) : Prop :=
  match cl with
  | token_transfer f t q m =>
      fits (wire_name ⊗ wire_name ⊗ wire_asset ⊗ wire_string) (f, t, q, m)
  | token_open o s p => fits (wire_name ⊗ wire_symbol ⊗ wire_name) (o, s, p)
  | reward_init s => fits wire_symbol s
  | reward_regproducer p | system_voterefund p => fits wire_name p
  | reward_addvote k n | reward_subvote k n => fits (wire_name ⊗ wire_int64) (k, n)
  | reward_voteproducer k ps => fits (wire_name ⊗ wire_vector wire_name) (k, ps)
  | system_logsystemfee p q m => fits (wire_name ⊗ wire_asset ⊗ wire_string) (p, q, m)
  | system_newaccount _ _ _ _ | raw_call _ _ => False
  end.

(** The same, of an action a user sends *)
Definition write_msg (m : msg) : option (string * bytes) :=
  match m with
  | ToToken o => write_action token_abi o
  | ToReward o => write_action reward_abi o
  | ToSystem o => write_action system_abi o
  end.
Definition msg_fits (m : msg) : Prop :=
  match m with
  | ToToken o => op_fits token_abi o
  | ToReward o => op_fits reward_abi o
  | ToSystem o => op_fits system_abi o
  end.
End contracts.

(** ** Their properties *)

Section laws.
Context {wire : Wire} {laws : WireLaws}.

#[export] Instance parameters_v1_lawful : LawfulEnd parameters_v1_wire.
Proof. apply struct_lawful_end; [by intros []|by intros []|apply _]. Qed.
#[export] Instance token_abi_ok : AbiOk token_abi.
Proof. abi_tac. Qed.
#[export] Instance reward_abi_ok : AbiOk reward_abi.
Proof. abi_tac. Qed.
#[export] Instance reward_notify_ok : AbiOk reward_notify.
Proof. abi_tac. Qed.
#[export] Instance msig_abi_ok : AbiOk msig_abi.
Proof. abi_tac. Qed.
#[export] Instance system_abi_ok : AbiOk system_abi.
Proof. abi_tac. Qed.

Context {cdt : Cdt} {cdtlaws : CdtLaws}.

Lemma dispatch_token nm data : dispatch token_account nm data = ToToken <$> read_action token_abi nm data.
Proof. unfold dispatch. by rewrite Z.eqb_refl. Qed.
Lemma dispatch_reward nm data : dispatch reward_account nm data = ToReward <$> read_action reward_abi nm data.
Proof.
  unfold dispatch. rewrite (proj2 (Z.eqb_neq reward_account token_account)), Z.eqb_refl; [done|].
  by apply (names_differ 5 1).
Qed.
Lemma dispatch_system nm data : dispatch system_account nm data = ToSystem <$> read_action system_abi nm data.
Proof.
  unfold dispatch. rewrite (proj2 (Z.eqb_neq system_account token_account)),
    (proj2 (Z.eqb_neq system_account reward_account)), Z.eqb_refl; [done| |].
  - by apply (names_differ 0 5).
  - by apply (names_differ 0 1).
Qed.

Lemma fmap_Ok {A B} (f : A -> B) (r : result A) (y : B) :
  f <$> r = Ok y -> exists x, r = Ok x /\ y = f x.
Proof. destruct r as [x|e]; [intros [= <-]; by exists x|done]. Qed.

Lemma msg_fits_typed m : msg_fits m -> msg_typed m.
Proof.
  destruct m as [o|o|o]; destruct o; simpl; unfold asset_fits; tauto.
Qed.

Lemma dispatch_fits account action data m :
  dispatch account action data = Ok m -> account = account_of m /\ msg_fits m.
Proof.
  intros H. unfold dispatch in H. destruct (Z.eqb_spec account token_account) as [->|_].
  { apply fmap_Ok in H as (o & Ho & ->). split; [done|].
    exact (read_fits _ _ _ _ _ Ho). }
  destruct (Z.eqb_spec account reward_account) as [->|_].
  { apply fmap_Ok in H as (o & Ho & ->). split; [done|].
    exact (read_fits _ _ _ _ _ Ho). }
  destruct (Z.eqb_spec account system_account) as [->|_]; [|done].
  apply fmap_Ok in H as (o & Ho & ->). split; [done|].
  exact (read_fits _ _ _ _ _ Ho).
Qed.

(** Some data is read as the action; that a [binary_extension] is absent, the end of the data says. *)
Lemma some_dispatch m :
  msg_fits m -> exists action data, dispatch (account_of m) action data = Ok m.
Proof.
  intros Ho. destruct m as [o|o|o];
    [destruct (read_some system_abi o _ Ho) as (nm & b & Hr)
    |destruct (read_some token_abi o _ Ho) as (nm & b & Hr)
    |destruct (read_some reward_abi o _ Ho) as (nm & b & Hr)];
    exists nm, b; cbn [account_of];
    [rewrite dispatch_system|rewrite dispatch_token|rewrite dispatch_reward]; by rewrite Hr.
Qed.

Lemma call_read a auth cl m :
  call_fits cl -> decode_action (Action a auth cl) = Some m ->
  dispatch a (call_data cl).1 (call_data cl).2 = Ok m.
Proof.
  intros Hf Hd. destruct cl; try done; cbn -[Z.eqb] in Hd;
    (case_match; [|done]); injection Hd as <-; apply Z.eqb_eq in H as ->; cbn [call_data fst snd].
  all: rewrite ?dispatch_token, ?dispatch_reward, ?dispatch_system.
  - by rewrite (read_at token_abi 3 _ _ _ _ _ _ eq_refl _ Hf).
  - by rewrite (read_at token_abi 4 _ _ _ _ _ _ eq_refl _ Hf).
  - by rewrite (read_at reward_abi 0 _ _ _ _ _ _ eq_refl _ Hf).
  - by rewrite (read_at reward_abi 1 _ _ _ _ _ _ eq_refl _ Hf).
  - by rewrite (read_at reward_abi 2 _ _ _ _ _ _ eq_refl _ Hf).
  - by rewrite (read_at reward_abi 3 _ _ _ _ _ _ eq_refl _ Hf).
  - by rewrite (read_at reward_abi 4 _ _ _ _ _ _ eq_refl _ Hf).
  - by rewrite (read_at system_abi 14 _ _ _ _ _ _ eq_refl _ Hf).
  - by rewrite (read_at system_abi 17 _ _ _ _ _ _ eq_refl _ Hf).
Qed.
Lemma transfer_read from to quantity memo action data :
  op_fits token_abi (Token.op_transfer from to quantity memo) ->
  write_msg (ToToken (Token.op_transfer from to quantity memo)) = Some (action, data) ->
  read_action reward_notify action data = Ok (RewardProps.op_ontransfer from to quantity memo).
Proof.
  intros Hf [= <- <-]. exact (read_at reward_notify 0 _ _ _ _ _ _ eq_refl _ Hf).
Qed.

Lemma onblock_read h :
  fits block_header_wire h ->
  dispatch system_account "onblock" (pack block_header_wire h) =
  Ok (ToSystem (System.Onblock (timestamp h) (producer h) (previous h))).
Proof.
  destruct h as [t p c i tm am v n]. intros Hf. rewrite dispatch_system. simpl in Hf.
  assert (E : pack block_header_wire (BlockHeader t p c i tm am v n) =
    pack (wire_block_timestamp ⊗ wire_name ⊗ wire_uint 16 ⊗ wire_checksum256) (t, p, c, i) ++
    pack (wire_checksum256 ⊗ wire_checksum256 ⊗ wire_uint 32 ⊗ wire_optional wire_producer_schedule)
      (tm, am, v, n)) by (simpl; by rewrite <- !app_assoc).
  rewrite E, (read_prefix system_abi 11 "onblock" _ _ _ _ _ abi_names eq_refl); [done|apply _|].
  simpl. tauto.
Qed.

Definition newaccount_wire : codec (name * name * authority * authority) :=
  wire_name ⊗ wire_name ⊗ authority_wire ⊗ authority_wire.
Lemma newaccount_read creator account owner active :
  fits newaccount_wire (creator, account, owner, active) ->
  dispatch system_account "newaccount" (pack newaccount_wire (creator, account, owner, active)) =
  Ok (ToSystem (System.Newaccount creator account)).
Proof.
  intros Hf. rewrite dispatch_system. simpl in Hf.
  assert (E : pack newaccount_wire (creator, account, owner, active) =
    pack (wire_name ⊗ wire_name) (creator, account) ++ pack (authority_wire ⊗ authority_wire) (owner, active))
    by (simpl; by rewrite <- !app_assoc).
  rewrite E, (read_prefix system_abi 0 "newaccount" _ _ _ _ _ abi_names eq_refl); [done|apply _|].
  simpl. tauto.
Qed.

(** C12 (What is sent is what is read).  When one of the contracts sends an inline action to another, the
    receiver reads from the bytes the [action_wrapper] packs the very action the model
    runs; flon.reward reads the parameters of [ontransfer] from a transfer it is notified of;
    [onblock], which the chain calls with a whole block header, gets its time stamp, its producer and the
    previous block's id; and [newaccount] the creator and the name, whatever authorities follow. *)
Theorem inline_dispatch :
  (forall a auth cl m, call_fits cl -> decode_action (Action a auth cl) = Some m ->
    dispatch a (call_data cl).1 (call_data cl).2 = Ok m) /\
  (forall from to quantity memo action data,
    op_fits token_abi (Token.op_transfer from to quantity memo) ->
    write_msg (ToToken (Token.op_transfer from to quantity memo)) = Some (action, data) ->
    read_action reward_notify action data = Ok (RewardProps.op_ontransfer from to quantity memo)) /\
  (forall h, fits block_header_wire h ->
    dispatch system_account "onblock" (pack block_header_wire h) =
    Ok (ToSystem (System.Onblock (timestamp h) (producer h) (previous h)))) /\
  (forall creator account owner active,
    fits newaccount_wire (creator, account, owner, active) ->
    dispatch system_account "newaccount" (pack newaccount_wire (creator, account, owner, active)) =
    Ok (ToSystem (System.Newaccount creator account))).
Proof.
  split_and!; [exact call_read|exact transfer_read|exact onblock_read|exact newaccount_read].
Qed.
End laws.

(** ** Examples *)

Definition ex_transfer : string * bytes :=
  ("transfer", pack (wire_name ⊗ wire_name ⊗ wire_asset ⊗ wire_string) (1, 2, Asset (-5) 1024, "hi")).
Definition ex_header : block_header :=
  BlockHeader 7 9 0 [1; 2] [3] [] 1 (Some (ProducerSchedule 1 [ProducerKey 9 [4]])).
Definition ex_authority : authority := Authority 1 [KeyWeight [4] 1] [] [].

Lemma inline_dispatch_witness :
  dispatch reward_account "addvote" (pack (wire_name ⊗ wire_int64) (5, 100)) =
    Ok (ToReward (RewardProps.op_addvote 5 100)) /\
  dispatch system_account "onblock" (pack block_header_wire ex_header) =
    Ok (ToSystem (System.Onblock 7 9 [1; 2])) /\
  dispatch system_account "newaccount" (pack newaccount_wire (3, 4, ex_authority, ex_authority)) =
  Ok (ToSystem (System.Newaccount 3 4)).
Proof.
  destruct inline_dispatch as (Hcall & _ & Hblock & Hnew). split_and!.
  - refine (Hcall reward_account [] (reward_addvote 5 100) _ _ eq_refl).
    simpl. unfold is_uint. unfold_ints. lia.
  - apply (Hblock ex_header). simpl. unfold is_bytes, producer_schedule_fits, is_uint; simpl.
    split_and!; repeat constructor; simpl; lia.
  - apply Hnew. simpl. unfold is_bytes, is_uint; simpl. split_and!; repeat constructor; simpl; lia.
Defined.
