(* ===== verification/SystemTyped.v ===== *)
(** * flon.system keeps rows of their C++ types

    The members of a row are values of the types the headers declare, under the row's
    primary key ([Rows.v]): every action of the contract, called with arguments of their
    types, keeps all tables so.  Hence what is written to the chain's storage can be read back. *)
From S2P Require Import Prelude Table Cdt CdtRef SystemData Wire WireRef Abi.
From S2P Require Native Token.
From S2P Require Import Finalizer FinalizerProps Voting VotingProps.
From S2P Require BlockInfo AuthChange Chain.
From S2P Require Import NameBid ProducerPay Admin System SystemInv Rows Actions.
From Stdlib Require Import ZArith Lia String.
From stdpp Require Import base tactics numbers list gmap fin_maps strings sorting.
Open Scope Z_scope.

(** ** What an action sees *)

(** The host's time, in the toolkit's three types for it; the chain's parameters *)
Record env_fits `{Cdt} `{Wire} (e : env) : Prop := {
  ef_now : is_i64 (current_time_point (env_ctx e));
  ef_slot : is_uint 32 (slot_of_time_point (current_time_point (env_ctx e)));
  ef_sec : is_uint 32 (sec_of_time_point (current_time_point (env_ctx e)));
  ef_parameters : parameters_fit (chain_parameters e);
}.

Section typed.
Context {cdt : Cdt} {bls : Bls} {memory : Memory} {serializer : Serializer} {wire : Wire}.
Context {laws : CdtLaws} {types : CdtTypes}.

(** ** Producers and votes *)

Definition producers_fit (tbl : gmap name producer_info) : Prop := map_Forall (row_fits producer_info_wire owner) tbl.

Lemma register_producer_typed c g st registered p auth u l ratio st' es :
  is_i64 (current_time_point c) -> is_uint 64 (asset_symbol (total_vote_stake g)) ->
  is_uint 64 p -> signing_authority_fits auth -> is_uint 16 l ->
  match ratio with Some r => is_uint 32 r | None => True end ->
  voting_fits st ->
  register_producer c g st registered p auth u l ratio = Ok (st', es) -> voting_fits st'.
Proof.
  intros Hnow Hcore Hp Hauth Hl Hr [V1 V2 V3] H. unfold register_producer in H.
  apply bind_Ok in H as (_ & Hu%check_Ok & H). apply bind_Ok in H as (_ & _ & H).
  apply bind_Ok in H as (core & Hc & H). apply core_symbol_Ok in Hc as [_ ->]. cbv zeta in H.
  set (key := match auth_keys auth with [(k, _)] => k | _ => [] end) in H.
  assert (Hkey : is_bytes key).
  { destruct Hauth as (_ & Hk & _). subst key. destruct (auth_keys auth) as [|[k w] []]; eauto with flon.
    apply Forall_cons in Hk as [[Hk _] _]. exact Hk. }
  assert (Hurl : is_uint 32 (Z.of_nat (String.length u))) by (apply Z.ltb_lt in Hu; apply uint_small; lia).
  destruct (producers st !! p) as [i|] eqn:Ei.
  - injection H as <- _. split; [done| |done]. apply map_Forall_insert_2; [|done].
    destruct (V2 _ _ Ei) as [Hi [Hk _]]. simpl in Hi. split; [|done]. simpl.
    destruct Hi as [[[[[[[[[[Ho Hv] _] _] _] Hun] Ht] _] _] Hra] Hrev].
    split_and!; try done; [by destruct (_ =? 0)|]. apply default_fits; [done|]. intros x ->. done.
  - apply bind_Ok in H as (z & Hz & H). apply asset_ctor_typed in Hz as [Hz _]; [|done].
    apply bind_Ok in H as (t & Ht & [= <- _]). split; [done| |done].
    eapply emplace_Forall; [exact Ht| |done]. split; [|done]. simpl.
    split_and!; try done; try (by apply uint_zero).
    apply default_fits; [by apply uint_zero|]. intros x ->. done.
Qed.

Lemma deactivate_typed (tbl : gmap name producer_info) p i :
  producers_fit tbl -> tbl !! p = Some i -> producers_fit (<[p := deactivate i]> tbl).
Proof.
  intros Ht Hi. apply map_Forall_insert_2; [|done]. destruct (Ht _ _ Hi) as [Hf Hk]. simpl in Hf.
  split; [|done]. simpl. split_and!; try tauto; try apply is_bytes_nil.
  split_and!; [by apply uint_zero|constructor|by apply uint_zero].
Qed.

Lemma update_producer_votes_typed d l tbl tbl' :
  producers_fit tbl -> update_producer_votes tbl l d = Ok tbl' -> producers_fit tbl'.
Proof.
  unfold update_producer_votes. revert tbl. induction l as [|p l IH]; intros tbl Ht H.
  { by injection H as <-. }
  apply bind_Ok in H as (t1 & H1 & H). apply IH in H; [done|]. unfold update_producer_vote in H1.
  apply bind_Ok in H1 as (i & Hi%get_or_Ok & H1). apply bind_Ok in H1 as (_ & _ & H1).
  apply bind_Ok in H1 as (_ & _ & [= <-]). apply map_Forall_insert_2; [|done].
  destruct (Ht _ _ Hi) as [Hf Hk]. simpl in Hf. split; [|done]. simpl.
  split_and!; try tauto. apply i64_range.
Qed.

Lemma voter_count l : Z.of_nat (length l) <= max_vote_producer_count -> is_uint 32 (Z.of_nat (@length name l)).
Proof. unfold max_vote_producer_count, is_uint. lia. Qed.

Lemma voteproducer_typed c st a_old a_new k ps st' es :
  is_uint 32 (slot_of_time_point (current_time_point c)) -> Forall (is_uint 64) ps ->
  voting_fits st -> voteproducer c st a_old a_new k ps = Ok (st', es) -> voting_fits st'.
Proof.
  intros Hslot Hps [V1 V2 V3] H. unfold voteproducer in H. ok_inv.
  assert (Hn : Z.of_nat (length ps) <= max_vote_producer_count) by by apply Z.leb_le.
  match goal with Hv : voters st !! k = Some _ |- _ => destruct (V1 _ _ Hv) as [Hf Hk] end. simpl in Hf.
  split; simpl.
  - apply map_Forall_insert_2; [|done].
    split; [|done]. simpl. split_and!; try tauto. by apply voter_count.
  - repeat (eapply update_producer_votes_typed; [|eassumption]). done.
  - done.
Qed.

(** The actions on the total stake write one member of the global state. *)
Definition stake_typed (g g' : eosio_global_state) (st' : Voting.state) : Prop :=
  asset_ok (total_vote_stake g') /\ g' = with_total_vote_stake (total_vote_stake g') g /\ voting_fits st'.

Lemma addvote_typed c g st k q g' st' es :
  asset_ok (total_vote_stake g) -> is_uint 64 k -> asset_fits q ->
  voting_fits st -> addvote c g st k q = Ok (g', st', es) -> transfers_allowed es = true ->
  stake_typed g g' st'.
Proof.
  intros Hg Hk Hq [V1 V2 V3] H Hes. unfold addvote in H.
  apply bind_Ok in H as (_ & _ & H). apply bind_Ok in H as (core & _ & H).
  apply bind_Ok in H as (_ & _ & H). apply bind_Ok in H as (_ & _ & H).
  apply bind_Ok in H as (stake & Hs & H). apply bind_Ok in H as ([vs tbl] & Hv & [= <- <- <-]).
  split_and!.
  - simpl. destruct (_ =? 0).
    + injection Hs as <-. split; [exact Hq|]. eapply sent_amount; [exact Hes|]. by left.
    + eapply asset_add_typed; [exact Hg| |exact Hs]. apply Hq.
  - done.
  - destruct (voters st !! k) as [v|] eqn:Ev.
    + apply bind_Ok in Hv as (t & Ht & [= <- <-]). destruct (V1 _ _ Ev) as [Hf Hk']. simpl in Hf.
      split; simpl; [|case_bool_decide; [by injection Ht as <-|by eapply update_producer_votes_typed]|done].
      apply map_Forall_insert_2; [|done]. split; [|done]. simpl. split_and!; try tauto. apply i64_range.
    + apply bind_Ok in Hv as (t & Ht & [= <- <-]). split; simpl; [|done..].
      eapply emplace_Forall; [exact Ht| |done]. split; [|done]. simpl. destruct Hq.
      split_and!; try done; try (by apply uint_zero).
Qed.

Lemma subvote_typed c g st k q g' st' es :
  is_uint 32 (slot_of_time_point (current_time_point c)) ->
  is_uint 32 (sec_of_time_point (current_time_point c)) ->
  asset_ok (total_vote_stake g) -> is_uint 64 k -> asset_fits q ->
  voting_fits st -> subvote c g st k q = Ok (g', st', es) -> stake_typed g g' st'.
Proof.
  intros Hslot Hsec Hg Hk Hq [V1 V2 V3] H. unfold subvote in H.
  apply bind_Ok in H as (_ & _ & H). apply bind_Ok in H as (_ & _ & H).
  apply bind_Ok in H as (core & _ & H). apply bind_Ok in H as (_ & _ & H).
  apply bind_Ok in H as (_ & _ & H). apply bind_Ok in H as (v & Hv%get_or_Ok & H).
  apply bind_Ok in H as (_ & _ & H). apply bind_Ok in H as (enough & _ & H).
  apply bind_Ok in H as (_ & _ & H). apply bind_Ok in H as (stake & Hs & H).
  apply bind_Ok in H as (_ & _ & H). apply bind_Ok in H as (tbl & Ht & H).
  apply bind_Ok in H as (rs & Hr & [= <- <- _]). destruct (V1 _ _ Hv) as [Hf Hk']. simpl in Hf.
  split_and!.
  - simpl. eapply asset_sub_typed; [exact Hg| |exact Hs]. apply Hq.
  - done.
  - split; simpl; [|by eapply update_producer_votes_typed|].
    + apply map_Forall_insert_2; [|done]. split; [|done]. simpl. split_and!; try tauto. apply i64_range.
    + eapply emplace_Forall; [exact Hr| |done]. split; [done|]. split; [|done]. simpl. by split_and!.
Qed.

Lemma voterefund_typed c st k st' es :
  voting_fits st -> voterefund c st k = Ok (st', es) -> voting_fits st'.
Proof.
  intros [V1 V2 V3] H. unfold voterefund in H. ok_inv. split; try done. by apply map_Forall_delete.
Qed.

(** ** Names *)

Definition refunds_in_range (st : NameBid.state) : Prop :=
  map_Forall (fun _ r => in_range (amount (refund_amount r))) (bid_refunds st).
Definition names_typed (st : NameBid.state) : Prop := names_fits st /\ refunds_in_range st.

Lemma add_bid_refund_typed core bs rs n cur rs' :
  is_uint 64 core -> is_uint 64 n -> fits name_bid_wire cur ->
  names_typed (NameBid.State bs rs) ->
  add_bid_refund core rs n cur = Ok rs' -> names_typed (NameBid.State bs rs').
Proof.
  intros Hcore Hn Hcur [[N1 N2] Hr] H. unfold add_bid_refund in H. simpl in Hcur, N1, N2, Hr.
  apply bind_Ok in H as (back & Hb & H). apply asset_ctor_typed in Hb; [|done].
  enough (exists r, fits bid_refund_wire r /\ bidder r = high_bidder cur /\ in_range (amount (refund_amount r)) /\
    rs' = <[(n, high_bidder cur) := r]> rs) as (r & Hf & Hk & Ha & ->).
  { split; [split; [done|]|]; apply map_Forall_insert_2; try done.
    split; [done|]. split; [done|]. split; [done|]. apply Hcur. }
  destruct (rs !! (n, high_bidder cur)) as [r|] eqn:Er.
  - apply bind_Ok in H as (sum & Hs & [= <-]). destruct (N2 _ _ Er) as (_ & Hf & Hk & Hu).
    eapply asset_add_typed in Hs as [Hs _]; [|by split; [apply Hf|apply (Hr _ _ Er)]|apply Hb].
    exists (BidRefund (bidder r) sum). split_and!; [|exact Hk|apply Hs|done]. split; [apply Hf|apply Hs].
  - apply emplace_Ok in H as [_ ->].
    exists (BidRefund (high_bidder cur) back). split_and!; [|done|apply Hb|done]. split; [apply Hcur|apply Hb].
Qed.

Lemma bidname_typed c g st b n q st' es :
  is_i64 (current_time_point c) -> is_uint 64 (asset_symbol (total_vote_stake g)) ->
  is_uint 64 b -> is_uint 64 n -> asset_fits q -> names_typed st ->
  bidname c g st b n q = Ok (st', es) -> names_typed st'.
Proof.
  intros Hnow Hcore Hb Hn [Hq _] Hst H. destruct st as [bs rs]. pose proof Hst as [[N1 N2] Hr].
  unfold bidname in H.
  do 6 (apply bind_Ok in H as (_ & _ & H)). apply bind_Ok in H as (core & Hc & H).
  apply core_symbol_Ok in Hc as [_ ->]. do 2 (apply bind_Ok in H as (_ & _ & H)).
  simpl in H, N1, N2. destruct (bs !! n) as [cur|] eqn:Ecur.
  - do 3 (apply bind_Ok in H as (_ & _ & H)). apply bind_Ok in H as (rs' & Hrs & [= <- _]).
    destruct (N1 _ _ Ecur) as [Hf [Hk Hu]].
    apply (add_bid_refund_typed _ bs) in Hrs as [[_ N2'] Hr']; [|done..].
    split; [split; [|done]|done]. simpl.
    apply map_Forall_insert_2; [|done]. simpl in Hf. split; [|done]. simpl. by split_and!; try apply Hf.
  - apply bind_Ok in H as (bs' & Hbs & [= <- _]). split; [|done]. split; simpl; [|done].
    eapply emplace_Forall; [exact Hbs| |done]. split; [|done]. simpl. by split_and!.
Qed.

Lemma bidrefund_typed st b n st' es :
  names_typed st -> bidrefund st b n = Ok (st', es) -> names_typed st'.
Proof.
  intros [[N1 N2] Hr] H. unfold bidrefund in H. ok_inv. split; [split; [done|]|]; by apply map_Forall_delete.
Qed.

Lemma close_highest_bid_typed c g st t g' st' es :
  is_uint 32 t -> names_typed st -> close_highest_bid c g st t = Ok (g', st', es) ->
  (g' = g \/ g' = with_last_name_close t g) /\ names_typed st'.
Proof.
  intros Ht Hn H. pose proof Hn as [[N1 N2] Hr]. unfold close_highest_bid in H.
  destruct (_ <? _); [|injection H as <- <- _; by split; [left|]].
  destruct (lower_bound _ _ _) as [[pk b]|] eqn:Eb; [|injection H as <- <- _; by split; [left|]].
  destruct (_ && _); [|injection H as <- <- _; by split; [left|]].
  apply bind_Ok in H as (core & _ & H). apply bind_Ok in H as (fee & _ & [= <- <- _]).
  split; [by right|]. split; [split; [|done]|done]. apply lower_bound_Some in Eb.
  apply map_Forall_insert_2; [|done]. destruct (N1 pk b) as [Hf Hk]; [apply Eb|]. simpl in Hf.
  split; [|done]. simpl. split_and!; try tauto. apply i64_range.
Qed.

(** ** Blocks, permissions, accounts *)

Abbreviation blocks_fit := (map_Forall (row_fits block_info_record_wire BlockInfo.block_height)).

Lemma prune_typed n h t : blocks_fit t -> blocks_fit (BlockInfo.prune n h t).
Proof.
  revert t. induction n as [|n IH]; intros t Ht; [done|]. simpl. destruct (rows t) as [|[k r] l]; [done|].
  destruct (_ <=? _); [|done]. apply IH. by apply map_Forall_delete.
Qed.

Lemma slot_time_i64 t : is_uint 32 t -> is_i64 (time_point_of_slot t).
Proof. rewrite law_time_point_of_slot. unfold is_uint. unfold_ints. lia. Qed.

Lemma add_to_blockinfo_typed t id ts t' :
  is_uint 32 ts -> blocks_fit t -> BlockInfo.add_to_blockinfo_table t id ts = Ok t' -> blocks_fit t'.
Proof.
  intros Hts Ht H. unfold BlockInfo.add_to_blockinfo_table in H. cbv zeta in H.
  apply bind_Ok in H as (t1 & H1 & H). remember (BlockInfo.prune 2 _ t1) as t2 eqn:E in H.
  injection H as <-. subst t2. apply prune_typed.
  change (0 <? BlockInfo.rolling_window_size) with true in H1. cbv iota in H1.
  eapply emplace_Forall; [exact H1| |done]. pose proof (is_uint_u32 (BlockInfo.block_height_from_id id + 1)) as Hh.
  split; [|split; [done|]]. { split; [split; [by apply uint_zero|done]|by apply slot_time_i64]. }
  unfold is_uint in *. lia.
Qed.

Lemma limitauthchg_typed c t a al di t' :
  is_uint 64 a -> fits (wire_vector wire_name) al -> fits (wire_vector wire_name) di ->
  map_Forall (row_fits limit_auth_change_wire AuthChange.account) t ->
  AuthChange.limitauthchg c t a al di = Ok t' ->
  map_Forall (row_fits limit_auth_change_wire AuthChange.account) t'.
Proof.
  intros Ha Hal Hdi Ht H. unfold AuthChange.limitauthchg in H.
  do 4 (apply bind_Ok in H as (_ & _ & H)). cbv zeta in H. destruct (_ || _).
  - destruct (t !! a) as [r|] eqn:Er.
    + injection H as <-. destruct (Ht _ _ Er) as [Hf Hk]. apply map_Forall_insert_2; [|done].
      split; [|done]. destruct Hf as [[[Hv Hac] _] _].
      split; [split; [split; [exact Hv|exact Hac]|exact Hal]|exact Hdi].
    + eapply emplace_Forall; [exact H| |done]. split; [|done].
      split; [split; [split; [by apply uint_zero|done]|done]|done].
  - destruct (t !! a); injection H as <-; [by apply map_Forall_delete|done].
Qed.

Lemma newaccount_typed c stored nm cs cr n nm' cs' es :
  is_uint 64 cr -> is_uint 64 n -> names_typed nm ->
  map_Forall (row_fits account_creator_wire ac_owner) cs ->
  newaccount c stored nm cs cr n = Ok (nm', cs', es) ->
  names_typed nm' /\ map_Forall (row_fits account_creator_wire ac_owner) cs'.
Proof.
  intros Hcr Hn Hnm Hcs H. unfold newaccount in H. destruct (negb _); [by injection H as <- <- _|].
  apply bind_Ok in H as (nm1 & H1 & H). apply bind_Ok in H as (cs1 & H2 & [= <- <- _]). split.
  - destruct (_ && _); [|by injection H1 as <-]. cbv zeta in H1. destruct (_ =? _).
    + do 3 (apply bind_Ok in H1 as (? & _ & H1)). injection H1 as <-. destruct Hnm as [[N1 N2] Hr].
      split; [split; [|done]|done]. by apply map_Forall_delete.
    + apply bind_Ok in H1 as (_ & _ & [= <-]). done.
  - eapply emplace_Forall; [exact H2| |done]. done.
Qed.

Lemma setabi_typed t a abi t' :
  is_uint 64 a -> is_bytes abi ->
  map_Forall (fun k h => fits Native.abi_hash_wire (Native.AbiHash k h)) t -> setabi t a abi = Ok t' ->
  map_Forall (fun k h => fits Native.abi_hash_wire (Native.AbiHash k h)) t'.
Proof.
  intros Ha Hb Ht H. assert (Hnew : fits Native.abi_hash_wire (Native.AbiHash a (sha256 abi))).
  { split; [done|]. by apply ty_sha256. }
  unfold setabi in H. destruct (t !! a); [injection H as <-; by apply map_Forall_insert_2|].
  eapply emplace_Forall; [exact H|done|done].
Qed.

(** ** Finalizers *)

Abbreviation auth_info_fits := (fits finalizer_auth_info_wire).
Abbreviation proposal_fits := (fits last_prop_finalizers_wire).

Lemma auth_info_typed f : fits finalizer_info_wire f -> auth_info_fits (auth_info_of f).
Proof.
  intros [[[Hn Hi] Hb] _]. split; [exact Hi|]. split_and!; simpl; [|by split|exact Hb].
  pose proof (ty_name_to_string (finalizer_name f)). unfold is_uint. lia.
Qed.

Section tables.
Variable (st : Finalizer.state).
Hypothesis Hfins : map_Forall (row_fits finalizer_info_wire finalizer_name) (finalizers st).

Lemma collect_typed prods limit acc :
  Forall auth_info_fits acc -> Z.of_nat (length acc) <= Z.max 0 limit ->
  let l := collect_finalizers st prods limit acc in
  Forall auth_info_fits l /\ Z.of_nat (length l) <= Z.max 0 limit.
Proof.
  revert acc. induction prods as [|[k p] prods IH]; intros acc Ha Hl; [done|]. simpl.
  destruct (_ <? _) eqn:El; [|done]. apply Z.ltb_lt in El. simpl.
  destruct (_ && _); [|done]. destruct (finalizers st !! owner p) as [f|] eqn:Ef; [|by apply IH].
  case_bool_decide; [by apply IH|]. apply IH.
  - apply Forall_app. split; [done|]. apply Forall_singleton, auth_info_typed. eapply Hfins, Ef.
  - rewrite length_app. simpl. lia.
Qed.

Lemma elect_typed savanna prods tops fins :
  Forall auth_info_fits fins -> (length fins <= length tops)%nat -> Z.of_nat (length tops) <= 21 ->
  let r := elect (finalizers st) savanna prods tops fins in
  Forall auth_info_fits r.2 /\ (length r.2 <= length r.1)%nat /\ Z.of_nat (length r.1) <= 21.
Proof.
  revert tops fins. induction prods as [|[k p] prods IH]; intros tops fins Hf Hl Ht; [done|]. simpl.
  destruct (_ <? 21) eqn:El; [|done]. apply Z.ltb_lt in El. simpl.
  destruct (_ && _); [|done].
  assert (forall x : Cdt.producer_authority * Z, Z.of_nat (length (tops ++ [x])) <= 21)
    by (intros x; rewrite length_app; simpl; lia).
  destruct savanna; [|apply IH; try done; rewrite length_app; lia].
  destruct (finalizers st !! owner p) as [f|] eqn:Ef; [|by apply IH].
  case_bool_decide; [by apply IH|]. apply IH; [|rewrite !length_app; simpl; lia|done].
  apply Forall_app. split; [done|]. apply Forall_singleton, auth_info_typed. eapply Hfins, Ef.
Qed.
End tables.

Context (Hmem : disengaged = []).

Lemma get_last_typed st st' l :
  finality_fits st -> get_last_proposed_finalizers st = (st', l) ->
  finality_fits st' /\ proposal_fits l /\ finalizers st' = finalizers st.
Proof.
  intros Hst H. pose proof Hst as [F1 F2 F3 F4 F5]. unfold get_last_proposed_finalizers in H.
  destruct (last_prop_finalizers_cached st) as [c|] eqn:Ec; [by injection H as <- <-|].
  destruct (last_prop_finalizers st) as [c|] eqn:El; injection H as <- <-.
  - by split.
  - split; [done|]. rewrite Hmem. split; [|done]. split; [constructor|by apply uint_zero].
Qed.

Lemma is_savanna_typed st st' b :
  finality_fits st -> is_savanna_consensus st = (st', b) ->
  finality_fits st' /\ finalizers st' = finalizers st.
Proof.
  intros Hst H. unfold is_savanna_consensus in H.
  destruct (get_last_proposed_finalizers st) as [st1 l] eqn:E. injection H as <- _.
  by destruct (get_last_typed _ _ _ Hst E) as (? & _ & ?).
Qed.

Lemma set_proposed_typed st l st' es :
  finality_fits st -> proposal_fits l -> set_proposed_finalizers st l = (st', es) -> finality_fits st'.
Proof.
  intros Hst Hl H. unfold set_proposed_finalizers in H.
  destruct (get_last_proposed_finalizers st) as [st1 last] eqn:E.
  apply get_last_typed in E as (H1 & _ & _); [|done].
  destruct (auth_infos_eqb _ _); injection H as <- _; [done|].
  assert (Hp : proposal_fits (merge_sort key_id_le l)).
  { destruct Hl as [Hl Hn]. pose proof (merge_sort_Permutation key_id_le l) as Hp.
    split; [by rewrite Hp|by rewrite Hp]. }
  by destruct H1.
Qed.

Lemma small_proposal l n :
  Forall auth_info_fits l -> Z.of_nat (length l) <= n -> n < 2 ^ 32 -> proposal_fits l.
Proof. intros Hl Hn Hb. split; [exact Hl|]. apply uint_small. lia. Qed.

Lemma switchtosvnn_typed c st prods n st' es :
  finality_fits st -> is_uint 16 n -> switchtosvnn c st prods n = Ok (st', es) -> finality_fits st'.
Proof.
  intros Hst Hn H. unfold switchtosvnn in H. apply bind_Ok in H as (_ & _ & H).
  destruct (is_savanna_consensus st) as [st1 s1] eqn:E1. apply is_savanna_typed in E1 as [H1 _]; [|done].
  do 2 (apply bind_Ok in H as (_ & _ & H)).
  destruct (set_proposed_finalizers _ _) as [st2 es2] eqn:E2.
  apply set_proposed_typed in E2; [|done|].
  - destruct (is_savanna_consensus st2) as [st3 s3] eqn:E3. apply is_savanna_typed in E3 as [H3 _]; [|done].
    by apply bind_Ok in H as (_ & _ & [= <- _]).
  - destruct (collect_typed st1 (ff_finalizers _ H1) (by_index by_votes prods) n []) as [Hc Hl]; [done|simpl; lia|].
    unfold is_uint in Hn. eapply small_proposal; [exact Hc|exact Hl|lia].
Qed.

Lemma replace_key_typed l a n k l' :
  proposal_fits l -> is_uint 64 n -> is_bytes k -> replace_key l a n k = Some l' -> proposal_fits l'.
Proof.
  intros [Hl Hn] Hi Hk H.
  enough (Forall auth_info_fits l' /\ length l' = length l) as [? E] by (split; [|rewrite E]; done).
  clear Hn. revert l' H. induction l as [|x l IH]; intros l' H; [done|]. simpl in H.
  apply Forall_cons in Hl as [Hx Hl]. destruct (_ <? _).
  - apply bind_Some in H as (l2 & H2 & [= <-]). destruct (IH Hl _ H2) as [? E]. split; [by constructor|].
    simpl. by rewrite E.
  - destruct (_ =? _); [|done]. injection H as <-. split; [|done]. constructor; [|done].
    destruct Hx as [_ (Hd & Hw & _)]. by split.
Qed.

Lemma actfinkey_typed c st n k st' es :
  is_uint 64 n -> finality_fits st -> actfinkey c st n k = Ok (st', es) -> finality_fits st'.
Proof.
  intros Hn Hst H. pose proof Hst as [F1 F2 F3 F4 F5]. unfold actfinkey in H.
  apply bind_Ok in H as (_ & _ & H). apply bind_Ok in H as (f & Hf & H).
  apply bind_Ok in H as (h & _ & H). apply bind_Ok in H as ([pk r] & Hr%get_or_Ok & H).
  do 2 (apply bind_Ok in H as (_ & _ & H)). cbv zeta in H.
  unfold get_finalizer_itr in Hf. apply bind_Ok in Hf as (f' & Hf%get_or_Ok & Hf').
  apply bind_Ok in Hf' as (_ & _ & [= ->]). apply find_by_Some in Hr as [Hr _].
  destruct (F1 _ _ Hr) as [[[[Hid _] _] Hb] _]. destruct (F2 _ _ Hf) as [[[[Ho _] _] Hc] Hk].
  match type of H with (let '(_, _) := get_last_proposed_finalizers ?s in _) = _ => assert (Hs : finality_fits s) end.
  { split; try done. simpl. apply map_Forall_insert_2; [|done]. split; [|done].
    split; [split; [split; [exact Ho|exact Hid]|exact Hb]|exact Hc]. }
  destruct (get_last_proposed_finalizers _) as [st2 last] eqn:El.
  apply get_last_typed in El as (H2 & Hlast & _); [|done].
  destruct last as [|x last]; [by injection H as <- _|].
  destruct (replace_key _ _ _ _) as [p|] eqn:Ep; [|by injection H as <- _].
  apply replace_key_typed in Ep; [|done..]. unfold mret, result_ret in H.
  destruct (set_proposed_finalizers st2 p) as [st3 es3] eqn:E3. injection H as <- _.
  exact (set_proposed_typed _ _ _ _ H2 Ep E3).
Qed.

Lemma delfinkey_typed c st n k st' es :
  finality_fits st -> delfinkey c st n k = Ok (st', es) -> finality_fits st'.
Proof.
  intros [F1 F2 F3 F4 F5] H. unfold delfinkey in H.
  apply bind_Ok in H as (_ & _ & H). apply bind_Ok in H as (f & Hf & H).
  apply bind_Ok in H as (h & _ & H). apply bind_Ok in H as ([pk r] & Hr & H).
  do 2 (apply bind_Ok in H as (_ & _ & H)). injection H as <- _.
  unfold get_finalizer_itr in Hf. apply bind_Ok in Hf as (f' & Hf%get_or_Ok & Hf').
  apply bind_Ok in Hf' as (_ & _ & [= ->]). destruct (F2 _ _ Hf) as [[[[Ho Ha] Hb] Hc] Hk].
  split; try done; simpl; [by apply map_Forall_delete|].
  destruct (_ =? 1); [by apply map_Forall_delete|]. apply map_Forall_insert_2; [|done].
  split; [|done]. split; [split; [split; [exact Ho|exact Ha]|exact Hb]|apply is_uint_u32].
Qed.

Lemma regfinkey_typed c st prods n k pop st' es :
  is_uint 64 n -> fits wire_string k -> finality_fits st ->
  regfinkey c st prods n k pop = Ok (st', es) -> finality_fits st'.
Proof.
  intros Hn Hk [F1 F2 F3 F4 F5] H. unfold regfinkey in H.
  do 3 (apply bind_Ok in H as (_ & _ & H)). apply bind_Ok in H as (g1 & Hg & H).
  do 3 (apply bind_Ok in H as (? & _ & H)).
  unfold to_binary in Hg. apply bind_Ok in Hg as (_ & _ & Hg). apply ty_decode in Hg; [|exact Hk].
  unfold insert_finalizer_key in H.
  destruct (get_next_finalizer_key_id st) as [st1 nid] eqn:En. unfold get_next_finalizer_key_id in En.
  assert (Hnid : is_uint 64 nid).
  { injection En as _ <-. destruct (fin_key_id_generator st); [apply is_uint_u64|by apply uint_zero]. }
  injection En as <- Enid. cbn [finalizer_keys finalizers last_prop_finalizers last_prop_finalizers_cached
    fin_key_id_generator] in H. rewrite Enid in H.
  apply bind_Ok in H as (ks & Hks & H). apply bind_Ok in H as (fs & Hfs & [= <- _]).
  split; simpl; try done.
  - eapply emplace_Forall; [exact Hks| |done]. split; [|done].
    split; [split; [split; [exact Hnid|exact Hn]|exact Hk]|exact Hg].
  - destruct (finalizers st !! n) as [f|] eqn:Ef.
    + injection Hfs as <-. apply map_Forall_insert_2; [|done].
      destruct (F2 _ _ Ef) as [[[[Ho Ha] Hb] Hc] Hk']. split; [|done].
      split; [split; [split; [exact Ho|exact Ha]|exact Hb]|apply is_uint_u32].
    + eapply emplace_Forall; [exact Hfs| |done]. split; [|done].
      split; [split; [split; [exact Hn|exact Hnid]|exact Hg]|by apply uint_small].
Qed.

(** ** The global state *)

Definition global_typed (g : eosio_global_state) : Prop :=
  fits global_state_wire g /\ in_range (amount (total_vote_stake g)).
Ltac global_tac :=
  let Hg := fresh in intros ? Hg; unfold global_typed, asset_ok in *; simpl in *; unfold asset_fits in *; simpl in *; tauto.

Lemma global_params p g : parameters_fit p -> global_typed g -> global_typed (with_params p g).
Proof. global_tac. Qed.
Lemma global_stake a g : asset_ok a -> global_typed g -> global_typed (with_total_vote_stake a g).
Proof. global_tac. Qed.
Lemma global_times t1 t2 g : is_i64 t1 /\ is_i64 t2 -> global_typed g -> global_typed (with_times t1 t2 g).
Proof. global_tac. Qed.
Lemma global_rewards a b c g :
  asset_fits a /\ asset_fits b /\ asset_fits c -> global_typed g -> global_typed (with_rewards a b c g).
Proof. global_tac. Qed.
Lemma global_schedule n t g :
  is_uint 16 n /\ is_uint 32 t -> global_typed g -> global_typed (with_schedule n t g).
Proof. global_tac. Qed.
Lemma global_name_close t g : is_uint 32 t -> global_typed g -> global_typed (with_last_name_close t g).
Proof. global_tac. Qed.
Lemma global_core core g : is_uint 64 core -> global_typed g -> global_typed (with_core core g).
Proof. global_tac. Qed.

(** The members an action reads *)
Record global_reads (g : eosio_global_state) : Prop := {
  gr_stake : asset_ok (total_vote_stake g);
  gr_initial : asset_fits (initial_rewards_per_block g);
  gr_produced : asset_fits (total_produced_rewards g);
  gr_unclaimed : asset_fits (total_unclaimed_rewards g);
  gr_activated : is_i64 (election_activated_time g);
  gr_started : is_i64 (reward_started_time g);
  gr_size : is_uint 16 (last_producer_schedule_size g);
}.
Lemma global_typed_reads g : global_typed g -> global_reads g.
Proof. intros [Hg Hr]. simpl in Hg. split; try tauto. split; tauto. Qed.

Lemma default_parameters_typed p : parameters_fit p -> global_typed (get_default_parameters p).
Proof.
  intros Hp. assert (H0 : asset_fits asset_default) by (split; [by unfold is_i64; unfold_ints|by apply uint_zero]).
  split; [|done]. simpl. by split_and!; try done; apply uint_small.
Qed.

(** ** Blocks *)

Lemma pay_block_typed g st p now g' st' :
  global_typed g -> voting_fits st -> pay_block g st p now = Ok (g', st') ->
  global_typed g' /\ voting_fits st'.
Proof.
  intros Hg Hst H. pose proof (global_typed_reads g Hg) as []. pose proof Hst as [V1 V2 V3].
  unfold pay_block in H. destruct (producers st !! p) as [i|] eqn:Ei; [|by injection H as <- <-].
  destruct (_ && _); [|by injection H as <- <-]. apply bind_Ok in H as (r & _ & [= <- <-]). split.
  - apply global_rewards; [|done]. split_and!; try done; (split; [apply i64_range|]); [apply gr_produced0|apply gr_unclaimed0].
  - split; [done| |done]. apply map_Forall_insert_2; [|done]. destruct (V2 _ _ Ei) as [Hf Hk].
    split; [|done]. simpl in Hf |- *. split_and!; try tauto. unfold asset_fits in *. simpl.
    split; [apply i64_range|tauto].
Qed.

Lemma update_elected_typed c g st fin t g' fin' es :
  global_typed g -> finality_fits fin -> is_uint 32 t ->
  update_elected_producers c g st fin t = (g', fin', es) -> global_typed g' /\ finality_fits fin'.
Proof.
  intros Hg Hf Ht H. pose proof (global_typed_reads g Hg) as []. unfold update_elected_producers in H.
  destruct (is_savanna_consensus fin) as [fin1 sv] eqn:E1. apply is_savanna_typed in E1 as [H1 _]; [|done].
  destruct (elect _ _ _ _ _) as [tops fins] eqn:Ee.
  pose proof (elect_typed fin1 (ff_finalizers _ H1) sv (by_index by_votes (producers st)) [] []
    ltac:(done) ltac:(done) ltac:(done)) as (Hfins & Hn & Htops). rewrite Ee in Hfins, Hn, Htops. simpl in *.
  destruct (_ || _).
  { injection H as <- <- _. split; [|done]. by apply (global_schedule _ _ g). }
  destruct (if sv then _ else _) as [fin2 es2] eqn:E2 in H. injection H as <- <- _. split.
  - assert (Hg1 := global_schedule _ _ g (conj gr_size0 Ht) Hg).
    destruct (accepts_producers _ _); [|exact Hg1]. exact (global_schedule _ _ _ (conj (is_uint_u16 _) Ht) Hg1).
  - destruct sv; [|by injection E2 as <- _]. eapply set_proposed_typed; [exact H1| |exact E2].
    apply (small_proposal _ 21 Hfins); lia.
Qed.

(** ** Every action *)

Definition tables_typed (s : sys) : Prop := tables_fit s /\ refunds_in_range (names s).

(** A component's tables replaced *)
Lemma tables_voting v s : voting_fits v -> tables_typed s -> tables_typed (with_voting v s).
Proof. by intros ? [[] ?]. Qed.
Lemma tables_finality f s : finality_fits f -> tables_typed s -> tables_typed (with_finality f s).
Proof. by intros ? [[] ?]. Qed.
Lemma tables_names nm s : names_typed nm -> tables_typed s -> tables_typed (with_names nm s).
Proof. by intros [? ?] [[] ?]. Qed.
Lemma tables_blocks b s : blocks_fit b -> tables_typed s -> tables_typed (with_blocks b s).
Proof. by intros ? [[] ?]. Qed.
Lemma typed_names s : tables_typed s -> names_typed (names s).
Proof. by intros [[] ?]. Qed.

Section handlers.
Variables (g : eosio_global_state) (s : sys) (g' : eosio_global_state) (s' : sys) (es : list effect).
Hypotheses (Hg : global_typed g) (Hs : tables_typed s).

Lemma on_voting_typed r :
  (forall v es, r = Ok (v, es) -> voting_fits v) -> on_voting g s r = Ok (g', s', es) ->
  global_typed g' /\ tables_typed s'.
Proof.
  intros Hr H. apply bind_Ok in H as ([v es1] & H1 & [= <- <- _]). split; [done|].
  apply tables_voting; [by eapply Hr|done].
Qed.
Lemma on_finality_typed r :
  (forall f es, r = Ok (f, es) -> finality_fits f) -> on_finality g s r = Ok (g', s', es) ->
  global_typed g' /\ tables_typed s'.
Proof.
  intros Hr H. apply bind_Ok in H as ([v es1] & H1 & [= <- <- _]). split; [done|].
  apply tables_finality; [by eapply Hr|done].
Qed.
Lemma on_names_typed r :
  (forall nm es, r = Ok (nm, es) -> names_typed nm) -> on_names g s r = Ok (g', s', es) ->
  global_typed g' /\ tables_typed s'.
Proof.
  intros Hr H. apply bind_Ok in H as ([v es1] & H1 & [= <- <- _]). split; [done|].
  apply tables_names; [by eapply Hr|done].
Qed.
Lemma on_stake_typed r :
  (forall g1 v, r = Ok (g1, v, es) -> stake_typed g g1 v) -> on_stake s r = Ok (g', s', es) ->
  global_typed g' /\ tables_typed s'.
Proof.
  intros Hr H. apply bind_Ok in H as ([[g1 v] es1] & H1 & [= <- <- ->]).
  destruct (Hr _ _ H1) as (Ha & -> & Hv). split; [|by apply tables_voting].
  by apply global_stake.
Qed.

Lemma init_typed c token v core : is_uint 64 core ->
  init c g token v core = Ok (g', es) -> global_typed g'.
Proof.
  intros Hc H. unfold init in H. do 3 (apply bind_Ok in H as (_ & _ & H)). cbv zeta in H.
  apply bind_Ok in H as (sup & _ & H). do 3 (apply bind_Ok in H as (_ & _ & H)).
  injection H as <- _. by apply global_core.
Qed.
Lemma setparams_typed c p : parameters_fit (base_parameters p) ->
  setparams c g p = Ok (g', es) -> global_typed g'.
Proof.
  intros Hp H. unfold setparams in H. do 2 (apply bind_Ok in H as (_ & _ & H)).
  injection H as <- _. by apply global_params.
Qed.
Lemma cfgelection_typed c t1 t2 a : is_i64 t1 -> is_i64 t2 -> asset_fits a ->
  cfgelection c g t1 t2 a = Ok g' -> global_typed g'.
Proof.
  intros H1 H2 Ha H. pose proof (global_typed_reads g Hg) as []. unfold cfgelection in H.
  apply bind_Ok in H as (_ & _ & H). apply bind_Ok in H as (core & _ & H).
  do 2 (apply bind_Ok in H as (_ & _ & H)). cbv zeta in H.
  apply bind_Ok in H as (t1' & E1 & H). apply bind_Ok in H as (_ & _ & H).
  apply bind_Ok in H as (t2' & E2 & [= <-]).
  apply global_rewards; [done|]. apply global_times; [|done]. split.
  - clear E2. destruct (_ || _); by apply bind_Ok in E1 as (_ & _ & [= <-]).
  - clear E1. destruct (_ || _); by apply bind_Ok in E2 as (_ & _ & [= <-]).
Qed.

Lemma onblock_typed c t p id : is_uint 32 t ->
  onblock c g s t p id = Ok (g', s', es) -> global_typed g' /\ tables_typed s'.
Proof.
  intros Ht H. unfold onblock in H. apply bind_Ok in H as (_ & _ & H).
  apply bind_Ok in H as (bl & Hb & H). apply add_to_blockinfo_typed in Hb; [|done|apply Hs]. cbv zeta in H.
  pose proof (tables_blocks bl s Hb Hs) as Hs1. set (s1 := with_blocks bl s) in *.
  destruct (_ || _); [by injection H as <- <- _|]. apply bind_Ok in H as ([g1 v1] & H1 & H).
  apply pay_block_typed in H1 as [Hg1 Hv1]; [|done|apply Hs1].
  pose proof (tables_voting v1 s1 Hv1 Hs1) as Hs2. set (s2 := with_voting v1 s1) in *.
  unfold update_schedule in H. destruct (120 <? _); [|by injection H as <- <- _].
  destruct (update_elected_producers c g1 (voting s2) (finality s2) t) as [[g2 fin] es2] eqn:E2.
  apply update_elected_typed in E2 as [Hg2 Hf2]; [|done|apply Hs2|done].
  apply bind_Ok in H as ([[g3 nm] es3] & H3 & [= <- <- _]).
  apply close_highest_bid_typed in H3 as [Hg3 Hn3]; [|done|by apply typed_names]. split.
  - destruct Hg3 as [->| ->]; [done|by apply global_name_close].
  - apply tables_names; [done|]. by apply tables_finality.
Qed.
End handlers.

Lemma handler_typed e o g s g' s' es :
  env_fits e -> op_fits system_abi o -> global_typed g -> tables_typed s ->
  handler e o g s = Ok (g', s', es) -> transfers_allowed es = true -> global_typed g' /\ tables_typed s'.
Proof.
  intros [Hnow Hslot Hsec _] Ho Hg Hs H Hes. pose proof Hs as [[T1 T2 T3 T4 T5 T6 T7 T8] T9].
  pose proof (global_typed_reads g Hg) as []. pose proof (typed_names s Hs) as Hnm.
  destruct o; cbn [handler] in H; simpl in Ho; unfold only_effects, only_check in H.
  all: try (by injection H as <- <- _).
  all: try (by apply bind_Ok in H as (? & _ & [= <- <- _])).
  - apply bind_Ok in H as ([g1 es1] & H1 & [= <- <- _]). split; [|done].
    eapply init_typed; [exact Hg| |exact H1]. tauto.
  - apply bind_Ok in H as ([g1 es1] & H1 & [= <- <- _]). split; [|done].
    eapply setparams_typed; [exact Hg| |exact H1]. tauto.
  - apply bind_Ok in H as (p & H1 & [= <- <- _]). split; [done|]. split; [|done]. split; try done. simpl.
    unfold setibintervl in H1. do 2 (apply bind_Ok in H1 as (_ & _ & H1)). injection H1 as <-. exact Ho.
  - apply bind_Ok in H as ([[nm cs] es1] & H1 & [= <- <- _]). split; [done|].
    apply newaccount_typed in H1 as [[Hn Hr] Hc]; [by split|tauto|tauto|done|done].
  - apply bind_Ok in H as (t & H1 & [= <- <- _]). split; [done|].
    apply setabi_typed in H1; [split; [by split|done]|tauto|tauto|done].
  - apply bind_Ok in H as (t & H1 & [= <- <- _]). split; [done|].
    apply limitauthchg_typed in H1; [split; [by split|done]|..]; simpl; tauto.
  - eapply onblock_typed; [exact Hg|exact Hs| |exact H]. tauto.
  - apply bind_Ok in H as (g1 & H1 & [= <- <- _]). split; [|done].
    eapply cfgelection_typed; [exact Hg| | | |exact H1]; tauto.
  - eapply on_names_typed; [exact Hg|exact Hs| |exact H]. intros nm es' H1.
    eapply bidname_typed; [..|exact H1]; try done; try tauto; apply gr_stake0.
  - eapply on_names_typed; [exact Hg|exact Hs| |exact H]. intros nm es' H1.
    by eapply bidrefund_typed.
  - eapply on_voting_typed; [exact Hg|exact Hs| |exact H]. intros v es' H1.
    unfold regproducer in H1. do 2 (apply bind_Ok in H1 as (_ & _ & H1)).
    eapply register_producer_typed; [..|exact H1]; try done; try tauto; [apply gr_stake0|].
    destruct Ho as [[[[_ Hk] _] _] _]. split_and!; [by apply uint_small| |by apply uint_small].
    apply Forall_singleton. split; [done|by apply uint_small].
  - eapply on_voting_typed; [exact Hg|exact Hs| |exact H]. intros v es' H1.
    unfold regproducer2 in H1. do 3 (apply bind_Ok in H1 as (_ & _ & H1)).
    eapply register_producer_typed; [..|exact H1]; try done; try tauto. apply gr_stake0.
  - eapply on_voting_typed; [exact Hg|exact Hs| |exact H]. intros v es' H1.
    unfold unregprod in H1. apply bind_Ok in H1 as (_ & _ & H1).
    apply bind_Ok in H1 as (i & Hi%get_or_Ok & [= <- _]). destruct T1 as [V1 V2 V3].
    split; [done| |done]. by apply deactivate_typed.
  - eapply on_voting_typed; [exact Hg|exact Hs| |exact H]. intros v es' H1.
    unfold rmvproducer in H1. apply bind_Ok in H1 as (_ & _ & H1).
    apply bind_Ok in H1 as (i & Hi%get_or_Ok & [= <- _]). destruct T1 as [V1 V2 V3].
    split; [done| |done]. by apply deactivate_typed.
  - destruct (vector_addresses _ _ _) as [a b]. eapply on_voting_typed; [exact Hg|exact Hs| |exact H].
    intros v es' H1. eapply voteproducer_typed; [..|exact H1]; try done; tauto.
  - eapply on_stake_typed; [exact Hg|exact Hs| |exact H]. intros g1 v H1.
    eapply addvote_typed; [..|exact H1|exact Hes]; try done; tauto.
  - eapply on_stake_typed; [exact Hg|exact Hs| |exact H]. intros g1 v H1.
    eapply subvote_typed; [..|exact H1]; try done; tauto.
  - eapply on_voting_typed; [exact Hg|exact Hs| |exact H]. intros v es' H1.
    by eapply voterefund_typed.
  - eapply on_finality_typed; [exact Hg|exact Hs| |exact H]. intros f es' H1.
    by eapply switchtosvnn_typed.
  - eapply on_finality_typed; [exact Hg|exact Hs| |exact H]. intros f es' H1.
    eapply regfinkey_typed; [..|exact H1]; simpl; try done; tauto.
  - eapply on_finality_typed; [exact Hg|exact Hs| |exact H]. intros f es' H1.
    eapply actfinkey_typed; [..|exact H1]; try done; tauto.
  - eapply on_finality_typed; [exact Hg|exact Hs| |exact H]. intros f es' H1.
    by eapply delfinkey_typed.
Qed.

(** ** What the actions send *)

(** An inline or deferred action is one of the three contracts', with arguments of their types. *)
Definition sent_ok (e : effect) : Prop :=
  match e with
  | Send a | SendDeferred _ _ _ a => call_fits (act_call a) /\ is_Some (Chain.decode_action a)
  | _ => True
  end.

Lemma name_typed i a : source_names !! i = Some a -> is_uint 64 (name_lit a).
Proof.
  intros Hi. pose proof ty_names as Hn. rewrite Forall_fmap, Forall_lookup in Hn. by apply (Hn i).
Qed.

(** Memos made of a few texts and names *)
Definition text_ok (n : Z) (s : string) : Prop := Z.of_nat (String.length s) <= n.
Lemma text_app n m s t : text_ok n s -> text_ok m t -> text_ok (n + m) (s +:+ t).
Proof. unfold text_ok. rewrite string_length_app. lia. Qed.
Lemma text_fits n s : text_ok n s -> n < 2 ^ 32 -> fits wire_string s.
Proof. unfold text_ok. simpl. unfold is_uint. lia. Qed.

Lemma transfer_sent auth from to q memo :
  is_uint 64 from -> is_uint 64 to -> asset_fits q -> fits wire_string memo ->
  sent_ok (send token_account auth (token_transfer from to q memo)).
Proof.
  intros Hf Ht Hq Hm. split; [|simpl; by rewrite Z.eqb_refl].
  split; [split; [by split|exact Hq]|exact Hm].
Qed.

Lemma name_text n : text_ok 13 (name_to_string n).
Proof. exact (ty_name_to_string n). Qed.

Lemma fees_sent auth n core q :
  is_uint 64 core -> asset_ctor n core = Ok q ->
  sent_ok (channel_to_system_fees names_account q) /\
  sent_ok (send Chain.system_account auth (system_logsystemfee names_account q "buy name")).
Proof.
  intros Hc Hq. apply asset_ctor_typed in Hq as [Hq _]; [|done].
  assert (is_uint 64 names_account) by exact (name_typed 6 _ eq_refl). split.
  - apply transfer_sent; [done|exact (name_typed 7 _ eq_refl)|done|]. eapply text_fits.
    + repeat apply text_app; [|apply name_text| |apply name_text]; exact (Z.le_refl _).
    + done.
  - split; [|simpl; by rewrite Z.eqb_refl]. split; [by split|]. by apply uint_small.
Qed.

Lemma register_sends c g st registered p auth u l ratio st' es :
  is_uint 64 p ->
  register_producer c g st registered p auth u l ratio = Ok (st', es) -> Forall sent_ok es.
Proof.
  intros Hp H. unfold register_producer in H.
  do 2 (apply bind_Ok in H as (_ & _ & H)). apply bind_Ok in H as (core & _ & H). cbv zeta in H.
  assert (Hes : es = if registered p then [] else
    [send reward_account [active_of p] (reward_regproducer p)]).
  { destruct (producers st !! p); [by injection H as _ <-|].
    apply bind_Ok in H as (? & _ & H). by apply bind_Ok in H as (? & _ & [= _ <-]). }
  subst es. destruct (registered p); [constructor|]. apply Forall_singleton.
  split; [done|]. simpl. by rewrite Z.eqb_refl.
Qed.

Lemma buygas_sends c g p r q es :
  is_uint 64 p -> asset_fits q -> buygas c g p r q = Ok es -> Forall sent_ok es.
Proof.
  intros Hp Hq H. unfold buygas in H. apply bind_Ok in H as (_ & _ & H).
  apply bind_Ok in H as (core & _ & H). do 4 (apply bind_Ok in H as (_ & _ & H)).
  destruct (get_resource_limits c r). apply bind_Ok in H as (_ & _ & [= <-]).
  constructor; [|by constructor].
  apply transfer_sent; [done|exact (name_typed 2 _ eq_refl)|done|by apply uint_small].
Qed.

Lemma bidname_sends c g st b n q st' es :
  is_uint 64 b -> asset_fits q -> bidname c g st b n q = Ok (st', es) -> Forall sent_ok es.
Proof.
  intros Hb Hq H. unfold bidname in H. do 6 (apply bind_Ok in H as (_ & _ & H)).
  apply bind_Ok in H as (core & Hc & H). do 2 (apply bind_Ok in H as (_ & _ & H)). cbv zeta in H.
  assert (Hes : es = [send token_account [active_of b]
    (token_transfer b names_account q ("bid name " +:+ name_to_string n))]).
  { destruct (bids st !! n).
    - do 3 (apply bind_Ok in H as (_ & _ & H)). by apply bind_Ok in H as (? & _ & [= _ <-]).
    - by apply bind_Ok in H as (? & _ & [= _ <-]). }
  subst es. apply Forall_singleton, transfer_sent; [done|exact (name_typed 6 _ eq_refl)|done|].
  eapply text_fits; [eapply text_app; [exact (Z.le_refl _)|apply name_text]|done].
Qed.

Lemma bidrefund_sends st b n st' es :
  is_uint 64 b -> names_typed st -> bidrefund st b n = Ok (st', es) -> Forall sent_ok es.
Proof.
  intros Hb [[_ N2] _] H. unfold bidrefund in H. apply bind_Ok in H as (r & Hr%get_or_Ok & [= _ <-]).
  destruct (N2 _ _ Hr) as (_ & [_ Hf] & _).
  apply Forall_singleton, transfer_sent; [exact (name_typed 6 _ eq_refl)|done|exact Hf|].
  eapply text_fits; [eapply text_app; [exact (Z.le_refl _)|apply name_text]|done].
Qed.

Lemma finality_sendless e o g s g' s' es :
  match o with Switchtosvnn | Regfinkey _ _ _ | Actfinkey _ _ | Delfinkey _ _ => True | _ => False end ->
  handler e o g s = Ok (g', s', es) -> Forall sent_ok es.
Proof.
  intros Ho H. assert (Hp : forall f l, Forall sent_ok (set_proposed_finalizers f l).2).
  { intros f l. unfold set_proposed_finalizers. repeat case_match; by repeat constructor. }
  destruct o; try done; simpl in H; unfold on_finality in H;
    apply bind_Ok in H as ([f es0] & H & [= _ _ <-]).
  - unfold switchtosvnn in H. apply bind_Ok in H as (_ & _ & H). case_match.
    do 2 apply bind_Ok in H as (_ & _ & H).
    match type of H with context [set_proposed_finalizers ?f ?l] =>
      specialize (Hp f l); destruct (set_proposed_finalizers f l) as [f1 es1] end.
    case_match. by apply bind_Ok in H as (_ & _ & [= _ <-]).
  - unfold regfinkey, insert_finalizer_key in H. ok_inv; done.
  - unfold actfinkey in H. ok_inv; try done.
    match goal with E : set_proposed_finalizers ?f ?l = _ |- _ => specialize (Hp f l); by rewrite E in Hp end.
  - unfold delfinkey in H. ok_inv; done.
Qed.

Lemma onblock_sends c g s t p id g' s' es :
  get_self c = Chain.system_account -> is_uint 32 t -> global_typed g -> tables_typed s ->
  onblock c g s t p id = Ok (g', s', es) -> Forall sent_ok es.
Proof.
  intros Hself Ht Hg Hs H. unfold onblock in H. apply bind_Ok in H as (_ & _ & H).
  apply bind_Ok in H as (bl & _ & H). cbv zeta in H.
  destruct (_ || _); [by injection H as _ _ <-|]. apply bind_Ok in H as ([g1 v1] & H1 & H).
  apply pay_block_typed in H1 as [Hg1 Hv1]; [|done|apply Hs].
  unfold update_schedule in H. destruct (120 <? _); [|by injection H as _ _ <-].
  destruct (update_elected_producers _ _ _ _ _) as [[g2 fin] es2] eqn:E2.
  assert (Hes2 : Forall sent_ok es2).
  { unfold update_elected_producers, set_proposed_finalizers in E2.
    repeat case_match; simplify_eq; by repeat constructor. }
  apply update_elected_typed in E2 as [Hg2 _]; [|done|apply Hs|done].
  apply bind_Ok in H as ([[g3 nm] es3] & H3 & [= _ _ <-]). apply Forall_app. split; [done|].
  unfold close_highest_bid in H3. repeat case_match; try (by injection H3 as _ _ <-).
  apply bind_Ok in H3 as (core & [_ ->]%core_symbol_Ok & H3). apply bind_Ok in H3 as (fee & Hf & [= _ _ <-]).
  destruct (global_typed_reads _ Hg2) as [[[_ Hcore] _] _ _ _ _ _ _]. rewrite Hself.
  destruct (fees_sent [active_of Chain.system_account] _ _ _ Hcore Hf) as [H4 H5].
  constructor; [exact H4|]. constructor; [exact H5|constructor].
Qed.

Lemma reward_sent auth cl m :
  call_fits cl -> Chain.decode_action (Action reward_account auth cl) = Some m ->
  sent_ok (send reward_account auth cl).
Proof. intros Hf Hd. split; [exact Hf|by exists m]. Qed.

Lemma addvote_sends c g st k q g' st' es :
  is_uint 64 k -> asset_fits q -> addvote c g st k q = Ok (g', st', es) -> Forall sent_ok es.
Proof.
  intros Hk Hq H. unfold addvote in H. do 5 (apply bind_Ok in H as (? & _ & H)).
  apply bind_Ok in H as ([? ?] & _ & [= _ _ <-]). constructor; [|constructor; [|constructor]].
  - apply transfer_sent; [done|exact (name_typed 4 _ eq_refl)|done|by apply uint_small].
  - eapply reward_sent; [|simpl; by rewrite Z.eqb_refl]. split; [done|apply Hq].
Qed.

Lemma subvote_sends c g st k q g' st' es :
  get_self c = Chain.system_account ->
  is_uint 64 k -> asset_fits q -> subvote c g st k q = Ok (g', st', es) -> Forall sent_ok es.
Proof.
  intros Hself Hk Hq H. unfold subvote in H. do 12 (apply bind_Ok in H as (? & _ & H)).
  apply bind_Ok in H as (? & _ & [= _ _ <-]). constructor; [|constructor; [|constructor]].
  - eapply reward_sent; [|simpl; by rewrite Z.eqb_refl]. split; [done|apply Hq].
  - rewrite Hself. split; [exact Hk|]. simpl. by rewrite Z.eqb_refl.
Qed.

Lemma voteproducer_sends c st a_old a_new k ps st' es :
  is_uint 64 k -> fits (wire_vector wire_name) ps ->
  voteproducer c st a_old a_new k ps = Ok (st', es) -> Forall sent_ok es.
Proof.
  intros Hk Hps H. unfold voteproducer in H. do 6 (apply bind_Ok in H as (? & _ & H)). cbv zeta in H.
  destruct (merge_producers _ _ _ _) as [[? ?] ?]. do 3 (apply bind_Ok in H as (? & _ & H)).
  injection H as _ <-. apply Forall_singleton. eapply reward_sent; [|simpl; by rewrite Z.eqb_refl].
  by split.
Qed.

Lemma voterefund_sends c st k st' es :
  voting_fits st -> voterefund c st k = Ok (st', es) -> Forall sent_ok es.
Proof.
  intros [_ _ V3] H. unfold voterefund in H. apply bind_Ok in H as (r & Hr%get_or_Ok & H).
  apply bind_Ok in H as (_ & _ & [= _ <-]). destruct (V3 _ _ Hr) as (_ & [[Ho _] Ha] & _).
  apply Forall_singleton, transfer_sent; [exact (name_typed 4 _ eq_refl)|exact Ho|exact Ha|by apply uint_small].
Qed.

Lemma init_sends c g t v core g' es :
  get_self c = Chain.system_account -> is_uint 64 core -> init c g t v core = Ok (g', es) -> Forall sent_ok es.
Proof.
  intros Hself Hc H. unfold init in H. do 3 (apply bind_Ok in H as (? & _ & H)). cbv zeta in H.
  do 4 (apply bind_Ok in H as (? & _ & H)). injection H as _ <-. rewrite Hself.
  constructor; [|constructor; [|constructor]].
  - split; [|simpl; by rewrite Z.eqb_refl]. split; [split; [exact (name_typed 2 _ eq_refl)|done]|].
    exact (name_typed 0 _ eq_refl).
  - eapply reward_sent; [exact Hc|simpl; by rewrite Z.eqb_refl].
Qed.

Lemma handler_sends e o g s g' s' es :
  get_self (env_ctx e) = Chain.system_account ->
  op_fits system_abi o -> global_typed g -> tables_typed s ->
  handler e o g s = Ok (g', s', es) -> Forall sent_ok es.
Proof.
  intros Hself Ho Hg Hs H. pose proof Hs as [[HV _ _ _ _ _ _ _] _].
  destruct o; try (eapply finality_sendless; [|exact H]; exact I);
    cbn [handler] in H; simpl in Ho; unfold only_effects, only_check, on_voting, on_stake, on_names in H.
  all: try (injection H as _ _ <-; constructor).
  all: try (apply bind_Ok in H as (? & _ & [= _ _ <-]); constructor).
  all: try (by eapply onblock_sends; [..|exact H]; [..|tauto|done|done]).
  all: try (apply bind_Ok in H as (es1 & H1 & [= _ _ <-]);
    try (unfold wasmcfg, setpriv, setalimits, activate, logsystemfee in H1; ok_inv; by repeat constructor)).
  - apply bind_Ok in H as ([g1 es1] & H1 & [= _ _ <-]). eapply init_sends; [..|exact H1]; [done|tauto].
  - apply bind_Ok in H as ([g1 es1] & H1 & [= _ _ <-]). unfold setparams in H1. ok_inv. by repeat constructor.
  - apply bind_Ok in H as ([[nm cs] es1] & H1 & [= _ _ <-]). unfold newaccount in H1. ok_inv; by repeat constructor.
  - eapply buygas_sends; [..|exact H1]; tauto.
  - eapply buygas_sends; [..|exact H1]; tauto.
  - apply bind_Ok in H as ([nm es1] & H1 & [= _ _ <-]). eapply bidname_sends; [..|exact H1]; tauto.
  - apply bind_Ok in H as ([nm es1] & H1 & [= _ _ <-]).
    eapply bidrefund_sends; [..|exact H1]; [tauto|by apply typed_names].
  - apply bind_Ok in H as ([v es1] & H1 & [= _ _ <-]). unfold regproducer in H1.
    do 2 (apply bind_Ok in H1 as (_ & _ & H1)). eapply register_sends; [..|exact H1]; tauto.
  - apply bind_Ok in H as ([v es1] & H1 & [= _ _ <-]). unfold regproducer2 in H1.
    do 3 (apply bind_Ok in H1 as (_ & _ & H1)). eapply register_sends; [..|exact H1]; tauto.
  - apply bind_Ok in H as ([v es1] & H1 & [= _ _ <-]). unfold unregprod in H1. ok_inv. constructor.
  - apply bind_Ok in H as ([v es1] & H1 & [= _ _ <-]). unfold rmvproducer in H1. ok_inv. constructor.
  - destruct (vector_addresses _ _ _). apply bind_Ok in H as ([v es1] & H1 & [= _ _ <-]).
    eapply voteproducer_sends; [..|exact H1]; simpl; tauto.
  - apply bind_Ok in H as ([[g1 v] es1] & H1 & [= _ _ <-]). eapply addvote_sends; [..|exact H1]; tauto.
  - apply bind_Ok in H as ([[g1 v] es1] & H1 & [= _ _ <-]). eapply subvote_sends; [..|exact H1]; [done|tauto|tauto].
  - apply bind_Ok in H as ([v es1] & H1 & [= _ _ <-]). eapply voterefund_sends; [..|exact H1]. exact HV.
Qed.

(** ** The contract *)

(** The tables of the contract between two actions *)
Record sys_typed (s : sys) : Prop := {
  st_global : match global s with Some g => global_typed g | None => True end;
  st_tables : tables_typed s;
  st_cache : last_prop_finalizers_cached (finality s) = None;
}.

Lemma sys_typed_init : sys_typed init_sys.
Proof. split; [done| |done]. by repeat split. Qed.

Lemma loaded_typed e s : env_fits e -> sys_typed s -> global_typed (loaded e s).
Proof.
  intros [_ _ _ Hp] [Hg _ _]. unfold loaded. destruct (global s); [exact Hg|].
  by apply default_parameters_typed.
Qed.

Lemma exec_typed e o s s' es :
  env_fits e -> op_fits system_abi o -> sys_typed s -> exec e o s = Ok (s', es) -> sys_typed s'.
Proof.
  intros He Ho Hs H. apply SystemInv.sys_exec_Ok in H as (g1 & s1 & H & Ht & Es & _ & Hglob).
  destruct (handler_typed _ _ _ _ _ _ _ He Ho (loaded_typed _ _ He Hs) (st_tables _ Hs) H Ht) as [Hg [Hf Hr]].
  assert (Hc : last_prop_finalizers_cached (finality s') = None) by (subst s'; by destruct (in_native o)).
  split; [|subst s'|exact Hc].
  - destruct Hglob as [->|(_ & _ & -> & _)]; [exact Hg|apply Hs].
  - destruct Hf as [T1 T2 T3 T4 T5 T6 T7 T8].
    destruct (in_native o); (split; [|exact Hr]; split; try done; by destruct T2).
Qed.

Lemma exec_sends e o s s' es :
  get_self (env_ctx e) = Chain.system_account ->
  env_fits e -> op_fits system_abi o -> sys_typed s -> exec e o s = Ok (s', es) -> Forall sent_ok es.
Proof.
  intros Hself He Ho Hs H. apply SystemInv.sys_exec_Ok in H as (g1 & s1 & H & _).
  by eapply (handler_sends _ _ _ _ _ _ _ Hself Ho (loaded_typed _ _ He Hs) (st_tables _ Hs) H).
Qed.

Lemma sys_typed_fits s : sys_typed s -> sys_fits s.
Proof. intros [Hg [Ht _] _]. split; [|exact Ht]. destruct (global s); [apply Hg|done]. Qed.

Lemma load_typed `{!WireLaws} s : sys_typed s -> load (store s) = s.
Proof.
  intros Hs. rewrite storage_roundtrip by by apply sys_typed_fits.
  destruct s as [gl vo [ks fs lp ca ge] na bl au cr ah pc]. destruct Hs as [_ _ Hc]. simpl in Hc. by subst.
Qed.
End typed.
