(* ===== verification/Genesis.v ===== *)
(** * The contracts that start a chain: flon.boot and flon.bios

    [contracts/flon.boot/include/flon.boot/flon.boot.hpp] and
    [contracts/flon.bios/include/flon.bios/flon.bios.hpp]: the structures, the actions with
    the native ones (whose bodies are empty: the chain itself carries them out), what each
    reads of its data, and the dispatch to the handlers of [Bios.v].  A chain starts with
    flon.boot on its system account and replaces it by flon.bios and then by flon.system, so
    the three must read the same bytes: each declares the structures again. *)
From S2P Require Import Prelude Cdt CdtRef SystemData Wire WireRef Abi.
From S2P Require Native Finalizer Bios.
From Stdlib Require Import ZArith Lia String.
From stdpp Require Import base tactics numbers list gmap strings.
Open Scope Z_scope.

(** ** flon.boot *)

Module Boot.
Record permission_level_weight : Type := PermissionLevelWeight {
  plw_permission : permission_level;
  plw_weight : Z;                        (* uint16_t *)
}.
Record key_weight : Type := KeyWeight {
  kw_key : bytes;
  kw_weight : Z;                         (* uint16_t *)
}.
Record wait_weight : Type := WaitWeight {
  wait_sec : Z;                          (* uint32_t *)
  ww_weight : Z;                         (* uint16_t *)
}.
Record authority : Type := Authority {
  threshold : Z;                         (* uint32_t *)
  keys : list key_weight;
  accounts : list permission_level_weight;
  waits : list wait_weight;
}.
Record block_header : Type := BlockHeader {
  timestamp : Z;                         (* uint32_t *)
  producer : name;
  confirmed : Z;                         (* uint16_t *)
  previous : bytes;
  transaction_mroot : bytes;
  action_mroot : bytes;
  schedule_version : Z;                  (* uint32_t *)
  new_producers : option producer_schedule;
}.

(** The actions and the arguments their handlers read *)
Inductive op : Type :=
| Newaccount (creator name : name)
| Updateauth
| Deleteauth
| Linkauth
| Unlinkauth
| Canceldelay
| Setcode (account : name) (vmtype vmversion : Z) (code : bytes)
| Setabi (account : name) (abi : bytes)
| Onerror
| Onblock
| Activate (feature_digest : bytes)
| Reqactivated (feature_digest : bytes).

Section boot.
Context {wire : Wire}.

Definition permission_level_weight_wire : codec permission_level_weight :=
  struct_codec (fun '(p, w) => PermissionLevelWeight p w) (fun r => (plw_permission r, plw_weight r))
    (wire_permission_level ⊗ wire_uint 16).
Definition key_weight_wire : codec key_weight :=
  struct_codec (fun '(k, w) => KeyWeight k w) (fun r => (kw_key r, kw_weight r))
    (wire_public_key ⊗ wire_uint 16).
Definition wait_weight_wire : codec wait_weight :=
  struct_codec (fun '(s, w) => WaitWeight s w) (fun r => (wait_sec r, ww_weight r))
    (wire_uint 32 ⊗ wire_uint 16).
Definition authority_wire : codec authority :=
  struct_codec (fun '(t, k, a, w) => Authority t k a w)
    (fun r => (threshold r, keys r, accounts r, waits r))
    (wire_uint 32 ⊗ wire_vector key_weight_wire ⊗ wire_vector permission_level_weight_wire
      ⊗ wire_vector wait_weight_wire).
Definition block_header_wire : codec block_header :=
  struct_codec (fun '(t, p, c, i, tm, am, v, n) => BlockHeader t p c i tm am v n)
    (fun r => (timestamp r, producer r, confirmed r, previous r, transaction_mroot r, action_mroot r,
      schedule_version r, new_producers r))
    (wire_uint 32 ⊗ wire_name ⊗ wire_uint 16 ⊗ wire_checksum256 ⊗ wire_checksum256 ⊗ wire_checksum256
      ⊗ wire_uint 32 ⊗ wire_optional wire_producer_schedule).

Definition native_abi : abi op :=
  [Entry "newaccount" (wire_name ⊗ wire_name) (fun '(c, n) => Newaccount c n)
     (fun o => match o with Newaccount c n => Some (c, n) | _ => None end);
   Entry "updateauth" no_args (fun _ => Updateauth)
     (fun o => match o with Updateauth => Some tt | _ => None end);
   Entry "deleteauth" no_args (fun _ => Deleteauth)
     (fun o => match o with Deleteauth => Some tt | _ => None end);
   Entry "linkauth" no_args (fun _ => Linkauth)
     (fun o => match o with Linkauth => Some tt | _ => None end);
   Entry "unlinkauth" no_args (fun _ => Unlinkauth)
     (fun o => match o with Unlinkauth => Some tt | _ => None end);
   Entry "canceldelay" no_args (fun _ => Canceldelay)
     (fun o => match o with Canceldelay => Some tt | _ => None end);
   Entry "setcode" (wire_name ⊗ wire_uint 8 ⊗ wire_uint 8 ⊗ wire_blob)
     (fun '(a, t, v, co) => Setcode a t v co)
     (fun o => match o with Setcode a t v co => Some (a, t, v, co) | _ => None end);
   Entry "setabi" (wire_name ⊗ wire_blob) (fun '(a, b) => Setabi a b)
     (fun o => match o with Setabi a b => Some (a, b) | _ => None end);
   Entry "onerror" no_args (fun _ => Onerror)
     (fun o => match o with Onerror => Some tt | _ => None end)].

Definition own_abi : abi op :=
  [Entry "onblock" no_args (fun _ => Onblock)
     (fun o => match o with Onblock => Some tt | _ => None end);
   Entry "activate" wire_checksum256 Activate
     (fun o => match o with Activate d => Some d | _ => None end);
   Entry "reqactivated" wire_checksum256 Reqactivated
     (fun o => match o with Reqactivated d => Some d | _ => None end)].
Definition boot_abi : abi op := native_abi ++ own_abi.

Definition exec {cdt : Cdt} (is_feature_activated : bytes -> bool) (c : ctx) (o : op)
    : result (list effect) :=
  match o with
  | Newaccount _ _ | Updateauth | Deleteauth | Linkauth | Unlinkauth | Canceldelay
  | Setcode _ _ _ _ | Setabi _ _ | Onblock => mret []
  | Onerror => Bios.Boot.onerror
  | Activate d => Bios.Boot.activate c d
  | Reqactivated d => Bios.Boot.reqactivated is_feature_activated d
  end.

Context {laws : WireLaws}.
#[export] Instance permission_level_weight_lawful : Lawful permission_level_weight_wire.
Proof. apply struct_lawful; [by intros []|by intros []|apply _]. Qed.
#[export] Instance key_weight_lawful : Lawful key_weight_wire.
Proof. apply struct_lawful; [by intros []|by intros []|apply _]. Qed.
#[export] Instance wait_weight_lawful : Lawful wait_weight_wire.
Proof. apply struct_lawful; [by intros []|by intros []|apply _]. Qed.
#[export] Instance authority_lawful : Lawful authority_wire.
Proof. apply struct_lawful; [by intros []|by intros [[[]]]|apply _]. Qed.
#[export] Instance block_header_lawful : Lawful block_header_wire.
Proof. apply struct_lawful; [by intros []|by intros [[[[[[[]]]]]]]|apply _]. Qed.
#[export] Instance boot_abi_ok : AbiOk boot_abi.
Proof. abi_tac. Qed.
End boot.
End Boot.

(** ** flon.bios *)

Module BiosActions.
Record permission_level_weight : Type := PermissionLevelWeight {
  plw_permission : permission_level;
  plw_weight : Z;                        (* uint16_t *)
}.
Record key_weight : Type := KeyWeight {
  kw_key : bytes;
  kw_weight : Z;                         (* uint16_t *)
}.
Record wait_weight : Type := WaitWeight {
  wait_sec : Z;                          (* uint32_t *)
  ww_weight : Z;                         (* uint16_t *)
}.
Record authority : Type := Authority {
  threshold : Z;                         (* uint32_t *)
  keys : list key_weight;
  accounts : list permission_level_weight;
  waits : list wait_weight;
}.
Record block_header : Type := BlockHeader {
  timestamp : Z;                         (* uint32_t *)
  producer : name;
  confirmed : Z;                         (* uint16_t *)
  previous : bytes;
  transaction_mroot : bytes;
  action_mroot : bytes;
  schedule_version : Z;                  (* uint32_t *)
  new_producers : option producer_schedule;
}.

Inductive op : Type :=
| Newaccount (creator name : name)
| Updateauth
| Deleteauth
| Linkauth
| Unlinkauth
| Canceldelay
| Setcode (account : name) (vmtype vmversion : Z) (code : bytes)
| Setabi (account : name) (abi : bytes)
| Onerror
| Setfinalizer (policy : Bios.finalizer_policy)
| Setpriv (account : name) (is_priv : Z)
| Setalimits (account : name) (gas : Z) (is_unlimited : bool)
| Setprods (schedule : list Cdt.producer_authority)
| Setparams (params : blockchain_parameters)
| Reqauth (from : name)
| Activate (feature_digest : bytes)
| Reqactivated (feature_digest : bytes).

(** The row of the table [abihash] *)
Record abi_hash : Type := AbiHash { owner : name; hash : bytes }.

Section bios.
Context {wire : Wire}.

Definition permission_level_weight_wire : codec permission_level_weight :=
  struct_codec (fun '(p, w) => PermissionLevelWeight p w) (fun r => (plw_permission r, plw_weight r))
    (wire_permission_level ⊗ wire_uint 16).
Definition key_weight_wire : codec key_weight :=
  struct_codec (fun '(k, w) => KeyWeight k w) (fun r => (kw_key r, kw_weight r))
    (wire_public_key ⊗ wire_uint 16).
Definition wait_weight_wire : codec wait_weight :=
  struct_codec (fun '(s, w) => WaitWeight s w) (fun r => (wait_sec r, ww_weight r))
    (wire_uint 32 ⊗ wire_uint 16).
Definition authority_wire : codec authority :=
  struct_codec (fun '(t, k, a, w) => Authority t k a w)
    (fun r => (threshold r, keys r, accounts r, waits r))
    (wire_uint 32 ⊗ wire_vector key_weight_wire ⊗ wire_vector permission_level_weight_wire
      ⊗ wire_vector wait_weight_wire).
Definition block_header_wire : codec block_header :=
  struct_codec (fun '(t, p, c, i, tm, am, v, n) => BlockHeader t p c i tm am v n)
    (fun r => (timestamp r, producer r, confirmed r, previous r, transaction_mroot r, action_mroot r,
      schedule_version r, new_producers r))
    (wire_uint 32 ⊗ wire_name ⊗ wire_uint 16 ⊗ wire_checksum256 ⊗ wire_checksum256 ⊗ wire_checksum256
      ⊗ wire_uint 32 ⊗ wire_optional wire_producer_schedule).
Definition finalizer_authority_wire : codec Bios.finalizer_authority :=
  struct_codec (fun '(d, w, k, p) => Bios.FinalizerAuthority d w k p)
    (fun r => (Bios.f_description r, Bios.f_weight r, Bios.f_public_key r, Bios.f_pop r))
    (wire_string ⊗ wire_uint 64 ⊗ wire_string ⊗ wire_string).
Definition finalizer_policy_wire : codec Bios.finalizer_policy :=
  struct_codec (fun '(t, f) => Bios.FinalizerPolicy t f)
    (fun r => (Bios.p_threshold r, Bios.p_finalizers r))
    (wire_uint 64 ⊗ wire_vector finalizer_authority_wire).
Definition abi_hash_wire : codec abi_hash :=
  struct_codec (fun '(o, h) => AbiHash o h) (fun r => (owner r, hash r))
    (wire_name ⊗ wire_checksum256).
(** [eosio::producer_authority] *)
Definition producer_authority_wire : codec Cdt.producer_authority :=
  struct_codec (fun '(n, a) => Cdt.ProducerAuthority n a)
    (fun r => (Cdt.producer_name r, Cdt.pa_authority r)) (wire_name ⊗ wire_signing_authority).

Definition native_abi : abi op :=
  [Entry "newaccount" (wire_name ⊗ wire_name) (fun '(c, n) => Newaccount c n)
     (fun o => match o with Newaccount c n => Some (c, n) | _ => None end);
   Entry "updateauth" no_args (fun _ => Updateauth)
     (fun o => match o with Updateauth => Some tt | _ => None end);
   Entry "deleteauth" no_args (fun _ => Deleteauth)
     (fun o => match o with Deleteauth => Some tt | _ => None end);
   Entry "linkauth" no_args (fun _ => Linkauth)
     (fun o => match o with Linkauth => Some tt | _ => None end);
   Entry "unlinkauth" no_args (fun _ => Unlinkauth)
     (fun o => match o with Unlinkauth => Some tt | _ => None end);
   Entry "canceldelay" no_args (fun _ => Canceldelay)
     (fun o => match o with Canceldelay => Some tt | _ => None end);
   Entry "setcode" (wire_name ⊗ wire_uint 8 ⊗ wire_uint 8 ⊗ wire_blob)
     (fun '(a, t, v, co) => Setcode a t v co)
     (fun o => match o with Setcode a t v co => Some (a, t, v, co) | _ => None end);
   Entry "setabi" (wire_name ⊗ wire_blob) (fun '(a, b) => Setabi a b)
     (fun o => match o with Setabi a b => Some (a, b) | _ => None end);
   Entry "onerror" no_args (fun _ => Onerror)
     (fun o => match o with Onerror => Some tt | _ => None end)].

Definition own_abi : abi op :=
  [Entry "setfinalizer" finalizer_policy_wire Setfinalizer
     (fun o => match o with Setfinalizer p => Some p | _ => None end);
   Entry "setpriv" (wire_name ⊗ wire_uint 8) (fun '(a, p) => Setpriv a p)
     (fun o => match o with Setpriv a p => Some (a, p) | _ => None end);
   Entry "setalimits" (wire_name ⊗ wire_uint 64 ⊗ wire_bool) (fun '(a, g, u) => Setalimits a g u)
     (fun o => match o with Setalimits a g u => Some (a, g, u) | _ => None end);
   Entry "setprods" (wire_vector producer_authority_wire) Setprods
     (fun o => match o with Setprods s => Some s | _ => None end);
   Entry "setparams" wire_parameters Setparams
     (fun o => match o with Setparams p => Some p | _ => None end);
   Entry "reqauth" wire_name Reqauth
     (fun o => match o with Reqauth f => Some f | _ => None end);
   Entry "activate" wire_checksum256 Activate
     (fun o => match o with Activate d => Some d | _ => None end);
   Entry "reqactivated" wire_checksum256 Reqactivated
     (fun o => match o with Reqactivated d => Some d | _ => None end)].
Definition bios_abi : abi op := native_abi ++ own_abi.

(** [pk_hash], [same_bucket]: see [Bios.setfinalizer]; the state is the table [abihash]. *)
Definition exec {cdt : Cdt} {bls : Finalizer.Bls} (is_feature_activated : bytes -> bool)
    (pk_hash : nat -> Z) (same_bucket : nat -> Z -> Z -> bool) (c : ctx) (o : op) (t : gmap name bytes)
    : result (gmap name bytes * list effect) :=
  match o with
  | Newaccount _ _ | Updateauth | Deleteauth | Linkauth | Unlinkauth | Canceldelay
  | Setcode _ _ _ _ => mret (t, [])
  | Setabi a b => t' ← Bios.setabi t a b; mret (t', [])
  | Onerror => es ← Bios.onerror; mret (t, es)
  | Setfinalizer p => es ← Bios.setfinalizer same_bucket c pk_hash p; mret (t, es)
  | Setpriv a p => es ← Bios.setpriv c a p; mret (t, es)
  | Setalimits a g u => es ← Bios.setalimits c a g u; mret (t, es)
  | Setprods s => es ← Bios.setprods c s; mret (t, es)
  | Setparams p => es ← Bios.setparams c p; mret (t, es)
  | Reqauth f => es ← Bios.reqauth c f; mret (t, es)
  | Activate d => es ← Bios.activate c d; mret (t, es)
  | Reqactivated d => es ← Bios.reqactivated is_feature_activated d; mret (t, es)
  end.

Context {laws : WireLaws}.
#[export] Instance permission_level_weight_lawful : Lawful permission_level_weight_wire.
Proof. apply struct_lawful; [by intros []|by intros []|apply _]. Qed.
#[export] Instance key_weight_lawful : Lawful key_weight_wire.
Proof. apply struct_lawful; [by intros []|by intros []|apply _]. Qed.
#[export] Instance wait_weight_lawful : Lawful wait_weight_wire.
Proof. apply struct_lawful; [by intros []|by intros []|apply _]. Qed.
#[export] Instance authority_lawful : Lawful authority_wire.
Proof. apply struct_lawful; [by intros []|by intros [[[]]]|apply _]. Qed.
#[export] Instance block_header_lawful : Lawful block_header_wire.
Proof. apply struct_lawful; [by intros []|by intros [[[[[[[]]]]]]]|apply _]. Qed.
#[export] Instance finalizer_authority_lawful : Lawful finalizer_authority_wire.
Proof. apply struct_lawful; [by intros []|by intros [[[]]]|apply _]. Qed.
#[export] Instance finalizer_policy_lawful : Lawful finalizer_policy_wire.
Proof. apply struct_lawful; [by intros []|by intros []|apply _]. Qed.
#[export] Instance abi_hash_lawful : Lawful abi_hash_wire.
Proof. apply struct_lawful; [by intros []|by intros []|apply _]. Qed.
#[export] Instance producer_authority_lawful : Lawful producer_authority_wire.
Proof. apply struct_lawful; [by intros []|by intros []|apply _]. Qed.
#[export] Instance bios_abi_ok : AbiOk bios_abi.
Proof. abi_tac. Qed.
End bios.
End BiosActions.

(** ** The same bytes *)

#[local] Existing Instances Native.authority_lawful Native.block_header_lawful Native.abi_hash_lawful.
#[local] Existing Instances Boot.boot_abi_ok BiosActions.bios_abi_ok.

Section layout.
Context {wire : Wire} {laws : WireLaws}.

Definition boot_key (k : Boot.key_weight) : Native.key_weight :=
  Native.KeyWeight (Boot.kw_key k) (Boot.kw_weight k).
Definition boot_level (p : Boot.permission_level_weight) : Native.permission_level_weight :=
  Native.PermissionLevelWeight (Boot.plw_permission p) (Boot.plw_weight p).
Definition boot_wait (w : Boot.wait_weight) : Native.wait_weight :=
  Native.WaitWeight (Boot.wait_sec w) (Boot.ww_weight w).
Definition boot_authority (a : Boot.authority) : Native.authority :=
  Native.Authority (Boot.threshold a) (boot_key <$> Boot.keys a) (boot_level <$> Boot.accounts a)
    (boot_wait <$> Boot.waits a).
Definition bios_key (k : BiosActions.key_weight) : Native.key_weight :=
  Native.KeyWeight (BiosActions.kw_key k) (BiosActions.kw_weight k).
Definition bios_level (p : BiosActions.permission_level_weight) : Native.permission_level_weight :=
  Native.PermissionLevelWeight (BiosActions.plw_permission p) (BiosActions.plw_weight p).
Definition bios_wait (w : BiosActions.wait_weight) : Native.wait_weight :=
  Native.WaitWeight (BiosActions.wait_sec w) (BiosActions.ww_weight w).
Definition bios_authority (a : BiosActions.authority) : Native.authority :=
  Native.Authority (BiosActions.threshold a) (bios_key <$> BiosActions.keys a) (bios_level <$> BiosActions.accounts a)
    (bios_wait <$> BiosActions.waits a).
Definition boot_header (h : Boot.block_header) : Native.block_header :=
  let '(Boot.BlockHeader t p c i tm am v n) := h in Native.BlockHeader t p c i tm am v n.
Definition bios_header (h : BiosActions.block_header) : Native.block_header :=
  let '(BiosActions.BlockHeader t p c i tm am v n) := h in Native.BlockHeader t p c i tm am v n.
Definition bios_abi_hash (r : BiosActions.abi_hash) : Native.abi_hash :=
  Native.AbiHash (BiosActions.owner r) (BiosActions.hash r).

(** [c1] packs what [c2] reads as its image. *)
Definition same_bytes {A B} (c1 : codec A) (c2 : codec B) (f : A -> B) : Prop :=
  forall x, pack c1 x = pack c2 (f x) /\ (fits c1 x <-> fits c2 (f x)).

Lemma same_bytes_read {A B} (c1 : codec A) (c2 : codec B) f x rest :
  same_bytes c1 c2 f -> Lawful c2 -> fits c1 x -> unpack c2 (pack c1 x ++ rest) = Ok (f x, rest).
Proof. intros H Hc Hx. destruct (H x) as [-> Hf]. by apply unpack_pack, Hf. Qed.

Lemma same_seq {A B A' B'} (c1 : codec A) (c2 : codec B) (d1 : codec A') (d2 : codec B') f g :
  same_bytes c1 d1 f -> same_bytes c2 d2 g ->
  same_bytes (c1 ⊗ c2) (d1 ⊗ d2) (fun x => (f x.1, g x.2)).
Proof.
  intros H1 H2 [x y]. simpl. destruct (H1 x) as [-> ->], (H2 y) as [-> ->]. done.
Qed.
Lemma same_vector {A B} (c1 : codec A) (c2 : codec B) f :
  same_bytes c1 c2 f -> same_bytes (wire_vector c1) (wire_vector c2) (fmap f).
Proof.
  intros H l. split; [apply vector_pack_map|apply vector_fits_map]; intros x; apply H.
Qed.

Lemma same_id {A} (c : codec A) : same_bytes c c id.
Proof. done. Qed.

Lemma boot_authority_bytes : same_bytes Boot.authority_wire Native.authority_wire boot_authority.
Proof.
  assert (Hk : same_bytes Boot.key_weight_wire Native.key_weight_wire boot_key) by done.
  assert (Hl : same_bytes Boot.permission_level_weight_wire Native.permission_level_weight_wire boot_level) by done.
  assert (Hw : same_bytes Boot.wait_weight_wire Native.wait_weight_wire boot_wait) by done.
  intros [t ks accs ws].
  exact (same_seq _ _ _ _ _ _ (same_seq _ _ _ _ _ _ (same_seq _ _ _ _ _ _ (same_id (wire_uint 32))
    (same_vector _ _ _ Hk)) (same_vector _ _ _ Hl)) (same_vector _ _ _ Hw) (((t, ks), accs), ws)).
Qed.
Lemma bios_authority_bytes : same_bytes BiosActions.authority_wire Native.authority_wire bios_authority.
Proof.
  assert (Hk : same_bytes BiosActions.key_weight_wire Native.key_weight_wire bios_key) by done.
  assert (Hl : same_bytes BiosActions.permission_level_weight_wire Native.permission_level_weight_wire bios_level) by done.
  assert (Hw : same_bytes BiosActions.wait_weight_wire Native.wait_weight_wire bios_wait) by done.
  intros [t ks accs ws].
  exact (same_seq _ _ _ _ _ _ (same_seq _ _ _ _ _ _ (same_seq _ _ _ _ _ _ (same_id (wire_uint 32))
    (same_vector _ _ _ Hk)) (same_vector _ _ _ Hl)) (same_vector _ _ _ Hw) (((t, ks), accs), ws)).
Qed.

(** Three contracts, the same bytes.  The authorities and block headers that flon.boot
    and flon.bios declare are packed as those of flon.system, member for member, and the rows of the
    table [abihash] that flon.bios writes are read back by flon.system: replacing one
    contract by the next changes no meaning. *)
Theorem genesis_layout rest :
  (forall a, fits Boot.authority_wire a ->
    unpack Native.authority_wire (pack Boot.authority_wire a ++ rest) = Ok (boot_authority a, rest)) /\
  (forall a, fits BiosActions.authority_wire a ->
    unpack Native.authority_wire (pack BiosActions.authority_wire a ++ rest) = Ok (bios_authority a, rest)) /\
  (forall h, fits Boot.block_header_wire h ->
    unpack Native.block_header_wire (pack Boot.block_header_wire h ++ rest) = Ok (boot_header h, rest)) /\
  (forall h, fits BiosActions.block_header_wire h ->
    unpack Native.block_header_wire (pack BiosActions.block_header_wire h ++ rest)
      = Ok (bios_header h, rest)) /\
  (forall r, fits BiosActions.abi_hash_wire r ->
    unpack Native.abi_hash_wire (pack BiosActions.abi_hash_wire r ++ rest) = Ok (bios_abi_hash r, rest)).
Proof.
  split_and!; intros x Hx; (apply same_bytes_read; [|apply _|exact Hx]).
  - apply boot_authority_bytes.
  - apply bios_authority_bytes.
  - by intros [].
  - by intros [].
  - by intros [].
Qed.
End layout.

(** ** What the two contracts can do *)

Section safety.
Context {cdt : Cdt} {bls : Finalizer.Bls} {wire : Wire} {laws : WireLaws}.
Context (is_feature_activated : bytes -> bool) (pk_hash : nat -> Z) (same_bucket : nat -> Z -> Z -> bool).

Lemma policy_weights action data p :
  read_action BiosActions.bios_abi action data = Ok (BiosActions.Setfinalizer p) ->
  Forall (fun f => is_u64 (Bios.f_weight f)) (Bios.p_finalizers p).
Proof.
  intros H%read_fits; [|apply _]. simpl in H. destruct H as (_ & H & _).
  eapply Forall_impl; [exact H|]. intros [d w k pop] ((( _ & Hw) & _) & _). simpl in *.
  unfold is_uint in Hw. unfold_ints. lia.
Qed.

Lemma setabi_Ok t account abi t' :
  Bios.setabi t account abi = Ok t' -> t' = <[account := sha256 abi]> t.
Proof.
  unfold Bios.setabi. destruct (t !! account); [by intros [= <-]|].
  by intros [_ ->]%emplace_Ok.
Qed.

(** C32 (Only the system account).  Whatever data a transaction carries, an action of
    flon.boot or flon.bios asks something of the chain only when the contract's own account
    signed; a finalizer policy that flon.bios sets is such that any two groups of finalizers that
    reach its threshold have a member in common; and only [setabi] writes the table, the hash of one account. *)
Theorem genesis_guarded c :
  (forall action data o es,
    read_action Boot.boot_abi action data = Ok o ->
    Boot.exec is_feature_activated c o = Ok es ->
    es <> [] -> has_auth c (get_self c) = true) /\
  (forall action data o t t' es,
    read_action BiosActions.bios_abi action data = Ok o ->
    BiosActions.exec is_feature_activated pk_hash same_bucket c o t = Ok (t', es) ->
    (es <> [] -> has_auth c (get_self c) = true) /\
    (forall thr out P Q, es = [SetFinalizers thr out] ->
      thr <= Bios.weight_at P 0 out -> thr <= Bios.weight_at Q 0 out ->
      exists i f, out !! i = Some f /\ P i = true /\ Q i = true) /\
    (t' = t \/ exists account abi, o = BiosActions.Setabi account abi /\ t' = <[account := sha256 abi]> t)).
Proof.
  split.
  - intros action data o es _ H Hes. destruct o; simpl in H; try done; try by injection H as <-.
    + by apply bind_Ok in H as (? & ?%check_Ok & _).
    + by apply bind_Ok in H as (? & _ & [= <-]).
  - intros action data o t t' es Ho H.
    assert (Hown : forall X, (forall thr out, X <> [SetFinalizers thr out]) ->
      (_ ← require_auth c (get_self c); mret X) = Ok es ->
      has_auth c (get_self c) = true /\ forall thr out, es <> [SetFinalizers thr out]).
    { intros X Hn HX. by apply bind_Ok in HX as (? & HX%check_Ok & [= <-]). }
    destruct o; simpl in H; try (by injection H as <- <-; split_and!; [..|by left]); try done;
      apply bind_Ok in H as (r & Hr & [= <- <-]).
    + apply setabi_Ok in Hr as ->. split_and!; [done..|]. right. by eexists _, _.
    + pose proof (policy_weights _ _ _ Ho) as Hw. split_and!; [|intros thr out P Q ->|by left].
      * intros _. by apply bind_Ok in Hr as (? & ?%check_Ok & _).
      * by eapply Bios.quorums_intersect.
    + apply Hown in Hr as [Ha Hn]; [|done]. split_and!; [done|by intros ???? ?%Hn|by left].
    + apply Hown in Hr as [Ha Hn]; [|done]. split_and!; [done|by intros ???? ?%Hn|by left].
    + apply Hown in Hr as [Ha Hn]; [|done]. split_and!; [done|by intros ???? ?%Hn|by left].
    + apply Hown in Hr as [Ha Hn]; [|done]. split_and!; [done|by intros ???? ?%Hn|by left].
    + apply bind_Ok in Hr as (? & _ & [= <-]). split_and!; [done..|by left].
    + apply Hown in Hr as [Ha Hn]; [|done]. split_and!; [done|by intros ???? ?%Hn|by left].
    + apply bind_Ok in Hr as (? & _ & [= <-]). split_and!; [done..|by left].
Qed.
End safety.

(** ** Examples *)

#[local] Existing Instance Finalizer.ref_bls.
Definition ex_authority : Boot.authority :=
  Boot.Authority 1 [Boot.KeyWeight [4; 5] 1] [Boot.PermissionLevelWeight (PermissionLevel 7 8) 2] [].
Definition ex_native : Native.authority :=
  Native.Authority 1 [Native.KeyWeight [4; 5] 1]
    [Native.PermissionLevelWeight (PermissionLevel 7 8) 2] [].
Definition ex_policy_data : bytes := pack BiosActions.finalizer_policy_wire Bios.ex_policy.

Lemma genesis_layout_witness :
  fits Boot.authority_wire ex_authority /\
  unpack Native.authority_wire (pack Boot.authority_wire ex_authority ++ [9]) = Ok (ex_native, [9]).
Proof.
  assert (Hf : fits Boot.authority_wire ex_authority).
  { simpl. unfold is_bytes, is_uint. split_and!; repeat constructor; simpl; lia. }
  split; [exact Hf|]. exact (proj1 (genesis_layout [9]) ex_authority Hf).
Defined.

Lemma genesis_guarded_witness :
  exists out,
    read_action BiosActions.bios_abi "setfinalizer" ex_policy_data
      = Ok (BiosActions.Setfinalizer Bios.ex_policy) /\
    BiosActions.exec (fun _ => true) (fun _ => 7) Bios.mod_bucket (ref_ctx 1 0)
      (BiosActions.Setfinalizer Bios.ex_policy) ∅ = Ok (∅, [SetFinalizers 4 out]) /\
    has_auth (ref_ctx 1 0) (get_self (ref_ctx 1 0)) = true.
Proof.
  assert (Hr : read_action BiosActions.bios_abi "setfinalizer" ex_policy_data
      = Ok (BiosActions.Setfinalizer Bios.ex_policy)) by (vm_compute; reflexivity).
  destruct (BiosActions.exec (fun _ => true) (fun _ => 7) Bios.mod_bucket (ref_ctx 1 0)
      (BiosActions.Setfinalizer Bios.ex_policy) ∅) as [[t es]|] eqn:E; [|vm_compute in E; discriminate].
  assert (Hes : exists out, t = ∅ /\ es = [SetFinalizers 4 out])
    by (vm_compute in E; injection E as <- <-; eexists; split; reflexivity).
  destruct Hes as (out & -> & ->). exists out. split; [exact Hr|]. split; [reflexivity|].
  destruct (proj2 (genesis_guarded (fun _ => true) (fun _ => 7) Bios.mod_bucket (ref_ctx 1 0)) _ _ _ _ _ _ Hr E) as [H _].
  apply H. discriminate.
Defined.
