(* ===== verification/TokenCopy.v ===== *)
(** * The copy of flon.token's header in pubkey.token

    [contracts/pubkey.token/include/pubkey.token/flon.token.hpp] declares flon.token a second
    time: pubkey.token packs its transfers with these declarations and would read
    flon.token's tables with these rows.  Here is the copy, and that it agrees with the contract: what
    it packs flon.token reads, and its getters return what flon.token's return. *)
From S2P Require Import Prelude Cdt CdtRef Wire WireRef Abi.
From S2P Require Token Actions.
From Stdlib Require Import ZArith Lia String.
From stdpp Require Import base tactics numbers list gmap fin_maps strings.
Open Scope Z_scope.

(** ** The declarations *)

Inductive op : Type :=
| create (issuer : name) (maximum_supply : asset)
| issue (to : name) (quantity : asset) (memo : string)
| retire (quantity : asset) (memo : string)
| transfer (from to : name) (quantity : asset) (memo : string)
| open (owner : name) (s : symbol) (ram_payer : name)
| close (owner : name) (s : symbol).

Record account : Type := Account { balance : asset }.
Record currency_stats : Type := CurrencyStats {
  supply : asset;
  max_supply : asset;
  issuer : name;
}.

Section copy.
Context {wire : Wire}.

Definition token_abi : abi op :=
  [Entry "create" (wire_name ⊗ wire_asset) (fun '(i, m) => create i m)
     (fun o => match o with create i m => Some (i, m) | _ => None end);
   Entry "issue" (wire_name ⊗ wire_asset ⊗ wire_string) (fun '(t, q, m) => issue t q m)
     (fun o => match o with issue t q m => Some (t, q, m) | _ => None end);
   Entry "retire" (wire_asset ⊗ wire_string) (fun '(q, m) => retire q m)
     (fun o => match o with retire q m => Some (q, m) | _ => None end);
   Entry "transfer" (wire_name ⊗ wire_name ⊗ wire_asset ⊗ wire_string)
     (fun '(f, t, q, m) => transfer f t q m)
     (fun o => match o with transfer f t q m => Some (f, t, q, m) | _ => None end);
   Entry "open" (wire_name ⊗ wire_symbol ⊗ wire_name) (fun '(o, s, p) => open o s p)
     (fun o => match o with open o s p => Some (o, s, p) | _ => None end);
   Entry "close" (wire_name ⊗ wire_symbol) (fun '(o, s) => close o s)
     (fun o => match o with close o s => Some (o, s) | _ => None end)].

(** Rows without [EOSLIB_SERIALIZE] are packed member by member as declared. *)
Definition account_wire : codec account :=
  struct_codec Account balance wire_asset.
Definition currency_stats_wire : codec currency_stats :=
  struct_codec (fun '(s, m, i) => CurrencyStats s m i)
    (fun r => (supply r, max_supply r, issuer r)) (wire_asset ⊗ wire_asset ⊗ wire_name).

(** The tables of the account that runs flon.token, as the chain stores them: by scope and
    key, the packed row *)
Record tables : Type := Tables {
  accounts : gmap (name * sym_code) bytes;
  stats : gmap (sym_code * sym_code) bytes;
}.

Definition get_supply (t : tables) (code : sym_code) : result asset :=
  data ← get_or (stats t !! (code, code)) "unable to find key";
  '(st, _) ← unpack currency_stats_wire data;
  mret (supply st).
Definition get_balance (t : tables) (owner : name) (code : sym_code) : result asset :=
  data ← get_or (accounts t !! (owner, code)) "unable to find key";
  '(ac, _) ← unpack account_wire data;
  mret (balance ac).

(** What flon.token stores: the rows of [flon.token.hpp] *)
Definition own_account_wire : codec Token.account :=
  struct_codec Token.Account Token.balance wire_asset.
Definition own_stats_wire : codec Token.currency_stats :=
  struct_codec (fun '(s, m, i) => Token.CurrencyStats s m i)
    (fun r => (Token.supply r, Token.max_supply r, Token.issuer r))
    (wire_asset ⊗ wire_asset ⊗ wire_name).
Definition stored (st : Token.state) : tables :=
  Tables (pack own_account_wire <$> Token.accounts st) (pack own_stats_wire <$> Token.stats st).
Definition rows_fit (st : Token.state) : Prop :=
  map_Forall (fun _ r => fits own_account_wire r) (Token.accounts st) /\
  map_Forall (fun _ r => fits own_stats_wire r) (Token.stats st).

(** ** It agrees with flon.token. *)

Definition token_op (o : op) : Token.op :=
  match o with
  | create i m => Token.op_create i m
  | issue t q m => Token.op_issue t q m
  | retire q m => Token.op_retire q m
  | transfer f t q m => Token.op_transfer f t q m
  | open o s p => Token.op_open o s p
  | close o s => Token.op_close o s
  end.

Lemma copy_write o : write_action token_abi o = write_action Actions.token_abi (token_op o).
Proof. by destruct o. Qed.

Context {laws : WireLaws}.

#[export] Instance account_lawful : Lawful account_wire.
Proof. apply struct_lawful; [by intros []|done|apply _]. Qed.
#[export] Instance currency_stats_lawful : Lawful currency_stats_wire.
Proof. apply struct_lawful; [by intros []|by intros [[]]|apply _]. Qed.

Lemma token_packs :
  Forall (fun e => forall x, fits (e_codec e) x -> reads_back (e_codec e) x) Actions.token_abi.
Proof. repeat (apply Forall_cons; split; [intros x; apply lawful_reads_back, _|]). by apply Forall_nil. Qed.

(** Every action the copy's wrappers pack, flon.token reads as the same action. *)
Theorem copy_sends o action data :
  op_fits token_abi o -> write_action token_abi o = Some (action, data) ->
  read_action Actions.token_abi action data = Ok (token_op o).
Proof.
  intros Hf Hw. rewrite copy_write in Hw.
  assert (Hf' : op_fits Actions.token_abi (token_op o)) by (by destruct o).
  destruct (read_write Actions.token_abi (token_op o) Actions.token_abi_ok token_packs Hf') as (nm & b & Hw' & Hr).
  rewrite Hw in Hw'. by injection Hw' as <- <-.
Qed.

(** The copy's getters return what flon.token's own return, and fail when these fail. *)
Theorem copy_reads st :
  rows_fit st ->
  (forall code, get_supply (stored st) code =
    match Token.get_supply st code with Ok a => Ok a | Err _ => Err "unable to find key" end) /\
  (forall owner code, get_balance (stored st) owner code =
    match Token.get_balance st owner code with Ok a => Ok a | Err _ => Err "unable to find key" end).
Proof.
  intros [Ha Hs]. split.
  - intros code. unfold get_supply, Token.get_supply. cbn [stored stats]. rewrite lookup_fmap.
    destruct (Token.stats st !! (code, code)) as [[s m i]|] eqn:E; [|done].
    assert (Hf := Hs _ _ E). cbn [fmap option_fmap option_map get_or mbind result_bind].
    assert (Eu := lawful_reads_back currency_stats_wire (CurrencyStats s m i) _ Hf). unfold reads_back in Eu.
    change (pack own_stats_wire (Token.CurrencyStats s m i))
      with (pack currency_stats_wire (CurrencyStats s m i)). by rewrite Eu.
  - intros owner code. unfold get_balance, Token.get_balance. cbn [stored accounts]. rewrite lookup_fmap.
    destruct (Token.accounts st !! (owner, code)) as [[b]|] eqn:E; [|done].
    assert (Hf := Ha _ _ E). cbn [fmap option_fmap option_map get_or mbind result_bind].
    assert (Eu := lawful_reads_back account_wire (Account b) _ Hf). unfold reads_back in Eu.
    change (pack own_account_wire (Token.Account b)) with (pack account_wire (Account b)).
    by rewrite Eu.
Qed.
End copy.
