(* ===== verification/MsigTyped.v ===== *)
(** * flon.msig keeps rows of their C++ types

    How the rows of flon.msig are packed ([flon.msig.hpp]); every action keeps them values of
    their members' types, whatever transactions are proposed, so that they come back from
    the bytes they are stored as.  The number of levels of a proposal never changes, nor, below 128
    of them, the size of the row that keeps them. *)
From S2P Require Import Prelude Cdt CdtRef SystemData Wire WireRef Abi Trx Msig.
From S2P Require Import Rows.
From S2P Require Actions MsigProps.
From Stdlib Require Import ZArith Lia String.
From stdpp Require Import base tactics numbers list gmap fin_maps.
Open Scope Z_scope.
#[local] Existing Instance Actions.msig_abi_ok.

Section rows.
Context {wire : Wire}.

(** ** Codecs *)

Definition proposal_wire : codec proposal :=
  struct_codec (fun '(n, t, e) => Proposal n t e)
    (fun p => (proposal_name p, packed_transaction p, earliest_exec_time p))
    (wire_name ⊗ wire_blob ⊗ wire_extension None (wire_optional wire_time_point)).
Definition approval_wire : codec approval :=
  struct_codec (fun '(l, t) => Approval l t) (fun a => (level a, time a))
    (wire_permission_level ⊗ wire_time_point).
Definition approvals_info_wire : codec approvals_info :=
  struct_codec (fun '(v, n, r, p) => ApprovalsInfo v n r p)
    (fun a => (a_version a, a_proposal_name a, requested_approvals a, provided_approvals a))
    (wire_uint 8 ⊗ wire_name ⊗ wire_vector approval_wire ⊗ wire_vector approval_wire).
Definition invalidation_wire : codec invalidation :=
  struct_codec (fun '(a, t) => Invalidation a t) (fun i => (i_account i, last_invalidation_time i))
    (wire_name ⊗ wire_time_point).

(** ** The storage *)

Record msig_storage : Type := MsigStorage {
  b_proposals : gmap (name * name) bytes;
  b_approvals : gmap (name * name) bytes;
  b_invalidations : gmap name bytes;
}.
Definition store_msig (st : state) : msig_storage :=
  MsigStorage (pack proposal_wire <$> proposals st) (pack approvals_info_wire <$> approvals st)
    (pack invalidation_wire <$> invalidations st).
Definition load_msig (b : msig_storage) : state :=
  State (omap (load_row proposal_wire) (b_proposals b))
    (omap (load_row approvals_info_wire) (b_approvals b))
    (omap (load_row invalidation_wire) (b_invalidations b)).

(** ** Typed rows *)

(** The levels of a proposal together *)
Definition all_levels (a : approvals_info) : list approval :=
  requested_approvals a ++ provided_approvals a.
Definition levels_fit (l : list approval) : Prop :=
  Forall (fits approval_wire) l /\ is_uint 32 (Z.of_nat (length l)).

Definition approvals_fit (k : name * name) (a : approvals_info) : Prop :=
  is_uint 64 k.1 /\ is_uint 64 k.2 /\ is_uint 8 (a_version a) /\ a_proposal_name a = k.2 /\
  levels_fit (all_levels a).

(** The time's extension is there. *)
Definition proposal_fits (k : name * name) (p : proposal) : Prop :=
  scoped_fits proposal_wire proposal_name k p /\ is_Some (earliest_exec_time p).

Record msig_typed (st : state) : Prop := {
  mt_proposals : map_Forall proposal_fits (proposals st);
  mt_approvals : map_Forall approvals_fit (approvals st);
  mt_invalidations : map_Forall (row_fits invalidation_wire i_account) (invalidations st);
}.

(** What an action comes with: a clock in its type, arguments in theirs; what [propose] leaves
    unread is bytes. *)
Definition trx_bytes (o : op) : Prop :=
  match o with Propose _ _ _ t => is_bytes t | _ => True end.
Definition call_ok (eo : env * op) : Prop :=
  is_i64 (current_time_point (env_ctx eo.1)) /\ op_fits Actions.msig_abi eo.2 /\ trx_bytes eo.2.

Lemma msig_typed_init : msig_typed init_state.
Proof. by split. Qed.

Lemma levels_perm l l' : l ≡ₚ l' -> levels_fit l -> levels_fit l'.
Proof. intros Hp [H1 H2]. split; [by rewrite <- Hp|by rewrite <- Hp]. Qed.

(** A level that is taken out of the one list and put into the other *)
Lemma levels_move lv t (l l1 l2 : list approval) x rest :
  erase_first (is_level lv) l = Some (x, rest) -> is_i64 t -> l ++ l1 ≡ₚ l2 -> levels_fit l2 ->
  levels_fit (rest ++ l1 ++ [Approval lv t]).
Proof.
  intros (m1 & m2 & -> & -> & Hx & _)%erase_first_Some Ht Hl H.
  apply bool_decide_eq_true in Hx as <-. apply (levels_perm _ (x :: (m1 ++ m2) ++ l1)) in H.
  2:{ rewrite <- Hl. rewrite <- Permutation_middle. done. }
  apply (levels_perm (Approval (level x) t :: (m1 ++ m2) ++ l1)).
  { rewrite <- Permutation_cons_append, <- Permutation_middle. done. }
  destruct H as [[Hf Hr]%Forall_cons Hn]. split; [|done]. constructor; [|done]. split; [apply Hf|done].
Qed.

Lemma scheduled_typed k p t :
  proposal_fits k p -> (forall u, t = Some u -> is_i64 u) -> proposal_fits k (with_earliest t p).
Proof.
  intros [(H1 & [[H2 _] H3]) _] Ht. split; [|by eexists]. split; [done|]. split; [|exact H3]. split; [exact H2|]. simpl.
  destruct t as [u|]; [by apply Ht|done].
Qed.

Context {cdt : Cdt} {trx : Transactions}.

(** The clock of an approval is never out of its type, nor the time set from it. *)
Lemma schedule_exec_typed e st p n k prop h prop' :
  proposal_fits k prop -> schedule_exec e st p n prop h = Ok prop' -> proposal_fits k prop'.
Proof.
  intros Hp H. unfold schedule_exec in H. destruct (earliest_exec_time prop) as [[u|]|].
  - by injection H as <-.
  - destruct (trx_is_authorized _ _ _); injection H as <-; [|done].
    apply scheduled_typed; [done|]. intros u [= <-]. apply i64_range.
  - by apply bind_Ok in H as (_ & _ & [= <-]).
Qed.
Lemma unschedule_exec_typed e st p n k prop prop' :
  proposal_fits k prop -> unschedule_exec e st p n prop = Ok prop' -> proposal_fits k prop'.
Proof.
  intros Hp H. unfold unschedule_exec in H. destruct (earliest_exec_time prop) as [[u|]|].
  - destruct (trx_is_authorized _ _ _); injection H as <-; [done|]. by apply scheduled_typed.
  - by injection H as <-.
  - apply bind_Ok in H as (h & _ & H). by apply bind_Ok in H as (_ & _ & [= <-]).
Qed.

Lemma adjust_typed st p n f :
  map_Forall approvals_fit (approvals st) ->
  (forall m, map_Forall approvals_fit m -> map_Forall approvals_fit (f m)) ->
  map_Forall approvals_fit (get_approvals_and_adjust_table st p n f).2.
Proof. intros Ha Hf. unfold get_approvals_and_adjust_table. destruct (_ !! _); [by apply Hf|done]. Qed.

Lemma propose_typed e st p n req t st' es :
  is_uint 64 p -> is_uint 64 n -> fits (wire_vector wire_permission_level) req -> is_bytes t ->
  msig_typed st -> propose e st p n req t = Ok (st', es) -> msig_typed st'.
Proof.
  intros Hp Hn [Hr Hl] Ht [M1 M2 M3] H%MsigProps.propose_Ok.
  destruct H as (_ & _ & _ & _ & _ & _ & _ & -> & _). split; [| |done].
  - apply map_Forall_insert_2; [|done]. split; [|by eexists]. split; [done|]. split; [|done]. split; [by split|done].
  - apply map_Forall_insert_2; [|done]. split_and!; try done. unfold all_levels. simpl.
    rewrite app_nil_r. split; [|by rewrite length_fmap]. apply Forall_fmap.
    eapply Forall_impl; [exact Hr|]. intros l Hf. split; [exact Hf|]. simpl. unfold_ints. lia.
Qed.

Lemma approve_typed e st p n lv ph st' es :
  is_i64 (current_time_point (env_ctx e)) -> msig_typed st ->
  approve e st p n lv ph = Ok (st', es) -> msig_typed st'.
Proof.
  intros Hc [M1 M2 M3] H. unfold approve in H. apply bind_Ok in H as (_ & _ & H).
  apply bind_Ok in H as (prop & Hp%get_or_Ok & H). apply bind_Ok in H as (_ & _ & H).
  apply bind_Ok in H as (apps & Ha & H). apply bind_Ok in H as (h & _ & H).
  apply bind_Ok in H as (prop' & Hs & [= <- _]). split; [| |done].
  - apply map_Forall_insert_2; [|done]. eapply schedule_exec_typed; [by apply M1|exact Hs].
  - simpl. destruct (approvals st !! (p, n)) as [a|] eqn:Ea; [|by injection Ha as <-].
    apply bind_Ok in Ha as ([x rest] & He%get_or_Ok & [= <-]). apply map_Forall_insert_2; [|done].
    destruct (M2 _ _ Ea) as (H1 & H2 & H3 & H4 & H5). split_and!; try done.
    by apply (levels_move lv _ _ _ (all_levels a) x rest He Hc).
Qed.

Lemma unapprove_typed e st p n lv st' es :
  is_i64 (current_time_point (env_ctx e)) -> msig_typed st ->
  unapprove e st p n lv = Ok (st', es) -> msig_typed st'.
Proof.
  intros Hc [M1 M2 M3] H. unfold unapprove in H. apply bind_Ok in H as (_ & _ & H).
  apply bind_Ok in H as (a & Ea%get_or_Ok & H). apply bind_Ok in H as ([x rest] & He%get_or_Ok & H).
  apply bind_Ok in H as (prop & Hp%get_or_Ok & H). simpl in Hp.
  apply bind_Ok in H as (prop' & Hs & [= <- _]). split; [| |done].
  - apply map_Forall_insert_2; [|done]. eapply unschedule_exec_typed; [by apply M1|exact Hs].
  - apply map_Forall_insert_2; [|done].
    destruct (M2 _ _ Ea) as (H1 & H2 & H3 & H4 & H5). split_and!; try done.
    eapply levels_perm; [|eapply (levels_move lv _ _ _ _ x rest He Hc); [|exact H5]].
    + unfold all_levels. simpl. by rewrite (Permutation_app_comm _ rest).
    + unfold all_levels. apply Permutation_app_comm.
Qed.

Lemma handle_typed eo st st' es :
  call_ok eo -> msig_typed st -> handle eo st = Ok (st', es) -> msig_typed st'.
Proof.
  destruct eo as [e o]. intros (Hc & Ho & Ht) Hst H. destruct o; simpl in Hc, Ho, Ht, H.
  - eapply propose_typed; [..|exact H]; apply Ho || done.
  - exact (approve_typed _ _ _ _ _ _ _ _ Hc Hst H).
  - exact (unapprove_typed _ _ _ _ _ _ _ Hc Hst H).
  - destruct Hst. unfold cancel in H. do 3 (apply bind_Ok in H as (? & _ & H)).
    injection H as <- _. split; [by apply map_Forall_delete..|done].
  - destruct Hst. unfold exec in H. apply bind_Ok in H as (_ & _ & H). apply bind_Ok in H as (prop & _ & H).
    apply bind_Ok in H as ([h ds] & _ & H). apply bind_Ok in H as (_ & _ & H).
    apply bind_Ok in H as ([cfa ds2] & _ & H). apply bind_Ok in H as (_ & _ & H).
    apply bind_Ok in H as ([acts ds3] & _ & H).
    destruct (get_approvals_and_adjust_table _ _ _ _) as [levels apps] eqn:Et.
    assert (Ha : map_Forall approvals_fit apps).
    { change apps with (levels, apps).2. rewrite <- Et.
      apply adjust_typed; [done|]. intros; by apply map_Forall_delete. }
    do 2 (apply bind_Ok in H as (? & _ & H)). injection H as <- _.
    split; [by apply map_Forall_delete|done..].
  - destruct Hst. unfold invalidate in H. apply bind_Ok in H as (_ & _ & H).
    apply bind_Ok in H as (inv & Hi & [= <- _]). split; [done..|]. simpl.
    destruct (invalidations st !! account) as [i|] eqn:Ei.
    + injection Hi as <-. apply map_Forall_insert_2; [|done].
      destruct (mt_invalidations0 _ _ Ei) as ([H1 _] & H2 & H3). split; [|by split]. by split.
    + eapply emplace_Forall; [exact Hi| |done]. split; [by split|by split].
Qed.

(** ** What is stored is what is loaded. *)

Context {laws : WireLaws}.

(** A row whose extension is there comes back; [propose] and all other actions write it. *)
Lemma proposal_back p :
  fits proposal_wire p -> is_Some (earliest_exec_time p) -> reads_back proposal_wire p.
Proof.
  destruct p as [n t o]. intros [Hp Ho] [e E]. simpl in E. subst o. apply struct_reads_back; [done|].
  apply seq_reads_back; [apply _|exact Hp|]. by apply law_extension_back; [apply _|apply _|].
Qed.
#[export] Instance approval_lawful : Lawful approval_wire.
Proof. apply struct_lawful; [by intros []|by intros []|apply _]. Qed.
#[export] Instance approvals_info_lawful : Lawful approvals_info_wire.
Proof. apply struct_lawful; [by intros []|by intros [[[]]]|apply _]. Qed.
#[export] Instance invalidation_lawful : Lawful invalidation_wire.
Proof. apply struct_lawful; [by intros []|by intros []|apply _]. Qed.

Lemma approvals_row_fits k a : approvals_fit k a -> fits approvals_info_wire a.
Proof.
  intros (_ & H2 & H3 & H4 & [H5 H6]). unfold all_levels in *. apply Forall_app in H5 as [H5 H7].
  rewrite length_app in H6. unfold is_uint in H6. split; [split; [split; [done|]|]|].
  - simpl. by rewrite H4.
  - split; [exact H5|unfold is_uint; simpl; lia].
  - split; [exact H7|unfold is_uint; simpl; lia].
Qed.

Lemma load_msig_typed st : msig_typed st -> load_msig (store_msig st) = st.
Proof.
  intros []. destruct st as [ps als iv]. unfold load_msig, store_msig. simpl in *.
  rewrite load_table_back, !load_table; [done|apply _| |apply _| |].
  - by eapply rows_fit.
  - intros k a Ha. by eapply approvals_row_fits, mt_approvals0.
  - intros k p Hp. destruct (mt_proposals0 k p Hp) as [(_ & Hf & _) He]. by apply proposal_back.
Qed.

(** ** On bytes alone *)

(** An action as it arrives *)
Definition raw_call_ok (eo : env * (string * bytes)) : Prop :=
  is_i64 (current_time_point (env_ctx eo.1)) /\
  forall o, read_action Actions.msig_abi eo.2.1 eo.2.2 = Ok o -> trx_bytes o.

(** The dispatcher's reading, the rows read and written around the handler *)
Definition handle_bytes (eo : env * (string * bytes)) (b : msig_storage)
    : result (msig_storage * list effect) :=
  o ← read_action Actions.msig_abi eo.2.1 eo.2.2;
  '(st, es) ← handle (eo.1, o) (load_msig b);
  mret (store_msig st, es).

(** Actions [l] that are read as [l'] *)
Definition reads_as (l : list (env * (string * bytes))) (l' : list (env * op)) : Prop :=
  Forall2 (fun r eo => eo.1 = r.1 /\ read_action Actions.msig_abi r.2.1 r.2.2 = Ok eo.2) l l'.

Lemma bytes_step eo st b' es :
  raw_call_ok eo -> msig_typed st ->
  handle_bytes eo (store_msig st) = Ok (b', es) <->
  exists o st', read_action Actions.msig_abi eo.2.1 eo.2.2 = Ok o /\
    handle (eo.1, o) st = Ok (st', es) /\ b' = store_msig st' /\ msig_typed st'.
Proof.
  destruct eo as [e [nm d]]. intros [Hc Ht] Hst. unfold handle_bytes. cbn [fst snd] in *.
  rewrite load_msig_typed by done. split.
  - intros H. apply bind_Ok in H as (o & Ho & H). apply bind_Ok in H as ([st' es'] & Hh & [= <- <-]).
    exists o, st'. split_and!; try done. eapply handle_typed; [|exact Hst|exact Hh].
    split_and!; [done| |by apply Ht]. eapply read_fits; [apply _|exact Ho].
  - intros (o & st' & Ho & Hh & -> & _). rewrite Ho. cbn [mbind result_bind]. by rewrite Hh.
Qed.

(** C11 (flon.msig on bytes).  Run flon.msig on bytes, from empty tables: its rows read from the storage
    and written back, its arguments read from action data of any content, a transaction among them.
    A sequence of actions succeeds exactly when all data is read and the handlers succeed
    on what was read; the storage then holds the packed rows of the state they lead to, and
    is read back as that state, the extension of a proposal included. *)
Theorem msig_bytes l b es :
  Forall raw_call_ok l ->
  runs handle_bytes l (store_msig init_state) = Ok (b, es) <->
  exists l' st, reads_as l l' /\ run l' init_state = Ok (st, es) /\
    b = store_msig st /\ load_msig b = st.
Proof.
  assert (H : forall l st b es, Forall raw_call_ok l -> msig_typed st ->
    runs handle_bytes l (store_msig st) = Ok (b, es) <->
    exists l' st', reads_as l l' /\ run l' st = Ok (st', es) /\ b = store_msig st' /\ load_msig b = st').
  { clear l b es. intros l. induction l as [|eo l IH]; intros st b es Hl Hst.
    - simpl. split.
      + intros [= <- <-]. exists [], st. split_and!; [constructor|done|done|by apply load_msig_typed].
      + intros (l' & st' & Hr & Hrun & -> & _). apply Forall2_nil_inv_l in Hr as ->.
        by injection Hrun as -> ->.
    - apply Forall_cons in Hl as [He Hl]. cbn [runs]. split.
      + intros H. apply bind_Ok in H as ([b1 es1] & H1 & H).
        apply bytes_step in H1 as (o & st1 & Ho & Hh & -> & Hst1); [|done..].
        apply bind_Ok in H as ([b2 es2] & H2 & [= <- <-]).
        apply IH in H2 as (l' & st' & Hr & Hrun & Hb & Hld); [|done..].
        exists ((eo.1, o) :: l'), st'. split_and!; [by constructor| |done|done].
        unfold run in *. cbn [runs]. rewrite Hh. cbn [mbind result_bind]. by rewrite Hrun.
      + intros (l' & st' & Hr & Hrun & Hb & Hld).
        apply Forall2_cons_inv_l in Hr as ([e o] & l2 & [He1 Ho] & Hr & ->). simpl in He1, Ho. subst e.
        unfold run in Hrun. cbn [runs] in Hrun.
        apply bind_Ok in Hrun as ([st1 es1] & Hh & Hrun).
        apply bind_Ok in Hrun as ([st2 es2] & Hrun & [= <- <-]).
        assert (Hst1 : msig_typed st1).
        { eapply handle_typed; [|exact Hst|exact Hh]. split_and!; [apply He| |by apply He].
          eapply read_fits; [apply _|exact Ho]. }
        rewrite (proj2 (bytes_step eo st (store_msig st1) es1 He Hst)) by (by exists o, st1).
        cbn [mbind result_bind].
        rewrite (proj2 (IH st1 b es2 Hl Hst1)) by (by exists l2, st2). done. }
  intros Hl. apply H; [done|apply msig_typed_init].
Qed.

(** ** The size of a row *)

(** Names and times have a fixed size. *)
Context (level_size : forall l, length (pack wire_permission_level l) = 16%nat).
Context (time_size : forall t, length (pack wire_time_point t) = 8%nat).

(** What a vector's length takes ([eosio::unsigned_int]: a byte up to 127, then two) *)
Definition count_size (l : list approval) : nat :=
  length (pack wire_unsigned_int (Z.of_nat (length l))).
Definition row_size (a : approvals_info) : nat := length (pack approvals_info_wire a).

Lemma approvals_size l : length (pack (wire_vector approval_wire) l) = (count_size l + 24 * length l)%nat.
Proof.
  simpl. rewrite law_vector_pack, length_app. unfold count_size. simpl. f_equal.
  induction l as [|a l IH]; [done|]. cbn [fmap list_fmap concat]. rewrite length_app, IH. simpl.
  rewrite length_app. specialize (level_size (level a)). specialize (time_size (time a)). simpl in *. lia.
Qed.

(** The size of an approval.  The row of a proposal has as many levels after [approve] as before, and
    its size changes only by what the two lengths take: not at all below 128 levels, as the header has it;
    but the first approval of 128 levels needs a byte less, and one more when the provided ones become 128. *)
Theorem approve_size e st p n lv h st' es a :
  approvals st !! (p, n) = Some a -> approve e st p n lv h = Ok (st', es) ->
  exists a', approvals st' !! (p, n) = Some a' /\
    length (requested_approvals a') = (length (requested_approvals a) - 1)%nat /\
    length (provided_approvals a') = (length (provided_approvals a) + 1)%nat /\
    (row_size a' + count_size (requested_approvals a) + count_size (provided_approvals a) =
     row_size a + count_size (requested_approvals a') + count_size (provided_approvals a'))%nat.
Proof.
  intros Ha H. unfold approve in H. do 3 (apply bind_Ok in H as (? & _ & H)).
  rewrite Ha in H. apply bind_Ok in H as (apps & Happs & H).
  do 2 (apply bind_Ok in H as (? & _ & H)). injection H as <- _.
  apply bind_Ok in Happs as ([y rest] & He%get_or_Ok & [= <-]). eexists.
  split; [apply lookup_insert_eq|]. apply erase_first_Some in He as (l1 & l2 & E1 & -> & _).
  destruct a as [v nm req prov]. simpl in E1 |- *. subst req.
  split; [rewrite !length_app; simpl; lia|]. split; [by rewrite length_app|].
  unfold row_size. cbn [approvals_info_wire struct_codec pack seq_codec fst snd a_version a_proposal_name
    requested_approvals provided_approvals].
  rewrite !length_app.
  pose proof approvals_size as Hs.
  rewrite !Hs, !length_app. simpl. lia.
Qed.
End rows.

(** ** An example: a transaction proposed, approved by two and run, all as bytes *)

Definition alice : name := MsigProps.alice.
Definition bob : name := MsigProps.bob.
Definition carol : name := MsigProps.carol.
(** Expires at second 200, delay 60 seconds; one action *)
Definition small_trx : bytes := [200; 60; 0; 1; 77; 78; 79].
Definition approve_data (n : name) : bytes :=
  pack (wire_name ⊗ wire_name ⊗ wire_permission_level) (carol, MsigProps.ex_name, MsigProps.active_level n).
Definition ex_calls : list (env * (string * bytes)) :=
  [(MsigProps.ex_env (MsigProps.sec 20), ("propose"%string,
      pack (wire_name ⊗ wire_name ⊗ wire_vector wire_permission_level)
        (carol, MsigProps.ex_name, [MsigProps.active_level bob; MsigProps.active_level alice]) ++ small_trx));
   (MsigProps.ex_env (MsigProps.sec 30), ("approve"%string, approve_data alice));
   (MsigProps.ex_env (MsigProps.sec 40), ("approve"%string, approve_data bob));
   (MsigProps.ex_env (MsigProps.sec 100), ("exec"%string,
      pack (wire_name ⊗ wire_name ⊗ wire_name) (carol, MsigProps.ex_name, bob)))].

Lemma ex_calls_ok : Forall raw_call_ok ex_calls.
Proof.
  repeat (apply Forall_cons; split; [split|]); [..|by apply Forall_nil].
  all: try (split; vm_compute; congruence).
  all: intros o Ho; vm_compute in Ho; injection Ho as <-; simpl; try done.
  repeat constructor; vm_compute; congruence.
Qed.

Lemma msig_bytes_witness :
  exists b l st, runs handle_bytes ex_calls (store_msig init_state) =
      Ok (b, [Send (Action 77 [MsigProps.active_level 77] (raw_call 78 [79]))]) /\
    reads_as ex_calls l /\ load_msig b = st /\ proposals st = ∅.
Proof.
  destruct (runs handle_bytes ex_calls (store_msig init_state)) as [[b es]|] eqn:E;
    [|vm_compute in E; discriminate].
  destruct (proj1 (msig_bytes ex_calls b es ex_calls_ok) E) as (l & st & Hl & _ & _ & Hst).
  exists b, l, st. vm_compute in E. injection E as <- <-.
  split; [reflexivity|]. split; [exact Hl|]. split; [exact Hst|]. rewrite <- Hst. vm_compute. reflexivity.
Defined.
