(* ===== verification/TokenTyped.v ===== *)
(** * flon.token keeps rows of their C++ types

    Every action of flon.token, called with arguments of their types, keeps its tables
    ([flon.token.hpp], [TokenCopy.own_account_wire], [TokenCopy.own_stats_wire]) so, each row under its scope and
    primary key; hence they can be read back from the bytes they are stored as. *)
From S2P Require Import Prelude Cdt CdtRef SystemData Wire WireRef Abi.
From S2P Require Import Finalizer Rows Token.
From S2P Require Actions TokenCopy.
From Stdlib Require Import ZArith Lia String.
From stdpp Require Import base tactics numbers list gmap fin_maps strings.
Open Scope Z_scope.

Section typed.
Context {cdt : Cdt} {bls : Bls} {wire : Wire}.

Definition account_fits (k : name * sym_code) (a : account) : Prop :=
  scoped_fits TokenCopy.own_account_wire account_primary_key k a /\ in_range (amount (balance a)).
Definition stats_fit (k : sym_code * sym_code) (s : currency_stats) : Prop :=
  scoped_fits TokenCopy.own_stats_wire stats_primary_key k s /\ in_range (amount (supply s)).

Record token_typed (st : state) : Prop := {
  tt_accounts : map_Forall account_fits (accounts st);
  tt_stats : map_Forall stats_fit (stats st);
}.

(** The tables read from their bytes *)
Definition load_token (t : TokenCopy.tables) : state :=
  State (omap (load_row TokenCopy.own_account_wire) (TokenCopy.accounts t))
    (omap (load_row TokenCopy.own_stats_wire) (TokenCopy.stats t)).

Lemma token_typed_init : token_typed init_state.
Proof. by split. Qed.

Context {laws : CdtLaws} {types : CdtTypes}.

Lemma account_fits_intro k a :
  is_uint 64 k.1 -> asset_ok a -> symbol_code (asset_symbol a) = k.2 -> account_fits k (Account a).
Proof.
  intros Hk [Ha Hr] E. split; [|exact Hr]. split; [done|]. split; [exact Ha|]. split; [exact E|].
  rewrite <- E. apply ty_symbol_code, Ha.
Qed.

Lemma sub_balance_typed accts owner q accts' :
  map_Forall account_fits accts -> asset_fits q -> sub_balance accts owner q = Ok accts' ->
  map_Forall account_fits accts'.
Proof.
  intros Ht [Hq _] H. unfold sub_balance in H. apply bind_Ok in H as (a & Ha%get_or_Ok & H).
  apply bind_Ok in H as (_ & _ & H). apply bind_Ok in H as (b & Hb & [= <-]).
  destruct (Ht _ _ Ha) as [[Ho [Hf [Hk _]]] Hr].
  apply asset_sub_typed in Hb as [Hb Es]; [|by split|done]. apply map_Forall_insert_2; [|done].
  apply account_fits_intro; [done|done|]. by rewrite Es.
Qed.

Lemma add_balance_typed accts owner q payer accts' :
  map_Forall account_fits accts -> is_uint 64 owner -> asset_ok q ->
  add_balance accts owner q payer = Ok accts' -> map_Forall account_fits accts'.
Proof.
  intros Ht Ho Hq H. unfold add_balance in H. cbv zeta in H. destruct (accts !! _) as [a|] eqn:Ha.
  - apply bind_Ok in H as (b & Hb & [= <-]). destruct (Ht _ _ Ha) as [[_ [Hf [Hk _]]] Hr].
    apply asset_add_typed in Hb as [Hb Es]; [|by split|apply Hq]. apply map_Forall_insert_2; [|done].
    apply account_fits_intro; [done|done|]. by rewrite Es.
  - eapply emplace_Forall; [exact H| |done]. by apply account_fits_intro.
Qed.

Lemma stats_fit_intro k s m i :
  asset_ok s -> asset_fits m -> is_uint 64 i -> k = (symbol_code (asset_symbol s), symbol_code (asset_symbol s)) ->
  stats_fit k (CurrencyStats s m i).
Proof.
  intros [Hs Hr] Hm Hi ->. pose proof (ty_symbol_code _ (proj2 Hs)) as Hc.
  split; [|exact Hr]. split; [done|]. split; [|by split]. split; [by split|done].
Qed.

Lemma quantity_ok q : asset_fits q -> asset_valid q = true -> asset_ok q.
Proof. intros Hq [Hr _]%law_asset_valid. by split. Qed.

Lemma token_exec_typed c o st st' es :
  op_fits Actions.token_abi o -> token_typed st -> exec c o st = Ok (st', es) -> token_typed st'.
Proof.
  intros Ho [Ha Hs] H. destruct o; simpl in Ho, H.
  - unfold create in H. apply bind_Ok in H as (_ & _ & H). apply bind_Ok in H as (_ & Hv%check_Ok & H).
    do 2 (apply bind_Ok in H as (_ & _ & H)). apply bind_Ok in H as (t & Ht & [= <- _]).
    split; [done|]. eapply emplace_Forall; [exact Ht| |done].
    apply stats_fit_intro; [|apply Ho|apply Ho|done]. apply asset_ok_intro; [apply Ho|done].
  - unfold issue in H. do 2 (apply bind_Ok in H as (_ & _ & H)).
    apply bind_Ok in H as (r & Hr%get_or_Ok & H). do 2 (apply bind_Ok in H as (_ & _ & H)).
    apply bind_Ok in H as (_ & Hv%check_Ok & H). do 3 (apply bind_Ok in H as (_ & _ & H)).
    apply bind_Ok in H as (sup & Hsup & H). apply bind_Ok in H as (accts & Hacc & [= <- _]).
    destruct (Hs _ _ Hr) as [[_ [[[Hf Hm] Hi] [Hk _]]] Hin]. simpl in Hf, Hm, Hi.
    apply asset_add_typed in Hsup as [Hsup Es]; [|by split|apply Ho].
    split; simpl.
    + eapply add_balance_typed; [done| |eapply quantity_ok; [|exact Hv]|exact Hacc]; [done|apply Ho].
    + apply map_Forall_insert_2; [|done]. apply stats_fit_intro; try done. rewrite Es. by f_equal.
  - unfold retire in H. do 2 (apply bind_Ok in H as (_ & _ & H)).
    apply bind_Ok in H as (r & Hr%get_or_Ok & H). do 4 (apply bind_Ok in H as (_ & _ & H)).
    apply bind_Ok in H as (sup & Hsup & H). apply bind_Ok in H as (accts & Hacc & [= <- _]).
    destruct (Hs _ _ Hr) as [[_ [[[Hf Hm] Hi] [Hk _]]] Hin]. simpl in Hf, Hm, Hi.
    apply asset_sub_typed in Hsup as [Hsup Es]; [|by split|apply Ho].
    split; simpl; [eapply sub_balance_typed; [done| |exact Hacc]; apply Ho|].
    apply map_Forall_insert_2; [|done]. apply stats_fit_intro; try done. rewrite Es. by f_equal.
  - unfold transfer in H. do 3 (apply bind_Ok in H as (_ & _ & H)).
    apply bind_Ok in H as (r & Hr%get_or_Ok & H).
    apply bind_Ok in H as (_ & Hv%check_Ok & H). do 3 (apply bind_Ok in H as (_ & _ & H)).
    apply bind_Ok in H as (a1 & H1 & H). apply bind_Ok in H as (a2 & H2 & [= <- _]).
    split; [|done]. eapply sub_balance_typed in H1; [|done|apply Ho].
    eapply add_balance_typed; [exact H1| |eapply quantity_ok; [|exact Hv]|exact H2]; apply Ho.
  - unfold open in H. do 2 (apply bind_Ok in H as (_ & _ & H)).
    apply bind_Ok in H as (r & Hr%get_or_Ok & H). apply bind_Ok in H as (_ & _ & H).
    destruct (accounts st !! _); [by injection H as <- _|]. apply bind_Ok in H as (z & Hz & H).
    apply bind_Ok in H as (a1 & H1 & [= <- _]). split; [|done].
    pose proof Hz as (_ & _ & ->)%law_asset_ctor. apply asset_ctor_typed in Hz; [|apply Ho].
    eapply emplace_Forall; [exact H1| |done]. apply account_fits_intro; [apply Ho|done|done].
  - unfold close in H. apply bind_Ok in H as (_ & _ & H). apply bind_Ok in H as (a & Ha'%get_or_Ok & H).
    apply bind_Ok in H as (_ & _ & [= <- _]). split; [|done]. by apply map_Forall_delete.
Qed.

Lemma token_rows_fit st : token_typed st -> TokenCopy.rows_fit st.
Proof. intros [Ha Hs]. split; intros k r Hr; [apply (Ha k r Hr)|apply (Hs k r Hr)]. Qed.

Lemma load_token_typed `{!WireLaws} st : token_typed st -> load_token (TokenCopy.stored st) = st.
Proof.
  intros [Ha Hs]%token_rows_fit. unfold load_token, TokenCopy.stored. cbn [TokenCopy.accounts TokenCopy.stats].
  rewrite !load_table; [by destruct st| |done| |done].
  - apply struct_lawful; [by intros []|by intros [[]]|apply _].
  - apply struct_lawful; [by intros []|done|apply _].
Qed.
End typed.
