(* ===== verification/RewardTyped.v ===== *)
(** * flon.reward keeps rows of their C++ types

    How flon.reward packs its rows ([flon.reward.hpp]: member by member as declared), that
    every action called with arguments of their types keeps the tables so, each row under
    its primary key, and that what it pays is an action flon.token reads. *)
From S2P Require Import Prelude Cdt CdtRef Wire WireRef Abi.
From S2P Require SystemData Finalizer Actions Chain.
From S2P Require Import Rows SystemTyped Reward RewardProps.
From Stdlib Require Import ZArith Lia String.
From stdpp Require Import base tactics numbers list gmap fin_maps strings sorting.
Open Scope Z_scope.

Section rows.
Context {wire : Wire}.

(** ** Codecs *)

Definition reward_global_wire : codec asset := wire_asset.
Definition producer_wire : codec producer :=
  struct_codec (fun '(o, r, t, al, ad, v, n, u) => Producer o r t al ad v n u)
    (fun p => (owner p, is_registered p, total_rewards p, allocating_rewards p, allocated_rewards p,
      votes p, rewards_per_vote p, update_at p))
    (wire_name ⊗ wire_bool ⊗ wire_asset ⊗ wire_asset ⊗ wire_asset ⊗ wire_int64 ⊗ wire_int128
      ⊗ wire_block_timestamp).
Definition voted_producer_info_wire : codec voted_producer_info :=
  struct_codec VotedProducerInfo last_rewards_per_vote wire_int128.
Definition voter_wire : codec voter :=
  struct_codec (fun '(o, v, p, un, cl, u) => Voter o v p un cl u)
    (fun v => (v_owner v, v_votes v, v_producers v, unclaimed_rewards v, claimed_rewards v, v_update_at v))
    (wire_name ⊗ wire_int64 ⊗ wire_map wire_name voted_producer_info_wire ⊗ wire_asset ⊗ wire_asset
      ⊗ wire_block_timestamp).

(** The tables, as stored *)
Record reward_storage : Type := RewardStorage {
  rb_global : option bytes;
  rb_voters : gmap Z bytes;
  rb_producers : gmap Z bytes;
}.
Definition store_reward (st : state) : reward_storage :=
  RewardStorage (pack reward_global_wire <$> global st) (pack voter_wire <$> voters st)
    (pack producer_wire <$> producers st).
Definition load_reward (b : reward_storage) : state :=
  State (rb_global b ≫= load_row reward_global_wire) (omap (load_row voter_wire) (rb_voters b))
    (omap (load_row producer_wire) (rb_producers b)).

(** ** Tables of typed rows *)

Record producer_fits (k : name) (p : producer) : Prop := {
  pf_row : row_fits producer_wire owner k p;
  pf_total : in_range (amount (total_rewards p));
  pf_allocating : in_range (amount (allocating_rewards p));
  pf_allocated : in_range (amount (allocated_rewards p));
}.
Record voter_fits (k : name) (v : voter) : Prop := {
  wf_row : row_fits voter_wire v_owner k v;
  wf_unclaimed : in_range (amount (unclaimed_rewards v));
  wf_claimed : in_range (amount (claimed_rewards v));
}.
Record reward_typed (st : state) : Prop := {
  rt_global : match global st with Some a => asset_ok a | None => True end;
  rt_voters : map_Forall voter_fits (voters st);
  rt_producers : map_Forall producer_fits (producers st);
}.

Lemma reward_typed_init : reward_typed init_state.
Proof. by split. Qed.

Lemma producer_fits_intro k r t al ad v n u :
  is_uint 64 k -> asset_ok t -> asset_ok al -> asset_ok ad -> is_i64 v -> is_i128 n -> is_uint 32 u ->
  producer_fits k (Producer k r t al ad v n u).
Proof.
  intros Hk [] [] [] Hv Hn Hu. by split.
Qed.
Record producer_members (k : name) (p : producer) : Prop := {
  pm_owner : owner p = k;
  pm_key : is_uint 64 k;
  pm_total : asset_ok (total_rewards p);
  pm_allocating : asset_ok (allocating_rewards p);
  pm_allocated : asset_ok (allocated_rewards p);
  pm_votes : is_i64 (votes p);
  pm_rpv : is_i128 (rewards_per_vote p);
  pm_update : is_uint 32 (update_at p);
}.
Lemma producer_fits_members k p : producer_fits k p -> producer_members k p.
Proof. intros [[Hf [<- Hk]] H1 H2 H3]. simpl in Hf. split; try done; try (split; [|done]); tauto. Qed.
Lemma members_producer_fits k p : producer_members k p -> producer_fits k p.
Proof. intros [<-]. destruct p. by apply producer_fits_intro. Qed.

(** The entries of a voter, and the map they make *)
Definition infos_fit (l : list (name * voted_producer_info)) : Prop :=
  Forall (fits (wire_name ⊗ voted_producer_info_wire)) l.
Record voter_members (k : name) (v : voter) : Prop := {
  vm_owner : v_owner v = k;
  vm_key : is_uint 64 k;
  vm_votes : is_i64 (v_votes v);
  vm_map : fits (wire_map wire_name voted_producer_info_wire) (v_producers v);
  vm_unclaimed : asset_ok (unclaimed_rewards v);
  vm_claimed : asset_ok (claimed_rewards v);
  vm_update : is_uint 32 (v_update_at v);
}.
Lemma voter_fits_members k v : voter_fits k v -> voter_members k v.
Proof.
  intros [[Hf [<- Hk]] H1 H2]. destruct Hf as [[[[[Ho Hv] Hm] Hun] Hcl] Hu].
  by split; try done; split.
Qed.
Lemma members_voter_fits k v : voter_members k v -> voter_fits k v.
Proof.
  intros [<- Hk Hv Hm [Hun ?] [Hcl ?] Hu]. split; [|done|done]. split; [|done].
  split; [split; [split; [split; [split|]|]|]|]; assumption.
Qed.
End rows.

(** ** Maps *)

Lemma smap_insert_Forall {V} (P : Z * V -> Prop) (b : bool) (k : Z) (v : V) l :
  (forall w, P (k, w) -> P (k, if b then v else w)) -> P (k, v) -> Forall P l -> Forall P (smap_insert b k v l).
Proof.
  intros Hw Hk. induction l as [|[k' v'] l IH]; intros Hl; simpl; [by constructor|].
  apply Forall_cons in Hl as [H1 Hl].
  destruct (k <? k'); [by repeat constructor|]. destruct (Z.eqb_spec k k') as [<-|].
  - constructor; [|done]. by apply Hw.
  - constructor; [done|]. by apply IH.
Qed.
Lemma smap_merge_Forall {V} (P : Z * V -> Prop) (l m : list (Z * V)) :
  Forall P l -> Forall P m -> Forall P (fold_left (fun m e => smap_emplace e.1 e.2 m) l m).
Proof.
  revert m. induction l as [|[k v] l IH]; intros m Hl Hm; [done|]. apply Forall_cons in Hl as [H1 Hl].
  apply IH; [done|]. by apply smap_insert_Forall.
Qed.
Lemma smap_length {V} (l : list (Z * V)) (ks : list Z) :
  smap_ok l -> Forall (fun e => e.1 ∈ ks) l -> (length l <= length ks)%nat.
Proof.
  intros Ho%smap_ok_NoDup Hk. rewrite <- (length_fmap fst l). apply NoDup_incl_length.
  - by apply NoDup_ListNoDup.
  - intros k Hin%list_elem_of_In. apply list_elem_of_In.
    apply list_elem_of_fmap in Hin as (e & -> & He). rewrite Forall_forall in Hk. by apply Hk.
Qed.
Lemma smap_ok_keys_eq {V W} (l : list (Z * V)) (m : list (Z * W)) : l.*1 = m.*1 -> smap_ok l -> smap_ok m.
Proof.
  revert m. induction l as [|a l IH]; intros [|b m'] E; try discriminate E; [by constructor|].
  injection E as E1 E. change (l.*1 = m'.*1) in E. rewrite !smap_ok_cons. intros [Hlt Ho]. split; [|by apply IH].
  apply (Forall_fmap fst (fun k => b.1 < k)). rewrite <- E. apply Forall_fmap. unfold compose. rewrite <- E1. exact Hlt.
Qed.

(** ** Actions *)

Section typed.
Context {cdt : Cdt} {wire : Wire} {laws : CdtLaws}.

(** What an action sees *)
Record ctx_fits (c : ctx) : Prop := {
  cf_slot : is_uint 32 (slot_of_time_point (current_time_point c));
  cf_indeterminate : is_i64 (indeterminate_i64 c);
}.

(** What [db::set] stores *)
Lemma db_set_typed {row X} (P : name -> row -> Prop) (Q : X -> Prop) tbl k fresh primary_key setter tbl' x :
  map_Forall P tbl ->
  (forall r is_new r' y, (if is_new : bool then r = fresh else P k r) -> setter r is_new = Ok (r', y) ->
    P k r' /\ primary_key r' = k /\ Q y) ->
  db_set tbl k fresh primary_key setter = Ok (tbl', x) -> map_Forall P tbl' /\ Q x.
Proof.
  intros Ht Hset H. unfold db_set in H. destruct (tbl !! k) as [r|] eqn:Er.
  - apply bind_Ok in H as ([r' y] & Hs & [= <- <-]).
    destruct (Hset r false r' y (Ht _ _ Er) Hs) as (Hp & _ & Hq). split; [|done].
    by apply map_Forall_insert_2.
  - apply bind_Ok in H as ([r' y] & Hs & H). apply bind_Ok in H as (t & Hemp & [= <- <-]).
    destruct (Hset fresh true r' y eq_refl Hs) as (Hp & Hk & Hq). split; [|done].
    eapply emplace_Forall; [exact Hemp| |done]. by rewrite Hk.
Qed.

Lemma gstate_ok st : reward_typed st -> asset_ok (gstate st).
Proof.
  intros [Hg _ _]. unfold gstate. destruct (global st); [done|].
  apply asset_ok_intro; [by apply uint_zero|done].
Qed.
Lemma core_typed st : reward_typed st -> is_uint 64 (core_symbol st).
Proof. intros Hst. apply (gstate_ok st Hst). Qed.

Section rewards.
Variables (c : ctx) (core : symbol).
Hypotheses (Hc : ctx_fits c) (Hcore : is_uint 64 core).

Lemma new_producer_row_typed k p (is_new : bool) p' :
  is_uint 64 k -> (if is_new then p = producer_default else producer_fits k p) ->
  new_producer_row core k p is_new = Ok p' -> producer_fits k p'.
Proof.
  intros Hk Hp H. unfold new_producer_row in H. destruct is_new; [|by injection H as <-].
  apply bind_Ok in H as (z & Hz & [= <-]). apply asset_ctor_typed in Hz; [|done]. subst p.
  by apply producer_fits_intro; try done; apply uint_small.
Qed.

Lemma calc_voter_rewards_typed v n a : calc_voter_rewards core v n = Ok a -> asset_ok a.
Proof.
  intros H. unfold calc_voter_rewards in H. apply bind_Ok in H as (_ & _ & H). cbv zeta in H.
  do 2 (apply bind_Ok in H as (_ & _ & H)). by apply asset_ctor_typed in H.
Qed.

Lemma allocate_rewards_typed v d k p out al ad out' :
  producer_fits k p -> asset_ok out -> allocate_rewards core v d p out = Ok (al, ad, out') ->
  asset_ok al /\ asset_ok ad /\ asset_ok out'.
Proof.
  intros Hp%producer_fits_members Ho H. unfold allocate_rewards in H. destruct Hp.
  destruct (_ && _); [|by injection H as <- <- <-].
  apply bind_Ok in H as (_ & _ & H). apply bind_Ok in H as (nr & Hn%calc_voter_rewards_typed & H).
  do 2 (apply bind_Ok in H as (? & _ & H)). apply bind_Ok in H as (a1 & H1 & H).
  apply bind_Ok in H as (a2 & H2 & H). do 3 (apply bind_Ok in H as (? & _ & H)).
  apply bind_Ok in H as (a3 & H3 & [= <- <- <-]). pose proof (proj1 (proj1 Hn)) as Hi.
  apply asset_sub_typed in H1 as [? _]; [|done..]. apply asset_add_typed in H2 as [? _]; [|done..].
  by apply asset_add_typed in H3 as [? _].
Qed.

Lemma allocate_row_typed k v d last out p (is_new : bool) p' out' n :
  is_uint 64 k -> asset_ok out -> (if is_new then p = producer_default else producer_fits k p) ->
  allocate_row c core k v d last out p is_new = Ok (p', (out', n)) ->
  producer_fits k p' /\ owner p' = k /\ asset_ok out' /\ is_i128 n.
Proof.
  intros Hk Ho Hp H. unfold allocate_row in H. apply bind_Ok in H as (p1 & Hp1 & H).
  apply new_producer_row_typed in Hp1; [|done..]. apply bind_Ok in H as (_ & _ & H). cbv zeta in H.
  apply bind_Ok in H as ([[al ad] o1] & Ha & H).
  eapply allocate_rewards_typed in Ha as (Hal & Had & Ho1); [|done..].
  apply bind_Ok in H as (_ & _ & [= <- <- <-]). apply producer_fits_members in Hp1 as []. destruct Hc.
  split_and!; try done. apply members_producer_fits. split; try done. apply i64_range.
Qed.

Lemma allocate_typed ps v d : forall tbl out tbl' ps' out',
  map_Forall producer_fits tbl -> infos_fit ps -> asset_ok out ->
  allocate_producer_rewards c core tbl ps v d out = Ok (tbl', ps', out') ->
  map_Forall producer_fits tbl' /\ infos_fit ps' /\ ps'.*1 = ps.*1 /\ asset_ok out'.
Proof.
  induction ps as [|[k i] ps IH]; intros tbl out tbl' ps' out' Ht Hps Ho H; [by injection H as <- <- <-|].
  apply Forall_cons in Hps as [[Hk Hi] Hps]. simpl in Hk.
  cbn [allocate_producer_rewards] in H. apply bind_Ok in H as ([t1 [o1 n]] & H1 & H).
  apply (db_set_typed producer_fits (fun y => asset_ok y.1 /\ is_i128 y.2)) in H1 as [Ht1 [Ho1 Hn]];
    [|done|].
  - apply bind_Ok in H as ([[t2 ps2] o2] & H2 & [= <- <- <-]).
    apply IH in H2 as (Ht2 & Hps2 & E & Ho2); [|done..]. split_and!; [done| |by apply (f_equal (cons k)) in E|done].
    by constructor.
  - intros r is_new r' [o2 n2] Hr Hset.
    eapply allocate_row_typed in Hset as (? & ? & ? & ?); [done|done|done|done].
Qed.

Lemma new_voter_row_typed k v (is_new : bool) v' :
  is_uint 64 k -> (if is_new then v = voter_default c else voter_fits k v) ->
  new_voter_row core k v is_new = Ok v' -> voter_members k v'.
Proof.
  intros Hk Hv H. unfold new_voter_row in H. destruct is_new.
  - apply bind_Ok in H as (z & Hz & [= <-]). apply asset_ctor_typed in Hz; [|done]. subst v. destruct Hc.
    split; try done; try by apply uint_small. split; [constructor|]. split; [constructor|by apply uint_small].
  - injection H as <-. by apply voter_fits_members.
Qed.

(** The entries settled keep the map's keys. *)
Lemma settled_map l l' :
  fits (wire_map wire_name voted_producer_info_wire) l -> infos_fit l' -> l'.*1 = l.*1 ->
  fits (wire_map wire_name voted_producer_info_wire) l'.
Proof.
  intros (_ & Ho & Hn) Hf E. split; [exact Hf|]. split; [by apply (smap_ok_keys_eq l)|].
  by rewrite <- (length_fmap fst l'), E, length_fmap.
Qed.
End rewards.

Abbreviation producers_fit := (map_Forall producer_fits).
Abbreviation voters_fit := (map_Forall voter_fits).

Section actions.
Variables (c : ctx) (st : state).
Hypotheses (Hc : ctx_fits c) (Hst : reward_typed st).

Lemma regproducer_typed p st' es :
  is_uint 64 p -> regproducer c st p = Ok (st', es) -> reward_typed st'.
Proof.
  intros Hp H. pose proof (core_typed st Hst) as Hcore. destruct Hst as [Hg Hv Hpr].
  unfold regproducer in H. do 3 (apply bind_Ok in H as (_ & _ & H)).
  apply bind_Ok in H as ([t y] & H1 & [= <- _]).
  apply (db_set_typed producer_fits (fun _ => True)) in H1 as [Ht _]; [by split|done|].
  intros r is_new r' u Hr Hb. apply bind_Ok in Hb as (r1 & Hr1 & [= <- _]).
  apply new_producer_row_typed in Hr1; [|done..]. apply producer_fits_members in Hr1 as [].
  split_and!; [|done|done]. apply members_producer_fits. split; try done. apply Hc.
Qed.

Lemma change_vote_typed k n adding st' :
  is_uint 64 k -> is_i64 n -> change_vote c st k n adding = Ok st' -> reward_typed st'.
Proof.
  intros Hk Hn H. pose proof (core_typed st Hst) as Hcore. destruct Hst as [Hg Hv Hpr].
  unfold change_vote in H. do 3 (apply bind_Ok in H as (_ & _ & H)).
  apply bind_Ok in H as ([t pt] & H1 & [= <-]).
  apply (db_set_typed voter_fits producers_fit) in H1 as [Ht Hpt]; [by split|done|].
  intros v is_new v' pt' Hr Hb. apply bind_Ok in Hb as (v1 & Hv1 & H2).
  eapply new_voter_row_typed in Hv1 as []; [|exact Hc|done..]. apply bind_Ok in H2 as (d & _ & H2).
  apply bind_Ok in H2 as ([[pt1 ps] un] & Ha & H2). cbv zeta in H2.
  apply bind_Ok in H2 as (_ & _ & [= <- <-]).
  apply allocate_typed in Ha as (Hpt & Hps & E & Hun); [|done..|apply vm_map0|done].
  split_and!; [|done|done]. apply members_voter_fits.
  split; try done; [apply i64_range|by eapply settled_map|apply Hc].
Qed.

Lemma revoted_map old prods kept removed added kept' added' :
  fits (wire_map wire_name voted_producer_info_wire) old ->
  fits (wire_vector wire_name) prods -> StronglySorted Z.lt prods ->
  split_votes old prods = (kept, removed, added) ->
  infos_fit kept' -> kept'.*1 = kept.*1 -> infos_fit added' -> added'.*1 = added.*1 ->
  fits (wire_map wire_name voted_producer_info_wire)
    (fold_left (fun m e => smap_emplace e.1 e.2 m) added' kept').
Proof.
  intros (_ & Ho & _) [_ Hn] Hs Esp Hk Ek Ha Ea.
  rewrite (split_votes_spec old prods Ho Hs) in Esp. injection Esp as <- _ <-.
  assert (Hok : smap_ok (fold_left (fun m e => smap_emplace e.1 e.2 m) added' kept')).
  { apply smap_merge_ok, (smap_ok_keys_eq (kept_of old prods)); [done|]. by apply smap_ok_filter. }
  split; [by apply smap_merge_Forall|]. split; [exact Hok|].
  assert (Hl : (length (fold_left (fun m e => smap_emplace e.1 e.2 m) added' kept') <= length prods)%nat).
  { apply smap_length; [exact Hok|]. apply smap_merge_Forall.
    - apply (Forall_fmap fst (fun k => k ∈ prods)). rewrite Ea, added_keys. apply Forall_forall.
      intros x [_ Hx]%list_elem_of_filter. exact Hx.
    - apply (Forall_fmap fst (fun k => k ∈ prods)). rewrite Ek. apply Forall_forall.
      intros x [_ Hx]%kept_keys. exact Hx. }
  simpl in Hn. unfold is_uint in *. lia.
Qed.

Lemma split_infos old prods kept removed added :
  fits (wire_map wire_name voted_producer_info_wire) old ->
  fits (wire_vector wire_name) prods -> StronglySorted Z.lt prods ->
  split_votes old prods = (kept, removed, added) ->
  infos_fit kept /\ infos_fit removed /\ infos_fit added.
Proof.
  intros (Hf & Ho & _) [Hp _] Hs Esp.
  rewrite (split_votes_spec old prods Ho Hs) in Esp. injection Esp as <- <- <-.
  split_and!; [by apply Forall_filter_keep|by apply Forall_filter_keep|].
  apply Forall_fmap, Forall_filter_keep. eapply Forall_impl; [exact Hp|]. intros k Hk. by split.
Qed.

Lemma revote_typed k prods st' es :
  is_uint 64 k -> fits (wire_vector wire_name) prods ->
  voteproducer c st k prods = Ok (st', es) -> reward_typed st'.
Proof.
  intros Hk Hps H. pose proof (core_typed st Hst) as Hcore. destruct Hst as [Hg Hv Hpr].
  unfold voteproducer in H. do 3 (apply bind_Ok in H as (_ & _ & H)).
  apply bind_Ok in H as (_ & Hs%check_Ok%strictly_sorted_spec & H). cbv zeta in H.
  apply bind_Ok in H as ([t pt] & H1 & [= <- _]).
  apply (db_set_typed voter_fits producers_fit) in H1 as [Ht Hpt]; [by split|done|].
  intros v is_new v' pt' Hr Hb. apply bind_Ok in Hb as (v1 & Hv1 & H2).
  eapply new_voter_row_typed in Hv1 as []; [|exact Hc|done..].
  destruct (split_votes (v_producers v1) prods) as [[kept removed] added] eqn:Esp.
  destruct (split_infos _ _ _ _ _ vm_map0 Hps Hs Esp) as (Hkept & Hrem & Hadd).
  apply bind_Ok in H2 as ([[t1 p1] o1] & Ha1 & H2). apply bind_Ok in H2 as ([[t2 p2] o2] & Ha2 & H2).
  apply bind_Ok in H2 as ([[t3 p3] o3] & Ha3 & [= <- <-]).
  apply allocate_typed in Ha1 as (Ht1 & _ & _ & Ho1); [|done..].
  apply allocate_typed in Ha2 as (Ht2 & Hp2 & E2 & Ho2); [|done..].
  apply allocate_typed in Ha3 as (Ht3 & Hp3 & E3 & Ho3); [|done..].
  split_and!; [|done|done]. apply members_voter_fits.
  split; try done; [|apply Hc]. by eapply revoted_map.
Qed.

Lemma claim_rewards_typed k st' es :
  get_self c = SystemData.reward_account -> is_uint 64 SystemData.reward_account ->
  claim_rewards c st k = Ok (st', es) -> reward_typed st' /\ Forall sent_ok es.
Proof.
  intros Hself Hrw H. pose proof (core_typed st Hst) as Hcore. destruct Hst as [Hg Hv Hpr].
  unfold claim_rewards in H. apply bind_Ok in H as (v & Hv1%get_or_Ok & H).
  destruct (voter_fits_members _ _ (Hv _ _ Hv1)). apply bind_Ok in H as ([[pt ps] un] & Ha & H).
  assert (Hall : producers_fit pt /\ infos_fit ps /\ ps.*1 = (v_producers v).*1 /\ asset_ok un).
  { destruct (_ <? _) in Ha; [|injection Ha as <- <- <-; split_and!; [done|apply vm_map0|done|done]].
    apply allocate_typed in Ha; [done..|apply vm_map0|done]. }
  destruct Hall as (Hpt & Hps & E & Hun).
  apply bind_Ok in H as (_ & _ & H). apply bind_Ok in H as (cl & Hcl & [= <- <-]). split.
  - split; [done| |done]. apply map_Forall_insert_2; [|done]. apply members_voter_fits.
    apply asset_add_typed in Hcl as [Hcl _]; [|done|apply Hun].
    split; try done; [by eapply settled_map| |apply Hc].
    apply asset_ok_intro; [apply Hun|done].
  - apply Forall_singleton. rewrite Hself. apply transfer_sent; [done|done|apply Hun|by apply uint_small].
Qed.

Lemma ontransfer_typed from to q memo st' es :
  asset_fits q -> ontransfer c st from to q memo = Ok (st', es) -> reward_typed st'.
Proof.
  intros [Hq _] H. pose proof (gstate_ok st Hst) as Hgs. pose proof Hst as [Hg Hv Hpr].
  unfold ontransfer in H. destruct (_ && _); [|by injection H as <- _].
  apply bind_Ok in H as (t & Ht & H). apply bind_Ok in H as (p & Hp%get_or_Ok & H).
  apply bind_Ok in H as (_ & _ & H). apply bind_Ok in H as (t1 & Ht1 & H).
  apply bind_Ok in H as (al & Hal & H). apply bind_Ok in H as (n & Hn & [= <- _]).
  destruct (producer_fits_members _ _ (Hpr _ _ Hp)).
  apply asset_add_typed in Ht as [Ht _]; [|done..]. apply asset_add_typed in Ht1 as [Ht1 _]; [|done..].
  apply asset_add_typed in Hal as [Hal _]; [|done..].
  split; [done|done|]. apply map_Forall_insert_2; [|done]. apply members_producer_fits. destruct Hc.
  split; try done. unfold calc_rewards_per_vote in Hn. apply bind_Ok in Hn as (_ & _ & Hn).
  destruct (_ && _); [|by injection Hn as <-]. apply bind_Ok in Hn as (_ & _ & [= <-]).
  by apply (wrap_s_range 128).
Qed.

Lemma reward_init_typed core st' es :
  is_uint 64 core -> init c st core = Ok (st', es) -> reward_typed st'.
Proof.
  intros Hcore H. destruct Hst as [Hg Hv Hpr]. unfold init in H.
  do 2 (apply bind_Ok in H as (_ & _ & H)). apply bind_Ok in H as (z & Hz & [= <- _]).
  apply asset_ctor_typed in Hz; [|done]. by split.
Qed.

(** Arguments as read from an action's data or from a notification's *)
Definition reward_op_fits (o : op) : Prop :=
  op_fits Actions.reward_abi o \/ op_fits Actions.reward_notify o.

Lemma reward_exec_typed o st' es :
  get_self c = SystemData.reward_account -> is_uint 64 SystemData.reward_account ->
  reward_op_fits o -> exec c o st = Ok (st', es) -> reward_typed st' /\ Forall sent_ok es.
Proof.
  intros Hself Hrw Ho H. destruct o; cbn [exec] in H;
    (destruct Ho as [Ho|Ho]; simpl in Ho; try done).
  - split; [by eapply reward_init_typed|]. unfold init in H. ok_inv. constructor.
  - split; [by eapply regproducer_typed|]. unfold regproducer in H. ok_inv; constructor.
  - unfold addvote in H. apply bind_Ok in H as (_ & _ & H). apply bind_Ok in H as (st1 & H & [= <- <-]).
    split; [|constructor]. eapply change_vote_typed; [..|exact H]; apply Ho.
  - unfold subvote in H. apply bind_Ok in H as (_ & _ & H). apply bind_Ok in H as (st1 & H & [= <- <-]).
    split; [|constructor]. eapply change_vote_typed; [..|exact H]; apply Ho.
  - split; [eapply revote_typed; [..|exact H]; apply Ho|]. unfold voteproducer in H.
    do 5 (apply bind_Ok in H as (? & _ & H)). ok_inv. constructor.
  - unfold claimrewards in H. do 2 (apply bind_Ok in H as (_ & _ & H)). by eapply claim_rewards_typed.
  - unfold claimfor in H. do 2 (apply bind_Ok in H as (_ & _ & H)). by eapply claim_rewards_typed.
  - split; [eapply ontransfer_typed; [|exact H]; tauto|]. unfold ontransfer in H. ok_inv; constructor.
Qed.
End actions.

#[export] Instance producer_lawful `{!WireLaws} : Lawful producer_wire.
Proof. apply struct_lawful; [by intros []|by intros [[[[[[[]]]]]]]|apply _]. Qed.
#[export] Instance voted_producer_info_lawful `{!WireLaws} : Lawful voted_producer_info_wire.
Proof. apply struct_lawful; [by intros []|done|apply _]. Qed.
#[export] Instance voter_lawful `{!WireLaws} : Lawful voter_wire.
Proof. apply struct_lawful; [by intros []|by intros [[[[[]]]]]|apply _]. Qed.

Lemma load_reward_typed `{!WireLaws} st : reward_typed st -> load_reward (store_reward st) = st.
Proof.
  intros [Hg Hv Hp]. unfold load_reward, store_reward. cbn [rb_global rb_voters rb_producers].
  rewrite load_option, !load_table; [by destruct st|apply _| |apply _| |apply _|].
  - intros k r Hr. destruct (Hp k r Hr) as [[Hf _] _ _ _]. exact Hf.
  - intros k r Hr. destruct (Hv k r Hr) as [[Hf _] _ _]. exact Hf.
  - destruct (global st); [apply Hg|done].
Qed.
End typed.
