(* ===== verification/Bytes.v ===== *)
(** * The contracts, driven by bytes

    What the chain hands a contract is bytes: the data of an action, and the rows of the tables
    under their keys; what it gets back are rows and inline actions, packed.  Here are the three
    contracts so: an action's data is read by the receiver's dispatcher, the tables are read
    from their rows and written back as rows, flon.reward reads a transfer it is notified of from that
    transfer's data, and an inline action is the bytes its sender packs.  On what transactions lead to, this
    is the machine of [Chain.v], which works on values. *)
From S2P Require Import Prelude Cdt CdtRef SystemData Wire WireRef Abi.
From S2P Require Import Finalizer Admin Rows Actions.
From S2P Require Token TokenCopy Reward RewardProps System VotingProps.
From S2P Require Import Chain ChainProps SystemTyped TokenTyped RewardTyped.
From Stdlib Require Import ZArith Lia String.
From stdpp Require Import base tactics numbers list gmap strings.
Open Scope Z_scope.

Section bytes.
Context {cdt : Cdt} {bls : Bls} {memory : Memory} {serializer : Serializer} {wire : Wire}.

(** ** The tables *)

Record stores : Type := Stores {
  sys_rows : storage;
  token_rows : TokenCopy.tables;
  reward_rows : reward_storage;
}.
Definition store_chain (ch : chain) : stores :=
  Stores (store (sys ch)) (TokenCopy.stored (token ch)) (store_reward (reward ch)).
Definition load_chain (b : stores) : chain :=
  Chain (load (sys_rows b)) (load_token (token_rows b)) (load_reward (reward_rows b)).

(** ** Actions *)

Definition apply_bytes (h : host) (c : ctx) (account : name) (action : string) (data : bytes)
    (b : stores) : result (stores * list effect) :=
  m ← dispatch account action data;
  '(ch, es) ← apply_msg h c m (load_chain b);
  mret (store_chain ch, es).

(** A notification carries the data of the action: what flon.reward, or another account's
    contract, is told of a transfer is read from there. *)
Definition notify_bytes (h : host) (c : ctx) (account : name) (action : string) (data : bytes)
    (b : stores) (e : effect) : result stores :=
  match e with
  | RequireRecipient n =>
      if (account =? token_account) && String.eqb action "transfer" then
        o ← read_action reward_notify action data;
        if n =? reward_account then
          '(r, _) ← RewardProps.exec (notified_ctx n c) o (load_reward (reward_rows b));
          mret (Stores (sys_rows b) (token_rows b) (store_reward r))
        else
          ensure match o with
                 | RewardProps.op_ontransfer from dest q memo => accepts_transfer h n from dest q memo
                 | _ => true
                 end else "aborted by the notified contract";
          mret b
      else mret b
  | _ => mret b
  end.

Definition has_contract (account : name) : bool :=
  (account =? token_account) || (account =? reward_account) || (account =? system_account).

(** An inline action: the account, the action's name and the data its sender packed *)
Definition send_bytes (go : ctx -> name -> string -> bytes -> stores -> result stores) (c : ctx)
    (b : stores) (e : effect) : result stores :=
  match e with
  | Send a =>
      if has_contract (act_account a) then
        let '(action, data) := call_data (act_call a) in
        go (inline_ctx (act_account a) (act_authorization a) c) (act_account a) action data b
      else Ok b
  | _ => Ok b
  end.

Fixpoint process_bytes (depth : nat) (h : host) (c : ctx) (account : name) (action : string)
    (data : bytes) (b : stores) : result stores :=
  match depth with
  | O => Err "max inline action depth per transaction reached"
  | S depth' =>
      '(b1, es) ← apply_bytes h c account action data b;
      b2 ← fold_res (notify_bytes h c account action data) b1 es;
      fold_res (send_bytes (process_bytes depth' h) c) b2 es
  end.

(** ** Transactions *)

Record raw_tx : Type := RawTx {
  rx_host : host;
  rx_ctx : ctx;
  rx_depth : nat;
  rx_account : name;
  rx_action : string;
  rx_data : bytes;
}.
Definition run_raw_tx (b : stores) (t : raw_tx) : result stores :=
  process_bytes (rx_depth t) (rx_host t) (rx_ctx t) (rx_account t) (rx_action t) (rx_data t) b.
Definition run_raw (l : list raw_tx) (b : stores) : result stores := fold_res run_raw_tx b l.

(** The transaction a contract makes of it *)
Definition reads_as (t : raw_tx) (t' : tx) : Prop :=
  dispatch (rx_account t) (rx_action t) (rx_data t) = Ok (tx_msg t') /\
  t' = Tx (rx_host t) (rx_ctx t) (rx_depth t) (tx_msg t').

(** The chain's clock, in the toolkit's types for it, and its parameters *)
Record host_fits (h : host) (c : ctx) : Prop := {
  hf_parameters : parameters_fit (parameters h);
  hf_now : is_i64 (current_time_point c);
  hf_slot : is_uint 32 (slot_of_time_point (current_time_point c));
  hf_sec : is_uint 32 (sec_of_time_point (current_time_point c));
  hf_memory : is_i64 (indeterminate_i64 c);
}.

(** What the host guarantees of a transaction; of its data, nothing *)
Record raw_tx_ok (t : raw_tx) : Prop := {
  rx_self : get_self (rx_ctx t) = rx_account t;
  rx_first : get_first_receiver (rx_ctx t) = rx_account t;
  rx_quiet : forall a, a ∈ holders -> has_auth (rx_ctx t) a = false;
  rx_memory : indeterminate_i64 (rx_ctx t) = 0;
  rx_vectors : forall l m, let '(a, b) := addresses (rx_host t) l m in
    VotingProps.disjoint_at a l b m;
  rx_foreign : rx_account t = reward_account -> has_auth (rx_ctx t) system_account = false;
  rx_fits : host_fits (rx_host t) (rx_ctx t);
}.

(** ** They are the machine on values. *)

(** A transaction on values of their types *)
Record tx_typed (t : tx) : Prop := {
  tt_msg : msg_fits (tx_msg t);
  tt_self : get_self (tx_ctx t) = account_of (tx_msg t);
  tt_host : host_fits (tx_host t) (tx_ctx t);
}.

Record chain_typed (ch : chain) : Prop := {
  ct_sys : sys_typed (sys ch);
  ct_token : token_typed (token ch);
  ct_reward : reward_typed (reward ch);
}.

Context {laws : CdtLaws} {types : CdtTypes} {wirelaws : WireLaws} (Hmem : disengaged = []).

Lemma chain_typed_init : chain_typed init_chain.
Proof. split; [apply sys_typed_init|apply token_typed_init|apply reward_typed_init]. Qed.

Lemma load_chain_typed ch : chain_typed ch -> load_chain (store_chain ch) = ch.
Proof.
  intros [H1 H2 H3]. unfold load_chain, store_chain. cbn [sys_rows token_rows reward_rows].
  rewrite load_typed, load_token_typed, load_reward_typed by done. by destruct ch.
Qed.

Lemma reward_name_typed : is_uint 64 reward_account.
Proof. exact (name_typed 5 _ eq_refl). Qed.

Lemma token_sends c o st st' es : Token.exec c o st = Ok (st', es) -> Forall sent_ok es.
Proof.
  destruct o; simpl; unfold Token.create, Token.issue, Token.retire, Token.transfer, Token.open,
    Token.close; intros H; ok_inv; by repeat constructor.
Qed.

Lemma apply_typed h c m ch ch' es :
  host_fits h c -> get_self c = account_of m -> msg_fits m -> chain_typed ch ->
  apply_msg h c m ch = Ok (ch', es) -> chain_typed ch' /\ Forall sent_ok es.
Proof.
  intros [Hp Hnow Hslot Hsec Hi] Hself Hm [Hs Ht Hr] H. destruct m as [o|o|o]; cbn [apply_msg] in H.
  - apply bind_Ok in H as ([s es1] & H & [= <- <-]).
    assert (He : env_fits (System.Env c (parameters h) (token ch) (reward ch) (addresses h))) by by split.
    split; [split; [|done..]|].
    + by eapply exec_typed.
    + eapply exec_sends; [..|exact H]; done.
  - apply bind_Ok in H as ([t es1] & H & [= <- <-]). split; [split; [done| |done]|].
    + by eapply token_exec_typed.
    + by eapply token_sends.
  - apply bind_Ok in H as (_ & _ & H). apply bind_Ok in H as ([r es1] & H & [= <- <-]).
    assert (Hc : ctx_fits c) by by split.
    eapply reward_exec_typed in H as [Hr' Hes]; [..|by left]; [|done..|apply reward_name_typed].
    by split.
Qed.

(** A step on rows is the step on values, and keeps the values typed. *)
Definition same_step (rb : result stores) (r : result chain) : Prop :=
  rb = store_chain <$> r /\ forall ch, r = Ok ch -> chain_typed ch.

Lemma same_step_ret ch : chain_typed ch -> same_step (Ok (store_chain ch)) (Ok ch).
Proof. intros Hch. split; [done|]. by intros ? [= <-]. Qed.

Lemma fold_same {E} (P : E -> Prop) (fb : stores -> E -> result stores) (f : chain -> E -> result chain) es :
  (forall ch e, chain_typed ch -> P e -> same_step (fb (store_chain ch) e) (f ch e)) -> Forall P es ->
  forall ch, chain_typed ch -> same_step (fold_res fb (store_chain ch) es) (fold_res f ch es).
Proof.
  intros Hf. induction 1 as [|e es He _ IH]; intros ch Hch; [by apply same_step_ret|].
  simpl. destruct (Hf ch e Hch He) as [-> Ht]. destruct (f ch e) as [ch1|msg]; [|by split].
  apply IH. by apply Ht.
Qed.

Lemma transfer_named action data o :
  read_action token_abi action data = Ok o ->
  String.eqb action "transfer" = match o with Token.op_transfer _ _ _ _ => true | _ => false end.
Proof.
  intros H. unfold token_abi in H. cbn [read_action e_name e_codec e_make e_args] in H.
  repeat (match type of H with (if String.eqb ?a action then _ else _) = _ =>
      destruct (String.eqb_spec a action) as [<-|?] end;
    [apply bind_Ok in H as ([x r] & _ & [= <-]);
     repeat match goal with x : (_ * _)%type |- _ => destruct x end; reflexivity|]).
  done.
Qed.

(** flon.reward reads from the data what flon.token read. *)
Lemma notified_read from to q memo action data :
  read_action token_abi action data = Ok (Token.op_transfer from to q memo) ->
  action = "transfer" /\
  read_action reward_notify action data = Ok (RewardProps.op_ontransfer from to q memo).
Proof.
  intros H. pose proof (transfer_named _ _ _ H) as E. apply String.eqb_eq in E as ->. split; [done|].
  unfold token_abi in H. unfold reward_notify. cbn [read_action e_name e_codec e_make e_args] in H |- *.
  change ("create" =? "transfer")%string with false in H. change ("issue" =? "transfer")%string with false in H.
  change ("retire" =? "transfer")%string with false in H.
  change ("transfer" =? "transfer")%string with true in H |- *. cbv iota in H |- *.
  destruct (unpack (wire_name ⊗ wire_name ⊗ wire_asset ⊗ wire_string) data) as [[[[[f t] a] m] r]|]; [|done].
  cbn [mbind result_bind] in H |- *. by injection H as -> -> -> ->.
Qed.

Lemma notified_fits h c n : host_fits h c -> host_fits h (notified_ctx n c).
Proof. by intros []. Qed.
Lemma inline_fits h c account auth : host_fits h c -> host_fits h (inline_ctx account auth c).
Proof. by intros []. Qed.
Lemma host_ctx h c : host_fits h c -> ctx_fits c.
Proof. by intros []. Qed.

Lemma notify_same h c account action data m ch e :
  host_fits h c -> dispatch account action data = Ok m -> chain_typed ch ->
  same_step (notify_bytes h c account action data (store_chain ch) e) (notify h c m ch e).
Proof.
  intros Hh Hd Hch. pose proof (same_step_ret ch Hch) as Hret.
  destruct (dispatch_fits _ _ _ _ Hd) as [-> Hm].
  destruct e as [ |n| | | | | | | | | ];
    try (destruct m as [|[] |]; exact Hret). cbn [notify_bytes].
  destruct m as [o|o|o]; cbn [account_of] in *.
  { rewrite (proj2 (Z.eqb_neq system_account token_account)); [exact Hret|].
    by apply (SystemInv.names_differ 0 1). }
  2:{ rewrite (proj2 (Z.eqb_neq reward_account token_account)); [exact Hret|].
    by apply (SystemInv.names_differ 5 1). }
  rewrite Z.eqb_refl. rewrite dispatch_token in Hd. apply fmap_Ok in Hd as (o' & Hr & [= <-]).
  pose proof (transfer_named _ _ _ Hr) as En. rewrite En.
  destruct o; try exact Hret. cbn [notify andb].
  destruct (notified_read _ _ _ _ _ _ Hr) as [_ Hr']. rewrite Hr'. cbn [mbind result_bind].
  destruct (n =? reward_account) eqn:Hn.
  2:{ by destruct (accepts_transfer _ _ _ _ _ _). }
  apply Z.eqb_eq in Hn as ->. destruct Hch as [H1 H2 H3].
  cbn [store_chain reward_rows]. rewrite load_reward_typed by done.
  destruct (RewardProps.exec _ _ _) as [[r es]|msg] eqn:Ex; cbn [mbind result_bind]; [|by split].
  eapply reward_exec_typed in Ex as [Hr3 _]; [|eapply host_ctx, notified_fits, Hh|done|done|apply reward_name_typed|].
  - split; [done|]. by intros ? [= <-].
  - right. simpl in Hm |- *. tauto.
Qed.

(** An action on bytes is the action on values. *)
Lemma process_same depth : forall h c account action data m ch,
  host_fits h c -> get_self c = account -> dispatch account action data = Ok m -> chain_typed ch ->
  same_step (process_bytes depth h c account action data (store_chain ch)) (process depth h c m ch).
Proof.
  induction depth as [|depth IH]; intros h c account action data m ch Hh Hself Hd Hch; [by split|].
  destruct (dispatch_fits _ _ _ _ Hd) as [Ha Hm].
  cbn [process_bytes process]. unfold apply_bytes. rewrite Hd. cbn [mbind result_bind].
  rewrite load_chain_typed by done. destruct (apply_msg h c m ch) as [[ch1 es]|msg] eqn:Happ;
    cbn [mbind result_bind]; [|by split].
  apply apply_typed in Happ as [Hch1 Hes]; [|done|congruence|done|done].
  unfold mret, result_ret. cbn [mbind result_bind].
  destruct (fold_same (fun _ => True) (notify_bytes h c account action data) (notify h c m) es) with ch1
    as [-> Ht2]; [intros; by eapply notify_same|by apply Forall_true|done|].
  destruct (fold_res (notify h c m) ch1 es) as [ch2|msg]; [|by split]. cbn [fmap result_fmap mbind result_bind].
  apply (fold_same sent_ok); [|done|by apply Ht2].
  clear - IH Hh laws types wirelaws. intros ch e Hch He. unfold send_bytes, send_inline. destruct e; try by apply same_step_ret.
  destruct a as [account auth cl]. destruct He as [Hf [m Hm]]. cbn [act_account act_authorization act_call] in *.
  rewrite Hm. pose proof (call_read _ _ _ _ Hf Hm) as Hr.
  destruct (dispatch_fits _ _ _ _ Hr) as [-> _]. destruct (call_data cl) as [nm data]. simpl in Hr.
  assert (has_contract (account_of m) = true) as ->.
  { unfold has_contract. destruct m; cbn [account_of]; rewrite Z.eqb_refl; by rewrite ?orb_true_r. }
  by apply IH; [apply inline_fits|..].
Qed.

Lemma unread_fails depth h c account action data b e :
  dispatch account action data = Err e -> exists e', process_bytes depth h c account action data b = Err e'.
Proof.
  intros Hd. destruct depth as [|depth]; [by eexists|].
  cbn [process_bytes]. unfold apply_bytes. rewrite Hd. by eexists.
Qed.

(** ** Transactions *)

Lemma raw_tx_same t m ch :
  raw_tx_ok t -> dispatch (rx_account t) (rx_action t) (rx_data t) = Ok m -> chain_typed ch ->
  same_step (run_raw_tx (store_chain ch) t) (run_tx ch (Tx (rx_host t) (rx_ctx t) (rx_depth t) m)).
Proof. intros [] Hd Hch. by apply process_same. Qed.

Lemma run_raw_Ok l : forall ch b,
  Forall raw_tx_ok l -> chain_typed ch ->
  run_raw l (store_chain ch) = Ok b <->
  exists l' ch', Forall2 reads_as l l' /\ run l' ch = Ok ch' /\ chain_typed ch' /\ b = store_chain ch'.
Proof.
  induction l as [|t l IH]; intros ch b Hl Hch.
  { split.
    - intros [= <-]. by exists [], ch.
    - intros (l' & ch' & ->%Forall2_nil_inv_l & [= <-] & _ & ->). done. }
  apply Forall_cons in Hl as [Ht Hl]. unfold run_raw. cbn [fold_res].
  destruct (dispatch (rx_account t) (rx_action t) (rx_data t)) as [m|e] eqn:Hd.
  2:{ destruct (unread_fails (rx_depth t) (rx_host t) (rx_ctx t) _ _ _ (store_chain ch) e Hd) as [e' He].
    unfold run_raw_tx. rewrite He. split; [done|].
    intros (l' & ch' & (t' & l2 & [Hr _] & _ & ->)%Forall2_cons_inv_l & _). congruence. }
  destruct (raw_tx_same t m ch Ht Hd Hch) as [-> Hs].
  set (t' := Tx (rx_host t) (rx_ctx t) (rx_depth t) m) in *. split.
  - intros H. apply bind_Ok in H as (b1 & H1 & H). apply fmap_Ok in H1 as (ch1 & H1 & ->).
    apply IH in H as (l' & ch' & Hl' & Hr & Hch' & ->); [|done|by apply Hs].
    exists (t' :: l'), ch'. split_and!; [by constructor| |done|done].
    unfold run. cbn [fold_res]. rewrite H1. exact Hr.
  - intros (l' & ch' & (t2 & l2 & [Hr Ht2] & Hl2 & ->)%Forall2_cons_inv_l & Hrun & Hch' & ->).
    rewrite Hd in Hr. injection Hr as Hr. rewrite <- Hr in Ht2. fold t' in Ht2. subst t2.
    unfold run in Hrun. cbn [fold_res] in Hrun. apply bind_Ok in Hrun as (ch1 & H1 & Hrun).
    rewrite H1. cbn [fmap result_fmap mbind result_bind]. apply IH; [done|by apply Hs|].
    by exists l2, ch'.
Qed.

Lemma reads_as_ok t t' : raw_tx_ok t -> reads_as t t' -> tx_ok t'.
Proof.
  intros [H1 H2 H3 H4 H5 H6 _] [Hd ->]. destruct (dispatch_fits _ _ _ _ Hd) as [Ha Hm].
  split; cbn [tx_ctx tx_msg tx_host]; try done; try congruence.
  - by apply msg_fits_typed.
  - destruct (tx_msg t'); [done|done|]. by apply H6.
Qed.

Lemma reads_as_txs l l' :
  Forall raw_tx_ok l -> Forall2 reads_as l l' -> Z.of_nat (length l) < 2 ^ 32 - 1 -> txs_ok l'.
Proof.
  intros Hl Hr Hn. assert (Forall tx_ok l' /\ registered_keys l' <= Z.of_nat (length l)) as [? ?].
  { clear Hn. induction Hr as [|t t' l l' Ht Hr IH]; [by split|].
    apply Forall_cons in Hl as [H1 Hl]. destruct (IH Hl) as [Hok Hk].
    split; [constructor; [by eapply reads_as_ok|done]|].
    unfold registered_keys in *. cbn [foldr length].
    assert (msg_registers (tx_msg t') <= 1) by (destruct (tx_msg t') as [[]| |]; simpl; lia). lia. }
  split; [done|]. unfold registered_keys in *. lia.
Qed.

Lemma run_reads_typed l l' : forall ch ch',
  Forall raw_tx_ok l -> Forall2 reads_as l l' -> chain_typed ch -> run l' ch = Ok ch' -> chain_typed ch'.
Proof.
  intros ch ch' Hl Hr. revert ch. induction Hr as [|t t' l l' Ht Hr IH]; intros ch Hch H; [by injection H as <-|].
  apply Forall_cons in Hl as [H1 Hl]. unfold run in H. cbn [fold_res] in H.
  apply bind_Ok in H as (ch1 & Hr1 & H). apply (IH Hl ch1); [|exact H].
  destruct Ht as [Hd Et]. rewrite Et in Hr1.
  destruct (raw_tx_same t _ ch H1 Hd Hch) as [_ Hs]. by apply Hs.
Qed.

(** ** The theorems *)

(** C8 (The contracts on bytes).  Run the three contracts on bytes, from empty tables: action data of any content
    read by the dispatchers, rows read from and written to the storage, inline actions and
    notifications as packed data.  A sequence of transactions succeeds exactly when every
    action's data is read and the machine of [Chain.v] succeeds on what was read; the
    storage then holds the packed rows of its state.  So the storage is read back as a reachable
    state of that machine, to which all theorems on reachable states apply, though nothing was assumed of the data. *)
Theorem bytes_refine l b :
  Forall raw_tx_ok l -> Z.of_nat (length l) < 2 ^ 32 - 1 ->
  (run_raw l (store_chain init_chain) = Ok b <->
   exists l' ch, Forall2 reads_as l l' /\ run l' init_chain = Ok ch /\ b = store_chain ch) /\
  (run_raw l (store_chain init_chain) = Ok b ->
   chain_reachable (load_chain b) /\ store_chain (load_chain b) = b).
Proof.
  intros Hl Hn. pose proof (run_raw_Ok l init_chain b Hl chain_typed_init) as E. split.
  - rewrite E. split; intros (l' & ch & Hr & H); exists l', ch; [tauto|]. destruct H as [H ->].
    split_and!; try done.
    by eapply run_reads_typed; [| |apply chain_typed_init|].
  - intros H. apply E in H as (l' & ch & Hr & Hrun & Hch & ->). rewrite load_chain_typed by done.
    split; [|done]. exists l'. split; [by eapply reads_as_txs|done].
Qed.

(** C9 (All rows are typed).  After any sequence of transactions whose arguments are values of
    their types, every row of flon.system, flon.token and flon.reward holds values of its members' C++
    types under its own scope and primary key, and all tables are read back from the
    bytes they are stored as. *)
Theorem rows_typed l ch :
  Forall tx_typed l -> run l init_chain = Ok ch ->
  chain_typed ch /\ load_chain (store_chain ch) = ch.
Proof.
  intros Hl H. enough (Hch : chain_typed ch) by (split; [done|by apply load_chain_typed]).
  revert H. generalize init_chain chain_typed_init. induction Hl as [|t l [H1 H2 H3] _ IH]; intros ch0 H0 H.
  { by injection H as <-. }
  unfold run in H. cbn [fold_res] in H. apply bind_Ok in H as (ch1 & Hr & H). apply (IH ch1); [|exact H].
  destruct (some_dispatch (tx_msg t) H1) as (action & data & Hd).
  destruct (process_same (tx_depth t) _ _ _ _ _ _ ch0 H3 H2 Hd H0) as [_ Hs]. by apply Hs.
Qed.
End bytes.
