(* ===== verification/TestContracts.v ===== *)
(** * The contracts of the tests

    [contracts/test_contracts/]: [blockinfo_tester], which asks flon.system's block
    information on behalf of a caller and returns the answer as the data of an action;
    [sendinline], which sends what it is told; and [reject_all], which refuses everything but two
    actions on the chain's way up. *)
From S2P Require Import Prelude Cdt CdtRef SystemData Wire WireRef Abi.
From S2P Require Import BlockInfo.
From Stdlib Require Import ZArith Lia String.
From stdpp Require Import base tactics numbers list gmap strings.
Open Scope Z_scope.

(** [std::variant] of one type: its index and the value *)
Definition variant_codec {A} `{Wire} (c : codec A) : codec A := {|
  fits := fits c;
  pack := fun x => pack wire_unsigned_int 0 ++ pack c x;
  unpack := fun b =>
    '(i, b) ← unpack wire_unsigned_int b;
    ensure i =? 0 else "invalid variant index";
    unpack c b;
|}.
#[export] Instance variant_lawful {A} `{WireLaws} (c : codec A) : Lawful c -> Lawful (variant_codec c).
Proof.
  intros Hc. split; cbn [variant_codec fits pack unpack].
  - intros x rest Hx. rewrite <- app_assoc, unpack_pack by (by apply uint_zero). simpl. by apply unpack_pack.
  - intros b x rest E. apply bind_Ok in E as ([i b1] & _ & E). apply bind_Ok in E as (? & _ & E).
    by eapply unpack_fits.
Qed.

(** ** blockinfo_tester *)

Module Tester.
Record get_latest_block_batch_info : Type := Request {
  batch_start_height_offset : Z;         (* uint32_t *)
  batch_size : Z;                        (* uint32_t *)
}.
Record latest_block_batch_info_result : Type := Response {
  result_ : option block_batch_info;     (* the field [result] *)
  error_code : Z;                        (* varint *)
}.
Definition error_value (e : error_code_enum) : Z :=
  match e with no_error => 0 | invalid_input => 1 | unsupported_version => 2 | insufficient_data => 3 end.

Definition has_error (r : latest_block_batch_info_result) : bool :=
  negb ((error_code r =? error_value no_error) && bool_decide (is_Some (result_ r))).

Definition process (t : gmap Z block_info_record) (request : get_latest_block_batch_info)
    : latest_block_batch_info_result :=
  let res := BlockInfo.get_latest_block_batch_info t
    (batch_start_height_offset request) (batch_size request) in
  Response (batch res) (error_value (BlockInfo.error_code res)).

Section tester.
Context {wire : Wire} {cdt : Cdt}.

Definition input_wire : codec get_latest_block_batch_info :=
  variant_codec (struct_codec (fun '(o, n) => Request o n)
    (fun r => (batch_start_height_offset r, batch_size r)) (wire_uint 32 ⊗ wire_uint 32)).
Definition block_batch_info_wire : codec block_batch_info :=
  struct_codec (fun '(s, st, e, et) => BlockBatchInfo s st e et)
    (fun r => (batch_start_height r, batch_start_timestamp r, batch_current_end_height r,
      batch_current_end_timestamp r))
    (wire_uint 32 ⊗ wire_time_point ⊗ wire_uint 32 ⊗ wire_time_point).
Definition output_wire : codec latest_block_batch_info_result :=
  variant_codec (struct_codec (fun '(r, e) => Response r e) (fun r => (result_ r, error_code r))
    (wire_optional block_batch_info_wire ⊗ wire_unsigned_int)).

(** The entry point: [t] is the table [blockinfo] of flon.system. *)
Definition apply (t : gmap Z block_info_record) (receiver code action : name) (data : bytes)
    : result (list effect) :=
  if receiver =? code then
    if action =? name_lit "call" then
      '(input, _) ← unpack input_wire data;
      let output := process t input in
      mret [Send (Action receiver [] (raw_call (name_lit "return") (pack output_wire output)))]
    else if action =? name_lit "abort" then _ ← check false "0"; mret []
    else mret []
  else mret [].

Context {laws : WireLaws}.

#[local] Instance input_lawful : Lawful input_wire.
Proof. apply variant_lawful, struct_lawful; [by intros []|by intros []|apply _]. Qed.
#[local] Instance batch_lawful : Lawful block_batch_info_wire.
Proof. apply struct_lawful; [by intros []|by intros [[[]]]|apply _]. Qed.
#[local] Instance output_lawful : Lawful output_wire.
Proof. apply variant_lawful, struct_lawful; [by intros []|by intros []|apply _]. Qed.

Lemma process_fits t rq :
  table_ok t -> map_Forall (fun _ r => is_i64 (block_time r)) t -> fits input_wire rq ->
  fits output_wire (process t rq).
Proof.
  intros Ht Htime Hrq. destruct rq as [o n]. simpl in Hrq. destruct Hrq as [Ho Hn]. split.
  - simpl. destruct (batch _) as [b|] eqn:E; [|done].
    apply latest_batch_exact in E as (_ & e & re & rs & He & _ & Hs & _ & _ & _ & ->);
      [|done|unfold is_uint in Ho; unfold_ints; lia|unfold is_uint in Hn; unfold_ints; lia].
    apply rows_last in He as [He _].
    assert (Hu : forall k r, t !! k = Some r -> is_uint 32 k).
    { intros k r Hk. destruct (Ht _ _ Hk) as (_ & _ & Hu). unfold is_uint. unfold_ints. lia. }
    simpl. split_and!; [by eapply Hu|by apply (Htime _ _ Hs)|by eapply Hu|by apply (Htime _ _ He)].
  - simpl. unfold is_uint. destruct (BlockInfo.error_code _); simpl; lia.
Qed.

Lemma error_iff_none t o n :
  batch (BlockInfo.get_latest_block_batch_info t o n) = None <->
  BlockInfo.error_code (BlockInfo.get_latest_block_batch_info t o n) <> no_error.
Proof. unfold BlockInfo.get_latest_block_batch_info. repeat case_match; simpl; naive_solver. Qed.

(** The tester answers.  A call with a packed request sends one action back, whose data reads
    as the answer to the request; it reports an error exactly when there is no batch. *)
Theorem tester_answers t receiver rq :
  table_ok t -> map_Forall (fun _ r => is_i64 (block_time r)) t -> fits input_wire rq ->
  exists data response,
    apply t receiver receiver (name_lit "call") (pack input_wire rq) =
      Ok [Send (Action receiver [] (raw_call (name_lit "return") data))] /\
    unpack output_wire data = Ok (response, []) /\
    result_ response = batch (BlockInfo.get_latest_block_batch_info t
      (batch_start_height_offset rq) (batch_size rq)) /\
    (has_error response = true <-> result_ response = None).
Proof.
  intros Ht Htime Hrq. exists (pack output_wire (process t rq)), (process t rq). split_and!.
  - unfold apply. rewrite !Z.eqb_refl. rewrite <- (app_nil_r (pack input_wire rq)).
    by rewrite unpack_pack.
  - rewrite <- (app_nil_r (pack output_wire _)). apply unpack_pack. by apply process_fits.
  - done.
  - unfold has_error, process. cbn [result_ error_code].
    pose proof (error_iff_none t (batch_start_height_offset rq) (batch_size rq)) as He.
    destruct (batch _), (BlockInfo.error_code _); simpl; naive_solver.
Qed.
End tester.
End Tester.

(** ** sendinline *)

Definition sendinline_send (contract action_name : name) (auths : list permission_level) (payload : bytes)
    : result (list effect) :=
  mret [Send (Action contract auths (raw_call action_name payload))].

(** ** reject_all *)

Section reject.
Context {wire : Wire} {cdt : Cdt}.

Definition reject_all (c : ctx) (receiver first_receiver action : name) (data : bytes) : result unit :=
  ensure receiver =? first_receiver else "rejecting all notifications";
  let reject := check false "rejecting all actions" in
  if first_receiver =? name_lit "flon" then
    if action =? name_lit "setcode" then
      '(accnt, _) ← unpack wire_name data;
      if (accnt =? name_lit "flon") && negb (is_account c (name_lit "rejectall")) then mret tt else reject
    else if action =? name_lit "newaccount" then
      '(accnts, _) ← unpack (wire_name ⊗ wire_name) data;
      if accnts.2 =? name_lit "rejectall" then mret tt else reject
    else reject
  else reject.

(** It lets pass only the setting of the system account's code before the account
    [rejectall] exists, and the creation of this account. *)
Theorem reject_all_exact c receiver first_receiver action data :
  reject_all c receiver first_receiver action data = Ok tt <->
  receiver = first_receiver /\ first_receiver = name_lit "flon" /\
  ((action = name_lit "setcode" /\ is_account c (name_lit "rejectall") = false /\
    exists rest, unpack wire_name data = Ok (name_lit "flon", rest)) \/
   (action <> name_lit "setcode" /\ action = name_lit "newaccount" /\
    exists creator rest, unpack (wire_name ⊗ wire_name) data = Ok ((creator, name_lit "rejectall"), rest))).
Proof.
  unfold reject_all. cbv zeta.
  destruct (Z.eqb_spec receiver first_receiver) as [->|?]; cbn [check mbind result_bind]; [|naive_solver].
  destruct (Z.eqb_spec first_receiver (name_lit "flon")) as [->|?]; [|naive_solver].
  destruct (Z.eqb_spec action (name_lit "setcode")) as [->|?].
  - destruct (unpack wire_name data) as [[a rest]|]; cbn [mbind result_bind]; [|naive_solver].
    destruct (Z.eqb_spec a (name_lit "flon")) as [->|?], (is_account c _); simpl; naive_solver.
  - destruct (Z.eqb_spec action (name_lit "newaccount")) as [->|?]; [|naive_solver].
    destruct (unpack (wire_name ⊗ wire_name) data) as [[[a b] rest]|]; cbn [mbind result_bind]; [|naive_solver].
    simpl. destruct (Z.eqb_spec b (name_lit "rejectall")) as [->|?]; naive_solver.
Qed.
End reject.
