(* ===== verification/ChainEx.v ===== *)
(** * The contracts together: an example run

    Tokens are created, the system is initialised, a producer registers, alice stakes and
    votes, rewards come in and are claimed, alice is outbid on a name, and part of her stake
    is withdrawn; the theorems of [ChainProps.v], [ChainDepth.v], [ChainMoney.v] and
    [ChainBlocks.v] applied to it. *)
From S2P Require Import Prelude Table Cdt CdtRef SystemData Wire WireRef.
From S2P Require Import Finalizer Voting VotingProps.
From S2P Require Token Reward RewardProps.
From S2P Require Import Admin System SystemInv SystemEx VoteBook Chain ChainSteps ChainProps ChainDepth ChainMoney ChainBlocks.
From S2P Require Import TestContracts.
From Stdlib Require Import ZArith Lia String.
From stdpp Require Import base tactics numbers list gmap.
Open Scope Z_scope.

Definition chain_ctx (m : msg) (now : time_point) : ctx := {|
  get_self := account_of m;
  get_first_receiver := account_of m;
  has_auth := fun n => negb (n =? vote_account) && negb (n =? names_account) && negb (n =? reward_account) &&
    match m with ToReward _ => negb (n =? system_account) | _ => true end;
  has_permission := fun _ => true;
  is_account := fun n => negb (n =? premium);
  current_time_point := now;
  get_resource_limits := fun _ => (5, false);
  accepts_producers := fun _ => true;
  indeterminate_i64 := 0;
|}.
(** The accounts of [rejecting] run [reject_all], which is notified of a transfer with its data. *)
Definition host_with (rejecting : list name) : host :=
  Host ex_parameters (fun l _ => (0, name_size * Z.of_nat (length l)))
    (fun n from dest q memo => bool_decide (n ∉ rejecting) ||
      is_ok (reject_all (chain_ctx (ToSystem (Voterefund n)) 0) n token_account (name_lit "transfer")
        (pack (wire_name ⊗ wire_name ⊗ wire_asset ⊗ wire_string) (from, dest, q, memo)))).
Definition chain_host : host := host_with [carol].
(** With [max_inline_action_depth] 4, an action's inline actions go 4 deep. *)
Definition chain_tx (p : Z * msg) : tx := Tx chain_host (chain_ctx p.2 (sec p.1)) 5 p.2.

Definition chain_msgs : list (Z * msg) :=
  [(0, ToToken (Token.op_create flon (tokens 1000000)));
   (0, ToToken (Token.op_issue flon (tokens 100000) ""));
   (0, ToToken (Token.op_transfer flon alice (tokens 1000) ""));
   (0, ToToken (Token.op_transfer flon prod1 (tokens 1000) ""));
   (1, ToSystem (Init 0 ref_symbol));
   (2, ToSystem (Cfgelection (sec 10) (sec 10) (tokens 100)));
   (3, ToSystem (Regproducer prod1 [1] "p1" 1 None));
   (4, ToSystem (Addvote alice (tokens 100)));
   (5, ToSystem (Voteproducer alice [prod1]));
   (6, ToSystem (Addvote alice (tokens 20)));
   (7, ToToken (Token.op_transfer prod1 reward_account (tokens 360) "rewards"));
   (8, ToReward (RewardProps.op_claimrewards alice));
   (9, ToSystem (Bidname alice premium (tokens 50)));
   (10, ToSystem (Bidname prod1 premium (tokens 60)));
   (11, ToToken (Token.op_transfer prod1 reward_account (tokens 36) "rewards"));
   (12, ToSystem (Subvote alice (tokens 40)))].
Definition chain_txs : list tx := chain_tx <$> chain_msgs.

Definition chain_state : chain :=
  match run chain_txs init_chain with Ok ch => ch | Err _ => init_chain end.

Lemma chain_run_ok : run chain_txs init_chain = Ok chain_state.
Proof. vm_compute. reflexivity. Qed.

Lemma chain_host_ok : host_ok chain_host.
Proof. intros l m. simpl. unfold disjoint_at. left. lia. Qed.

Lemma chain_tx_ok p : msg_typed p.2 -> tx_ok (chain_tx p).
Proof.
  intros Ht. split; try done; try apply chain_host_ok.
  - simpl. intros a Ha. unfold holders in Ha. rewrite !elem_of_cons, elem_of_nil in Ha.
    destruct Ha as [->|[->|[->|[]]]]; rewrite Z.eqb_refl; simpl; by rewrite ?andb_false_r.
  - simpl. by destruct (p.2) as [[]|o|o].
Qed.

Lemma chain_txs_ok : txs_ok chain_txs.
Proof.
  split; [|vm_compute; reflexivity].
  repeat (apply Forall_cons; split; [apply chain_tx_ok; simpl; unfold_ints; lia || done|]).
  apply Forall_nil. done.
Qed.

Lemma ex_chain_reachable : chain_reachable chain_state.
Proof. exists chain_txs. split; [apply chain_txs_ok|apply chain_run_ok]. Qed.

(** 80 votes on both sides, as many for the producer, 40 on their way back *)
Lemma votes_agree_witness :
  chain_reachable chain_state /\
  system_book (voting (sys chain_state)) = reward_book (reward chain_state) /\
  entry (reward_book (reward chain_state)) alice = (80, [prod1]) /\
  (total_votes <$> producers (voting (sys chain_state)) !! prod1) = Some 80.
Proof.
  split_and!; [exact ex_chain_reachable| | |]; [|vm_compute; reflexivity..].
  exact (proj1 (votes_agree ref_disengaged _ ex_chain_reachable)).
Defined.

Definition chain_global : eosio_global_state := stored (sys chain_state).

(** 80 staked and 40 on their way back; 60 bid and 50 to pay back; 36 to claim *)
Lemma purses_covered_witness :
  global (sys chain_state) = Some chain_global /\ amount (total_vote_stake chain_global) = 80 /\
  refunds_sum (vote_refunds (voting (sys chain_state))) = 40 /\
  NameBid.owed (names (sys chain_state)) = 110 /\
  NameBid.owed (names (sys chain_state)) <= Token.balance_of (token chain_state) names_account
    (symbol_code (asset_symbol (total_vote_stake chain_global))).
Proof.
  assert (Hg : global (sys chain_state) = Some chain_global) by (vm_compute; reflexivity).
  split_and!; [exact Hg|vm_compute; reflexivity..|].
  exact (proj1 (proj2 (purses_covered ref_disengaged chain_state chain_global ex_chain_reachable Hg))).
Defined.

(** The refund is paid; were alice's contract to reject it, it would wait. *)
Definition voterefund_ctx : ctx := chain_ctx (ToSystem (Voterefund alice)) (sec (12 + refund_delay_sec)).
Lemma refund_paid_witness :
  vote_refunds (voting (sys chain_state)) !! (alice, alice) =
    Some (VoteRefund alice (sec_of_time_point (sec 12)) (tokens 40)) /\
  (exists ch', process 2 chain_host voterefund_ctx (ToSystem (Voterefund alice)) chain_state = Ok ch' /\
    vote_refunds (voting (sys ch')) = delete (alice, alice) (vote_refunds (voting (sys chain_state))) /\
    token ch' = Token.transfer_post (token chain_state) vote_account alice (tokens 40) /\
    reward ch' = reward chain_state) /\
  is_ok (process 2 (host_with [alice]) voterefund_ctx (ToSystem (Voterefund alice)) chain_state) = false.
Proof.
  assert (Hr : vote_refunds (voting (sys chain_state)) !! (alice, alice) =
    Some (VoteRefund alice (sec_of_time_point (sec 12)) (tokens 40))) by (vm_compute; reflexivity).
  pose proof (fun h => refund_paid ref_disengaged chain_state alice _ 0 h voterefund_ctx ex_chain_reachable Hr
    ltac:(vm_compute; discriminate) eq_refl ltac:(vm_compute; discriminate)
    ltac:(vm_compute; discriminate)) as H.
  split; [exact Hr|]. split; [|exact (H (host_with [alice]))].
  exact (H chain_host).
Defined.

Definition bidrefund_ctx : ctx := chain_ctx (ToSystem (Bidrefund alice premium)) (sec 13).
Lemma bid_refund_paid_witness :
  NameBid.bid_refunds (names (sys chain_state)) !! (premium, alice) = Some (BidRefund alice (tokens 50)) /\
  (exists ch', process 2 chain_host bidrefund_ctx (ToSystem (Bidrefund alice premium)) chain_state = Ok ch' /\
    NameBid.bid_refunds (names (sys ch')) = delete (premium, alice) (NameBid.bid_refunds (names (sys chain_state))) /\
    token ch' = Token.transfer_post (token chain_state) names_account alice (tokens 50) /\
    reward ch' = reward chain_state) /\
  is_ok (process 2 (host_with [alice]) bidrefund_ctx (ToSystem (Bidrefund alice premium)) chain_state) = false.
Proof.
  assert (Hr : NameBid.bid_refunds (names (sys chain_state)) !! (premium, alice) =
    Some (BidRefund alice (tokens 50))) by (vm_compute; reflexivity).
  pose proof (fun h => bid_refund_paid ref_disengaged chain_state alice premium _ 0 h bidrefund_ctx
    ex_chain_reachable Hr ltac:(vm_compute; discriminate) eq_refl ltac:(vm_compute; discriminate)
    ltac:(vm_compute; discriminate)) as H.
  split; [exact Hr|]. split; [|exact (H (host_with [alice]))].
  exact (H chain_host).
Defined.

Definition chain_voter : Reward.voter :=
  RewardInv.voter_at ref_symbol (Reward.voters (reward chain_state)) alice.
Definition claim_ctx : ctx := chain_ctx (ToReward (RewardProps.op_claimrewards alice)) (sec 13).

Lemma claim_paid_witness :
  RewardProps.due (Reward.core_symbol (reward chain_state))
    (Reward.producers (reward chain_state)) chain_voter = 36 /\
  (exists ch', process 2 chain_host claim_ctx (ToReward (RewardProps.op_claimrewards alice)) chain_state = Ok ch' /\
    sys ch' = sys chain_state /\
    reward ch' = RewardProps.claim_post claim_ctx (reward chain_state) alice chain_voter /\
    token ch' = Token.transfer_post (token chain_state) reward_account alice
      (Asset (RewardProps.due (Reward.core_symbol (reward chain_state))
        (Reward.producers (reward chain_state)) chain_voter) (Reward.core_symbol (reward chain_state)))) /\
  is_ok (process 2 (host_with [alice]) claim_ctx (ToReward (RewardProps.op_claimrewards alice)) chain_state) = false.
Proof.
  assert (Hv : Reward.voters (reward chain_state) !! alice = Some chain_voter) by (vm_compute; reflexivity).
  pose proof (fun h => claim_paid ref_disengaged chain_state alice _ 0 h claim_ctx ex_chain_reachable Hv
    ltac:(vm_compute; reflexivity) eq_refl eq_refl eq_refl ltac:(vm_compute; discriminate)) as H.
  split; [vm_compute; reflexivity|]. split; [|exact (H (host_with [alice]))].
  exact (H chain_host).
Defined.

(** Another vote, with the least bound and with ten levels *)
Lemma depth_two_witness :
  tx_ok (chain_tx (13, ToSystem (Addvote alice (tokens 20)))) /\
  process 10 chain_host (chain_ctx (ToSystem (Addvote alice (tokens 20))) (sec 13))
    (ToSystem (Addvote alice (tokens 20))) chain_state =
  process 2 chain_host (chain_ctx (ToSystem (Addvote alice (tokens 20))) (sec 13))
    (ToSystem (Addvote alice (tokens 20))) chain_state.
Proof.
  assert (Hok : tx_ok (chain_tx (13, ToSystem (Addvote alice (tokens 20)))))
    by (apply chain_tx_ok; simpl; unfold_ints; lia).
  split; [exact Hok|].
  exact (depth_two ref_disengaged chain_state _ 10 ex_chain_reachable Hok ltac:(lia)).
Defined.

(** A block two days later pays the highest bid to flon.fees. *)
Definition chain_block : msg := ToSystem (Onblock (slot (30 + 2 * day)) prod1 [0; 0; 0; 7]).

Lemma onblock_runs_witness :
  exists ch', process 2 chain_host (chain_ctx chain_block (sec (30 + 2 * day))) chain_block chain_state = Ok ch' /\
    Token.balance_of (token ch') fees_account (symbol_code ref_symbol) =
      60 + Token.balance_of (token chain_state) fees_account (symbol_code ref_symbol).
Proof.
  assert (Hhalf : forall g, global (sys chain_state) = Some g -> reward_started_time g <> 0 ->
    time_point_of_slot (slot (30 + 2 * day)) <
      reward_started_time g + 64 * (5 * 365 * 24 * 3600 * 1000000)).
  { intros g Hg _. assert (Hs : reward_started_time chain_global = sec 10) by (vm_compute; reflexivity).
    unfold chain_global, stored in Hs. rewrite Hg in Hs. simpl in Hs. rewrite Hs. vm_compute. reflexivity. }
  assert (Hpaid : match process 2 chain_host (chain_ctx chain_block (sec (30 + 2 * day))) chain_block chain_state with
    | Ok ch' => Token.balance_of (token ch') fees_account (symbol_code ref_symbol) =
        60 + Token.balance_of (token chain_state) fees_account (symbol_code ref_symbol)
    | Err _ => True end) by (vm_compute; reflexivity).
  assert (Hnew : blocks (sys chain_state) !! u32 (BlockInfo.block_height_from_id [0; 0; 0; 7] + 1) = None)
    by (vm_compute; reflexivity).
  assert (Hn : Z.of_nat (String.length (name_to_string names_account)) <= 13) by (vm_compute; discriminate).
  assert (Hf : Z.of_nat (String.length (name_to_string fees_account)) <= 13) by (vm_compute; discriminate).
  destruct (onblock_runs ref_disengaged chain_state (slot (30 + 2 * day)) prod1 [0; 0; 0; 7] 0 chain_host
    (chain_ctx chain_block (sec (30 + 2 * day))) ex_chain_reachable eq_refl eq_refl eq_refl Hn Hf Hnew Hhalf)
    as (ch' & E & _).
  exists ch'. change (ToSystem _) with chain_block in E. rewrite E in Hpaid. exact (conj E Hpaid).
Defined.
