(* ===== verification/BytesEx.v ===== *)
(** * The contracts on bytes: an example run

    The reference instances satisfy what [Bytes.v] asks of the toolkit's types; the run of
    [ChainEx.v] is done on bytes, and so is a transaction with data that is no action's. *)
From S2P Require Import Prelude Table Cdt CdtRef SystemData Wire WireRef Abi.
From S2P Require Import Finalizer Voting VotingProps Rows Actions.
From S2P Require Token TokenCopy Reward RewardProps.
From S2P Require Import Admin System SystemInv SystemEx Chain ChainProps ChainEx.
From S2P Require Import SystemTyped TokenTyped RewardTyped Bytes.
From Stdlib Require Import ZArith Lia String Ascii.
From stdpp Require Import base tactics numbers list gmap strings.
Open Scope Z_scope.

#[export] Instance ref_types : CdtTypes.
Proof.
  split.
  - done.
  - repeat (apply Forall_cons; split; [split; vm_compute; congruence|]). by apply Forall_nil.
  - intros n. change (Z.of_nat (String.length (ref_to_string 13 n)) <= Z.of_nat 13).
    apply inj_le. generalize 13%nat. intros k. revert n. induction k as [|k IH]; intros n; simpl; [lia|].
    destruct (_ =? 0); simpl; [lia|]. specialize (IH (n * 32 mod 2 ^ 64)). lia.
  - intros s Hs. simpl. unfold is_uint in *. rewrite Z.shiftr_div_pow2 by lia.
    pose proof (Z.div_pos s (2 ^ 8) ltac:(lia) ltac:(lia)).
    pose proof (Z.div_le_upper_bound s (2 ^ 8) s ltac:(lia) ltac:(lia)). lia.
  - intros k b Hk [= <-]. split.
    + clear Hk. induction k as [|a k IH]; [constructor|]. constructor; [|exact IH].
      unfold is_uint. pose proof (nat_ascii_bounded a). lia.
    + assert (length (string_bytes k) = String.length k) as -> by (clear; induction k; simpl; congruence).
      exact Hk.
Qed.

(** ** The run *)

Definition raw_of (p : Z * msg) : raw_tx :=
  let '(action, data) := default ("", []) (write_msg p.2) in
  RawTx chain_host (chain_ctx p.2 (sec p.1)) 5 (account_of p.2) action data.
Definition raw_txs : list raw_tx := raw_of <$> chain_msgs.

Lemma raw_run_ok : run_raw raw_txs (store_chain init_chain) = Ok (store_chain chain_state).
Proof. vm_compute. reflexivity. Qed.

(** A transfer whose data ends too early *)
Definition short_tx : raw_tx :=
  RawTx chain_host (chain_ctx (ToToken (Token.op_transfer 1 2 (tokens 1) "")) (sec 20)) 5 token_account
    "transfer" [1; 2; 3].
Lemma short_fails :
  run_raw [short_tx] (store_chain chain_state) = Err "datastream attempted to read past the end".
Proof. vm_compute. reflexivity. Qed.

Lemma ex_host_fits m t : 0 <= t <= 1000 -> host_fits chain_host (chain_ctx m (sec t)).
Proof.
  intros Ht. split; simpl.
  - repeat (constructor; [split; vm_compute; congruence|]). constructor.
  - unfold sec, t0. unfold_ints. lia.
  - unfold sec, t0, is_uint. Z.to_euclidean_division_equations. lia.
  - unfold sec, t0, is_uint. Z.to_euclidean_division_equations. lia.
  - by unfold is_i64; unfold_ints.
Qed.

Lemma raw_of_ok p : 0 <= p.1 <= 1000 -> msg_typed p.2 -> raw_tx_ok (raw_of p).
Proof.
  intros Ht Hm. destruct (chain_tx_ok p Hm) as [H1 H2 H3 H4 H5 H6 H7]. unfold raw_of.
  destruct (default _ _) as [action data]. split; cbn [rx_ctx rx_account rx_host]; try done.
  - intros E. destruct p as [t [o|o|o]]; [exfalso; revert E; vm_compute; congruence..|exact H7].
  - by apply ex_host_fits.
Qed.

Lemma raw_txs_ok : Forall raw_tx_ok raw_txs.
Proof.
  unfold raw_txs. apply Forall_fmap.
  repeat (apply Forall_cons; split; [apply raw_of_ok; [simpl; lia|simpl; unfold_ints; lia || done]|]).
  apply Forall_nil. done.
Qed.

(** The rows hold alice's stake, and are those of the state [ChainEx.v] reaches. *)
Lemma bytes_refine_witness :
  run_raw raw_txs (store_chain init_chain) = Ok (store_chain chain_state) /\
  chain_reachable (load_chain (store_chain chain_state)) /\
  load_row voter_info_wire <$> (b_voters (sys_rows (store_chain chain_state)) !! alice) =
    Some (Some (VoterInfo alice [prod1] 80 (slot 12) 0)).
Proof.
  split; [exact raw_run_ok|]. split; [|vm_compute; reflexivity].
  refine (proj1 (proj2 (bytes_refine ref_disengaged raw_txs (store_chain chain_state) raw_txs_ok _) raw_run_ok)).
  vm_compute. reflexivity.
Defined.

Lemma chain_txs_typed : Forall tx_typed chain_txs.
Proof.
  unfold chain_txs. apply Forall_fmap.
  repeat (apply Forall_cons; split; [split; [|reflexivity|apply ex_host_fits; simpl; lia]|]);
    [..|apply Forall_nil; done].
  all: simpl; repeat match goal with
    | |- _ /\ _ => split | |- Forall _ _ => constructor | |- True => exact I
    | |- is_uint _ _ => split | |- is_i64 _ => split | |- asset_fits _ => split | |- is_bytes _ => split
    | |- _ => vm_compute; congruence end.
Qed.

Lemma rows_typed_witness :
  run chain_txs init_chain = Ok chain_state /\
  chain_typed chain_state /\ load_chain (store_chain chain_state) = chain_state.
Proof.
  split; [exact chain_run_ok|]. exact (rows_typed ref_disengaged chain_txs chain_state chain_txs_typed chain_run_ok).
Defined.
